(* ===== verification/_CoqProject ===== *)
-Q . S2P
Prelude.v
Models.v
JobStore.v
JobFacts.v
JobSystem.v
JobSpec.v
Breaker.v
JobProps.v
Retry.v
Service.v
Calendar.v
GoStrings.v
GoText.v
GoDuration.v
GoJson.v
JsonText.v
JsonGrammar.v
JsonObject.v
GoTime.v
JsonStruct.v
JsonFields.v
JobJson.v
Config.v
Pool.v
Transport.v
Redlock.v
Advisory.v
Webhook.v
Etl.v
Migrate.v
Cron.v
ScheduleStore.v
Scheduler.v
Reconciler.v
Loops.v
Pages.v
Keys.v
Auth.v
Api.v
LongPoll.v
ScheduleApi.v
ApiJson.v
Http.v
Worker.v
Execution.v
Metrics.v
Server.v
Boot.v
Shutdown.v
