(* ===== verification/Prelude.v ===== *)
(** * Conduit: a durable job queue

    Conduit (cmd/server, internal/, pkg/models; Go over PostgreSQL) is a job
    queue whose only source of truth is one [jobs] table.  Producers enqueue
    jobs over HTTP or through cron schedules; workers, in the process or
    remote, claim a job under a lease token, keep the lease alive while they
    work, and report the outcome with that token; a reconciler returns jobs
    whose lease expired, feeds the worker pool and prunes history.  Any number
    of replicas run all of this against the same table.  This development
    models that program and proves what makes it correct.

    ** How the program is modelled

    Go values are Rocq values of the same shape: structs are records, error
    values are the trees of [error] below searched by [errors_Is], nil maps and
    pointers are [option], [int64] arithmetic wraps where the code can overflow
    ([wrap64], [mulDur]), [float64] is the binary64 of SpecFloat, a [time.Time]
    is a count of nanoseconds from Go's zero time.  A table is a finite map
    from primary key to row.

    A store method is a function of the environment of its round trips, its Go
    arguments and the table.  One SQL statement is atomic.  Everything the code
    does not control about a statement is in [Env] (Models.v): what other
    sessions commit before it ([intf]), whether the driver fails before or
    after it took effect ([fault]), the clocks of the process and of the
    server, the order in which rows are visited and which of them are locked
    ([scan]), and the random bytes drawn.  Theorems quantify over all of these;
    where one needs the other sessions to behave, it says so with [keeps P env]
    (they preserve [P]) or [quiet env] (nothing happens and nothing fails).
    Concurrency is therefore in the model: a list of calls with environments is
    one session among arbitrary others.

    ** Files

    - Prelude.v: errors, results, machine integers, time, fuelled loops with a
      total-correctness rule, the tactics [case_goal], [case_in], [zbool].
    - Models.v: pkg/models and the columns of [jobs]; [Env], [run_stmt].
    - JobStore.v: internal/store/store.go, every method of PostgresStore but
      ListJobs.  JobFacts.v: the moves a row can make ([row_step], indexed by
      the [actor] on whose authority it moves), the table invariant
      [table_ok], and that each statement is such a move.  JobSystem.v: a call
      as a value ([Op], [exec]), runs and traces of calls, and the rule that a
      predicate kept by every move is kept by every run.  JobSpec.v: the
      abstract lease queue and the refinement theorem.  JobProps.v: fencing,
      finality, tenant isolation, what claims, the reaper and retention select,
      create and read, uniqueness of idempotency keys.
    - Pages.v: ListJobs and its cursors (base64 included).
    - Retry.v: internal/retry/backoff.go.  Breaker.v:
      internal/circuitbreaker.
    - Service.v: internal/service/job_service.go, against the class [JobStore];
      [JobStoreLaws] states what the service relies on and [PostgresLaws]
      discharges it.
    - Calendar.v, GoStrings.v, GoText.v, GoDuration.v and GoJson.v: the parts of
      packages time, strings, strconv, unicode/utf8 and encoding/json the
      program uses, with their laws; GoJson.v also holds the codecs of Duration
      and Payload of pkg/models.
    - JsonText.v and JsonGrammar.v: the JSON parser against a grammar of JSON
      texts, and that compaction keeps values.  JsonObject.v: objects by their
      raw members.  GoTime.v: RFC 3339 times.  JsonStruct.v and JsonFields.v:
      structs as tables of tagged fields, with one round trip for all tables.
      JobJson.v: the tables of Task, Job and Schedule of pkg/models.
    - Cron.v: Parse, Next and
      nextAfter of internal/scheduler/scheduler.go.  ScheduleStore.v:
      internal/store/schedules.go.  Scheduler.v: the firing loop, against the
      classes [Enqueuer] and [ScheduleStore].
    - Reconciler.v: internal/reconciler/reconciler.go, a pass and the wake
      slot.  Loops.v: Start and Stop of the reconciler and the scheduler, step
      by step: the critical section of Start, its wg.Add and its go statement
      are three.
    - Config.v: internal/config and the configuration structs of pkg/models.
      Pool.v: internal/worker/pool.go as a transition system.  Transport.v:
      internal/queue (waker, listener, Kafka client).  LongPoll.v (after Api.v): the
      claim requests that wait on the waker, with a clock.  Redlock.v and
      Advisory.v: internal/lock, against the class [Redis] and over a server
      with sessions that die.
    - Webhook.v: internal/webhook/executor.go, against the class [Net] (URL
      parsing, resolver, HTTP transport), with the JSON it sends.  Etl.v: internal/etl/executor.go,
      against the class [Pgx] (identifier quoting).
    - Migrate.v: internal/store/migrate.go, against the class [SqlExec].
    - Keys.v: internal/store/keys.go with SHA-256.  Auth.v: internal/api
      auth.go, errors.go and the request-id middleware, against the class
      [KeyLookup] and its laws.
    - Api.v: internal/api handler.go and worker.go; [handle] routes a request,
      [serve] puts authentication in front; the select of the long poll is a
      choice by the delays of its arms.  ScheduleApi.v: schedules.go.
      ApiJson.v: the text of every request and response body.  Http.v: the
      route table of internal/api and cmd/server/main.go; [serve_http] goes
      from method, path and text to status and text.
    - Worker.v: jobWorker.Run, its breakers and lease renewal, and the Kafka
      handler, of cmd/server/main.go.  Execution.v: the handler table of
      defaultHandlers behind it.  Metrics.v: internal/metrics, against the
      class [Prometheus], and the middleware chain of internal/api.  Server.v:
      the commands, the keys command and the readiness probe of
      cmd/server/main.go.  Boot.v: internal/logger, and bootstrap,
      runMigrations and run of cmd/server/main.go, with their defers, over the
      answers of the outside.  Shutdown.v: the end of run, interleaved with the
      loops of Loops.v, the pool of Pool.v and the Kafka handlers.

    ** What the theorems show

    The store (JobSystem, JobSpec, JobProps): under any interleaving of calls,
    faults and clock skew the table stays well formed, and it implements a
    lease queue in which a job waits, runs under exactly one token, or is over;
    a token that is not the lease changes nothing, a lost lease never comes
    back, terminal rows stay, tenants do not meet, two claims never take the
    same job, a claim takes the best eligible row, the reaper and retention
    take exactly what they should.

    The service and the worker (Service, Worker): enqueueing under a key always
    answers the one holder of the key and is idempotent; a failure applies the
    retry policy in one write; running a job touches only its row and records
    the handler's outcome (Execution: what the webhook's target or the database
    answered); replaying a message of a taken job does nothing.

    Schedules (Cron, ScheduleStore, Scheduler, ScheduleApi): a parsed field
    selects what it denotes, Next is the earliest match, missed occurrences are
    skipped, of the replicas firing one instant one wins and one job results,
    and an accepted schedule can fire.

    The API (Keys, Auth, Api, Pages): keys act until revoked and never after,
    authentication lets nobody in unearned even when lookups fail, a request is
    confined to its tenant or to the lease it presents, reports are fenced by
    status code, a long poll ends on time and shows the lease the table holds,
    pages list everything once.  On the wire
    (ApiJson, Http): what is posted as JSON is what is stored, unless another job
    holds its key, and what a later GET answers, to its tenant alone; without a key no request has an effect,
    whatever its path; every answer is JSON; unknown fields are refused.

    The wire (JsonText to JobJson, Transport, Worker): the parser accepts
    exactly the grammar's documents; a job survives the queue but for its token,
    and the message published is the job offered to the pool, marked exactly if
    it was taken or is not this instance's.

    The pool, the locks and the wake-ups (Pool, Redlock, Advisory, LongPoll,
    Loops): no accepted job is lost or started twice and the bounds hold, a
    closed queue drains, both locks exclude under the faults they are built
    for, no waiter sleeps through a job whose notification arrives, nor longer than
    two seconds through any other, and at most one goroutine of a loop is
    alive.

    The executors (Webhook, Etl): the address filter is exactly its table, every
    request goes to a vetted URL, outcomes are classified; the SQL scanner
    computes its reference, an accepted query has no forbidden word where the
    scanner looks, and the statement has the promised shape.

    Start-up and operation (Config, GoJson, Migrate, Metrics, Server): what
    Validate accepts, that every setting is read from its own variable and that
    malformed ones fall back; migrations are applied once, in order and
    atomically by whichever instances race; task labels are bounded; readiness
    answers are fresh; a key works from the command line to a request and back.

    The process (Boot, Shutdown): however run ends, what it opened is closed, but
    for a socket whose server never took it over, and its loops are stopped; it opens only what the configuration names; with the
    Postgres transport no interleaving makes it panic on its way out.

    Bounds (Retry, Reconciler, Breaker): delays below 2^53 stay within the cap in
    float64, a pass does bounded work and submits exactly what is due, a breaker trips exactly at
    its threshold and can recover.

    Some theorems state what the code does where that is not what it means to
    do: [Breaker.server_breaker_wedges], [Cron.leap_day_schedule_dies],
    [Scheduler.stuck_schedules_starve_the_rest],
    [Reconciler.refused_claim_keeps_its_lease],
    [Worker.replay_resets_attempts], [Api.huge_wait_is_no_wait],
    [Pool.cancellation_abandons_queue], [Pool.accepted_config_builds_pool],
    [Webhook.resolver_failure_is_permanent], [Metrics.request_series_unbounded],
    [Server.cancelled_probe_is_served], [Boot.taken_port_leaves_pool],
    [Boot.certificate_leaves_socket], [Retry.delay_out_of_range],
    [Shutdown.shutdown_kafka_panics]; so do parts of
    [Webhook.addr_filter_exact], [Etl.extract_filter], [Loops.one_live_loop],
    [Boot.run_releases], [Service.fail_applies_policy] and
    [Server.key_from_command_line].

    ** Fuel

    Next runs on [next_fuel] steps: every step advances at least one minute
    inside a window of 4*365 days, which has 2102400 of them; nextAfter on one
    step per minute between its two arguments and a few more.  Both are shown
    to end within that fuel ([next_is_earliest], [next_after_now]).  A claim
    request follows as many rounds as it is given; [claim_is_answered] shows that one
    more than there are wake-ups and firings of its timer is enough.  The reconciler's loops recurse
    on the batch size and on [maxSweepBatches].  Printing and parsing of
    integers use the number of digits of an int64; the loops over runes, JSON
    values and the terms of a duration use the length of their input, each step
    consuming at least one byte; the redirects of a webhook use maxRedirects.

    ** What is not modelled

    What a log line looks like, the text of a Prometheus scrape, and what gin
    answers where no route matches (404, or a redirect for a trailing slash).
    Drivers, brokers, resolvers and HTTP are seen through interfaces or by their
    answers; a path reaches the router as its decoded segments.  The worker sees
    a lock by its answer.  In the transition system of the waiters time passes
    only while no request can move, so how long a goroutine waits to be scheduled
    is not counted.  Next is modelled for UTC, which is what every caller passes; a
    job state that is none of the constants reads as the unset one; the
    program writes no other into the table or a message.
    The handlers of Api.v take the body as it was bound and answer a value;
    ApiJson.v and Http.v put the text on both sides.  In Shutdown.v the HTTP
    requests still in flight do not submit to the pool and are left out.  Error
    messages formatted with quoting verbs or by the JSON library are abbreviated,
    and the alignment of the keys listing is the tabwriter's.

    Next along the plan: the locks behind the worker's Run, and the readiness
    probe behind the router, as compositions instead of by their answers. *)

From stdpp Require Export prelude gmap strings list sorting.
From Stdlib Require Export ZArith Lia.
From Stdlib Require Ascii.

Abbreviation ascii := Ascii.ascii.
Abbreviation ascii_of_N := Ascii.ascii_of_N.
Abbreviation N_of_ascii := Ascii.N_of_ascii.

#[global] Open Scope Z_scope.
#[global] Set Default Goal Selector "!".

(** ** Proof automation of the development *)

Create HintDb conduit.

(** Destruct the scrutinee of some [match] or [if] of the goal. *)
Ltac case_goal :=
  match goal with
  | |- context [match ?x with _ => _ end] => destruct x eqn:?
  end.

(** Destruct the scrutinee of some [match] or [if] of hypothesis [H]. *)
Ltac case_in H :=
  match type of H with
  | context [match ?x with _ => _ end] => destruct x eqn:?
  end.

(** Turn boolean comparisons on [Z] into propositions. *)
Ltac zbool :=
  repeat match goal with
  | H : (_ <=? _) = true |- _ => apply Z.leb_le in H
  | H : (_ <=? _) = false |- _ => apply Z.leb_gt in H
  | H : (_ <? _) = true |- _ => apply Z.ltb_lt in H
  | H : (_ <? _) = false |- _ => apply Z.ltb_ge in H
  | H : (_ =? _) = true |- _ => apply Z.eqb_eq in H
  | H : (_ =? _) = false |- _ => apply Z.eqb_neq in H
  | H : andb _ _ = true |- _ => apply andb_true_iff in H as [? ?]
  | H : orb _ _ = false |- _ => apply orb_false_iff in H as [? ?]
  | H : negb _ = true |- _ => apply negb_true_iff in H
  | H : negb _ = false |- _ => apply negb_false_iff in H
  | H : bool_decide _ = true |- _ => apply bool_decide_eq_true in H
  | H : bool_decide _ = false |- _ => apply bool_decide_eq_false in H
  end.

(** ** Errors as Go values

    A Go error is a tree: sentinels compared by identity, driver errors with a
    SQLSTATE, texts made by [fmt.Errorf] without [%w], and wrappers made by
    [fmt.Errorf("...%w", err)].  [errors.Is] searches the tree. *)

Inductive sentinel :=
  | ErrJobNotFound | ErrInvalidTransition | ErrDuplicateIdempotencyKey | ErrLeaseLost
  | ErrScheduleNotFound | ErrDuplicateSchedule
  | ErrKeyNotFound | ErrInvalidTenant
  | ErrNoRetry
  | ErrNoRows            (* pgx.ErrNoRows *)
  | ErrCanceled.         (* context.Canceled *)

#[global] Instance sentinel_eq_dec : EqDecision sentinel.
Proof. solve_decision. Defined.

Inductive error :=
  | Sentinel (s : sentinel)
  | PgError (code constraint : string)
  | ErrText (msg : string)
  | Wrapf (msg : string) (inner : error)
  | Wrapf2 (msg : string) (inner1 inner2 : error).

#[global] Instance error_eq_dec : EqDecision error.
Proof. solve_decision. Defined.

Coercion Sentinel : sentinel >-> error.

(** [errors.Is(err, target)] for a sentinel target. *)
Fixpoint errors_Is (e : error) (target : sentinel) : bool :=
  match e with
  | Sentinel s => bool_decide (s = target)
  | PgError _ _ | ErrText _ => false
  | Wrapf _ e1 => errors_Is e1 target
  | Wrapf2 _ e1 e2 => errors_Is e1 target || errors_Is e2 target
  end.

(** [errors.As(err, &pgErr)]: the first driver error of the chain. *)
Fixpoint errors_As_pg (e : error) : option (string * string) :=
  match e with
  | PgError code constraint => Some (code, constraint)
  | Sentinel _ | ErrText _ => None
  | Wrapf _ e1 => errors_As_pg e1
  | Wrapf2 _ e1 e2 =>
      match errors_As_pg e1 with Some x => Some x | None => errors_As_pg e2 end
  end.

(** Fallible results. *)
Inductive result (A : Type) :=
  | Ok (a : A)
  | Error (e : error).
Arguments Ok {A} a.
Arguments Error {A} e.

Definition is_Ok {A} (r : result A) : bool := match r with Ok _ => true | Error _ => false end.

(** ** Machine integers

    Go's [int], [int64] and [time.Duration] are 64-bit two's complement; an
    SQL [INT] column is 32-bit and range-checked. *)

Definition int64_min : Z := - 2 ^ 63.
Definition int64_max : Z := 2 ^ 63 - 1.
Definition wrap64 (z : Z) : Z := (z + 2 ^ 63) mod 2 ^ 64 - 2 ^ 63.
Definition int64_ok (z : Z) : bool := (int64_min <=? z) && (z <=? int64_max).
Definition int4_ok (z : Z) : bool := (- 2 ^ 31 <=? z) && (z <=? 2 ^ 31 - 1).

Lemma wrap64_range z : int64_min <= wrap64 z <= int64_max.
Proof. unfold wrap64, int64_min, int64_max. pose proof (Z.mod_pos_bound (z + 2^63) (2^64)). lia. Qed.

Lemma wrap64_id z : int64_min <= z <= int64_max -> wrap64 z = z.
Proof.
  unfold wrap64, int64_min, int64_max. intros H.
  rewrite Z.mod_small; lia.
Qed.

(** ** Time

    [time.Time] is an instant, counted in nanoseconds from Go's zero time
    (January 1, year 1, 00:00 UTC), so [IsZero] is a comparison with 0 and
    [Truncate] rounds down to a multiple.  [time.Duration] is an int64 count
    of nanoseconds. *)

Definition Time := Z.
Definition Dur := Z.

Definition Nanosecond : Dur := 1.
Definition Microsecond : Dur := 1000.
Definition Millisecond : Dur := 1000000.
Definition Second : Dur := 1000000000.
Definition Minute : Dur := 60 * Second.
Definition Hour : Dur := 60 * Minute.

Definition IsZero (t : Time) : bool := t =? 0.
(** [t.Add(d)]. *)
Definition Add (t : Time) (d : Dur) : Time := t + d.
(** [t.Sub(u)] saturates at the ends of the Duration range. *)
Definition Sub (t u : Time) : Dur := Z.max int64_min (Z.min int64_max (t - u)).
Definition After (t u : Time) : bool := u <? t.
Definition Before (t u : Time) : bool := t <? u.
(** [t.Truncate(d)], for a positive [d]. *)
Definition Truncate (t : Time) (d : Dur) : Time := t - t mod d.
(** A conversion such as [time.Duration(n)*time.Second] multiplies in int64. *)
Definition mulDur (n : Z) (d : Dur) : Dur := wrap64 (n * d).

(** Seconds and microseconds of the Unix epoch. *)
Definition unixEpoch : Time := 62135596800 * Second.
Definition Unix (t : Time) : Z := (t - unixEpoch) / Second.
Definition UnixMicro (t : Time) : Z := (t - unixEpoch) / Microsecond.
Definition ofUnixMicro (us : Z) : Time := unixEpoch + us * Microsecond.
Definition ofUnix (s : Z) : Time := unixEpoch + s * Second.

(** ** Loops

    [loop p step a] runs [step] at most [p] times, stopping at the first
    [inr]; the fuel is binary, so a bound of millions costs nothing until it
    is used. *)

Fixpoint loop {A B : Type} (p : positive) (step : A -> A + B) (a : A) : A + B :=
  match p with
  | xH => step a
  | xO q =>
      match loop q step a with
      | inl a1 => loop q step a1
      | inr b => inr b
      end
  | xI q =>
      match step a with
      | inl a0 =>
          match loop q step a0 with
          | inl a1 => loop q step a1
          | inr b => inr b
          end
      | inr b => inr b
      end
  end.

(** The same loop on unary fuel, for induction. *)
Fixpoint loop_nat {A B : Type} (n : nat) (step : A -> A + B) (a : A) : A + B :=
  match n with
  | O => inl a
  | S n' => match step a with inl a1 => loop_nat n' step a1 | inr b => inr b end
  end.

Lemma loop_nat_add {A B} (step : A -> A + B) n m a :
  loop_nat (n + m) step a =
  match loop_nat n step a with inl a1 => loop_nat m step a1 | inr b => inr b end.
Proof.
  revert a. induction n as [|n IH]; intros a; simpl; [done|].
  destruct (step a); [apply IH|done].
Qed.

Lemma loop_loop_nat {A B} (step : A -> A + B) p a :
  loop p step a = loop_nat (Pos.to_nat p) step a.
Proof.
  revert a. induction p as [p IH|p IH|]; intros a; cbn [loop].
  - rewrite Pos2Nat.inj_xI. replace (S (2 * Pos.to_nat p))%nat
      with (1 + (Pos.to_nat p + Pos.to_nat p))%nat by lia.
    cbn [loop_nat Nat.add]. destruct (step a) as [a0|b]; [|done].
    rewrite loop_nat_add, IH. destruct (loop_nat _ step a0); [apply IH|done].
  - rewrite Pos2Nat.inj_xO. replace (2 * Pos.to_nat p)%nat
      with (Pos.to_nat p + Pos.to_nat p)%nat by lia.
    rewrite loop_nat_add, IH. destruct (loop_nat _ step a); [apply IH|done].
  - change (Pos.to_nat 1) with 1%nat. cbn. by destruct (step a).
Qed.

(** The total-correctness rule: an invariant [I], a variant [m] and a
    postcondition [Q] give a result within any fuel above the variant. *)
Lemma loop_variant {A B} (step : A -> A + B) (I : A -> Prop) (m : A -> Z) (Q : B -> Prop) :
  (forall a, I a ->
     match step a with
     | inl a1 => I a1 /\ 0 <= m a1 < m a
     | inr b => Q b
     end) ->
  forall p a, I a -> m a < Z.pos p ->
  exists b, loop p step a = inr b /\ Q b.
Proof.
  intros Hstep p a Ha Hm. rewrite loop_loop_nat.
  assert (Hn : m a < Z.of_nat (Pos.to_nat p)) by lia.
  assert (Hpos : (0 < Pos.to_nat p)%nat) by lia.
  clear Hm. revert a Ha Hn Hpos. generalize (Pos.to_nat p) as n.
  induction n as [|n IH]; intros a Ha Hn Hpos; [lia|]. cbn.
  specialize (Hstep a Ha) as Hs. destruct (step a) as [a1|b]; [|eauto].
  destruct Hs as [HI Hlt]. apply IH; [done|lia|lia].
Qed.

(** ** Optional values in SQL and Go *)

(** The conjunct of an SQL filter that a NULL or empty parameter disables. *)
Definition str_nonempty (s : string) : bool := negb (bool_decide (s = "")).

Lemma bool_decide_refl {A} `{EqDecision A} (x : A) : bool_decide (x = x) = true.
Proof. by apply bool_decide_eq_true. Qed.
Create Rewrite HintDb conduit_rw.
#[export] Hint Rewrite @bool_decide_refl : conduit_rw.
