(* ===== verification/Models.v ===== *)
(** * pkg/models and the statement layer

    The Go data model (pkg/models/models.go), the columns of the [jobs] and
    [schedules] tables (migrations/), and what one round trip to the database
    looks like from the code's side ([Env], [run_stmt]). *)

From S2P Require Import Prelude.

(** ** Go data *)

(** [JobState] is a string type with five constants; [JobStateUnset] is its
    zero value [""], which Enqueue tests for. *)
Inductive JobState :=
  | JobStatePending | JobStateRunning | JobStateCompleted | JobStateFailed | JobStateDead
  | JobStateUnset.

#[global] Instance JobState_eq_dec : EqDecision JobState.
Proof. solve_decision. Defined.

Definition JobState_string (s : JobState) : string :=
  match s with
  | JobStatePending => "PENDING" | JobStateRunning => "RUNNING"
  | JobStateCompleted => "COMPLETED" | JobStateFailed => "FAILED"
  | JobStateDead => "DEAD" | JobStateUnset => ""
  end.

(** A Go [map[string]string]: nil or a finite map. *)
Abbreviation StrMap := (option (gmap string string)).

(** A Go [[]byte] payload: nil or the bytes. *)
Abbreviation Payload := (option string).

Record Task := mkTask {
  Task_ID : string;
  Task_Name : string;
  Task_Payload : Payload;
  Task_RetryCount : Z;
  Task_MaxRetries : Z;
  Task_Timeout : Dur;
  Task_CronExpression : string;
  Task_Queue : string;
  Task_Metadata : StrMap;
  Task_Priority : Z
}.

Definition DefaultQueue : string := "default".
Definition DefaultTenant : string := "default".

Record Job := mkJob {
  Job_ID : string;
  Job_TenantID : string;
  Job_IdempotencyKey : string;
  Job_Task : Task;
  Job_State : JobState;
  Job_Attempt : Z;
  Job_ScheduledAt : option Time;
  Job_StartedAt : option Time;
  Job_LeaseExpiresAt : option Time;
  Job_LeaseToken : string;
  Job_CompletedAt : option Time;
  Job_LastError : string;
  Job_Metadata : StrMap;
  Job_CreatedAt : Time;
  Job_UpdatedAt : Time
}.

Record Schedule := mkSchedule {
  Schedule_ID : string;
  Schedule_TenantID : string;
  Schedule_Name : string;
  Schedule_Cron : string;
  Schedule_Task : Task;
  Schedule_Enabled : bool;
  Schedule_NextRunAt : Time;
  Schedule_LastRunAt : option Time;
  Schedule_LastJobID : string;
  Schedule_CreatedAt : Time;
  Schedule_UpdatedAt : Time
}.

(** Zero values, as [models.Task{}] and [models.Job{}]. *)
Definition zeroTask : Task := mkTask "" "" None 0 0 0 "" "" None 0.
Definition zeroJob : Job :=
  mkJob "" "" "" zeroTask JobStateUnset 0 None None None "" None "" None 0 0.

(** ** Columns *)

(** A JSONB value as the code distinguishes them: [null], an object, or
    something else (an array, a number, a string).  A member of an object that
    is not a JSON string is [None]. *)
Inductive Jsonb :=
  | JsonNull
  | JsonObject (m : gmap string (option string))
  | JsonOther (text : string).

#[global] Instance Jsonb_eq_dec : EqDecision Jsonb.
Proof. solve_decision. Defined.

(** [json.Marshal] of a [map[string]string]. *)
Definition marshal_map (m : StrMap) : Jsonb :=
  match m with None => JsonNull | Some m => JsonObject (Some <$> m) end.

(** [json.Unmarshal] into a nil [map[string]string].  What is not an object
    leaves the map nil, a member that is not a string reads as the empty one;
    either error costs one log line and nothing else. *)
Definition unmarshal_map (j : option Jsonb) : StrMap :=
  match j with
  | Some (JsonObject m) => Some (default "" <$> m)
  | Some JsonNull | Some (JsonOther _) | None => None
  end.

Lemma unmarshal_marshal m : unmarshal_map (Some (marshal_map m)) = m.
Proof.
  destruct m as [m|]; [|done]. cbn. rewrite <- map_fmap_compose. f_equal. apply map_fmap_id.
Qed.

(** A TIMESTAMPTZ column holds microseconds. *)
Definition pg_ts (t : Time) : Time := t - t mod Microsecond.

Lemma pg_ts_idem t : pg_ts (pg_ts t) = pg_ts t.
Proof. unfold pg_ts, Microsecond. rewrite (Zminus_mod_idemp_r t t 1000), Z.sub_diag, Z.mod_0_l; lia. Qed.

Lemma pg_ts_bounds t : t - Microsecond < pg_ts t <= t.
Proof. unfold pg_ts, Microsecond. pose proof (Z.mod_pos_bound t 1000). lia. Qed.

Lemma pg_ts_mod t : pg_ts t mod Microsecond = 0.
Proof. unfold pg_ts, Microsecond. rewrite Zminus_mod_idemp_r, Z.sub_diag. apply Z.mod_0_l. lia. Qed.

(** One row of the [jobs] table. *)
Record JobRow := mkJobRow {
  id : string;
  idempotency_key : option string;
  task_id : string;
  task_name : string;
  task_payload : option string;
  task_retry_count : Z;
  task_max_retries : Z;
  task_timeout_ns : Z;
  task_cron_expr : string;
  task_queue : string;
  task_metadata : option Jsonb;
  state : JobState;
  attempt : Z;
  last_error : string;
  scheduled_at : option Time;
  started_at : option Time;
  lease_expires_at : option Time;
  lease_token : option string;
  completed_at : option Time;
  created_at : Time;
  updated_at : Time;
  metadata : option Jsonb;
  tenant_id : string;
  task_priority : Z
}.

#[global] Instance JobRow_eq_dec : EqDecision JobRow.
Proof. solve_decision. Defined.

(** The table, by primary key. *)
Abbreviation Jobs := (gmap string JobRow).

(** ** One statement

    The code talks to Postgres one statement at a time, each atomic.  What
    the code cannot control about a round trip is gathered in [Env]:

    - [intf]: what other sessions commit before this statement runs;
    - [fault]: whether the driver reports an error, and if so whether the
      statement took effect before the connection died;
    - [gonow] and [dbnow]: the clock of this process ([time.Now]) and of the
      server ([NOW()]), which need not agree;
    - [scan]: the row ids in the order the executor visits them.  A row that
      another transaction holds locked is skipped by SKIP LOCKED and does not
      occur in [scan]; rows equal in the ORDER BY key come in scan order;
    - [rand]: the bytes [crypto/rand] delivers, or its error. *)

Inductive Fault :=
  | NoFault
  | FaultBefore (e : error)     (* the statement did not run *)
  | FaultAfter (e : error).     (* it committed, the reply was lost *)

Record Env (S : Type) := mkEnv {
  intf : S -> S;
  fault : Fault;
  gonow : Time;
  dbnow : Time;
  scan : list string;
  rand : option (list Z)
}.
Arguments mkEnv {S}.
Arguments intf {S}.
Arguments fault {S}.
Arguments gonow {S}.
Arguments dbnow {S}.
Arguments scan {S}.
Arguments rand {S}.

Definition run_stmt {S A} (env : Env S) (stmt : S -> result A * S) (s : S) : result A * S :=
  let s1 := intf env s in
  match fault env with
  | NoFault => stmt s1
  | FaultBefore e => (Error e, s1)
  | FaultAfter e => (Error e, (stmt s1).2)
  end.

(** A quiet environment: alone, no fault, one clock. *)
Definition calm {S} (now : Time) (ids : list string) (bytes : list Z) : Env S :=
  mkEnv (fun s => s) NoFault now now ids (Some bytes).

(** Nothing happens around a call, and nothing fails. *)
Definition quiet {S} (env : Env S) : Prop := (forall s, intf env s = s) /\ fault env = NoFault.

Lemma calm_quiet {S} now ids bytes : quiet (calm now ids bytes : Env S).
Proof. done. Qed.
