(* ===== verification/JobStore.v ===== *)
(** * internal/store/store.go: the durable state machine of jobs

    Each method of [PostgresStore] is a function of the environment of its
    round trips, its Go arguments and the [jobs] table.  An SQL statement is
    the state transformer it denotes; the Go code around it (guards, early
    returns, the mapping of driver errors to sentinels) is translated line by
    line. *)

From S2P Require Import Prelude Models.

Definition AnyTenant : string := "".

Record ClaimFilter := mkClaimFilter {
  Filter_Tenant : string;
  Filter_Queues : list string;
  Filter_Names : list string
}.

(** ** Pieces of SQL *)

(** The rows a FOR UPDATE SKIP LOCKED scan visits, each once. *)
Definition visible {V} (ids : list string) (t : gmap string V) : list V :=
  omap (fun i => t !! i) (remove_dups ids).

(** All rows of a table, in the order the executor happens to visit them. *)
Definition all_rows {V} (ids : list string) (t : gmap string V) : list V :=
  visible ids t ++ (map_to_list (filter (fun kv => kv.1 ∉ ids) t)).*2.

(** [$n = '' OR tenant_id = $n]. *)
Definition tenant_matches (tenant : string) (r : JobRow) : bool :=
  bool_decide (tenant = "") || bool_decide (tenant_id r = tenant).

(** [$n::text[] IS NULL OR col = ANY($n)], the parameter being NULL when the
    Go slice is empty. *)
Definition any_matches (l : list string) (v : string) : bool :=
  bool_decide (l = []) || bool_decide (v ∈ l).

(** [NOW()], the transaction's timestamp. *)
Definition NOW {S} (env : Env S) : Time := pg_ts (dbnow env).

(** SET of the columns the statements below assign; the others keep. *)
Definition set_row (st : JobState) (att : Z) (err : string)
    (sched started lexp : option Time) (tok : option string) (compl : option Time)
    (upd : Time) (r : JobRow) : JobRow :=
  mkJobRow (id r) (idempotency_key r) (task_id r) (task_name r) (task_payload r)
    (task_retry_count r) (task_max_retries r) (task_timeout_ns r) (task_cron_expr r)
    (task_queue r) (task_metadata r) st att err sched started lexp tok compl
    (created_at r) upd (metadata r) (tenant_id r) (task_priority r).

(** SET of the three columns only UpdateJob, RequeueDeadJob and
    CompleteClaimedJob assign. *)
Definition set_extra (retries : Z) (tmeta meta : option Jsonb) (r : JobRow) : JobRow :=
  mkJobRow (id r) (idempotency_key r) (task_id r) (task_name r) (task_payload r)
    retries (task_max_retries r) (task_timeout_ns r) (task_cron_expr r)
    (task_queue r) tmeta (state r) (attempt r) (last_error r)
    (scheduled_at r) (started_at r) (lease_expires_at r) (lease_token r) (completed_at r)
    (created_at r) (updated_at r) meta (tenant_id r) (task_priority r).

(** [UPDATE ... SET f WHERE id = key AND cond], with the number of rows it
    affected. *)
Definition update_by_id (key : string) (cond : JobRow -> bool) (f : JobRow -> JobRow)
    (t : Jobs) : Z * Jobs :=
  match t !! key with
  | Some r => if cond r then (1, <[key := f r]> t) else (0, t)
  | None => (0, t)
  end.

(** ** Helpers of store.go *)

Definition nullableString (v : string) : option string :=
  if bool_decide (v = "") then None else Some v.

Definition stringOrEmpty (v : option string) : string := default "" v.

(** [encoding/hex]. *)
Definition hex_digit (n : Z) : ascii :=
  ascii_of_N (Z.to_N (if n <? 10 then 48 + n else 87 + n)).

Fixpoint hex_EncodeToString (bytes : list Z) : string :=
  match bytes with
  | [] => ""
  | b :: bs => String (hex_digit (b / 16)) (String (hex_digit (b mod 16)) (hex_EncodeToString bs))
  end.

(** [crypto/rand.Read] into a buffer of [n] bytes: all of it or an error. *)
Definition rand_Read (n : nat) (rnd : option (list Z)) : result (list Z) :=
  match rnd with
  | None => Error (ErrText "rand: read failed")
  | Some bytes => Ok (take n (bytes ++ replicate n 0))
  end.

Definition newLeaseToken (rnd : option (list Z)) : result string :=
  match rand_Read 16 rnd with
  | Error e => Error e
  | Ok bytes => Ok (hex_EncodeToString bytes)
  end.

Definition isIdempotencyUniqueViolation (e : error) : bool :=
  match errors_As_pg e with
  | Some (code, constraint) =>
      bool_decide (code = "23505") && bool_decide (constraint = "jobs_tenant_idempotency_key_idx")
  | None => false
  end.

Definition scanJob (r : JobRow) : Job :=
  mkJob (id r) (tenant_id r) (stringOrEmpty (idempotency_key r))
    (mkTask (task_id r) (task_name r) (task_payload r) (task_retry_count r)
       (task_max_retries r) (task_timeout_ns r) (task_cron_expr r) (task_queue r)
       (unmarshal_map (task_metadata r)) (task_priority r))
    (state r) (attempt r) (scheduled_at r) (started_at r) (lease_expires_at r)
    (stringOrEmpty (lease_token r)) (completed_at r) (last_error r)
    (unmarshal_map (metadata r)) (created_at r) (updated_at r).

(** [CanTransition], the state machine UpdateJob enforces. *)
Definition CanTransition (from to : JobState) : bool :=
  if bool_decide (from = JobStateCompleted) || bool_decide (from = JobStateDead) then false
  else match from with
  | JobStatePending => bool_decide (to = JobStateRunning) || bool_decide (to = JobStateDead)
  | JobStateRunning =>
      bool_decide (to = JobStateCompleted) || bool_decide (to = JobStateFailed)
      || bool_decide (to = JobStateDead)
  | JobStateFailed => bool_decide (to = JobStatePending) || bool_decide (to = JobStateDead)
  | _ => false
  end.

(** ** CreateJob *)

Definition job_row (job : Job) : JobRow :=
  let task := Job_Task job in
  mkJobRow (Job_ID job) (nullableString (Job_IdempotencyKey job))
    (Task_ID task) (Task_Name task) (Task_Payload task) (Task_RetryCount task)
    (Task_MaxRetries task) (Task_Timeout task) (Task_CronExpression task) (Task_Queue task)
    (Some (marshal_map (Task_Metadata task))) (Job_State job) (Job_Attempt job) (Job_LastError job)
    (pg_ts <$> Job_ScheduledAt job) (pg_ts <$> Job_StartedAt job)
    (pg_ts <$> Job_LeaseExpiresAt job) (nullableString (Job_LeaseToken job))
    (pg_ts <$> Job_CompletedAt job) (pg_ts (Job_CreatedAt job)) (pg_ts (Job_UpdatedAt job))
    (Some (marshal_map (Job_Metadata job))) (Job_TenantID job) (Task_Priority task).

(** The INT columns reject a value outside 32 bits. *)
Definition row_ints_ok (r : JobRow) : bool :=
  int4_ok (task_retry_count r) && int4_ok (task_max_retries r)
  && int4_ok (attempt r) && int4_ok (task_priority r).

(** [jobs_tenant_idempotency_key_idx]: unique where the key is not NULL. *)
Definition same_key (r r' : JobRow) : Prop :=
  tenant_id r' = tenant_id r /\ idempotency_key r' = idempotency_key r /\ idempotency_key r <> None.

#[global] Instance same_key_dec r r' : Decision (same_key r r').
Proof. unfold same_key. apply _. Defined.

Definition insert_job (r : JobRow) (t : Jobs) : result unit * Jobs :=
  if negb (row_ints_ok r) then (Error (PgError "22003" ""), t)
  else match t !! id r with
  | Some _ => (Error (PgError "23505" "jobs_pkey"), t)
  | None =>
      if bool_decide (map_Exists (fun _ r' => same_key r r') t)
      then (Error (PgError "23505" "jobs_tenant_idempotency_key_idx"), t)
      else (Ok tt, <[id r := r]> t)
  end.

(** The stamps CreateJob puts on the job it persists. *)
Definition stamp_job (now : Time) (job : Job) : Job :=
  mkJob (Job_ID job) (Job_TenantID job) (Job_IdempotencyKey job) (Job_Task job) (Job_State job)
    (Job_Attempt job) (Job_ScheduledAt job) (Job_StartedAt job) (Job_LeaseExpiresAt job)
    (Job_LeaseToken job) (Job_CompletedAt job) (Job_LastError job) (Job_Metadata job)
    (if IsZero (Job_CreatedAt job) then now else Job_CreatedAt job) now.

Definition CreateJob (env : Env Jobs) (job : Job) (t : Jobs) : result unit * Jobs :=
  let job := stamp_job (gonow env) job in
  match run_stmt env (insert_job (job_row job)) t with
  | (Error e, t') =>
      if isIdempotencyUniqueViolation e then (Error ErrDuplicateIdempotencyKey, t')
      else (Error e, t')
  | r => r
  end.

(** ** Reads *)

(** [QueryRow(...)] with [pgx.ErrNoRows] mapped to [ErrJobNotFound]. *)
Definition query_job (env : Env Jobs) (q : Jobs -> option JobRow) (t : Jobs) : result Job * Jobs :=
  let stmt t := (match q t with Some r => Ok r | None => Error ErrNoRows end, t) in
  match run_stmt env stmt t with
  | (Ok r, t') => (Ok (scanJob r), t')
  | (Error e, t') => (Error (if errors_Is e ErrNoRows then Sentinel ErrJobNotFound else e), t')
  end.

Definition GetJob (env : Env Jobs) (tenant key : string) (t : Jobs) : result Job * Jobs :=
  query_job env (fun t => r ← t !! key; if tenant_matches tenant r then Some r else None) t.

Definition by_key (tenant key : string) (r : JobRow) : bool :=
  bool_decide (idempotency_key r = Some key) && tenant_matches tenant r.

Definition GetJobByIdempotencyKey (env : Env Jobs) (tenant key : string) (t : Jobs)
    : result Job * Jobs :=
  query_job env (fun t => head (List.filter (by_key tenant key) (all_rows (scan env) t))) t.

(** ** UpdateJob: the full-row overwrite behind CanTransition *)

Definition update_fenced (job : Job) (r : JobRow) : bool :=
  bool_decide (Job_LeaseToken job = "")
  || bool_decide (lease_token r = Some (Job_LeaseToken job))
  || (bool_decide (state r = JobStatePending) && bool_decide (Job_State job = JobStateRunning)
      && bool_decide (lease_token r = None)).

Definition update_row (now : Time) (job : Job) (r : JobRow) : JobRow :=
  set_extra (Task_RetryCount (Job_Task job))
    (Some (marshal_map (Task_Metadata (Job_Task job))))
    (Some (marshal_map (Job_Metadata job)))
  (set_row (Job_State job) (Job_Attempt job) (Job_LastError job)
    (pg_ts <$> Job_ScheduledAt job) (pg_ts <$> Job_StartedAt job) (pg_ts <$> Job_LeaseExpiresAt job)
    (match Job_State job with
     | JobStateCompleted | JobStateDead | JobStatePending => None
     | _ => nullableString (Job_LeaseToken job)
     end)
    (pg_ts <$> Job_CompletedAt job) (pg_ts now) r).

Definition UpdateJob (env1 env2 : Env Jobs) (job : Job) (t : Jobs) : result unit * Jobs :=
  match GetJob env1 AnyTenant (Job_ID job) t with
  | (Error e, t1) => (Error e, t1)
  | (Ok existing, t1) =>
      if negb (CanTransition (Job_State existing) (Job_State job))
      then (Error ErrInvalidTransition, t1)
      else
        let stmt t :=
          if int4_ok (Job_Attempt job) && int4_ok (Task_RetryCount (Job_Task job)) then
            let '(n, t') := update_by_id (Job_ID job) (update_fenced job)
                              (update_row (gonow env2) job) t in (Ok n, t')
          else (Error (PgError "22003" ""), t) in
        match run_stmt env2 stmt t1 with
        | (Error e, t2) => (Error e, t2)
        | (Ok n, t2) => (if n =? 0 then Error ErrInvalidTransition else Ok tt, t2)
        end
  end.

(** ** The fenced single-statement updates *)

(** [state = 'RUNNING' AND lease_token = $n]. *)
Definition holds_lease (tok : string) (r : JobRow) : bool :=
  bool_decide (state r = JobStateRunning) && bool_decide (lease_token r = Some tok).

Definition cancellable (r : JobRow) : bool :=
  match state r with
  | JobStatePending | JobStateRunning | JobStateFailed => true
  | _ => false
  end.

Definition cancel_row (now : Time) (r : JobRow) : JobRow :=
  set_row JobStateDead (attempt r) (last_error r) (scheduled_at r) None None None (Some now) now r.

(** An [Exec] of one keyed UPDATE: the rows affected, or the driver's error. *)
Definition exec_update (env : Env Jobs) (key : string) (cond : JobRow -> bool)
    (f : JobRow -> JobRow) (t : Jobs) : result Z * Jobs :=
  run_stmt env (fun t => let '(n, t') := update_by_id key cond f t in (Ok n, t')) t.

Definition CancelJob (env1 env2 : Env Jobs) (tenant key : string) (t : Jobs) : result unit * Jobs :=
  match exec_update env1 key (fun r => tenant_matches tenant r && cancellable r)
          (cancel_row (NOW env1)) t with
  | (Error e, t1) => (Error e, t1)
  | (Ok n, t1) =>
      if n =? 0 then
        match GetJob env2 tenant key t1 with
        | (Error e, t2) => (Error e, t2)
        | (Ok _, t2) => (Error ErrInvalidTransition, t2)
        end
      else (Ok tt, t1)
  end.

Definition renew_row (expires now : Time) (r : JobRow) : JobRow :=
  set_row (state r) (attempt r) (last_error r) (scheduled_at r) (started_at r)
    (Some expires) (lease_token r) (completed_at r) now r.

Definition RenewLease (env : Env Jobs) (job : Job) (leaseDuration : Dur) (t : Jobs)
    : result unit * Jobs :=
  if bool_decide (Job_LeaseToken job = "") then (Error ErrInvalidTransition, t)
  else match exec_update env (Job_ID job) (holds_lease (Job_LeaseToken job))
               (renew_row (pg_ts (Add (gonow env) leaseDuration)) (NOW env)) t with
  | (Error e, t1) => (Error e, t1)
  | (Ok n, t1) => (if n =? 0 then Error ErrInvalidTransition else Ok tt, t1)
  end.

Definition requeue_dead_row (now : Time) (r : JobRow) : JobRow :=
  set_extra 0 (task_metadata r) (metadata r)
    (set_row JobStatePending 0 (last_error r) (Some now) None None None None now r).

Definition RequeueDeadJob (env1 env2 : Env Jobs) (tenant key : string) (t : Jobs)
    : result unit * Jobs :=
  match exec_update env1 key
          (fun r => bool_decide (state r = JobStateDead) && tenant_matches tenant r)
          (requeue_dead_row (NOW env1)) t with
  | (Error e, t1) => (Error e, t1)
  | (Ok n, t1) =>
      if n =? 0 then
        match GetJob env2 tenant key t1 with
        | (Error e, t2) => (Error e, t2)
        | (Ok _, t2) => (Error ErrInvalidTransition, t2)
        end
      else (Ok tt, t1)
  end.

Definition release_row (reason : string) (nextRun now : Time) (r : JobRow) : JobRow :=
  set_row JobStatePending (Z.max (attempt r - 1) 0) reason (Some nextRun) None None None
    (completed_at r) now r.

Definition ReleaseClaim (env : Env Jobs) (job : Job) (reason : string) (retryAfter : Dur)
    (t : Jobs) : result unit * Jobs :=
  let nextRun := pg_ts (Add (gonow env) retryAfter) in
  match exec_update env (Job_ID job) (holds_lease (Job_LeaseToken job))
          (release_row reason nextRun (NOW env)) t with
  | (Error e, t1) => (Error e, t1)
  | (Ok n, t1) => (if n =? 0 then Error ErrInvalidTransition else Ok tt, t1)
  end.

(** [CASE WHEN jsonb_typeof(metadata) = 'object' THEN metadata ELSE '{}' END
    || $1]: the right operand wins on a common key. *)
Definition merge_metadata (old : option Jsonb) (meta : StrMap) : option Jsonb :=
  let base := match old with Some (JsonObject m) => m | _ => ∅ end in
  Some (JsonObject ((Some <$> default ∅ meta) ∪ base)).

Definition complete_row (meta : StrMap) (now : Time) (r : JobRow) : JobRow :=
  set_extra (task_retry_count r) (task_metadata r) (merge_metadata (metadata r) meta)
    (set_row JobStateCompleted (attempt r) (last_error r) (scheduled_at r) None None None
       (Some now) now r).

Definition CompleteClaimedJob (env : Env Jobs) (key leaseToken : string) (meta : StrMap)
    (t : Jobs) : result Job * Jobs :=
  if bool_decide (leaseToken = "") then (Error ErrInvalidTransition, t)
  else
    let stmt t :=
      match t !! key with
      | Some r =>
          if holds_lease leaseToken r then
            let r' := complete_row meta (NOW env) r in (Ok r', <[key := r']> t)
          else (Error ErrNoRows, t)
      | None => (Error ErrNoRows, t)
      end in
    match run_stmt env stmt t with
    | (Ok r, t') => (Ok (scanJob r), t')
    | (Error e, t') => (Error (if errors_Is e ErrNoRows then Sentinel ErrLeaseLost else e), t')
    end.

Definition fail_row (errMsg : string) (nextRun : option Time) (now : Time) (r : JobRow) : JobRow :=
  match nextRun with
  | Some next =>
      set_row JobStatePending (attempt r) errMsg (Some next) None None None (completed_at r) now r
  | None =>
      set_row JobStateDead (attempt r) errMsg (scheduled_at r) None None None (Some now) now r
  end.

Definition FailClaimedJob (env : Env Jobs) (key leaseToken errMsg : string)
    (nextRun : option Time) (t : Jobs) : result unit * Jobs :=
  if bool_decide (leaseToken = "") then (Error ErrInvalidTransition, t)
  else match exec_update env key (holds_lease leaseToken)
               (fail_row errMsg (pg_ts <$> nextRun) (NOW env)) t with
  | (Error e, t1) => (Error e, t1)
  | (Ok n, t1) => (if n =? 0 then Error ErrLeaseLost else Ok tt, t1)
  end.

(** ** Statements that select by ORDER BY and LIMIT *)

(** [ASC NULLS LAST] on a timestamp. *)
Definition ts_le (a b : option Time) : Prop :=
  match a, b with
  | _, None => True
  | None, Some _ => False
  | Some x, Some y => x <= y
  end.

#[global] Instance ts_le_dec : RelDecision ts_le.
Proof. intros [?|] [?|]; simpl; apply _. Defined.

(** [ORDER BY task_priority DESC, scheduled_at ASC NULLS LAST]. *)
Definition claim_le (r1 r2 : JobRow) : Prop :=
  task_priority r2 < task_priority r1 \/
  (task_priority r1 = task_priority r2 /\ ts_le (scheduled_at r1) (scheduled_at r2)).

#[global] Instance claim_le_dec : RelDecision claim_le.
Proof. intros r1 r2. unfold claim_le. apply _. Defined.

Definition lease_le (r1 r2 : JobRow) : Prop := ts_le (lease_expires_at r1) (lease_expires_at r2).
#[global] Instance lease_le_dec : RelDecision lease_le.
Proof. intros r1 r2. unfold lease_le. apply _. Defined.

Definition completed_le (r1 r2 : JobRow) : Prop := ts_le (completed_at r1) (completed_at r2).
#[global] Instance completed_le_dec : RelDecision completed_le.
Proof. intros r1 r2. unfold completed_le. apply _. Defined.

(** ** ClaimNextJob *)

Definition claimable (now : Time) (f : ClaimFilter) (r : JobRow) : bool :=
  bool_decide (state r = JobStatePending)
  && match scheduled_at r with None => true | Some at_ => at_ <=? now end
  && any_matches (Filter_Queues f) (task_queue r)
  && tenant_matches (Filter_Tenant f) r
  && any_matches (Filter_Names f) (task_name r).

Definition claim_row (now expires : Time) (tok : string) (r : JobRow) : JobRow :=
  set_row JobStateRunning (attempt r + 1) (last_error r) (scheduled_at r) (Some now)
    (Some expires) (Some tok) (completed_at r) now r.

Definition claim_stmt (env : Env Jobs) (leaseDuration : Dur) (tok : string) (f : ClaimFilter)
    (t : Jobs) : result JobRow * Jobs :=
  let selected := merge_sort claim_le (List.filter (claimable (NOW env) f) (visible (scan env) t)) in
  match selected with
  | [] => (Error ErrNoRows, t)
  | r :: _ =>
      if int4_ok (attempt r + 1) then
        let r' := claim_row (pg_ts (gonow env)) (pg_ts (Add (gonow env) leaseDuration)) tok r in
        (Ok r', <[id r := r']> t)
      else (Error (PgError "22003" ""), t)
  end.

Definition ClaimNextJob (env : Env Jobs) (leaseDuration : Dur) (f : ClaimFilter) (t : Jobs)
    : result Job * Jobs :=
  match newLeaseToken (rand env) with
  | Error e => (Error (Wrapf "store: generate lease token: " e), t)
  | Ok tok =>
      match run_stmt env (claim_stmt env leaseDuration tok f) t with
      | (Ok r, t') => (Ok (scanJob r), t')
      | (Error e, t') => (Error (if errors_Is e ErrNoRows then Sentinel ErrJobNotFound else e), t')
      end
  end.

(** ** RequeueExpiredRunning *)

Definition lease_expired (now : Time) (r : JobRow) : bool :=
  bool_decide (state r = JobStateRunning)
  && match lease_expires_at r with None => false | Some e => e <=? now end.

Definition reap_row (now : Time) (r : JobRow) : JobRow :=
  if task_max_retries r <=? attempt r then
    set_row JobStateDead (attempt r) "job lease expired before completion" (scheduled_at r)
      None None None (Some now) now r
  else
    set_row JobStatePending (attempt r) "job lease expired before completion" (Some now)
      None None None (completed_at r) now r.

(** [UPDATE ... FROM sel WHERE jobs.id = sel.id]. *)
Definition update_rows (f : JobRow -> JobRow) (sel : list JobRow) (t : Jobs) : Jobs :=
  foldr (fun r t => <[id r := f r]> t) t sel.

Definition reap_stmt (env : Env Jobs) (limit : Z) (t : Jobs) : result Z * Jobs :=
  let expired := take (Z.to_nat limit)
    (merge_sort lease_le (List.filter (lease_expired (NOW env)) (visible (scan env) t))) in
  (Ok (Z.of_nat (length expired)), update_rows (reap_row (NOW env)) expired t).

Definition RequeueExpiredRunning (env : Env Jobs) (limit : Z) (t : Jobs) : result Z * Jobs :=
  if limit <=? 0 then (Ok 0, t)
  else match run_stmt env (reap_stmt env limit) t with
  | (Error e, t1) => (Error e, t1)
  | (Ok n, t1) => (Ok n, t1)
  end.

(** ** DeleteFinished *)

Definition prunable (st : JobState) (before : Time) (r : JobRow) : bool :=
  bool_decide (state r = st)
  && match completed_at r with None => false | Some c => c <? before end.

Definition prune_stmt (env : Env Jobs) (st : JobState) (before : Time) (limit : Z) (t : Jobs)
    : result Z * Jobs :=
  let victims := take (Z.to_nat limit)
    (merge_sort completed_le (List.filter (prunable st before) (all_rows (scan env) t))) in
  (Ok (Z.of_nat (length victims)), foldr (fun r t => delete (id r) t) t victims).

Definition DeleteFinished (env : Env Jobs) (st : JobState) (before : Time) (limit : Z) (t : Jobs)
    : result Z * Jobs :=
  if negb (bool_decide (st = JobStateCompleted)) && negb (bool_decide (st = JobStateDead))
  then (Error (ErrText ("store: refusing to delete jobs in state " +:+ JobState_string st)), t)
  else if limit <=? 0 then (Ok 0, t)
  else run_stmt env (prune_stmt env st (pg_ts before) limit) t.

(** ** CountByState *)

Definition BacklogStates : list JobState := [JobStatePending; JobStateRunning; JobStateDead].

Definition count_state (st : JobState) (t : Jobs) : Z :=
  Z.of_nat (size (filter (fun kv => state kv.2 = st) t)).

Definition CountByState (env : Env Jobs) (t : Jobs) : result (JobState -> Z) * Jobs :=
  run_stmt env (fun t =>
    (Ok (fun st => match st with
                   | JobStatePending => count_state JobStatePending t
                   | JobStateRunning => count_state JobStateRunning t
                   | JobStateDead => count_state JobStateDead t
                   | _ => 0
                   end), t)) t.
