(* ===== verification/JobFacts.v ===== *)
(** * Facts about the job store

    - the effect of every statement on a single row, as one inductive
      relation [row_step], and the proof that each store method moves every
      row along it;
    - the table invariant [table_ok] and its preservation;
    - selection by ORDER BY and LIMIT. *)

From S2P Require Import Prelude Models JobStore.

(** ** Scans *)

Lemma elem_of_visible {V} (ids : list string) (t : gmap string V) v :
  v ∈ visible ids t <-> exists k, k ∈ ids /\ t !! k = Some v.
Proof.
  unfold visible. rewrite list_elem_of_omap. setoid_rewrite elem_of_remove_dups. done.
Qed.

Lemma elem_of_all_rows {V} (ids : list string) (t : gmap string V) v :
  v ∈ all_rows ids t <-> exists k, t !! k = Some v.
Proof.
  unfold all_rows. rewrite elem_of_app, elem_of_visible, list_elem_of_fmap. split.
  - intros [[k [_ H]]|[[k v'] [-> H]]]; [by exists k|].
    exists k. rewrite elem_of_map_to_list, map_lookup_filter_Some in H. by destruct H.
  - intros [k H]. destruct (decide (k ∈ ids)); [left; by exists k|].
    right. exists (k, v). split; [done|]. by rewrite elem_of_map_to_list, map_lookup_filter_Some.
Qed.

Lemma elem_of_Lfilter {A} (P : A -> bool) l x : x ∈ List.filter P l <-> x ∈ l /\ P x = true.
Proof. rewrite !list_elem_of_In. apply filter_In. Qed.

Lemma elem_of_take_in {A} n (l : list A) x : x ∈ take n l -> x ∈ l.
Proof. rewrite elem_of_take. intros (i & Hi & _). by eapply list_elem_of_lookup_2. Qed.

Lemma elem_of_merge_sort {A} (R : relation A) `{!RelDecision R} l x :
  x ∈ merge_sort R l <-> x ∈ l.
Proof. by rewrite (merge_sort_Permutation R l). Qed.

(** The keys of a table are its rows' ids. *)
Definition keyed (t : Jobs) : Prop := forall k r, t !! k = Some r -> id r = k.

Lemma NoDup_visible_ids ids (t : Jobs) : keyed t -> NoDup (id <$> visible ids t).
Proof.
  intros Hk. unfold visible. pose proof (NoDup_remove_dups ids) as Hnd. revert Hnd.
  generalize (remove_dups ids) as l. induction l as [|k l IH]; intros Hnd; [constructor|].
  apply NoDup_cons in Hnd as [Hni Hnd]. cbn. destruct (t !! k) as [r|] eqn:E; [|by apply IH].
  cbn. apply NoDup_cons. split; [|by apply IH].
  rewrite list_elem_of_fmap. intros [r' [Heq Hin]].
  apply list_elem_of_omap in Hin as [k' [Hk' E']].
  apply Hk in E. apply Hk in E'. congruence.
Qed.

Lemma NoDup_all_ids ids (t : Jobs) : keyed t -> NoDup (id <$> all_rows ids t).
Proof.
  intros Hk. unfold all_rows. rewrite fmap_app, NoDup_app.
  split; [by apply NoDup_visible_ids|]. split.
  - intros i Hi Hi'. apply list_elem_of_fmap in Hi as [r [-> Hr]].
    apply elem_of_visible in Hr as [k [Hk1 Ht]].
    apply list_elem_of_fmap in Hi' as [r' [Heq Hr']].
    apply list_elem_of_fmap in Hr' as [[k' r''] [-> Hin]]. cbn in *.
    rewrite elem_of_map_to_list, map_lookup_filter_Some in Hin.
    destruct Hin as [Ht' Hnot]. cbn in *. apply Hk in Ht. apply Hk in Ht'. congruence.
  - rewrite <- list_fmap_compose.
    assert (Hm : keyed (filter (fun kv => kv.1 ∉ ids) t)).
    { intros k r Hkr. rewrite map_lookup_filter_Some in Hkr. apply Hk, Hkr. }
    revert Hm. generalize (filter (fun kv : string * JobRow => kv.1 ∉ ids) t) as m. intros m Hm.
    rewrite (list_fmap_ext (id ∘ snd) fst).
    + apply NoDup_fst_map_to_list.
    + intros i [k r] Hin. cbn. apply Hm. by apply elem_of_map_to_list, list_elem_of_lookup_2 with i.
Qed.

(** ** ORDER BY *)

#[global] Instance ts_le_total : Total ts_le.
Proof. intros [a|] [b|]; cbn; try tauto; lia. Qed.

#[global] Instance ts_le_trans : Transitive ts_le.
Proof. intros [a|] [b|] [c|]; cbn; try tauto; lia. Qed.

#[global] Instance claim_le_total : Total claim_le.
Proof.
  intros r1 r2. unfold claim_le.
  destruct (Z.lt_trichotomy (task_priority r1) (task_priority r2)) as [?|[?|?]]; [tauto| |tauto].
  destruct (total ts_le (scheduled_at r1) (scheduled_at r2)); [left|right]; right; (split; [lia|done]).
Qed.

#[global] Instance claim_le_trans : Transitive claim_le.
Proof.
  intros r1 r2 r3. unfold claim_le. intros [H|[H1 H2]] [H'|[H1' H2']]; try (left; lia).
  right. split; [lia|]. by etrans.
Qed.

#[global] Instance lease_le_total : Total lease_le.
Proof. intros r1 r2. apply ts_le_total. Qed.
#[global] Instance lease_le_trans : Transitive lease_le.
Proof. intros r1 r2 r3. apply ts_le_trans. Qed.
#[global] Instance completed_le_total : Total completed_le.
Proof. intros r1 r2. apply ts_le_total. Qed.
#[global] Instance completed_le_trans : Transitive completed_le.
Proof. intros r1 r2 r3. apply ts_le_trans. Qed.

(** The head of a sorted list is least. *)
Lemma merge_sort_head {A} (R : relation A) `{!RelDecision R, !Transitive R, !Total R} l x l' :
  merge_sort R l = x :: l' -> x ∈ l /\ forall y, y ∈ l -> R x y.
Proof.
  intros E. assert (Hx : x ∈ l).
  { apply (elem_of_merge_sort R). rewrite E. left. }
  split; [done|]. intros y Hy.
  pose proof (StronglySorted_merge_sort R l) as Hs. rewrite E in Hs.
  apply StronglySorted_cons in Hs as [Hs _]. rewrite Forall_forall in Hs.
  apply (elem_of_merge_sort R) in Hy. rewrite E in Hy.
  apply elem_of_cons in Hy as [->|Hy].
  - destruct (total R x x); done.
  - by apply Hs.
Qed.

(** What LIMIT keeps comes before what it drops. *)
Lemma merge_sort_take {A} (R : relation A) `{!RelDecision R, !Transitive R, !Total R} l n x y :
  x ∈ take n (merge_sort R l) -> y ∈ drop n (merge_sort R l) -> R x y.
Proof.
  intros Hx Hy. pose proof (StronglySorted_merge_sort R l) as Hs.
  rewrite <- (take_drop n (merge_sort R l)) in Hs.
  eapply StronglySorted_app_1_elem_of; eauto.
Qed.

(** ** The life of one row *)

(** A job as Enqueue hands it to CreateJob. *)
Definition fresh_job (job : Job) : Prop :=
  Job_State job = JobStatePending /\ Job_Attempt job = 0 /\
  Job_StartedAt job = None /\ Job_LeaseExpiresAt job = None /\ Job_CompletedAt job = None /\
  Job_LeaseToken job = "" /\ is_Some (Job_ScheduledAt job) /\ 0 < Task_MaxRetries (Job_Task job).

(** A job as jobWorker.Run hands it to UpdateJob when it claims a PENDING job
    delivered by the transport: the message is the job as it was enqueued,
    with its attempt incremented and a fresh lease. *)
Definition worker_claim (job : Job) : Prop :=
  Job_State job = JobStateRunning /\ Job_LeaseToken job <> "" /\ Job_Attempt job = 1 /\
  is_Some (Job_StartedAt job) /\ is_Some (Job_LeaseExpiresAt job) /\ Job_CompletedAt job = None.

Definition terminal (r : JobRow) : Prop :=
  state r = JobStateCompleted \/ state r = JobStateDead.

(** Who makes a move, and under what authority: a claimant under the token it
    mints, the holder of a token, an operator within a tenant. *)
Inductive actor :=
  | Producer (key : string)
  | Claimant (tenant tok : string)
  | Holder (tok : string)
  | Reaper
  | Canceller (tenant : string)
  | Requeuer (tenant : string)
  | Retention.

(** [row_step A]: the moves of one row that the actors of [A] can make. *)
Inductive row_step (A : actor -> Prop) : option JobRow -> option JobRow -> Prop :=
  | rs_same o : row_step A o o
  | rs_create job now : A (Producer (Job_ID job)) -> fresh_job job ->
      row_ints_ok (job_row (stamp_job now job)) = true ->
      row_step A None (Some (job_row (stamp_job now job)))
  | rs_claim r tenant now expires tok : A (Claimant tenant tok) ->
      tenant_matches tenant r = true -> state r = JobStatePending -> tok <> "" ->
      row_step A (Some r) (Some (claim_row now expires tok r))
  | rs_take r now job : A (Claimant AnyTenant (Job_LeaseToken job)) ->
      state r = JobStatePending -> lease_token r = None -> worker_claim job ->
      row_step A (Some r) (Some (update_row now job r))
  | rs_renew r tok expires now : A (Holder tok) -> holds_lease tok r = true ->
      row_step A (Some r) (Some (renew_row expires now r))
  | rs_release r tok reason next now : A (Holder tok) -> holds_lease tok r = true ->
      row_step A (Some r) (Some (release_row reason next now r))
  | rs_complete r tok meta now : A (Holder tok) -> holds_lease tok r = true ->
      row_step A (Some r) (Some (complete_row meta now r))
  | rs_retry r tok msg next now : A (Holder tok) -> holds_lease tok r = true ->
      attempt r < task_max_retries r ->
      row_step A (Some r) (Some (fail_row msg (Some next) now r))
  | rs_bury r tok msg now : A (Holder tok) -> holds_lease tok r = true ->
      row_step A (Some r) (Some (fail_row msg None now r))
  | rs_reap r now : A Reaper -> lease_expired now r = true ->
      row_step A (Some r) (Some (reap_row now r))
  | rs_cancel r tenant now : A (Canceller tenant) -> tenant_matches tenant r = true ->
      cancellable r = true -> row_step A (Some r) (Some (cancel_row now r))
  | rs_requeue r tenant now : A (Requeuer tenant) -> tenant_matches tenant r = true ->
      state r = JobStateDead -> row_step A (Some r) (Some (requeue_dead_row now r))
  | rs_prune r : A Retention -> terminal r -> row_step A (Some r) None.

#[export] Hint Constructors row_step : conduit.

(** ** The row invariant *)

Definition row_ok (r : JobRow) : Prop :=
  0 < task_max_retries r <= 2 ^ 31 - 1 /\ 0 <= attempt r <= task_max_retries r /\
  match state r with
  | JobStatePending =>
      attempt r < task_max_retries r /\ is_Some (scheduled_at r) /\
      started_at r = None /\ lease_expires_at r = None /\ lease_token r = None /\
      completed_at r = None
  | JobStateRunning =>
      0 < attempt r /\ is_Some (started_at r) /\ is_Some (lease_expires_at r) /\
      is_Some (lease_token r) /\ lease_token r <> Some "" /\ completed_at r = None
  | JobStateCompleted | JobStateDead =>
      started_at r = None /\ lease_expires_at r = None /\ lease_token r = None /\
      is_Some (completed_at r)
  | JobStateFailed | JobStateUnset => False
  end.

Ltac row_unfold :=
  unfold claim_row, update_row, renew_row, release_row, complete_row, fail_row, reap_row,
    cancel_row, requeue_dead_row, set_row, set_extra, row_ok, cancellable, terminal in *.

Ltac row_solve :=
  cbn in *; destruct_and?; split_and?; first [done | lia | by eexists | congruence].

Lemma holds_lease_spec tok r :
  holds_lease tok r = true <-> state r = JobStateRunning /\ lease_token r = Some tok.
Proof. unfold holds_lease. rewrite andb_true_iff, !bool_decide_eq_true. done. Qed.

Lemma lease_expired_spec now r :
  lease_expired now r = true <->
  state r = JobStateRunning /\ exists e, lease_expires_at r = Some e /\ e <= now.
Proof.
  unfold lease_expired. rewrite andb_true_iff, bool_decide_eq_true.
  destruct (lease_expires_at r) as [e|].
  - rewrite Z.leb_le. split; [intros [? ?]; eauto|intros [? (? & [= <-] & ?)]; done].
  - split; [intros [_ ?]; done|intros [_ (? & ? & _)]; done].
Qed.

(** The state of the row a move starts from. *)
Ltac from_state :=
  repeat match goal with
  | H : holds_lease _ _ = true |- _ => apply holds_lease_spec in H as [? ?]
  | H : lease_expired _ _ = true |- _ => apply lease_expired_spec in H as [? (? & ? & ?)]
  | H : cancellable ?r = true |- _ => unfold cancellable in H; destruct (state r) eqn:?
  | H : terminal _ |- _ => destruct H
  end; try discriminate.

Lemma row_step_ok A o r' :
  row_step A o (Some r') -> (forall r, o = Some r -> row_ok r) -> row_ok r'.
Proof.
  intros Hs Hok. remember (Some r') as o' eqn:E.
  destruct Hs as [o|job now _ Hf Hint|r tn now ex tok _ _ Hst Ht|r now job _ Hst Hnt Hw|r tok ex now _ Hst
    |r tok why nx now _ Hst|r tok mt now _ Hst|r tok msg nx now _ Hst Hlt|r tok msg now _ Hst
    |r now _ Hst|r tn now _ _ Hst|r tn now _ _ Hst|r _ Hst]; simplify_eq;
    try (assert (Hr : row_ok r) by (by apply Hok); clear Hok); from_state;
    try (unfold row_ok in Hr;
         match goal with H : state r = _ |- _ => rewrite H in Hr; row_unfold; cbn; rewrite ?H end;
         repeat case_goal; zbool; row_solve).
  - by apply Hok.
  - destruct Hf as (Hst & Hatt & Hs & Hl & Hc & Htok & [at_ Hat] & Hmax).
    unfold row_ints_ok, int4_ok in Hint. zbool. cbn in *.
    unfold row_ok, job_row, stamp_job. cbn. rewrite Hst, Hatt, Hs, Hl, Hc, Htok, Hat. row_solve.
  - row_unfold; cbn. destruct Hw as (Hjs & Htok & Hatt & [s Hs] & [e He] & Hc).
    rewrite Hjs, Hs, He, Hc. rewrite Hst in Hr.
    unfold nullableString. rewrite bool_decide_false by done. row_solve.
Qed.

(** ** The table invariant *)

Definition unique_keys (t : Jobs) : Prop :=
  forall k1 k2 r1 r2, t !! k1 = Some r1 -> t !! k2 = Some r2 -> same_key r1 r2 -> k1 = k2.

Record table_ok (t : Jobs) : Prop := mkTableOk {
  ok_keyed : keyed t;
  ok_rows : forall k r, t !! k = Some r -> row_ok r;
  ok_unique : unique_keys t
}.

(** Every row moves along [row_step]. *)
Definition table_step (A : actor -> Prop) (t t' : Jobs) : Prop := forall k, row_step A (t !! k) (t' !! k).

Lemma table_step_refl A t : table_step A t t.
Proof. intros k. constructor. Qed.
#[export] Hint Resolve table_step_refl : conduit.

(** What identifies a row never changes. *)
Lemma row_step_ident A r r' :
  row_step A (Some r) (Some r') ->
  id r' = id r /\ tenant_id r' = tenant_id r /\ idempotency_key r' = idempotency_key r /\
  task_max_retries r' = task_max_retries r /\ created_at r' = created_at r /\
  task_queue r' = task_queue r /\ task_name r' = task_name r /\
  task_priority r' = task_priority r /\ task_payload r' = task_payload r.
Proof.
  intros Hs. remember (Some r) as o eqn:E. remember (Some r') as o' eqn:E'.
  destruct Hs; simplify_eq; row_unfold; repeat case_goal; done.
Qed.

Lemma table_step_ok A t t' :
  table_step A t t' -> (forall k, t !! k = None -> t' !! k = None) -> table_ok t -> table_ok t'.
Proof.
  intros Hs Hdom [Hk Hr Hu].
  assert (Hback : forall k r', t' !! k = Some r' -> exists r, t !! k = Some r /\ row_step A (Some r) (Some r')).
  { intros k r' Hr'. destruct (t !! k) as [r|] eqn:E; [|rewrite Hdom in Hr'; done].
    exists r. split; [done|]. rewrite <- E, <- Hr'. apply Hs. }
  split.
  - intros k r' Hr'. destruct (Hback k r' Hr') as (r & E & Hrs).
    apply row_step_ident in Hrs as [-> _]. by apply Hk.
  - intros k r' Hr'. destruct (Hback k r' Hr') as (r & E & Hrs).
    eapply row_step_ok; [apply Hrs|]. intros ? [= <-]. by eapply Hr.
  - intros k1 k2 r1' r2' E1 E2 Hsame.
    destruct (Hback _ _ E1) as (r1 & F1 & S1). destruct (Hback _ _ E2) as (r2 & F2 & S2).
    apply row_step_ident in S1 as (_ & T1 & K1 & _). apply row_step_ident in S2 as (_ & T2 & K2 & _).
    apply (Hu k1 k2 r1 r2 F1 F2). unfold same_key in *. rewrite T1, K1, T2, K2 in Hsame. done.
Qed.

Lemma insert_job_ok job now t :
  fresh_job job -> table_ok t -> table_ok (insert_job (job_row (stamp_job now job)) t).2.
Proof.
  intros Hf [Hk Hr Hu]. unfold insert_job.
  destruct (negb _) eqn:Hn; [done|]. destruct (t !! _) eqn:E; [done|].
  destruct (bool_decide _) eqn:Hd; [done|]. zbool. cbn.
  set (r := job_row (stamp_job now job)) in *.
  assert (Hno : forall k' r', t !! k' = Some r' -> ~ same_key r r').
  { intros k' r' Hr' Hsame. apply Hd. exists k', r'. done. }
  split.
  - intros k r0. rewrite lookup_insert_Some. intros [[<- <-]|[_ H]]; [done|by apply Hk].
  - intros k r0. rewrite lookup_insert_Some. intros [[<- <-]|[_ H]]; [|by eapply Hr].
    eapply (row_step_ok (fun _ => True) None); [by constructor|done].
  - intros k1 k2 r1 r2. rewrite !lookup_insert_Some.
    intros [[<- <-]|[N1 H1]] [[<- <-]|[N2 H2]] Hsame; [done| | |by eapply Hu].
    + exfalso. by apply (Hno _ _ H2).
    + exfalso. apply (Hno _ _ H1). unfold same_key in *. intuition congruence.
Qed.

(** ** The effect of each statement *)

Lemma run_stmt_snd {S A} (env : Env S) (stmt : S -> result A * S) s :
  (run_stmt env stmt s).2 = intf env s \/ (run_stmt env stmt s).2 = (stmt (intf env s)).2.
Proof. unfold run_stmt. destruct (fault env); auto. Qed.

(** A statement's effect on the table, whatever the driver reports. *)
Lemma run_stmt_step {B} A (env : Env Jobs) (stmt : Jobs -> result B * Jobs) t :
  table_step A (intf env t) (stmt (intf env t)).2 ->
  table_step A (intf env t) (run_stmt env stmt t).2.
Proof. intros H. destruct (run_stmt_snd env stmt t) as [->| ->]; auto with conduit. Qed.

Lemma run_stmt_pred {A} (P : Jobs -> Prop) (env : Env Jobs) (stmt : Jobs -> result A * Jobs) t :
  P (intf env t) -> P (stmt (intf env t)).2 -> P (run_stmt env stmt t).2.
Proof. intros H1 H2. destruct (run_stmt_snd env stmt t) as [->| ->]; auto. Qed.

Lemma update_by_id_lookup key cond f (t : Jobs) k :
  (update_by_id key cond f t).2 !! k =
  match t !! k with
  | Some r => if bool_decide (k = key) && cond r then Some (f r) else Some r
  | None => None
  end.
Proof.
  unfold update_by_id. destruct (t !! key) as [r|] eqn:E.
  - destruct (cond r) eqn:C; cbn.
    + rewrite lookup_insert. destruct (decide (key = k)) as [->|Hne].
      * by rewrite E, bool_decide_true, C by done.
      * rewrite bool_decide_false by congruence. by destruct (t !! k).
    + destruct (t !! k) as [r'|] eqn:E'; [|done]. case_bool_decide; [|done].
      subst. rewrite E in E'. simplify_eq. by rewrite C.
  - destruct (t !! k) as [r'|] eqn:E'; [|done]. case_bool_decide; [|done]. congruence.
Qed.

Lemma update_by_id_step A key cond f (t : Jobs) :
  (forall r, t !! key = Some r -> cond r = true -> row_step A (Some r) (Some (f r))) ->
  table_step A t (update_by_id key cond f t).2.
Proof.
  intros H k. rewrite update_by_id_lookup. destruct (t !! k) as [r|] eqn:E; [|constructor].
  destruct (bool_decide _ && _) eqn:B; [|constructor]. zbool. subst. by apply H.
Qed.

Lemma exec_update_step A env key cond f t :
  (forall r, intf env t !! key = Some r -> cond r = true -> row_step A (Some r) (Some (f r))) ->
  table_step A (intf env t) (exec_update env key cond f t).2.
Proof.
  intros H. apply run_stmt_step. pose proof (update_by_id_step A key cond f (intf env t) H) as Hs.
  by destruct (update_by_id key cond f (intf env t)).
Qed.

Lemma lookup_update_rows f sel (t : Jobs) k :
  update_rows f sel t !! k =
  match list_find (fun r => id r = k) sel with
  | Some (_, r) => Some (f r)
  | None => t !! k
  end.
Proof.
  unfold update_rows. induction sel as [|r sel IH]; [done|]. cbn. rewrite lookup_insert.
  destruct (decide (id r = k)); [done|]. rewrite IH.
  by destruct (list_find _ sel) as [[? ?]|].
Qed.

Lemma lookup_delete_rows sel (t : Jobs) k :
  foldr (fun r t => delete (id r) t) t sel !! k =
  match list_find (fun r => id r = k) sel with Some _ => None | None => t !! k end.
Proof.
  induction sel as [|r sel IH]; [done|]. cbn. rewrite lookup_delete.
  destruct (decide (id r = k)); [done|]. rewrite IH.
  by destruct (list_find _ sel) as [[? ?]|].
Qed.

Lemma update_rows_step A f sel (t : Jobs) :
  keyed t -> (forall r, r ∈ sel -> exists k, t !! k = Some r) ->
  (forall r, r ∈ sel -> row_step A (Some r) (Some (f r))) ->
  table_step A t (update_rows f sel t).
Proof.
  intros Hk Hin Hf k. rewrite lookup_update_rows.
  destruct (list_find _ sel) as [[i r]|] eqn:E; [|constructor].
  apply list_find_Some in E as (Hl & Hid & _).
  assert (Hr : r ∈ sel) by (by eapply list_elem_of_lookup_2).
  destruct (Hin r Hr) as [k' Hk']. rewrite (Hk _ _ Hk') in Hid. subst k'.
  rewrite Hk'. by apply Hf.
Qed.

(** A minted token is never the empty string. *)
Lemma newLeaseToken_nonempty rnd tok : newLeaseToken rnd = Ok tok -> tok <> "".
Proof.
  unfold newLeaseToken, rand_Read. destruct rnd as [bytes|]; [|done].
  intros [= <-]. destruct bytes; done.
Qed.

Lemma claim_stmt_step A env d tok f t :
  A (Claimant (Filter_Tenant f) tok) -> keyed t -> tok <> "" ->
  table_step A t (claim_stmt env d tok f t).2.
Proof.
  intros HA Hk Htok. unfold claim_stmt.
  destruct (merge_sort _ _) as [|r l] eqn:E; [apply table_step_refl|].
  apply (merge_sort_head claim_le) in E as [Hr _]. apply elem_of_Lfilter in Hr as [Hv Hc].
  apply elem_of_visible in Hv as [k [_ Hk']]. destruct (int4_ok _); [|apply table_step_refl].
  cbn. rewrite (Hk _ _ Hk'). intros k'. rewrite lookup_insert.
  destruct (decide (k = k')) as [<-|]; [|constructor]. rewrite Hk'.
  unfold claimable in Hc. zbool. by apply rs_claim with (tenant := Filter_Tenant f).
Qed.

Lemma reap_stmt_step A env n t : A Reaper -> keyed t -> table_step A t (reap_stmt env n t).2.
Proof.
  intros HA Hk. unfold reap_stmt. cbn.
  assert (Hin : forall r, r ∈ take (Z.to_nat n) (merge_sort lease_le
     (List.filter (lease_expired (NOW env)) (visible (scan env) t))) ->
     r ∈ visible (scan env) t /\ lease_expired (NOW env) r = true).
  { intros r Hr. by apply elem_of_take_in, elem_of_merge_sort, elem_of_Lfilter in Hr. }
  apply update_rows_step; [done| |].
  - intros r Hr. apply Hin in Hr as [Hr _]. apply elem_of_visible in Hr as [k [_ Hk']]. by exists k.
  - intros r Hr. apply Hin in Hr as [_ Hr]. by constructor.
Qed.

Lemma prune_stmt_step A env st before n t :
  A Retention -> keyed t -> st = JobStateCompleted \/ st = JobStateDead ->
  table_step A t (prune_stmt env st before n t).2.
Proof.
  intros HA Hk Hst k. unfold prune_stmt. cbn. rewrite lookup_delete_rows.
  destruct (list_find _ _) as [[i r]|] eqn:E; [|constructor].
  apply list_find_Some in E as (Hl & Hid & _).
  apply list_elem_of_lookup_2, elem_of_take_in, elem_of_merge_sort, elem_of_Lfilter in Hl
    as [Hr Hp].
  apply elem_of_all_rows in Hr as [k' Hk']. rewrite (Hk _ _ Hk') in Hid. subst k'.
  rewrite Hk'. constructor; [done|]. unfold prunable in Hp. zbool. destruct Hst; subst; [by left|by right].
Qed.
