(* ===== verification/JobSystem.v ===== *)
(** * The job store as a system: every method, in any order, from any session

    [Op] is one call of a store method with the environment of its round
    trips; [exec] its effect on the table.  The environments carry what other
    sessions do in between, so a list of [Op]s is one session's calls among
    arbitrary others, and also, with quiet environments, a global
    interleaving. *)

From S2P Require Import Prelude Models JobStore JobFacts.

Inductive Op :=
  | OCreate (env : Env Jobs) (job : Job)
  | OGet (env : Env Jobs) (tenant key : string)
  | OUpdate (env1 env2 : Env Jobs) (job : Job)
  | OCancel (env1 env2 : Env Jobs) (tenant key : string)
  | OClaim (env : Env Jobs) (d : Dur) (f : ClaimFilter)
  | ORenew (env : Env Jobs) (job : Job) (d : Dur)
  | OReap (env : Env Jobs) (limit : Z)
  | ORelease (env : Env Jobs) (job : Job) (reason : string) (d : Dur)
  | OComplete (env : Env Jobs) (key tok : string) (meta : StrMap)
  | OFail (env : Env Jobs) (key tok msg : string) (next : option Time)
  | ORequeueDead (env1 env2 : Env Jobs) (tenant key : string)
  | ODelete (env : Env Jobs) (st : JobState) (before : Time) (limit : Z).

Definition exec (op : Op) (t : Jobs) : Jobs :=
  match op with
  | OCreate env job => (CreateJob env job t).2
  | OGet env tenant key => (GetJob env tenant key t).2
  | OUpdate env1 env2 job => (UpdateJob env1 env2 job t).2
  | OCancel env1 env2 tenant key => (CancelJob env1 env2 tenant key t).2
  | OClaim env d f => (ClaimNextJob env d f t).2
  | ORenew env job d => (RenewLease env job d t).2
  | OReap env limit => (RequeueExpiredRunning env limit t).2
  | ORelease env job reason d => (ReleaseClaim env job reason d t).2
  | OComplete env key tok meta => (CompleteClaimedJob env key tok meta t).2
  | OFail env key tok msg next => (FailClaimedJob env key tok msg next t).2
  | ORequeueDead env1 env2 tenant key => (RequeueDeadJob env1 env2 tenant key t).2
  | ODelete env st before limit => (DeleteFinished env st before limit t).2
  end.

Definition op_envs (op : Op) : list (Env Jobs) :=
  match op with
  | OUpdate e1 e2 _ | OCancel e1 e2 _ _ | ORequeueDead e1 e2 _ _ => [e1; e2]
  | OCreate e _ | OGet e _ _ | OClaim e _ _ | ORenew e _ _ | OReap e _ | ORelease e _ _ _
  | OComplete e _ _ _ | OFail e _ _ _ _ | ODelete e _ _ _ => [e]
  end.

(** What the rest of the program guarantees about a call: CreateJob gets a
    job Enqueue normalised, UpdateJob the worker's claim under a token no row
    holds yet, and FailClaimedJob a retry only while the budget of the claim
    it ends is not spent. *)
Definition allowed (op : Op) (t : Jobs) : Prop :=
  match op with
  | OCreate _ job => fresh_job job
  | OUpdate env1 env2 job =>
      worker_claim job /\
      forall k r, intf env2 (intf env1 t) !! k = Some r -> lease_token r <> Some (Job_LeaseToken job)
  | OFail env key tok _ (Some _) =>
      forall r, intf env t !! key = Some r -> holds_lease tok r = true ->
      attempt r < task_max_retries r
  | _ => True
  end.

(** Under whose authority a call moves rows. *)
Definition acts (op : Op) (a : actor) : Prop :=
  match op with
  | OCreate _ job => a = Producer (Job_ID job)
  | OGet _ _ _ => False
  | OUpdate _ _ job => a = Claimant AnyTenant (Job_LeaseToken job)
  | OCancel _ _ tenant _ => a = Canceller tenant
  | OClaim env _ f =>
      exists tok, newLeaseToken (rand env) = Ok tok /\ a = Claimant (Filter_Tenant f) tok
  | ORenew _ job _ | ORelease _ job _ _ => a = Holder (Job_LeaseToken job)
  | OReap _ _ => a = Reaper
  | OComplete _ _ tok _ | OFail _ _ tok _ _ => a = Holder tok
  | ORequeueDead _ _ tenant _ => a = Requeuer tenant
  | ODelete _ _ _ _ => a = Retention
  end.

(** [keeps P env]: whatever other sessions do there preserves [P]. *)
Definition keeps (P : Jobs -> Prop) (env : Env Jobs) : Prop := forall t, P t -> P (intf env t).

Lemma GetJob_snd env tenant key t : (GetJob env tenant key t).2 = intf env t.
Proof.
  unfold GetJob, query_job, run_stmt. destruct (fault env); cbn; [|done|done].
  by destruct (intf env t !! key ≫= _).
Qed.

Lemma update_fenced_take job r :
  worker_claim job -> lease_token r <> Some (Job_LeaseToken job) -> update_fenced job r = true ->
  state r = JobStatePending /\ lease_token r = None.
Proof.
  intros (_ & Htok & _) Hne. unfold update_fenced.
  rewrite !orb_true_iff, !andb_true_iff, !bool_decide_eq_true. tauto.
Qed.

(** A run of the system: each call allowed where it happens. *)
Fixpoint run (ops : list Op) (t : Jobs) : Jobs :=
  match ops with [] => t | op :: ops' => run ops' (exec op t) end.

Fixpoint allowed_run (ops : list Op) (t : Jobs) : Prop :=
  match ops with [] => True | op :: ops' => allowed op t /\ allowed_run ops' (exec op t) end.

Definition envs_keep (P : Jobs -> Prop) (ops : list Op) : Prop :=
  Forall (fun op => Forall (keeps P) (op_envs op)) ops.

(** A predicate that every move creating no row preserves is preserved by
    every method as soon as its environments preserve it. *)
Section Preserve.
Variable A : actor -> Prop.
Variable P : Jobs -> Prop.
Hypothesis P_keyed : forall t, P t -> keyed t.
Hypothesis P_step : forall t t',
  table_step A t t' -> (forall k, t !! k = None -> t' !! k = None) -> P t -> P t'.
Hypothesis P_create : forall job now t,
  A (Producer (Job_ID job)) -> fresh_job job -> P t ->
  P (insert_job (job_row (stamp_job now job)) t).2.

Lemma P_update key cond f t :
  P t -> (forall r, t !! key = Some r -> cond r = true -> row_step A (Some r) (Some (f r))) ->
  P (update_by_id key cond f t).2.
Proof.
  intros Ht Hf. apply (P_step t); [by apply update_by_id_step| |done].
  intros k Hn. by rewrite update_by_id_lookup, Hn.
Qed.

Lemma P_exec_update env key cond f t :
  keeps P env -> P t ->
  (forall r, intf env t !! key = Some r -> cond r = true -> row_step A (Some r) (Some (f r))) ->
  P (exec_update env key cond f t).2.
Proof.
  intros Hk Ht Hf. unfold exec_update. apply run_stmt_pred; [by apply Hk|].
  pose proof (P_update key cond f _ (Hk _ Ht) Hf). by destruct (update_by_id _ _ _ _).
Qed.

Lemma P_GetJob env tenant key t : keeps P env -> P t -> P (GetJob env tenant key t).2.
Proof. intros Hk Ht. rewrite GetJob_snd. by apply Hk. Qed.

Lemma P_UpdateJob env1 env2 job t :
  A (Claimant AnyTenant (Job_LeaseToken job)) ->
  keeps P env1 -> keeps P env2 -> allowed (OUpdate env1 env2 job) t -> P t ->
  P (UpdateJob env1 env2 job t).2.
Proof.
  intros HA H1 H2 [Hw Hfresh] Ht. unfold UpdateJob.
  pose proof (GetJob_snd env1 AnyTenant (Job_ID job) t) as Hs.
  destruct (GetJob _ _ _ _) as [[ex|e] t1]; cbn in Hs; subst t1; [|by apply H1].
  destruct (negb _); [by apply H1|].
  match goal with |- context [run_stmt env2 ?st ?t1] =>
    assert (HP : P (run_stmt env2 st t1).2); [|by destruct (run_stmt env2 st t1) as [[?|?] ?]] end.
  apply run_stmt_pred; [by apply H2, H1|]. destruct (_ && _); [|by apply H2, H1].
  match goal with |- context [update_by_id ?k ?c ?f ?t1] =>
    assert (HP : P (update_by_id k c f t1).2); [|by destruct (update_by_id k c f t1)] end.
  apply P_update; [by apply H2, H1|]. intros r Hr Hf.
  apply update_fenced_take in Hf as [Hst Hnt]; [by constructor|done|by eapply Hfresh].
Qed.

(** The two methods that write, then read to tell absent from refused. *)
Lemma P_write_read {B} env1 env2 key cond f tenant (k1 k2 : result B) t :
  keeps P env1 -> keeps P env2 -> P t ->
  (forall r, intf env1 t !! key = Some r -> cond r = true -> row_step A (Some r) (Some (f r))) ->
  P (match exec_update env1 key cond f t with
     | (Error e, t1) => (Error e, t1)
     | (Ok n, t1) =>
         if n =? 0 then
           match GetJob env2 tenant key t1 with
           | (Error e, t2) => (Error e, t2)
           | (Ok _, t2) => (k1, t2)
           end
         else (k2, t1)
     end).2.
Proof.
  intros H1 H2 Ht Hf. pose proof (P_exec_update env1 key cond f t H1 Ht Hf) as HP.
  destruct (exec_update _ _ _ _ _) as [[n|e] t1]; cbn in HP; [|done].
  destruct (n =? 0); [|done]. pose proof (P_GetJob env2 tenant key t1 H2 HP) as HQ.
  by destruct (GetJob _ _ _ _) as [[?|?] ?].
Qed.

Lemma P_stmt {B} env (stmt : Jobs -> result B * Jobs) t :
  keeps P env -> P t -> (forall t, P t -> P (stmt t).2) -> P (run_stmt env stmt t).2.
Proof. intros Hk Ht Hs. apply run_stmt_pred; [by apply Hk|by apply Hs, Hk]. Qed.

Lemma P_claim_stmt env d tok f t :
  A (Claimant (Filter_Tenant f) tok) -> tok <> "" -> P t -> P (claim_stmt env d tok f t).2.
Proof.
  intros HA Htok Ht. apply (P_step t); [by apply claim_stmt_step; [|apply P_keyed|]| |done].
  intros k Hn. unfold claim_stmt. destruct (merge_sort _ _) as [|r l] eqn:E; [done|].
  destruct (int4_ok _); [|done]. cbn.
  apply (merge_sort_head claim_le) in E as [Hr _]. apply elem_of_Lfilter in Hr as [Hv _].
  apply elem_of_visible in Hv as [k' [_ Hk']]. rewrite lookup_insert_ne; [done|].
  rewrite (P_keyed _ Ht _ _ Hk'). congruence.
Qed.

Lemma P_reap_stmt env n t : A Reaper -> P t -> P (reap_stmt env n t).2.
Proof.
  intros HA Ht. apply (P_step t); [by apply reap_stmt_step; [|apply P_keyed]| |done].
  intros k Hn. unfold reap_stmt. cbn. rewrite lookup_update_rows.
  destruct (list_find _ _) as [[i r]|] eqn:E; [|done].
  apply list_find_Some in E as (Hl & Hid & _).
  apply list_elem_of_lookup_2, elem_of_take_in, elem_of_merge_sort, elem_of_Lfilter in Hl as [Hr _].
  apply elem_of_visible in Hr as [k' [_ Hk']]. rewrite (P_keyed _ Ht _ _ Hk') in Hid. congruence.
Qed.

Lemma P_prune_stmt env st before n t :
  A Retention -> st = JobStateCompleted \/ st = JobStateDead -> P t -> P (prune_stmt env st before n t).2.
Proof.
  intros HA Hst Ht. apply (P_step t); [apply prune_stmt_step; [done|by apply P_keyed|done]| |done].
  intros k Hn. unfold prune_stmt. cbn. rewrite lookup_delete_rows. by destruct (list_find _ _).
Qed.

Lemma P_CompleteClaimedJob env key tok meta t :
  A (Holder tok) -> keeps P env -> P t -> P (CompleteClaimedJob env key tok meta t).2.
Proof.
  intros HA Hk Ht. unfold CompleteClaimedJob. destruct (bool_decide _); [done|].
  match goal with |- context [run_stmt env ?st t] =>
    assert (HP : P (run_stmt env st t).2); [|by destruct (run_stmt env st t) as [[?|?] ?]] end.
  apply run_stmt_pred; [by apply Hk|].
  destruct (intf env t !! key) as [r|] eqn:E; [|by apply Hk].
  destruct (holds_lease tok r) eqn:Hh; [|by apply Hk]. cbn.
  assert (Hup : P (update_by_id key (holds_lease tok) (complete_row meta (NOW env)) (intf env t)).2).
  { apply P_update; [by apply Hk|]. intros r' _ Hr'. by apply rs_complete with tok. }
  unfold update_by_id in Hup. by rewrite E, Hh in Hup.
Qed.

(** The methods that are one fenced UPDATE and a check of the row count. *)
Lemma P_fenced {B} env key cond f (k : Z -> result B) t :
  keeps P env -> P t ->
  (forall r, intf env t !! key = Some r -> cond r = true -> row_step A (Some r) (Some (f r))) ->
  P (match exec_update env key cond f t with
     | (Error e, t1) => (Error e, t1)
     | (Ok n, t1) => (k n, t1)
     end).2.
Proof.
  intros Hk Ht Hf. pose proof (P_exec_update env key cond f t Hk Ht Hf) as HP.
  by destruct (exec_update _ _ _ _ _) as [[?|?] ?].
Qed.

Lemma P_CreateJob env job t :
  A (Producer (Job_ID job)) -> keeps P env -> fresh_job job -> P t -> P (CreateJob env job t).2.
Proof.
  intros HA Hk Hf Ht. unfold CreateJob.
  match goal with |- context [run_stmt env ?st t] =>
    assert (HP : P (run_stmt env st t).2) end.
  { apply P_stmt; [done..|]. intros. by apply P_create. }
  destruct (run_stmt _ _ _) as [[?|?] ?]; [done|]. by destruct (isIdempotencyUniqueViolation _).
Qed.

Lemma P_ClaimNextJob env d f t :
  (forall tok, newLeaseToken (rand env) = Ok tok -> A (Claimant (Filter_Tenant f) tok)) ->
  keeps P env -> P t -> P (ClaimNextJob env d f t).2.
Proof.
  intros HA Hk Ht. unfold ClaimNextJob. destruct (newLeaseToken _) as [tok|] eqn:E; [|done].
  pose proof (P_stmt env (claim_stmt env d tok f) t Hk Ht) as HP.
  destruct (run_stmt _ _ _) as [[?|?] ?]; apply HP; intros; apply P_claim_stmt;
    eauto using newLeaseToken_nonempty.
Qed.

(** One call, whatever happens around it. *)
Lemma exec_pred op t :
  (forall a, acts op a -> A a) ->
  Forall (keeps P) (op_envs op) -> allowed op t -> P t -> P (exec op t).
Proof.
  intros HA Henv Hal Ht. destruct op; cbn [exec op_envs acts] in *;
    rewrite ?Forall_cons in Henv; destruct_and?.
  - apply P_CreateJob; auto.
  - by apply P_GetJob.
  - apply P_UpdateJob; auto.
  - apply P_write_read; [done|done|done|]. intros r _ Hc. zbool.
    apply rs_cancel with tenant; auto.
  - apply P_ClaimNextJob; eauto.
  - unfold RenewLease. destruct (bool_decide _); [done|].
    apply (P_fenced env _ _ _ (fun n => if n =? 0 then Error ErrInvalidTransition else Ok ()));
      [done|done|]. intros r _ Hl. eapply rs_renew; eauto.
  - unfold RequeueExpiredRunning. destruct (_ <=? _); [done|].
    pose proof (P_stmt env (reap_stmt env limit) t ltac:(done) Ht) as HP.
    destruct (run_stmt _ _ _) as [[?|?] ?]; apply HP; auto using P_reap_stmt.
  - unfold ReleaseClaim.
    apply (P_fenced env _ _ _ (fun n => if n =? 0 then Error ErrInvalidTransition else Ok ()));
      [done|done|]. intros r _ Hl. eapply rs_release; eauto.
  - apply P_CompleteClaimedJob; auto.
  - unfold FailClaimedJob. destruct (bool_decide _); [done|].
    apply (P_fenced env _ _ _ (fun n => if n =? 0 then Error ErrLeaseLost else Ok ()));
      [done|done|]. intros r Hr Hl.
    destruct next; [eapply rs_retry|eapply rs_bury]; eauto.
  - apply P_write_read; [done|done|done|]. intros r _ Hc. zbool.
    apply rs_requeue with tenant; auto.
  - unfold DeleteFinished. destruct (_ && _) eqn:E; [done|]. destruct (_ <=? _); [done|].
    apply P_stmt; [done|done|]. intros. apply P_prune_stmt; [auto| |done].
    apply andb_false_iff in E as [E|E]; zbool; auto.
Qed.

Lemma run_pred ops t :
  (forall op a, op ∈ ops -> acts op a -> A a) ->
  envs_keep P ops -> allowed_run ops t -> P t -> P (run ops t).
Proof.
  intros HA Henv. revert t HA. induction Henv as [|op ops Hop Henv IH]; intros t HA Hal Ht; [done|].
  destruct Hal as [Ha Hal]. cbn. apply IH; [|done|].
  - intros op' a Hin. apply HA. by right.
  - apply exec_pred; [|done..]. intros a. apply HA. by left.
Qed.
End Preserve.

(** ** Traces

    [traced E O t t']: from [t] to [t'] by calls in [O], in environments in
    [E], each allowed where it happens.  The components above the store are
    shown to be such traces, and inherit what the store promises. *)

Definition traced (E : Env Jobs -> Prop) (O : Op -> Prop) (t t' : Jobs) : Prop :=
  exists ops, t' = run ops t /\ allowed_run ops t /\ Forall O ops /\
    Forall (fun op => Forall E (op_envs op)) ops.

Lemma traced_refl E O t : traced E O t t.
Proof. by exists []. Qed.

Lemma traced_cons (E : Env Jobs -> Prop) (O : Op -> Prop) op t t' :
  allowed op t -> O op -> Forall E (op_envs op) -> traced E O (exec op t) t' -> traced E O t t'.
Proof.
  intros Ha He Hv (ops & -> & Hal & Hen & Hev). exists (op :: ops). split; [done|]. split; [done|].
  by split; constructor.
Qed.

Lemma traced_one (E : Env Jobs -> Prop) (O : Op -> Prop) op t t' :
  t' = exec op t -> allowed op t -> O op -> Forall E (op_envs op) -> traced E O t t'.
Proof. intros -> ???. eapply traced_cons; eauto using traced_refl. Qed.

(** A read, whatever it reads. *)
Lemma traced_read (E : Env Jobs -> Prop) (O : Op -> Prop) env t :
  E env -> (forall env tenant key, O (OGet env tenant key)) -> traced E O t (intf env t).
Proof.
  intros He HO. eapply (traced_one _ _ (OGet env "" ""));
    [symmetry; apply GetJob_snd|done|done|by apply Forall_singleton].
Qed.

Lemma traced_trans E O t1 t2 t3 : traced E O t1 t2 -> traced E O t2 t3 -> traced E O t1 t3.
Proof.
  intros (ops & -> & Hal & Hen & Hev). revert t1 Hal.
  induction ops as [|op ops IH]; intros t1 Hal H3; [done|].
  apply Forall_cons in Hen as [? ?]. apply Forall_cons in Hev as [? ?]. destruct Hal as [? ?].
  eapply traced_cons; eauto.
Qed.

Lemma traced_pred (A : actor -> Prop) (P : Jobs -> Prop) E (O : Op -> Prop) t t' :
  (forall t, P t -> keyed t) ->
  (forall t t', table_step A t t' -> (forall k, t !! k = None -> t' !! k = None) -> P t -> P t') ->
  (forall job now t, A (Producer (Job_ID job)) -> fresh_job job -> P t ->
     P (insert_job (job_row (stamp_job now job)) t).2) ->
  (forall op a, O op -> acts op a -> A a) -> (forall env, E env -> keeps P env) ->
  traced E O t t' -> P t -> P t'.
Proof.
  intros Hk Hs Hc HA HE (ops & -> & Hal & Hen & Hev). rewrite Forall_forall in Hen.
  apply (run_pred A P Hk Hs Hc); [by eauto| |done].
  eapply Forall_impl; [exact Hev|]. intros op Hop. eapply Forall_impl; [exact Hop|]. exact HE.
Qed.

(** ** The table invariant *)

Lemma table_ok_empty : table_ok ∅.
Proof. split; intros ? **; by rewrite lookup_empty in *. Qed.

Lemma exec_ok op t :
  Forall (keeps table_ok) (op_envs op) -> allowed op t -> table_ok t -> table_ok (exec op t).
Proof.
  apply (exec_pred (fun _ => True)); auto using ok_keyed.
  - intros ??. apply table_step_ok.
  - intros. by apply insert_job_ok.
Qed.

Lemma run_ok ops t :
  envs_keep table_ok ops -> allowed_run ops t -> table_ok t -> table_ok (run ops t).
Proof.
  apply (run_pred (fun _ => True)); auto using ok_keyed.
  - intros ??. apply table_step_ok.
  - intros. by apply insert_job_ok.
Qed.

(** C1. Whatever sequence of store calls the program makes, from any number
    of sessions, with faults and clock skew, starting from the empty table,
    the table is well formed: ids are keys, idempotency keys are unique per
    tenant, a row is RUNNING exactly when it carries a lease, its retry
    budget is never exceeded, terminal rows carry completed_at, and FAILED
    never occurs. *)
Theorem store_invariant (ops : list Op) :
  envs_keep table_ok ops -> allowed_run ops ∅ -> table_ok (run ops ∅).
Proof. intros. apply run_ok; [done..|]. apply table_ok_empty. Qed.
