(* ===== verification/JobSpec.v ===== *)
(** * What the job store promises

    The abstract lease queue that the [jobs] table implements, and the
    refinement: every run of store calls, however interleaved, is a sequence
    of moves of the abstract machine, each made by an actor entitled to it.
    Then the guarantees that clients rely on, as consequences of the moves:
    a lost lease stays lost, a finished job stays finished, a tenant's calls
    leave the other tenants alone. *)

From S2P Require Import Prelude Models JobStore JobFacts JobSystem.

(** ** The abstract lease queue *)

Inductive phase :=
  | Waiting (n : Z)                   (* attempts spent *)
  | Leased (tok : string) (n : Z)
  | Finished
  | Buried.

Record sjob := mkSjob { owner : string; budget : Z; now_in : phase }.

Abbreviation spec := (gmap string sjob).

Definition in_tenant (tenant o : string) : Prop := tenant = AnyTenant \/ o = tenant.

(** The moves of one abstract job. *)
Inductive sp_step (A : actor -> Prop) : option sjob -> option sjob -> Prop :=
  | sp_same o : sp_step A o o
  | sp_submit key tenant b : A (Producer key) -> 0 < b ->
      sp_step A None (Some (mkSjob tenant b (Waiting 0)))
  | sp_claim o b n tenant tok : A (Claimant tenant tok) -> in_tenant tenant o ->
      tok <> "" -> n < b ->
      sp_step A (Some (mkSjob o b (Waiting n))) (Some (mkSjob o b (Leased tok (n + 1))))
  | sp_take o b n tok : A (Claimant AnyTenant tok) -> tok <> "" ->
      sp_step A (Some (mkSjob o b (Waiting n))) (Some (mkSjob o b (Leased tok 1)))
  | sp_finish o b n tok : A (Holder tok) ->
      sp_step A (Some (mkSjob o b (Leased tok n))) (Some (mkSjob o b Finished))
  | sp_retry o b n tok : A (Holder tok) -> n < b ->
      sp_step A (Some (mkSjob o b (Leased tok n))) (Some (mkSjob o b (Waiting n)))
  | sp_give_back o b n tok : A (Holder tok) -> 0 < n ->
      sp_step A (Some (mkSjob o b (Leased tok n))) (Some (mkSjob o b (Waiting (n - 1))))
  | sp_bury o b n tok : A (Holder tok) ->
      sp_step A (Some (mkSjob o b (Leased tok n))) (Some (mkSjob o b Buried))
  | sp_expire o b n tok : A Reaper ->
      sp_step A (Some (mkSjob o b (Leased tok n)))
                (Some (mkSjob o b (if b <=? n then Buried else Waiting n)))
  | sp_cancel_waiting o b n tenant : A (Canceller tenant) -> in_tenant tenant o ->
      sp_step A (Some (mkSjob o b (Waiting n))) (Some (mkSjob o b Buried))
  | sp_cancel_leased o b n tok tenant : A (Canceller tenant) -> in_tenant tenant o ->
      sp_step A (Some (mkSjob o b (Leased tok n))) (Some (mkSjob o b Buried))
  | sp_revive o b tenant : A (Requeuer tenant) -> in_tenant tenant o ->
      sp_step A (Some (mkSjob o b Buried)) (Some (mkSjob o b (Waiting 0)))
  | sp_forget_finished o b : A Retention -> sp_step A (Some (mkSjob o b Finished)) None
  | sp_forget_buried o b : A Retention -> sp_step A (Some (mkSjob o b Buried)) None.

#[export] Hint Constructors sp_step : conduit.

Definition spec_step (A : actor -> Prop) (s s' : spec) : Prop :=
  forall k, sp_step A (s !! k) (s' !! k).

(** ** The abstraction function *)

Definition abs_phase (r : JobRow) : phase :=
  match state r with
  | JobStateRunning => Leased (default "" (lease_token r)) (attempt r)
  | JobStateCompleted => Finished
  | JobStateDead => Buried
  | _ => Waiting (attempt r)
  end.

Definition abs_row (r : JobRow) : sjob := mkSjob (tenant_id r) (task_max_retries r) (abs_phase r).

Definition abs (t : Jobs) : spec := abs_row <$> t.

Lemma tenant_matches_spec tenant r :
  tenant_matches tenant r = true <-> in_tenant tenant (tenant_id r).
Proof. unfold tenant_matches. by rewrite orb_true_iff, !bool_decide_eq_true. Qed.

Lemma row_step_sim A o o' :
  row_step A o o' -> (forall r, o = Some r -> row_ok r) ->
  sp_step A (abs_row <$> o) (abs_row <$> o').
Proof.
  intros Hs Hok.
  destruct Hs as [o|job now HA Hf _|r tn now ex tok HA Htn Hst Ht|r now job HA Hst Hnt Hw
    |r tok ex now HA Hst|r tok why nx now HA Hst|r tok mt now HA Hst|r tok msg nx now HA Hst Hlt
    |r tok msg now HA Hst|r now HA Hst|r tn now HA Htn Hst|r tn now HA Htn Hst|r HA Hst];
    try (assert (Hr : row_ok r) by (by apply Hok); clear Hok);
    try apply tenant_matches_spec in Htn; from_state; unfold row_ok in *; cbn;
    unfold abs_row, abs_phase; row_unfold; cbn;
    repeat match goal with
    | H : state r = _ |- _ => rewrite H in *
    | H : lease_token r = _ |- _ => rewrite H in *
    end; destruct_and?; cbn; eauto with conduit.
  - destruct Hf as (Hst & Hatt & _ & _ & _ & _ & _ & Hmax). rewrite Hst, Hatt. by eapply sp_submit.
  - destruct Hw as (Hjs & Htok & Hatt & _). rewrite Hjs, Hatt. unfold nullableString.
    rewrite bool_decide_false by done. by apply sp_take.
  - rewrite Z.max_l by lia. by apply sp_give_back with (n := attempt r).
  - pose proof (sp_expire A (tenant_id r) (task_max_retries r) (attempt r)) as He.
    destruct (_ <=? _); cbn; by apply He.
Qed.

Lemma table_step_sim A t t' : table_ok t -> table_step A t t' -> spec_step A (abs t) (abs t').
Proof.
  intros Hok Hs k. unfold abs. rewrite !lookup_fmap. apply row_step_sim; [apply Hs|].
  intros r Hr. by eapply ok_rows.
Qed.

(** ** Refinement *)

(** What other sessions may do around a call: moves of the actors of [A]. *)
Definition env_moves (A : actor -> Prop) (env : Env Jobs) : Prop :=
  forall t, table_ok t -> table_ok (intf env t) /\ rtc (spec_step A) (abs t) (abs (intf env t)).

Definition reached (A : actor -> Prop) (s0 : spec) (t : Jobs) : Prop :=
  table_ok t /\ rtc (spec_step A) s0 (abs t).

Lemma insert_job_step A job now t :
  A (Producer (Job_ID job)) -> fresh_job job ->
  table_step A t (insert_job (job_row (stamp_job now job)) t).2.
Proof.
  intros HA Hf. unfold insert_job. destruct (negb _) eqn:Hn; [apply table_step_refl|].
  destruct (t !! _) eqn:E; [apply table_step_refl|].
  destruct (bool_decide _); [apply table_step_refl|]. zbool. intros k. cbn. rewrite lookup_insert.
  destruct (decide (_ = k)) as [<-|]; [|constructor]. cbn in E. rewrite E. by constructor.
Qed.

(** C2. The store implements the lease queue: however calls of the store
    interleave with other sessions, fail or lose their reply, the table's
    abstraction moves only by steps of the abstract machine, each made by an
    actor of the calls or of the environment. *)
Theorem store_refines_lease_queue (A : actor -> Prop) (ops : list Op) (t : Jobs) :
  (forall op a, op ∈ ops -> acts op a -> A a) ->
  Forall (fun op => Forall (env_moves A) (op_envs op)) ops ->
  allowed_run ops t -> table_ok t ->
  table_ok (run ops t) /\ rtc (spec_step A) (abs t) (abs (run ops t)).
Proof.
  intros HA Henv Hal Ht. apply (run_pred A (reached A (abs t))).
  - intros t' [H _]. apply ok_keyed, H.
  - intros t1 t2 Hs Hdom [Hok Hr]. split; [by eapply table_step_ok|].
    eapply rtc_r; [done|]. by apply table_step_sim.
  - intros job now t1 HP Hf [Hok Hr]. split; [by apply insert_job_ok|].
    eapply rtc_r; [done|]. by apply table_step_sim, insert_job_step.
  - done.
  - eapply Forall_impl; [apply Henv|]. intros op Hop. eapply Forall_impl; [apply Hop|].
    intros env Hm t1 [Hok Hr]. destruct (Hm t1 Hok) as [Hok' Hr']. split; [done|]. by etrans.
  - done.
  - split; [done|]. constructor.
Qed.
