(* ===== verification/Breaker.v ===== *)
(** * internal/circuitbreaker: the three-state breaker

    [Breaker] is the struct of circuitbreaker.go, its methods are functions
    from the breaker (and the wall clock where the code reads it) to the new
    breaker.  Each method runs under [b.mu], so a sequence of calls is a
    sequence of these functions.  The facts below give the invariant of every
    reachable breaker, when it trips, that it fails fast while open, when it
    recovers, and the configurations in which it cannot recover. *)

From S2P Require Import Prelude.

Inductive State := StateClosed | StateOpen | StateHalfOpen.

#[global] Instance State_eq_dec : EqDecision State.
Proof. solve_decision. Defined.

Record Config := mkConfig {
  FailureThreshold : Z;
  SuccessThreshold : Z;
  OpenTimeout : Dur;
  HalfOpenRequests : Z
}.

Record Breaker := mkBreaker {
  cfg : Config;
  state : State;
  failures : Z;
  successes : Z;
  openedAt : Time
}.

Definition New (c : Config) : Breaker :=
  let ft := if FailureThreshold c <=? 0 then 5 else FailureThreshold c in
  let st := if SuccessThreshold c <=? 0 then 2 else SuccessThreshold c in
  let ot := if OpenTimeout c <=? 0 then 60 * Second else OpenTimeout c in
  let hr := if HalfOpenRequests c <=? 0 then 1 else HalfOpenRequests c in
  mkBreaker (mkConfig ft st ot hr) StateClosed 0 0 0.

Definition Allow (now : Time) (b : Breaker) : bool * Breaker :=
  match state b with
  | StateClosed => (true, b)
  | StateOpen =>
      if OpenTimeout (cfg b) <=? Sub now (openedAt b)
      then (true, mkBreaker (cfg b) StateHalfOpen 0 0 (openedAt b))
      else (false, b)
  | StateHalfOpen => (successes b <? HalfOpenRequests (cfg b), b)
  end.

Definition RecordSuccess (b : Breaker) : Breaker :=
  match state b with
  | StateHalfOpen =>
      let n := successes b + 1 in
      if SuccessThreshold (cfg b) <=? n
      then mkBreaker (cfg b) StateClosed 0 0 (openedAt b)
      else mkBreaker (cfg b) StateHalfOpen (failures b) n (openedAt b)
  | StateClosed => mkBreaker (cfg b) StateClosed 0 (successes b) (openedAt b)
  | StateOpen => b
  end.

Definition RecordFailure (now : Time) (b : Breaker) : Breaker :=
  match state b with
  | StateClosed =>
      let n := failures b + 1 in
      if FailureThreshold (cfg b) <=? n
      then mkBreaker (cfg b) StateOpen n (successes b) now
      else mkBreaker (cfg b) StateClosed n (successes b) (openedAt b)
  | StateHalfOpen => mkBreaker (cfg b) StateOpen 0 0 now
  | StateOpen => b
  end.

(** ** Sequences of calls *)

Inductive call :=
  | CAllow (now : Time)
  | CSuccess
  | CFailure (now : Time).

Definition call_step (b : Breaker) (c : call) : Breaker :=
  match c with
  | CAllow now => snd (Allow now b)
  | CSuccess => RecordSuccess b
  | CFailure now => RecordFailure now b
  end.

Definition calls (b : Breaker) (cs : list call) : Breaker := fold_left call_step cs b.

(** One guarded execution, the way jobWorker.Run uses the breaker: ask
    [Allow], run only when it says yes, record the outcome.  The result says
    whether the task ran. *)
Definition guarded (b : Breaker) (now : Time) (ok : bool) (done : Time) : bool * Breaker :=
  match Allow now b with
  | (false, b1) => (false, b1)
  | (true, b1) => (true, if ok then RecordSuccess b1 else RecordFailure done b1)
  end.

Fixpoint guarded_runs (b : Breaker) (l : list (Time * bool * Time)) : list bool * Breaker :=
  match l with
  | [] => ([], b)
  | (now, ok, done) :: l' =>
      let '(ran, b1) := guarded b now ok done in
      let '(rs, b2) := guarded_runs b1 l' in
      (ran :: rs, b2)
  end.

(** ** The invariant *)

Definition config_ok (c : Config) : Prop :=
  0 < FailureThreshold c /\ 0 < SuccessThreshold c /\
  0 < OpenTimeout c /\ 0 < HalfOpenRequests c.

Definition breaker_ok (b : Breaker) : Prop :=
  config_ok (cfg b) /\
  match state b with
  | StateClosed => 0 <= failures b < FailureThreshold (cfg b) /\ successes b = 0
  | StateOpen => 0 <= failures b <= FailureThreshold (cfg b) /\ successes b = 0
  | StateHalfOpen => failures b = 0 /\ 0 <= successes b < SuccessThreshold (cfg b)
  end.

Ltac breaker_crush :=
  unfold breaker_ok, config_ok, Allow, RecordSuccess, RecordFailure in *;
  repeat (cbn in *; case_goal); cbn in *; zbool; destruct_and?; split_and?; lia || done.

Lemma New_ok c : breaker_ok (New c).
Proof. unfold breaker_ok, config_ok, New, Second; cbn. repeat case_goal; cbn; zbool; lia. Qed.

Lemma call_step_ok b c : breaker_ok b -> breaker_ok (call_step b c).
Proof. intros [Hc Hs]. destruct c, (state b) eqn:E; cbn; breaker_crush. Qed.

Lemma calls_ok b cs : breaker_ok b -> breaker_ok (calls b cs).
Proof.
  revert b. induction cs as [|c cs IH]; intros b Hb; [done|].
  apply IH. by apply call_step_ok.
Qed.

(** [breakerCfg] of cmd/server/main.go, the configuration every per-task
    breaker of the server is built with. *)
Definition breakerCfg : Config := mkConfig 5 2 (30 * Second) 1.

(** ** Consecutive failures *)

Lemma failures_from_closed b ts :
  breaker_ok b -> state b = StateClosed ->
  let b' := calls b (CFailure <$> ts) in
  (failures b + Z.of_nat (length ts) < FailureThreshold (cfg b) ->
     state b' = StateClosed /\ failures b' = failures b + Z.of_nat (length ts)) /\
  (FailureThreshold (cfg b) <= failures b + Z.of_nat (length ts) -> state b' = StateOpen).
Proof.
  revert b. induction ts as [|t ts IH]; intros b Hb Hst; cbn zeta.
  - cbn. split; [intros; split; [done|lia]|]. destruct Hb as [_ Hb]. rewrite Hst in Hb. lia.
  - cbn [fmap list_fmap]. unfold calls. cbn [fold_left].
    change (fold_left call_step ?l ?x) with (calls x l).
    pose proof (call_step_ok b (CFailure t) Hb) as Hb'.
    cbn [call_step] in *. unfold RecordFailure in *. rewrite Hst in *. cbn [length].
    destruct (FailureThreshold (cfg b) <=? failures b + 1) eqn:E; zbool.
    + split; [lia|]. intros _. generalize (failures b + 1) as n. intros n.
      clear IH Hb'. induction ts as [|t' ts IH2]; [done|]. cbn. apply IH2.
    + destruct (IH _ Hb' eq_refl) as [IH1 IH2]. cbn [failures cfg] in IH1, IH2.
      split; intros H; [destruct IH1 as [-> ->]; [lia|]; split; [done|lia]|apply IH2; lia].
Qed.

(** A fresh breaker trips exactly at its threshold: after [n]
    consecutive failures it is still closed when [n] is below the failure
    threshold and open when it is not. *)
Theorem breaker_trips_at_threshold (c : Config) (ts : list Time) :
  state (calls (New c) (CFailure <$> ts)) =
  if Z.of_nat (length ts) <? FailureThreshold (cfg (New c)) then StateClosed else StateOpen.
Proof.
  destruct (failures_from_closed (New c) ts (New_ok c) eq_refl) as [H1 H2].
  change (failures (New c)) with 0 in *.
  destruct (_ <? _) eqn:E; zbool; [apply H1; lia|apply H2; lia].
Qed.

(** ** Fail-fast while open *)

Definition within_open (b : Breaker) (x : Time * bool * Time) : Prop :=
  Sub (x.1.1) (openedAt b) < OpenTimeout (cfg b).

(** While the open timeout has not elapsed an open breaker refuses every
    execution and does not change. *)
Theorem breaker_open_refuses (b : Breaker) (l : list (Time * bool * Time)) :
  state b = StateOpen -> Forall (within_open b) l ->
  guarded_runs b l = (replicate (length l) false, b).
Proof.
  intros Hst Hl. induction Hl as [|[[now ok] dn] l Hx Hl IH]; [done|].
  cbn [guarded_runs]. unfold guarded, Allow. rewrite Hst.
  unfold within_open in Hx. cbn [fst] in Hx.
  rewrite (proj2 (Z.leb_gt _ _) Hx), IH. done.
Qed.

Lemma breaker_open_refuses_witness :
  let b := calls (New breakerCfg) (CFailure <$> [1; 2; 3; 4; 5]) in
  guarded_runs b [(6, true, 7); (29 * Second, true, 30)] = ([false; false], b).
Proof.
  intros b. apply (breaker_open_refuses b [(6, true, 7); (29 * Second, true, 30)]).
  - reflexivity.
  - repeat constructor; vm_compute; reflexivity.
Defined.

(** ** Recovery *)

Lemma half_open_successes b l :
  state b = StateHalfOpen -> breaker_ok b ->
  SuccessThreshold (cfg b) <= HalfOpenRequests (cfg b) ->
  Forall (fun x => x.1.2 = true) l ->
  successes b + Z.of_nat (length l) = SuccessThreshold (cfg b) ->
  (guarded_runs b l).1 = replicate (length l) true /\ state (guarded_runs b l).2 = StateClosed.
Proof.
  intros Hst Hok Hcfg Hl. revert b Hst Hok Hcfg.
  induction Hl as [|[[now ok] dn] l Hx Hl IH]; intros b Hst Hok Hcfg Hn.
  { cbn in Hn. destruct Hok as [_ Hok]. rewrite Hst in Hok. lia. }
  cbn in Hx. subst ok. cbn [guarded_runs length] in *.
  unfold guarded, Allow. rewrite Hst.
  rewrite (proj2 (Z.ltb_lt _ _)) by lia.
  unfold RecordSuccess. rewrite Hst.
  destruct (SuccessThreshold (cfg b) <=? successes b + 1) eqn:E; zbool.
  - destruct l; [done|cbn in Hn; lia].
  - pose proof (call_step_ok b CSuccess Hok) as Hok'.
    cbn [call_step] in Hok'. unfold RecordSuccess in Hok'. rewrite Hst in Hok'.
    rewrite (proj2 (Z.leb_gt _ _)) in Hok' by lia.
    destruct (IH (mkBreaker (cfg b) StateHalfOpen (failures b) (successes b + 1) (openedAt b)))
      as [IH1 IH2]; [done|done|done|cbn; lia|].
    destruct (guarded_runs _ l) as [rs b2]. cbn in *. by rewrite IH1.
Qed.

(** When the half-open budget covers the success threshold, an open
    breaker whose timeout has elapsed recovers: as many successful guarded
    executions as the success threshold all run and leave it closed. *)
Theorem breaker_recovers (b : Breaker) (now dn : Time) (l : list (Time * bool * Time)) :
  breaker_ok b -> state b = StateOpen ->
  OpenTimeout (cfg b) <= Sub now (openedAt b) ->
  SuccessThreshold (cfg b) <= HalfOpenRequests (cfg b) ->
  Forall (fun x => x.1.2 = true) l ->
  Z.of_nat (S (length l)) = SuccessThreshold (cfg b) ->
  (guarded_runs b ((now, true, dn) :: l)).1 = replicate (S (length l)) true /\
  state (guarded_runs b ((now, true, dn) :: l)).2 = StateClosed.
Proof.
  intros Hok Hst Ht Hcfg Hl Hn.
  set (h := mkBreaker (cfg b) StateHalfOpen 0 0 (openedAt b)).
  assert (Hh : breaker_ok h).
  { destruct Hok as [Hc _]. split; [done|]. destruct Hc. cbn. lia. }
  destruct (half_open_successes h ((now, true, dn) :: l)) as [H1 H2];
    [done|done|done|by constructor|cbn in *; lia|].
  cbn [guarded_runs length] in *.
  assert (Hg : guarded b now true dn = guarded h now true dn).
  { unfold guarded, Allow. rewrite Hst. rewrite (proj2 (Z.leb_le _ _) Ht).
    cbn [state successes cfg h].
    rewrite (proj2 (Z.ltb_lt _ _)); [done|]. destruct Hok as [[? [? ?]] _]. lia. }
  rewrite Hg. done.
Qed.

Lemma breaker_recovers_witness :
  let b := calls (New (mkConfig 1 2 10 2)) [CFailure 5] in
  (guarded_runs b [(15, true, 16); (17, true, 18)]).1 = [true; true] /\
  state (guarded_runs b [(15, true, 16); (17, true, 18)]).2 = StateClosed.
Proof.
  intros b. apply (breaker_recovers b 15 16 [(17, true, 18)]).
  - apply calls_ok, New_ok.
  - reflexivity.
  - vm_compute. discriminate.
  - vm_compute. discriminate.
  - repeat constructor.
  - reflexivity.
Defined.

(** ** Configurations that cannot recover *)

Lemma half_open_wedged b l :
  state b = StateHalfOpen -> HalfOpenRequests (cfg b) <= successes b ->
  guarded_runs b l = (replicate (length l) false, b).
Proof.
  intros Hst Hs. induction l as [|[[now ok] dn] l IH]; [done|].
  cbn [guarded_runs]. unfold guarded, Allow. rewrite Hst.
  rewrite (proj2 (Z.ltb_ge _ _) Hs), IH. done.
Qed.

(** With the server's configuration (half-open budget 1 below success
    threshold 2) a breaker that opened never closes again once a single probe
    has succeeded with nothing else in flight: whatever attempts follow, and
    whenever they come, none of them runs. *)
Theorem server_breaker_wedges (b : Breaker) (now dn : Time) (l : list (Time * bool * Time)) :
  cfg b = cfg (New breakerCfg) -> state b = StateOpen ->
  OpenTimeout (cfg b) <= Sub now (openedAt b) ->
  let b1 := (guarded b now true dn).2 in
  state b1 = StateHalfOpen /\
  guarded_runs b1 l = (replicate (length l) false, b1).
Proof.
  intros Hc Hst Ht. cbn zeta.
  unfold guarded, Allow. rewrite Hst, (proj2 (Z.leb_le _ _) Ht), Hc.
  split; [reflexivity|]. apply half_open_wedged; [reflexivity|].
  vm_compute. discriminate.
Qed.

Lemma server_breaker_wedges_witness :
  let b := calls (New breakerCfg) (CFailure <$> [1; 2; 3; 4; 5]) in
  let b1 := (guarded b (31 * Second) true (32 * Second)).2 in
  state b1 = StateHalfOpen /\
  guarded_runs b1 [(100 * Second, true, 101 * Second); (1000 * Hour, true, 1001 * Hour)]
  = ([false; false], b1).
Proof.
  intros b. apply (server_breaker_wedges b (31 * Second) (32 * Second)
    [(100 * Second, true, 101 * Second); (1000 * Hour, true, 1001 * Hour)]).
  - reflexivity.
  - reflexivity.
  - vm_compute. discriminate.
Defined.

(** Every breaker built by [New], whatever its configuration, satisfies
    the invariant after any sequence of calls: positive thresholds, and
    counters that stay below the threshold of the state they count in. *)
Theorem breaker_reachable_ok (c : Config) (cs : list call) : breaker_ok (calls (New c) cs).
Proof. apply calls_ok, New_ok. Qed.
