(* ===== verification/JobProps.v ===== *)
(** * Guarantees of the job store

    Fencing: who may end a claim, and that a lost lease stays lost.
    Finality: what never changes again.  Isolation: what a tenant's calls
    cannot touch.  Then what each statement selects. *)

From S2P Require Import Prelude Models JobStore JobFacts JobSystem JobSpec.

(** ** Concrete data for the witnesses *)

Definition demo_now : Time := ofUnix 1700000000.

Definition demo_task : Task :=
  mkTask "t1" "http.webhook" (Some "{}") 0 3 (30 * Second) "" DefaultQueue None 5.

Definition demo_job (key tenant : string) : Job :=
  mkJob key tenant "" demo_task JobStatePending 0 (Some demo_now) None None "" None "" None 0 0.

Definition demo_env (ids : list string) (b : Z) : Env Jobs := calm demo_now ids [b].

(** The token a session mints from the random bytes [b, 0, 0, ...]. *)
Definition demo_token (b : Z) : string :=
  match newLeaseToken (Some [b]) with Ok tok => tok | Error _ => "" end.

Definition demo_filter (tenant : string) : ClaimFilter := mkClaimFilter tenant [] [].

Definition demo_create (key tenant : string) : Op := OCreate (demo_env [] 0) (demo_job key tenant).
Definition demo_claim (ids : list string) (b : Z) : Op :=
  OClaim (demo_env ids b) (30 * Second) (demo_filter AnyTenant).

(** Two waiting jobs of two tenants; then the first one leased. *)
Definition demo_table : Jobs := run [demo_create "j1" "acme"; demo_create "j2" "globex"] ∅.
Definition demo_leased : Jobs := run [demo_claim ["j1"] 7] demo_table.

Lemma keeps_calm P now ids bytes : keeps P (calm now ids bytes).
Proof. by intros t Ht. Qed.
#[export] Hint Resolve keeps_calm : conduit.

Ltac calm_envs := repeat first [apply keeps_calm | constructor].
(** Calls that nothing is required of. *)
Ltac calm_calls := repeat (split; [exact I|]); exact I.

Lemma demo_fresh key tenant : fresh_job (demo_job key tenant).
Proof. by repeat split; eauto. Qed.
#[export] Hint Resolve demo_fresh : conduit.

Lemma demo_table_ok : table_ok demo_table.
Proof. apply run_ok; [calm_envs| |apply table_ok_empty].
  repeat split; eauto with conduit. Qed.

Lemma demo_leased_ok : table_ok demo_leased.
Proof. apply run_ok; [calm_envs|calm_calls|apply demo_table_ok]. Qed.

(** ** Fencing *)

(** No session holds [key] under [tok]. *)
Definition not_held (key tok : string) (t : Jobs) : Prop :=
  forall r, t !! key = Some r -> lease_token r <> Some tok.

Lemma not_held_holds key tok t r : not_held key tok t -> t !! key = Some r -> holds_lease tok r = false.
Proof.
  intros Hn Hr. apply not_true_iff_false. intros [_ Hl]%holds_lease_spec. by apply (Hn r).
Qed.

(** A keyed update whose condition fails changes nothing. *)
Lemma update_by_id_miss key cond f (t : Jobs) :
  (forall r, t !! key = Some r -> cond r = false) -> update_by_id key cond f t = (0, t).
Proof. intros H. unfold update_by_id. destruct (t !! key) eqn:E; [by rewrite H|done]. Qed.

Lemma update_by_id_hit key cond f (t : Jobs) r :
  t !! key = Some r -> cond r = true -> update_by_id key cond f t = (1, <[key := f r]> t).
Proof. intros Hr Hc. unfold update_by_id. by rewrite Hr, Hc. Qed.

Lemma exec_update_miss env key cond f t :
  fault env = NoFault -> (forall r, intf env t !! key = Some r -> cond r = false) ->
  exec_update env key cond f t = (Ok 0, intf env t).
Proof. intros Hf H. unfold exec_update, run_stmt. by rewrite Hf, update_by_id_miss. Qed.

Lemma exec_update_hit env key cond f t r :
  fault env = NoFault -> intf env t !! key = Some r -> cond r = true ->
  exec_update env key cond f t = (Ok 1, <[key := f r]> (intf env t)).
Proof. intros Hf Hr Hc. unfold exec_update, run_stmt. by rewrite Hf, (update_by_id_hit _ _ _ _ r). Qed.

Lemma complete_refused env key tok meta t :
  fault env = NoFault -> tok <> "" -> not_held key tok (intf env t) ->
  CompleteClaimedJob env key tok meta t = (Error ErrLeaseLost, intf env t).
Proof.
  intros Hf Htok Hn. unfold CompleteClaimedJob, run_stmt. rewrite bool_decide_false, Hf by done.
  destruct (intf env t !! key) as [r|] eqn:E; [|done]. by rewrite (not_held_holds key tok _ r Hn E).
Qed.

(** C3. A worker presenting a token that is not the row's current lease gets
    ErrLeaseLost from complete and fail, ErrInvalidTransition from renew and
    release, and the table is as the other sessions left it. *)
Theorem stale_token_refused (env : Env Jobs) (t : Jobs) (job : Job)
    (meta : StrMap) (msg reason : string) (next : option Time) (d : Dur) :
  fault env = NoFault -> Job_LeaseToken job <> "" ->
  not_held (Job_ID job) (Job_LeaseToken job) (intf env t) ->
  let t1 := intf env t in
  CompleteClaimedJob env (Job_ID job) (Job_LeaseToken job) meta t = (Error ErrLeaseLost, t1) /\
  FailClaimedJob env (Job_ID job) (Job_LeaseToken job) msg next t = (Error ErrLeaseLost, t1) /\
  RenewLease env job d t = (Error ErrInvalidTransition, t1) /\
  ReleaseClaim env job reason d t = (Error ErrInvalidTransition, t1).
Proof.
  intros Hf Htok Hn. cbn. split; [by apply complete_refused|].
  assert (Hno : forall r, intf env t !! Job_ID job = Some r -> holds_lease (Job_LeaseToken job) r = false)
    by (intros r; by apply not_held_holds).
  unfold FailClaimedJob, RenewLease, ReleaseClaim.
  by rewrite bool_decide_false, !exec_update_miss.
Qed.

Lemma stale_token_refused_witness :
  CompleteClaimedJob (demo_env [] 0) "j1" (demo_token 9) None demo_leased
    = (Error ErrLeaseLost, demo_leased).
Proof.
  pose (job := mkJob "j1" "" "" zeroTask JobStateRunning 1 None None None (demo_token 9) None "" None 0 0).
  apply (stale_token_refused (demo_env [] 0) demo_leased job None "" "" None 0);
    [done|done|].
  intros r Hr. vm_compute in Hr. injection Hr as <-. done.
Defined.

(** C4. The holder of the current lease is served: complete makes the row
    COMPLETED with the reported metadata over what was there, fail with a retry makes it PENDING
    at the given time, fail without one makes it DEAD, release gives the
    attempt back; in every case only that row changes. *)
Theorem holder_served (env : Env Jobs) (t : Jobs) (r : JobRow) (key tok : string)
    (meta : StrMap) (msg : string) (next : option Time) :
  fault env = NoFault -> tok <> "" -> intf env t !! key = Some r -> holds_lease tok r = true ->
  let t1 := intf env t in
  (let r' := complete_row meta (NOW env) r in
   state r' = JobStateCompleted /\ lease_token r' = None /\
   (forall m, metadata r = Some (JsonObject m) -> exists m', metadata r' = Some (JsonObject m') /\
      forall k, m' !! k = match default ∅ meta !! k with Some v => Some (Some v) | None => m !! k end) /\
   CompleteClaimedJob env key tok meta t = (Ok (scanJob r'), <[key := r']> t1)) /\
  (let r' := fail_row msg (pg_ts <$> next) (NOW env) r in
   state r' = match next with Some _ => JobStatePending | None => JobStateDead end /\ attempt r' = attempt r /\
   lease_token r' = None /\
   last_error r' = msg /\ (next <> None -> scheduled_at r' = pg_ts <$> next) /\
   FailClaimedJob env key tok msg next t = (Ok tt, <[key := r']> t1)) /\
  (forall job d, Job_ID job = key -> Job_LeaseToken job = tok ->
   let r' := release_row msg (pg_ts (Add (gonow env) d)) (NOW env) r in
   state r' = JobStatePending /\ attempt r' = Z.max (attempt r - 1) 0 /\ lease_token r' = None /\
   ReleaseClaim env job msg d t = (Ok tt, <[key := r']> t1)) /\
  (forall job d, Job_ID job = key -> Job_LeaseToken job = tok ->
   let r' := renew_row (pg_ts (Add (gonow env) d)) (NOW env) r in
   state r' = state r /\ lease_token r' = Some tok /\
   lease_expires_at r' = Some (pg_ts (gonow env + d)) /\
   RenewLease env job d t = (Ok tt, <[key := r']> t1)).
Proof.
  intros Hf Htok Hr Hh. pose proof Hh as [Hst Hl]%holds_lease_spec. cbn.
  split; [|split; [|split]].
  - split; [done|]. split; [done|]. split.
    + intros m Hm. eexists. unfold merge_metadata. rewrite Hm. split; [done|]. intros k.
      rewrite lookup_union, lookup_fmap. destruct (default ∅ meta !! k); cbn; [by destruct (m !! k)|].
      by destruct (m !! k).
    + unfold CompleteClaimedJob, run_stmt. by rewrite bool_decide_false, Hf, Hr, Hh.
  - unfold FailClaimedJob. rewrite bool_decide_false by done.
    rewrite (exec_update_hit _ _ _ _ _ r) by done. by destruct next.
  - intros job d <- <-. unfold ReleaseClaim. by rewrite (exec_update_hit _ _ _ _ _ r).
  - intros job d <- <-. unfold RenewLease.
    rewrite bool_decide_false, (exec_update_hit _ _ _ _ _ r) by done. done.
Qed.

Lemma holder_served_witness :
  is_Ok (CompleteClaimedJob (demo_env [] 0) "j1" (demo_token 7) None demo_leased).1 = true.
Proof.
  destruct (demo_leased !! "j1") as [r|] eqn:E; [|vm_compute in E; discriminate].
  assert (Hh : holds_lease (demo_token 7) r = true)
    by (vm_compute in E; injection E as <-; reflexivity).
  destruct (holder_served (demo_env [] 0) demo_leased r "j1" (demo_token 7) None "" None
    eq_refl ltac:(done) E Hh) as [(_ & _ & _ & ->) _]. reflexivity.
Defined.

(** ** A lost lease stays lost *)

Lemma row_step_not_held A tok r r' :
  row_step A (Some r) (Some r') -> (forall tenant, ~ A (Claimant tenant tok)) ->
  lease_token r <> Some tok -> lease_token r' <> Some tok.
Proof.
  intros Hs HA Hn. remember (Some r) as o eqn:E. remember (Some r') as o' eqn:E'.
  destruct Hs as [o|job now _ Hf _|r0 tn now ex tok0 HA0 Htn Hst Ht|r0 now job HA0 Hst Hnt Hw
    |r0 tok0 ex now _ Hst|r0 tok0 why nx now _ Hst|r0 tok0 mt now _ Hst|r0 tok0 msg nx now _ Hst Hlt
    |r0 tok0 msg now _ Hst|r0 now _ Hst|r0 tn now _ Htn Hst|r0 tn now _ Htn Hst|r0 HA0 Hst];
    simplify_eq; try done; try (row_unfold; cbn; repeat case_goal; done).
  - cbn. intros [= ->]. by apply (HA tn).
  - destruct Hw as (Hjs & Htok & _). unfold update_row. cbn. rewrite Hjs.
    unfold nullableString. rewrite bool_decide_false by done.
    intros [= <-]. by apply (HA AnyTenant).
Qed.

Lemma insert_job_lookup r t k r' :
  (insert_job r t).2 !! k = Some r' -> t !! k = Some r' \/ (t !! k = None /\ k = id r /\ r' = r).
Proof.
  unfold insert_job. repeat case_goal; try (intros; by left).
  cbn. rewrite lookup_insert_Some. intros [[<- <-]|[_ ?]]; auto.
Qed.

Lemma insert_job_keyed r t : keyed t -> keyed (insert_job r t).2.
Proof.
  intros Hk k r' Hr. apply insert_job_lookup in Hr as [?|(_ & -> & ->)]; [by apply Hk|done].
Qed.

Lemma table_step_back A t t' k r' :
  table_step A t t' -> (forall k, t !! k = None -> t' !! k = None) -> t' !! k = Some r' ->
  exists r, t !! k = Some r /\ row_step A (Some r) (Some r').
Proof.
  intros Hs Hd Hr'. destruct (t !! k) as [r|] eqn:E; [|rewrite Hd in Hr'; done].
  exists r. split; [done|]. rewrite <- E, <- Hr'. apply Hs.
Qed.

Lemma table_step_keyed A t t' :
  table_step A t t' -> (forall k, t !! k = None -> t' !! k = None) -> keyed t -> keyed t'.
Proof.
  intros Hs Hd Hk k r' Hr'. destruct (table_step_back A t t' k r') as (r & E & Hrs); [done..|].
  apply row_step_ident in Hrs as [-> _]. by apply Hk.
Qed.

(** Once a worker's lease on a job is gone (reaped, cancelled, ended), no
    sequence of calls by anyone gives it back unless the very same token is
    minted again; so its late complete, fail, renew or release is refused. *)
Theorem lost_lease_stays_lost (ops : list Op) (t : Jobs) (key tok : string) :
  let P t := keyed t /\ not_held key tok t in
  (forall op tenant, op ∈ ops -> ~ acts op (Claimant tenant tok)) ->
  envs_keep P ops -> allowed_run ops t -> P t -> tok <> "" ->
  not_held key tok (run ops t) /\
  forall env meta, fault env = NoFault -> intf env (run ops t) = run ops t ->
    CompleteClaimedJob env key tok meta (run ops t) = (Error ErrLeaseLost, run ops t).
Proof.
  intros P HA Henv Hal Ht Htok.
  assert (HP : P (run ops t)).
  { apply (run_pred (fun a => forall tenant, a <> Claimant tenant tok)); try done.
    - by intros ? [? _].
    - intros t1 t2 Hs Hd [Hk Hn]. split; [by eapply table_step_keyed|].
      intros r' Hr'. edestruct table_step_back as (r & E & Hrs); [done..|].
      eapply row_step_not_held; [done| |by apply Hn]. intros tn Hc. by apply (Hc tn).
    - intros job now t1 _ Hf [Hk Hn]. split; [by apply insert_job_keyed|].
      intros r' [?|(_ & -> & ->)]%insert_job_lookup; [by apply Hn|].
      destruct Hf as (_ & _ & _ & _ & _ & Hl & _). cbn. by rewrite Hl.
    - intros op a Hin Hact tenant ->. by apply (HA op tenant). }
  split; [apply HP|]. intros env meta Hf Hq.
  rewrite complete_refused, Hq; rewrite ?Hq; try done. apply HP.
Qed.

(** The lease of "j1" expired and was reaped; the next worker claims it. *)
Definition demo_reaped : Jobs := run [OReap (calm (demo_now + Hour) ["j1"] []) 10] demo_leased.

Lemma demo_reaped_ok : table_ok demo_reaped.
Proof. apply run_ok; [calm_envs|calm_calls|apply demo_leased_ok]. Qed.

Definition demo_reclaim : Op :=
  OClaim (calm (demo_now + Hour) ["j1"] [9]) (30 * Second) (demo_filter AnyTenant).

Lemma lost_lease_stays_lost_witness :
  not_held "j1" (demo_token 7) (run [demo_reclaim] demo_reaped) /\
  (lease_token <$> run [demo_reclaim] demo_reaped !! "j1") = Some (Some (demo_token 9)).
Proof.
  split; [|vm_compute; reflexivity].
  apply (lost_lease_stays_lost [demo_reclaim] demo_reaped "j1" (demo_token 7)).
  - intros op tenant Hin. apply list_elem_of_singleton in Hin as ->.
    intros (tok & Htok & Heq). vm_compute in Htok. injection Htok as <-. discriminate.
  - calm_envs.
  - calm_calls.
  - split; [apply demo_reaped_ok|]. intros r Hr. vm_compute in Hr. injection Hr as <-. done.
  - done.
Defined.

(** ** Finality *)

Lemma row_step_final A r o :
  row_step A (Some r) o -> terminal r ->
  state r = JobStateCompleted \/ (forall tenant, ~ A (Requeuer tenant)) ->
  o = Some r \/ o = None.
Proof.
  intros Hs Ht Hq. remember (Some r) as o1 eqn:E.
  destruct Hs; simplify_eq; try (by auto); from_state; try congruence.
  destruct Hq as [?|Hq]; [congruence|]. by destruct (Hq tenant).
Qed.

(** C6. A COMPLETED row never changes again: whatever is called, by whomever,
    it stays as it is until retention deletes it.  So does a DEAD row, unless
    someone requeues it by hand. *)
Theorem terminal_is_final (ops : list Op) (t : Jobs) (key : string) (r : JobRow) :
  let P t := keyed t /\ (t !! key = Some r \/ t !! key = None) in
  terminal r -> keyed t -> t !! key = Some r ->
  (forall op, op ∈ ops -> ~ acts op (Producer key)) ->
  state r = JobStateCompleted \/ (forall op tenant, op ∈ ops -> ~ acts op (Requeuer tenant)) ->
  envs_keep P ops -> allowed_run ops t ->
  run ops t !! key = Some r \/ run ops t !! key = None.
Proof.
  intros P Hterm Hk Hr Hids Hq Henv Hal.
  assert (HP : P (run ops t)); [|apply HP].
  apply (run_pred (fun a => a <> Producer key /\
    (state r = JobStateCompleted \/ forall tenant, a <> Requeuer tenant))); try done.
  - by intros ? [? _].
  - intros t1 t2 Hs Hd [Hk1 [Hr1|Hn]]; (split; [by eapply table_step_keyed|]); [|auto].
    specialize (Hs key). rewrite Hr1 in Hs. eapply row_step_final; [done..|].
    destruct Hq as [?|Hq]; [auto|]. destruct (decide (state r = JobStateCompleted)); [auto|].
    right. intros tn [_ [?|Hc]]; [done|]. by apply (Hc tn).
  - intros job now t1 [HA _] Hf [Hk1 Hr1]. split; [by apply insert_job_keyed|].
    unfold insert_job. repeat case_goal; try done. cbn in *.
    rewrite lookup_insert_ne; [done|]. congruence.
  - intros op a Hin Hact. split; [intros ->; by apply (Hids op)|].
    destruct Hq as [?|Hq]; [auto|]. right. intros tn ->. by apply (Hq op tn).
  - split; auto.
Qed.

Definition demo_finished : Jobs := run [OComplete (demo_env [] 0) "j1" (demo_token 7) None] demo_leased.

Lemma terminal_is_final_witness :
  let late := [OCancel (demo_env [] 0) (demo_env [] 0) AnyTenant "j1"; demo_claim ["j1"; "j2"] 9] in
  run late demo_finished !! "j1" = demo_finished !! "j1" \/ run late demo_finished !! "j1" = None.
Proof.
  cbn zeta. destruct (demo_finished !! "j1") as [r|] eqn:E; [|vm_compute in E; discriminate].
  apply (terminal_is_final _ demo_finished "j1" r).
  - left. vm_compute in E. by injection E as <-.
  - apply ok_keyed, run_ok; [calm_envs|calm_calls|apply demo_leased_ok].
  - exact E.
  - clear E. intros op Hin. rewrite !elem_of_cons in Hin. destruct Hin as [->|[->|Hin]];
      [discriminate|intros (? & _ & [=])|by apply not_elem_of_nil in Hin].
  - left. vm_compute in E. by injection E as <-.
  - calm_envs.
  - calm_calls.
Defined.

(** ** Tenant isolation *)

(** Calls scoped to one tenant: its submissions, cancellations, requeues and
    claims. *)
Definition scoped (tenant : string) (op : Op) : Prop :=
  match op with
  | OCreate _ job => Job_TenantID job = tenant
  | OGet _ tn _ | OCancel _ _ tn _ | ORequeueDead _ _ tn _ => tn = tenant
  | OClaim _ _ f => Filter_Tenant f = tenant
  | _ => False
  end.

Lemma row_step_isolated A tenant r o :
  row_step A (Some r) o -> tenant <> AnyTenant -> tenant_id r <> tenant ->
  (forall a, A a -> match a with
                    | Producer _ => True
                    | Claimant tn _ | Canceller tn | Requeuer tn => tn = tenant
                    | _ => False
                    end) ->
  o = Some r.
Proof.
  intros Hs Hne Hr HA. remember (Some r) as o1 eqn:E.
  destruct Hs; simplify_eq; try done;
    match goal with H : A _ |- _ => apply HA in H end; try done; subst; exfalso;
    try (match goal with H : tenant_matches _ _ = true |- _ =>
           apply tenant_matches_spec in H as [?|?] end; done).
Qed.

Lemma query_job_Ok env q t job t' :
  query_job env q t = (Ok job, t') -> exists r, q (intf env t) = Some r /\ job = scanJob r /\ t' = intf env t.
Proof.
  unfold query_job, run_stmt. destruct (fault env); [|done|done].
  destruct (q (intf env t)) as [r|]; [|done]. intros [= <- <-]. by exists r.
Qed.

Lemma GetJob_tenant env tenant key t job t' :
  tenant <> AnyTenant -> GetJob env tenant key t = (Ok job, t') -> Job_TenantID job = tenant.
Proof.
  intros Hne (r & Hq & -> & _)%query_job_Ok. apply bind_Some in Hq as (r' & _ & Hq).
  destruct (tenant_matches tenant r') eqn:E; [|done]. injection Hq as ->.
  by apply tenant_matches_spec in E as [?|?].
Qed.

Lemma GetJobByKey_tenant env tenant key t job t' :
  tenant <> AnyTenant -> GetJobByIdempotencyKey env tenant key t = (Ok job, t') ->
  Job_TenantID job = tenant.
Proof.
  intros Hne (r & Hq & -> & _)%query_job_Ok. apply head_Some_elem_of in Hq.
  apply elem_of_Lfilter in Hq as [_ Hq]. unfold by_key in Hq. zbool.
  by match goal with H : tenant_matches _ _ = true |- _ => apply tenant_matches_spec in H as [?|?] end.
Qed.

(** C7. No call scoped to a tenant changes a row of another tenant, and a
    read scoped to a tenant never returns one. *)
Theorem tenant_isolation (tenant : string) (ops : list Op) (t : Jobs) :
  let P t' := keyed t' /\ forall k r, t !! k = Some r -> tenant_id r <> tenant -> t' !! k = Some r in
  tenant <> AnyTenant -> keyed t -> Forall (scoped tenant) ops ->
  envs_keep P ops -> allowed_run ops t ->
  (forall k r, t !! k = Some r -> tenant_id r <> tenant -> run ops t !! k = Some r) /\
  (forall env key job t', GetJob env tenant key t = (Ok job, t') -> Job_TenantID job = tenant) /\
  (forall env key job t', GetJobByIdempotencyKey env tenant key t = (Ok job, t') ->
     Job_TenantID job = tenant).
Proof.
  intros P Hne Hk Hsc Henv Hal. split; [|split].
  - assert (HP : P (run ops t)); [|apply HP].
    apply (run_pred (fun a => match a with
                    | Producer _ => True
                    | Claimant tn _ | Canceller tn | Requeuer tn => tn = tenant
                    | _ => False
                    end)); try done.
    + by intros ? [? _].
    + intros t1 t2 Hs Hd [Hk1 HP]. split; [by eapply table_step_keyed|].
      intros k r Hr Htn. specialize (Hs k). rewrite (HP k r Hr Htn) in Hs.
      by eapply row_step_isolated.
    + intros job now t1 _ _ [Hk1 HP]. split; [by apply insert_job_keyed|].
      intros k r Hr Htn. specialize (HP k r Hr Htn). unfold insert_job. repeat case_goal; try done.
      cbn in *. rewrite lookup_insert_ne; [done|]. intros <-. congruence.
    + intros op a Hin Hact. rewrite Forall_forall in Hsc. specialize (Hsc op Hin).
      destruct op; cbn in *; subst; try done. destruct Hact as (? & _ & ->). done.
  - intros env key job t'. apply GetJob_tenant. done.
  - intros env key job t'. apply GetJobByKey_tenant. done.
Qed.

Lemma tenant_isolation_witness :
  run [OCancel (demo_env [] 0) (demo_env [] 0) "acme" "j2"] demo_table !! "j2" = demo_table !! "j2".
Proof.
  destruct (demo_table !! "j2") as [r|] eqn:E; [|vm_compute in E; discriminate].
  refine (proj1 (tenant_isolation "acme" [OCancel (demo_env [] 0) (demo_env [] 0) "acme" "j2"]
    demo_table _ _ _ _ _) "j2" r E _).
  - discriminate.
  - apply ok_keyed, demo_table_ok.
  - by constructor.
  - calm_envs.
  - calm_calls.
  - vm_compute in E. injection E as <-. discriminate.
Defined.

(** ** What a claim selects *)

Definition claim_candidates (env : Env Jobs) (f : ClaimFilter) (t : Jobs) : list JobRow :=
  List.filter (claimable (NOW env) f) (visible (scan env) t).

Lemma claimable_pending now f r : claimable now f r = true -> state r = JobStatePending.
Proof. unfold claimable. intros. by zbool. Qed.

(** The budget keeps the attempt counter inside its column. *)
Lemma claim_attempt_fits r : row_ok r -> state r = JobStatePending -> int4_ok (attempt r + 1) = true.
Proof.
  intros Hr Hst. unfold row_ok in Hr. rewrite Hst in Hr. unfold int4_ok.
  apply andb_true_intro. split; apply Z.leb_le; lia.
Qed.

Lemma claim_best (env : Env Jobs) (d : Dur) (f : ClaimFilter) (t : Jobs) (tok : string) :
  table_ok (intf env t) -> fault env = NoFault -> newLeaseToken (rand env) = Ok tok ->
  let t1 := intf env t in
  (claim_candidates env f t1 = [] /\
   ClaimNextJob env d f t = (Error ErrJobNotFound, t1)) \/
  (exists r, r ∈ claim_candidates env f t1 /\
     (forall r', r' ∈ claim_candidates env f t1 -> claim_le r r') /\
     let r' := claim_row (pg_ts (gonow env)) (pg_ts (Add (gonow env) d)) tok r in
     t1 !! id r = Some r /\ state r' = JobStateRunning /\ lease_token r' = Some tok /\
     attempt r' = attempt r + 1 /\
     ClaimNextJob env d f t = (Ok (scanJob r'), <[id r := r']> t1)).
Proof.
  intros Hok Hf Htok. cbn. unfold ClaimNextJob, run_stmt. rewrite Htok, Hf. unfold claim_stmt.
  fold (claim_candidates env f (intf env t)).
  destruct (merge_sort claim_le (claim_candidates env f (intf env t))) as [|r l] eqn:E.
  - left. split; [|done]. apply Permutation_nil_r. by rewrite <- E, merge_sort_Permutation.
  - right. exists r. apply (merge_sort_head claim_le) in E as [Hr Hbest].
    split; [done|]. split; [done|].
    apply elem_of_Lfilter in Hr as [(k & _ & Hk)%elem_of_visible Hc].
    assert (Hid : id r = k) by (by apply (ok_keyed _ Hok)). rewrite Hid.
    rewrite claim_attempt_fits; [done|by eapply (ok_rows _ Hok)|by eapply claimable_pending].
Qed.

(** C18. A claim returns the best eligible row no other session has locked:
    highest priority first, then the earliest scheduled; it becomes RUNNING
    under a fresh token with one more attempt spent, and no other row
    changes.  It finds nothing exactly when there is no such row. *)
Theorem claim_takes_best (env : Env Jobs) (d : Dur) (f : ClaimFilter) (t : Jobs) (tok : string) :
  table_ok (intf env t) -> fault env = NoFault -> newLeaseToken (rand env) = Ok tok ->
  let t1 := intf env t in
  (claim_candidates env f t1 = [] /\
   ClaimNextJob env d f t = (Error ErrJobNotFound, t1)) \/
  (exists r, r ∈ claim_candidates env f t1 /\
     (forall r', r' ∈ claim_candidates env f t1 -> claim_le r r') /\
     let r' := claim_row (pg_ts (gonow env)) (pg_ts (Add (gonow env) d)) tok r in
     t1 !! id r = Some r /\ state r' = JobStateRunning /\ lease_token r' = Some tok /\
     attempt r' = attempt r + 1 /\
     ClaimNextJob env d f t = (Ok (scanJob r'), <[id r := r']> t1)).
Proof. apply claim_best. Qed.

Lemma claim_takes_best_witness :
  claim_candidates (demo_env ["j2"; "j1"] 3) (demo_filter AnyTenant) demo_table <> [] /\
  is_Ok (ClaimNextJob (demo_env ["j2"; "j1"] 3) (30 * Second) (demo_filter AnyTenant) demo_table).1 = true.
Proof.
  split; [vm_compute; discriminate|].
  destruct (claim_takes_best (demo_env ["j2"; "j1"] 3) (30 * Second) (demo_filter AnyTenant)
    demo_table (demo_token 3) demo_table_ok eq_refl eq_refl) as [[H _]|(r & _ & _ & _ & _ & _ & _ & ->)].
  - vm_compute in H. discriminate.
  - reflexivity.
Defined.

Lemma ClaimNextJob_Ok env d f t job t' :
  keyed (intf env t) -> ClaimNextJob env d f t = (Ok job, t') ->
  exists r tok, intf env t !! id r = Some r /\ claimable (NOW env) f r = true /\
    let r' := claim_row (pg_ts (gonow env)) (pg_ts (Add (gonow env) d)) tok r in
    job = scanJob r' /\ t' = <[id r := r']> (intf env t).
Proof.
  intros Hk. unfold ClaimNextJob, run_stmt, claim_stmt.
  destruct (newLeaseToken _) as [tok|]; [|done]. destruct (fault env); [|done|done].
  destruct (merge_sort _ _) as [|r l] eqn:E; [done|]. destruct (int4_ok _); [|done].
  intros [= <- <-]. exists r, tok.
  apply (merge_sort_head claim_le) in E as [[(k & _ & Hr)%elem_of_visible Hc]%elem_of_Lfilter _].
  by rewrite (Hk _ _ Hr).
Qed.

(** C5. Two claims never hand out the same job: if the first session's lease
    is still in place when the second claims, the second gets another job. *)
Theorem claims_are_exclusive (env1 env2 : Env Jobs) (d1 d2 : Dur) (f1 f2 : ClaimFilter)
    (t t1 t2 : Jobs) (job1 job2 : Job) :
  table_ok (intf env1 t) ->
  ClaimNextJob env1 d1 f1 t = (Ok job1, t1) -> ClaimNextJob env2 d2 f2 t1 = (Ok job2, t2) ->
  keyed (intf env2 t1) -> intf env2 t1 !! Job_ID job1 = t1 !! Job_ID job1 ->
  Job_ID job1 <> Job_ID job2 /\
  (exists r, t1 !! Job_ID job1 = Some r /\ holds_lease (Job_LeaseToken job1) r = true).
Proof.
  intros Hok H1 H2 Hk Hsame.
  apply ClaimNextJob_Ok in H1 as (r1 & tok1 & Hr1 & _ & -> & ->); [|apply Hok].
  apply ClaimNextJob_Ok in H2 as (r2 & tok2 & Hr2 & Hc2 & -> & ->); [|done]. cbn in *.
  rewrite lookup_insert_eq in *. split; [|eexists; split; [done|by apply holds_lease_spec]].
  intros Heq. rewrite <- Heq, Hsame in Hr2. injection Hr2 as <-.
  apply claimable_pending in Hc2. done.
Qed.

Lemma claims_are_exclusive_witness :
  exists job1 job2,
    (ClaimNextJob (demo_env ["j1"; "j2"] 3) Minute (demo_filter AnyTenant) demo_table).1 = Ok job1 /\
    (ClaimNextJob (demo_env ["j1"; "j2"] 4) Minute (demo_filter AnyTenant)
      (ClaimNextJob (demo_env ["j1"; "j2"] 3) Minute (demo_filter AnyTenant) demo_table).2).1 = Ok job2 /\
    Job_ID job1 <> Job_ID job2.
Proof.
  destruct (ClaimNextJob (demo_env ["j1"; "j2"] 3) Minute (demo_filter AnyTenant) demo_table)
    as [[job1|e] t1] eqn:E1; [|vm_compute in E1; discriminate].
  destruct (ClaimNextJob (demo_env ["j1"; "j2"] 4) Minute (demo_filter AnyTenant) t1)
    as [[job2|e] t2] eqn:E2.
  - exists job1, job2. split; [reflexivity|]. split; [cbn [snd]; rewrite E2; reflexivity|].
    refine (proj1 (claims_are_exclusive _ _ _ _ _ _ _ _ _ job1 job2 _ E1 E2 _ eq_refl)).
    + apply demo_table_ok.
    + pose proof (run_ok [OClaim (demo_env ["j1"; "j2"] 3) Minute (demo_filter AnyTenant)] demo_table)
        as H. cbn [run exec] in H. rewrite E1 in H. apply ok_keyed, H;
        [calm_envs|calm_calls|apply demo_table_ok].
  - exfalso. vm_compute in E1. injection E1 as <- <-. vm_compute in E2. discriminate.
Defined.

(** ** What LIMIT selects *)

(** [sel] is the first [n] of [cands] in the order [R]. *)
Record first_n {A} (R : relation A) (n : nat) (cands sel : list A) : Prop := {
  fn_sub : forall x, x ∈ sel -> x ∈ cands;
  fn_len : length sel = Nat.min n (length cands);
  fn_best : forall x y, x ∈ sel -> y ∈ cands -> y ∉ sel -> R x y
}.

Lemma first_n_take {A} (R : relation A) `{!RelDecision R, !Transitive R, !Total R} n cands :
  first_n R n cands (take n (merge_sort R cands)).
Proof.
  split.
  - intros x Hx. by apply elem_of_take_in, elem_of_merge_sort in Hx.
  - by rewrite length_take, (merge_sort_Permutation R cands).
  - intros x y Hx Hy Hny. apply (merge_sort_take R cands n); [done|].
    rewrite <- (elem_of_merge_sort R), <- (take_drop n), elem_of_app in Hy. tauto.
Qed.

(** A row of the table is the one of a selection with its id. *)
Lemma find_selected (sel : list JobRow) (t : Jobs) k :
  keyed t -> (forall r, r ∈ sel -> exists k, t !! k = Some r) ->
  match list_find (fun r => id r = k) sel with
  | Some (_, r) => t !! k = Some r /\ r ∈ sel
  | None => forall r, t !! k = Some r -> r ∉ sel
  end.
Proof.
  intros Hk Hin. destruct (list_find _ _) as [[i r]|] eqn:E.
  - apply list_find_Some in E as (Hl & Hid & _). apply list_elem_of_lookup_2 in Hl.
    destruct (Hin r Hl) as [k' Hk']. by rewrite <- Hid, (Hk _ _ Hk').
  - apply list_find_None in E. rewrite Forall_forall in E. intros r Hr Hs. by apply (E r), Hk.
Qed.

(** The reaper, run once, touches exactly the [min limit n] expired
    leases that expired first among the [n] it can lock: a touched row is
    DEAD when its budget is spent and PENDING, due now, otherwise; a lease
    that has not expired, and every other row, is untouched. *)
Theorem reaper_takes_expired_only (env : Env Jobs) (limit : Z) (t : Jobs) :
  keyed (intf env t) -> fault env = NoFault -> 0 < limit ->
  let t1 := intf env t in
  let cands := List.filter (lease_expired (NOW env)) (visible (scan env) t1) in
  exists sel, first_n lease_le (Z.to_nat limit) cands sel /\
    (RequeueExpiredRunning env limit t).1 = Ok (Z.of_nat (length sel)) /\
    forall k, (RequeueExpiredRunning env limit t).2 !! k =
      match t1 !! k with
      | Some r => if bool_decide (r ∈ sel) then Some (reap_row (NOW env) r) else Some r
      | None => None
      end.
Proof.
  intros Hk Hf Hl. cbn. unfold RequeueExpiredRunning, run_stmt.
  rewrite (proj2 (Z.leb_gt limit 0) Hl), Hf. unfold reap_stmt. cbn.
  set (cands := List.filter _ _). exists (take (Z.to_nat limit) (merge_sort lease_le cands)).
  pose proof (first_n_take lease_le (Z.to_nat limit) cands) as Hfn.
  split; [done|]. split; [done|]. intros k. rewrite lookup_update_rows.
  assert (Hin : forall r', r' ∈ take (Z.to_nat limit) (merge_sort lease_le cands) ->
    exists k, intf env t !! k = Some r').
  { intros r' Hr'. apply (fn_sub _ _ _ _ Hfn), elem_of_Lfilter in Hr' as [Hr' _].
    apply elem_of_visible in Hr' as (k' & _ & ?). by exists k'. }
  pose proof (find_selected _ (intf env t) k Hk Hin) as Hs. destruct (list_find _ _) as [[i r]|].
  - destruct Hs as [-> Hs]. by rewrite bool_decide_true.
  - destruct (intf env t !! k) as [r|]; [|done]. rewrite bool_decide_false; [done|]. by apply Hs.
Qed.

Lemma reaper_takes_expired_only_witness :
  exists sel, first_n lease_le 10
      (List.filter (lease_expired (NOW (calm (S := Jobs) (demo_now + Hour) ["j1"] [])))
         (visible ["j1"] demo_leased)) sel /\
    (RequeueExpiredRunning (calm (demo_now + Hour) ["j1"] []) 10 demo_leased).1
      = Ok (Z.of_nat (length sel)).
Proof.
  destruct (reaper_takes_expired_only (calm (demo_now + Hour) ["j1"] []) 10 demo_leased)
    as (sel & H1 & H2 & _).
  - apply ok_keyed, demo_leased_ok.
  - reflexivity.
  - reflexivity.
  - exists sel. split; [exact H1|exact H2].
Defined.

(** Retention deletes exactly the [min limit n] oldest of the [n] rows
    that finished in the given terminal state before the cut-off, and nothing
    else; asked for any other state it refuses and deletes nothing. *)
Theorem retention_deletes_old_only (env : Env Jobs) (st : JobState) (before : Time) (limit : Z)
    (t : Jobs) :
  keyed (intf env t) -> fault env = NoFault -> 0 < limit ->
  let t1 := intf env t in
  let cands := List.filter (prunable st (pg_ts before)) (all_rows (scan env) t1) in
  if bool_decide (st = JobStateCompleted \/ st = JobStateDead) then
    exists sel, first_n completed_le (Z.to_nat limit) cands sel /\
      (DeleteFinished env st before limit t).1 = Ok (Z.of_nat (length sel)) /\
      forall k, (DeleteFinished env st before limit t).2 !! k =
        match t1 !! k with
        | Some r => if bool_decide (r ∈ sel) then None else Some r
        | None => None
        end
  else is_Ok (DeleteFinished env st before limit t).1 = false /\
       (DeleteFinished env st before limit t).2 = t.
Proof.
  intros Hk Hf Hl. cbn. unfold DeleteFinished. destruct (bool_decide (_ \/ _)) eqn:Hst; zbool.
  - assert (Hg : negb (bool_decide (st = JobStateCompleted)) && negb (bool_decide (st = JobStateDead)) = false)
      by (destruct Hst as [->| ->]; done).
    rewrite Hg, (proj2 (Z.leb_gt limit 0) Hl). unfold run_stmt. rewrite Hf. unfold prune_stmt. cbn.
    set (cands := List.filter _ _). exists (take (Z.to_nat limit) (merge_sort completed_le cands)).
    pose proof (first_n_take completed_le (Z.to_nat limit) cands) as Hfn.
    split; [done|]. split; [done|]. intros k. rewrite lookup_delete_rows.
    assert (Hin : forall r', r' ∈ take (Z.to_nat limit) (merge_sort completed_le cands) ->
      exists k, intf env t !! k = Some r').
    { intros r' Hr'. apply (fn_sub _ _ _ _ Hfn), elem_of_Lfilter in Hr' as [Hr' _].
      by apply elem_of_all_rows in Hr'. }
    pose proof (find_selected _ (intf env t) k Hk Hin) as Hs. destruct (list_find _ _) as [[i r]|].
    + destruct Hs as [-> Hs]. by rewrite bool_decide_true.
    + destruct (intf env t !! k) as [r|]; [|done]. rewrite bool_decide_false; [done|]. by apply Hs.
  - rewrite !bool_decide_false by tauto. done.
Qed.

Lemma retention_deletes_old_only_witness :
  exists sel, first_n completed_le 5
      (List.filter (prunable JobStateCompleted (pg_ts (demo_now + Hour))) (all_rows [] demo_finished)) sel /\
    (DeleteFinished (demo_env [] 0) JobStateCompleted (demo_now + Hour) 5 demo_finished).1
      = Ok (Z.of_nat (length sel)).
Proof.
  destruct (retention_deletes_old_only (demo_env [] 0) JobStateCompleted (demo_now + Hour) 5 demo_finished)
    as (sel & H1 & H2 & _).
  - apply ok_keyed, run_ok; [calm_envs|calm_calls|apply demo_leased_ok].
  - reflexivity.
  - reflexivity.
  - exists sel. split; [exact H1|exact H2].
Defined.

(** ** Creating and reading back *)

(** A job as it reads back: the stamps of CreateJob, timestamps at the
    column's precision, everything else as given. *)
Definition persisted (now : Time) (job : Job) : Job :=
  mkJob (Job_ID job) (Job_TenantID job) (Job_IdempotencyKey job) (Job_Task job) (Job_State job)
    (Job_Attempt job) (pg_ts <$> Job_ScheduledAt job) (pg_ts <$> Job_StartedAt job)
    (pg_ts <$> Job_LeaseExpiresAt job) (Job_LeaseToken job) (pg_ts <$> Job_CompletedAt job)
    (Job_LastError job) (Job_Metadata job)
    (pg_ts (if IsZero (Job_CreatedAt job) then now else Job_CreatedAt job)) (pg_ts now).

Lemma stringOrEmpty_nullable s : stringOrEmpty (nullableString s) = s.
Proof. unfold nullableString. by case_bool_decide. Qed.

Lemma scan_job_row now job : scanJob (job_row (stamp_job now job)) = persisted now job.
Proof.
  unfold scanJob, job_row, stamp_job, persisted.
  cbn [Job_ID Job_TenantID Job_IdempotencyKey Job_Task Job_State Job_Attempt Job_ScheduledAt
    Job_StartedAt Job_LeaseExpiresAt Job_LeaseToken Job_CompletedAt Job_LastError Job_Metadata
    Job_CreatedAt Job_UpdatedAt id idempotency_key task_id task_name task_payload task_retry_count
    task_max_retries task_timeout_ns task_cron_expr task_queue task_metadata state attempt
    last_error scheduled_at started_at lease_expires_at lease_token completed_at created_at
    updated_at metadata tenant_id task_priority].
  rewrite !stringOrEmpty_nullable, !unmarshal_marshal. by destruct (Job_Task job).
Qed.

(** What CreateJob stores is what GetJob returns: a job created without
    error reads back, in its tenant or under no tenant, with every field as
    submitted up to the microsecond precision of timestamps. *)
Theorem create_then_get (env1 env2 : Env Jobs) (job : Job) (tenant : string) (t : Jobs) :
  fault env2 = NoFault -> tenant = AnyTenant \/ tenant = Job_TenantID job ->
  (CreateJob env1 job t).1 = Ok tt -> (forall t, intf env2 t = t) ->
  GetJob env2 tenant (Job_ID job) (CreateJob env1 job t).2
    = (Ok (persisted (gonow env1) job), (CreateJob env1 job t).2).
Proof.
  intros Hf Htn. unfold CreateJob, run_stmt.
  destruct (fault env1); cbn; [|by repeat case_goal|by repeat case_goal].
  set (r := job_row (stamp_job (gonow env1) job)). unfold insert_job.
  destruct (negb _); [done|]. destruct (intf env1 t !! id r); [done|].
  destruct (bool_decide (map_Exists _ _)); [done|]. cbn. intros _ Hq.
  unfold GetJob, query_job, run_stmt. rewrite Hf, Hq.
  change (Job_ID job) with (id r). rewrite lookup_insert_eq. cbn [mbind option_bind].
  rewrite (proj2 (tenant_matches_spec tenant r)); [unfold r; by rewrite scan_job_row|].
  destruct Htn as [->| ->]; [by left|by right].
Qed.

Lemma create_then_get_witness :
  (GetJob (demo_env [] 0) "acme" "j9" (CreateJob (demo_env [] 0) (demo_job "j9" "acme") demo_table).2).1
    = Ok (persisted demo_now (demo_job "j9" "acme")).
Proof.
  change "j9" with (Job_ID (demo_job "j9" "acme")) at 1.
  rewrite (create_then_get (demo_env [] 0) (demo_env [] 0) (demo_job "j9" "acme") "acme" demo_table);
    [reflexivity|reflexivity|by right|vm_compute; reflexivity|reflexivity].
Defined.

(** Idempotency: a second job under the same tenant and non-empty key is
    refused with ErrDuplicateIdempotencyKey whatever its id, and the same key
    in another tenant is no obstacle. *)
Theorem idempotency_key_is_unique (env : Env Jobs) (job : Job) (t : Jobs) :
  fault env = NoFault -> Job_IdempotencyKey job <> "" ->
  row_ints_ok (job_row (stamp_job (gonow env) job)) = true -> intf env t !! Job_ID job = None ->
  let t1 := intf env t in
  let taken := exists k r, t1 !! k = Some r /\ tenant_id r = Job_TenantID job /\
                           idempotency_key r = Some (Job_IdempotencyKey job) in
  (taken /\ CreateJob env job t = (Error ErrDuplicateIdempotencyKey, t1)) \/
  (~ taken /\ CreateJob env job t
     = (Ok tt, <[Job_ID job := job_row (stamp_job (gonow env) job)]> t1)).
Proof.
  intros Hf Hkey Hint Hnew. cbn. unfold CreateJob, run_stmt. rewrite Hf.
  unfold insert_job. rewrite Hint. cbn. rewrite Hnew.
  assert (Hsame : forall r, same_key (job_row (stamp_job (gonow env) job)) r <->
    tenant_id r = Job_TenantID job /\ idempotency_key r = Some (Job_IdempotencyKey job)).
  { intros r. unfold same_key. cbn. unfold nullableString. rewrite bool_decide_false by done.
    naive_solver. }
  destruct (bool_decide (map_Exists _ _)) eqn:E; zbool.
  - left. split; [|done]. destruct E as (k & r & Hr & Hs%Hsame). by exists k, r.
  - right. split; [|done]. intros (k & r & Hr & Hs). apply E. exists k, r. split; [done|].
    by apply Hsame.
Qed.

Definition demo_keyed_job (key tenant ikey : string) : Job :=
  mkJob key tenant ikey demo_task JobStatePending 0 (Some demo_now) None None "" None "" None 0 0.

Lemma idempotency_key_is_unique_witness :
  let t := (CreateJob (demo_env [] 0) (demo_keyed_job "a" "acme" "k") ∅).2 in
  (CreateJob (demo_env [] 0) (demo_keyed_job "b" "acme" "k") t).1 = Error ErrDuplicateIdempotencyKey /\
  (CreateJob (demo_env [] 0) (demo_keyed_job "b" "globex" "k") t).1 = Ok tt.
Proof.
  cbn zeta. set (t := (CreateJob _ (demo_keyed_job "a" "acme" "k") ∅).2). split.
  - destruct (idempotency_key_is_unique (demo_env [] 0) (demo_keyed_job "b" "acme" "k") t)
      as [[_ H]|[H _]]; [reflexivity|discriminate|reflexivity|reflexivity|by rewrite H|].
    destruct H. exists "a". eexists. split; [reflexivity|]. split; reflexivity.
  - reflexivity.
Defined.

(** ** Witnesses of the system theorems *)

Definition demo_life : list Op :=
  [demo_create "j1" "acme"; demo_create "j2" "globex"; demo_claim ["j1"] 7;
   OComplete (demo_env [] 0) "j1" (demo_token 7) None].

Lemma demo_life_allowed t : allowed_run demo_life t.
Proof. repeat (split; [first [apply demo_fresh | exact I]|]). exact I. Qed.

Lemma store_invariant_witness :
  table_ok (run demo_life ∅) /\ (state <$> run demo_life ∅ !! "j1") = Some JobStateCompleted.
Proof.
  split; [|vm_compute; reflexivity].
  apply (store_invariant demo_life); [calm_envs|apply demo_life_allowed].
Defined.

Lemma env_moves_calm A now ids bytes : env_moves A (calm now ids bytes).
Proof. intros t Ht. split; [done|]. constructor. Qed.

Lemma store_refines_lease_queue_witness :
  rtc (spec_step (fun _ => True)) (abs ∅) (abs (run demo_life ∅)).
Proof.
  apply (store_refines_lease_queue (fun _ => True) demo_life ∅).
  - intros. exact I.
  - repeat first [apply env_moves_calm | constructor].
  - apply demo_life_allowed.
  - apply table_ok_empty.
Defined.
