(* ===== verification/Retry.v ===== *)
(** * internal/retry/backoff.go: the retry policy

    Delays are computed in float64, modelled by the binary64 operations of
    the Standard Library's [SpecFloat]; [rand.Float64] is a parameter.  The
    bound on a delay is proved through the mantissa bound that rounding
    guarantees. *)

From Stdlib Require Import Floats.SpecFloat.
From S2P Require Import Prelude Models.

(** ** float64 *)

Abbreviation float64 := spec_float.

Definition fmul (x y : float64) : float64 := SFmul 53 1024 x y.
Definition fadd (x y : float64) : float64 := SFadd 53 1024 x y.
(** [x > y] and [x <= y], false on a NaN. *)
Definition fgt (x y : float64) : bool := SFltb y x.
Definition fle (x y : float64) : bool := SFleb x y.
(** [float64(n)] of an integer. *)
Definition of_int (n : Z) : float64 := binary_normalize 53 1024 n 0 false.

(** [int64(f)]: truncation toward zero; what amd64 delivers when the value
    does not fit. *)
Definition to_int64 (f : float64) : Z :=
  match f with
  | S754_zero _ => 0
  | S754_finite s m e =>
      let a := if 0 <=? e then Z.pos m * 2 ^ e else Z.pos m / 2 ^ (- e) in
      let v := if s then - a else a in
      if int64_ok v then v else int64_min
  | _ => int64_min
  end.

(** ** The engine *)

Definition DefaultMaxAttempts : Z := 5.

Record Config := mkConfig {
  BaseDelay : Dur;
  MaxDelay : Dur;
  Multiplier : float64;
  MaxAttempts : Z;
  Jitter : float64
}.

Record Engine := mkEngine { Engine_Config : Config }.

Definition NewEngine (cfg : Config) : Engine :=
  let base := if BaseDelay cfg <=? 0 then Second else BaseDelay cfg in
  let max := if MaxDelay cfg <=? 0 then 30 * Second else MaxDelay cfg in
  let mult := if fle (Multiplier cfg) (of_int 1) then of_int 2 else Multiplier cfg in
  let max := if max <? base then base else max in
  let jit := if fgt (of_int 0) (Jitter cfg) then of_int 0 else Jitter cfg in
  let jit := if fgt jit (of_int 1) then of_int 1 else jit in
  mkEngine (mkConfig base max mult (MaxAttempts cfg) jit).

(** The loop [for i := 0; i < attempt; i++] with its [break]. *)
Fixpoint backoff (n : nat) (mult max delay : float64) : float64 :=
  match n with
  | O => delay
  | S n' =>
      let delay := fmul delay mult in
      if fgt delay max then max else backoff n' mult max delay
  end.

Definition cap (max delay : float64) : float64 := if fgt delay max then max else delay.

Definition Delay (e : Engine) (rnd : float64) (attempt : Z) : Dur :=
  let cfg := Engine_Config e in
  let attempt := if attempt <? 0 then 0 else attempt in
  let max := of_int (MaxDelay cfg) in
  let delay := cap max (backoff (Z.to_nat attempt) (Multiplier cfg) max (of_int (BaseDelay cfg))) in
  let delay :=
    if fgt (Jitter cfg) (of_int 0)
    then cap max (fadd delay (fmul (fmul delay (Jitter cfg)) rnd))
    else delay in
  to_int64 delay.

Definition ShouldRetry (e : Engine) (attempt : Z) (err : option error) : bool :=
  if match err with Some err => errors_Is err ErrNoRetry | None => false end then false
  else if (0 <? MaxAttempts (Engine_Config e)) && (MaxAttempts (Engine_Config e) <=? attempt)
  then false else true.

(** ** What rounding guarantees *)

Lemma digits2_bound m : 2 ^ (Z.pos (digits2_pos m) - 1) <= Z.pos m < 2 ^ Z.pos (digits2_pos m).
Proof.
  induction m as [m IH|m IH|]; cbn [digits2_pos]; [| |by cbn].
  - rewrite Pos2Z.inj_succ. replace (Z.succ _ - 1) with (Z.succ (Z.pos (digits2_pos m) - 1)) by lia.
    rewrite !Z.pow_succ_r by lia. lia.
  - rewrite Pos2Z.inj_succ. replace (Z.succ _ - 1) with (Z.succ (Z.pos (digits2_pos m) - 1)) by lia.
    rewrite !Z.pow_succ_r by lia. lia.
Qed.

Lemma shr_1_m mrs : 0 <= shr_m mrs -> shr_m (shr_1 mrs) = shr_m mrs / 2.
Proof.
  destruct mrs as [[|[p|p|]|p] r s]; cbn; intros; try done.
  - by rewrite Pos2Z.inj_xI, Z.mul_comm, Z.div_add_l, Z.add_0_r by lia.
  - by rewrite Pos2Z.inj_xO, Z.mul_comm, Z.div_mul by lia.
Qed.

Lemma iter_shr_m p mrs : 0 <= shr_m mrs -> shr_m (SpecFloat.iter_pos shr_1 p mrs) = shr_m mrs / 2 ^ Z.pos p.
Proof.
  revert mrs. induction p as [p IH|p IH|]; intros mrs Hm; cbn [SpecFloat.iter_pos].
  - pose proof (shr_1_m mrs Hm) as H1.
    assert (0 <= shr_m (shr_1 mrs)) by (rewrite H1; apply Z.div_pos; lia).
    rewrite IH by (rewrite IH by done; apply Z.div_pos; [done|lia]). rewrite IH, H1 by done.
    rewrite !Z.div_div by lia. f_equal.
    replace (Z.pos p~1) with (1 + Z.pos p + Z.pos p) by lia. rewrite !Z.pow_add_r by lia. lia.
  - rewrite IH by (rewrite IH by done; apply Z.div_pos; [done|lia]). rewrite IH by done.
    rewrite !Z.div_div by lia. f_equal.
    replace (Z.pos p~0) with (Z.pos p + Z.pos p) by lia. rewrite !Z.pow_add_r by lia. lia.
  - by rewrite shr_1_m.
Qed.

Lemma shr_record_of_loc_m m l : shr_m (shr_record_of_loc m l) = m.
Proof. by destruct l as [|[]]. Qed.

(** After aligning to the format the mantissa has at most 53 bits. *)
Lemma shr_fexp_bound m e l mrs' e' :
  0 <= m -> shr_fexp 53 1024 m e l = (mrs', e') -> 0 <= shr_m mrs' < 2 ^ 53.
Proof.
  intros Hm. unfold shr_fexp, shr. set (n := fexp 53 1024 (Zdigits2 m + e) - e).
  assert (Hn : Zdigits2 m - 53 <= n) by (unfold n, fexp; lia).
  assert (Hd : m < 2 ^ Zdigits2 m).
  { destruct m as [|m|]; [done| |lia]. apply digits2_bound. }
  destruct n as [|p|p]; intros [= <- <-]; rewrite ?iter_shr_m, shr_record_of_loc_m by
    (by rewrite shr_record_of_loc_m).
  - split; [done|]. eapply Z.lt_le_trans; [exact Hd|]. apply Z.pow_le_mono_r; lia.
  - split; [apply Z.div_pos; lia|]. apply Z.div_lt_upper_bound; [lia|].
    eapply Z.lt_le_trans; [exact Hd|]. rewrite <- Z.pow_add_r by lia. apply Z.pow_le_mono_r; lia.
  - split; [done|]. eapply Z.lt_le_trans; [exact Hd|]. apply Z.pow_le_mono_r; lia.
Qed.

(** A non-negative number of the format: no NaN, no negative, no mantissa
    wider than 53 bits. *)
Definition nonneg (f : float64) : Prop :=
  match f with
  | S754_zero s => True
  | S754_infinity s => s = false
  | S754_nan => False
  | S754_finite s m _ => s = false /\ Z.pos m < 2 ^ 53
  end.

Lemma round_aux_nonneg m e l : 0 <= m -> nonneg (binary_round_aux 53 1024 false m e l).
Proof.
  intros Hm. unfold binary_round_aux.
  destruct (shr_fexp 53 1024 m e l) as [mrs' e'] eqn:E1. apply shr_fexp_bound in E1; [|done].
  set (m1 := round_nearest_even _ _).
  assert (Hm1 : 0 <= m1) by (unfold m1, round_nearest_even; repeat case_goal; lia).
  destruct (shr_fexp 53 1024 m1 e' loc_Exact) as [mrs'' e''] eqn:E2. apply shr_fexp_bound in E2; [|done].
  destruct (shr_m mrs'') as [|q|q]; [done| |lia]. destruct (_ <=? _); cbn; [|done]. split; [done|lia].
Qed.

Lemma digits2_unique m n : 2 ^ (n - 1) <= Z.pos m < 2 ^ n -> Z.pos (digits2_pos m) = n.
Proof.
  intros H. pose proof (digits2_bound m) as Hd. assert (0 < n).
  { destruct (Z.lt_ge_cases 0 n); [done|]. destruct (Z.eq_dec n 0); [subst; cbn in H; lia|].
    rewrite (Z.pow_neg_r 2 n) in H by lia. lia. }
  destruct (Z.lt_trichotomy (Z.pos (digits2_pos m)) n) as [?|[?|?]]; [|done|].
  - assert (2 ^ Z.pos (digits2_pos m) <= 2 ^ (n - 1)) by (apply Z.pow_le_mono_r; lia). lia.
  - assert (2 ^ n <= 2 ^ (Z.pos (digits2_pos m) - 1)) by (apply Z.pow_le_mono_r; lia). lia.
Qed.

Lemma iter_xO p d : Z.pos (Pos.iter xO p d) = Z.pos p * 2 ^ Z.pos d.
Proof.
  revert p. induction d as [|d IH] using Pos.peano_ind; intros p; [cbn; lia|].
  rewrite Pos.iter_succ, Pos2Z.inj_xO, IH, Pos2Z.inj_succ, Z.pow_succ_r by lia. lia.
Qed.

Lemma round_aux_exact m e :
  2 ^ 52 <= Z.pos m < 2 ^ 53 -> -1074 <= e <= 971 ->
  binary_round_aux 53 1024 false (Z.pos m) e loc_Exact = S754_finite false m e.
Proof.
  intros Hm He. assert (Hs : shr_fexp 53 1024 (Z.pos m) e loc_Exact = (Build_shr_record (Z.pos m) false false, e)).
  { unfold shr_fexp. cbn [Zdigits2]. rewrite (digits2_unique m 53) by done.
    unfold fexp, SpecFloat.emin. rewrite Z.max_l by lia. by replace (53 + e - 53 - e) with 0 by lia. }
  unfold binary_round_aux. rewrite Hs. cbn [shr_m loc_of_shr_record round_nearest_even].
  rewrite Hs. cbn [shr_m]. by rewrite (proj2 (Z.leb_le _ _)) by lia.
Qed.

(** An integer below 2^53 converts exactly, to a 53-bit mantissa. *)
Lemma of_int_exact n :
  0 < n < 2 ^ 53 ->
  exists m e, of_int n = S754_finite false m e /\ 2 ^ 52 <= Z.pos m < 2 ^ 53 /\ -1074 <= e <= 0 /\
              Z.pos m = n * 2 ^ (- e).
Proof.
  intros Hn. destruct n as [|p|]; [lia| |lia]. unfold of_int. cbn [binary_normalize]. unfold binary_round.
  pose proof (digits2_bound p) as Hd. set (d := Z.pos (digits2_pos p)) in *.
  assert (Hd53 : 0 < d <= 53).
  { split; [lia|]. destruct (Z.le_gt_cases d 53); [done|].
    assert (2 ^ 53 <= 2 ^ (d - 1)) by (apply Z.pow_le_mono_r; lia). lia. }
  assert (Hf : fexp 53 1024 (d + 0) = d - 53) by (unfold fexp, SpecFloat.emin; lia).
  rewrite Hf. unfold shl_align. rewrite Z.sub_0_r.
  destruct (d - 53) as [|q|q] eqn:E; [|lia|].
  - assert (Hd' : d = 53) by lia. rewrite Hd' in Hd. change (53 - 1) with 52 in Hd.
    rewrite round_aux_exact by lia. exists p, 0. split; [done|]. lia.
  - assert (Hp : 2 ^ 52 <= Z.pos p * 2 ^ Z.pos q < 2 ^ 53).
    { replace 52 with (d - 1 + Z.pos q) by lia. replace 53 with (d + Z.pos q) by lia.
      rewrite !Z.pow_add_r by lia. nia. }
    rewrite round_aux_exact by (rewrite ?iter_xO; lia).
    exists (Pos.iter xO p q), (Z.neg q). rewrite iter_xO. split; [done|]. split; [done|].
    split; [lia|]. done.
Qed.

(** ** Operations on non-negative numbers *)

(** The integer part. *)
Definition floor (f : float64) : Z :=
  match f with
  | S754_finite _ m e => if 0 <=? e then Z.pos m * 2 ^ e else Z.pos m / 2 ^ (- e)
  | _ => 0
  end.

Definition finite (f : float64) : Prop :=
  nonneg f /\ match f with S754_infinity _ => False | _ => True end.

Lemma fmul_nonneg x y : finite x -> finite y -> nonneg (fmul x y).
Proof.
  intros [Hx Ix] [Hy Iy]. unfold fmul, SFmul. destruct x, y; cbn in *; try done.
  destruct Hx as [-> _], Hy as [-> _]. apply round_aux_nonneg. lia.
Qed.

Lemma fadd_nonneg x y : finite x -> nonneg y -> nonneg (fadd x y).
Proof.
  intros [Hx Ix] Hy. unfold fadd, SFadd. destruct x, y; cbn in *; try done.
  - by repeat case_goal.
  - destruct Hx as [-> _], Hy as [-> _]. cbn [cond_Zopp].
    match goal with |- context [Z.pos ?a + Z.pos ?b] =>
      change (Z.pos a + Z.pos b) with (Z.pos (a + b)%positive) end.
    cbn [binary_normalize]. unfold binary_round. destruct (shl_align _ _ _) as [mz ez].
    apply round_aux_nonneg. lia.
Qed.

(** Finite and without trailing zeros to drop: the exponent is not positive. *)
Definition small (f : float64) : Prop :=
  finite f /\ match f with S754_finite _ _ e => e <= 0 | _ => True end.

(** The capped value is finite and its integer part is at most the cap. *)
Lemma cap_bound n d :
  0 < n < 2 ^ 53 -> nonneg d -> small (cap (of_int n) d) /\ floor (cap (of_int n) d) <= n.
Proof.
  intros Hn Hd. destruct (of_int_exact n Hn) as (m & e & -> & Hm & He & Hv).
  assert (He2 : 0 < 2 ^ (- e)) by lia.
  assert (Hfl : Z.pos m / 2 ^ (- e) = n) by (rewrite Hv; apply Z.div_mul; lia).
  unfold cap, fgt. destruct (SFltb _ d) eqn:Hlt.
  - split; [split; [split; [split; [done|lia]|done]|lia]|]. cbn.
    destruct (0 <=? e) eqn:E0; zbool; [|lia].
    assert (e = 0) as -> by lia. cbn in *. lia.
  - destruct d as [s|s| |s md ed]; cbn in Hd; [|subst; done|done|].
    { split; [done|]. cbn. lia. }
    destruct Hd as [-> Hmd].
    unfold SFltb, SFcompare in Hlt. destruct (Z.compare_spec e ed) as [->|Hlt'|Hgt]; [|done|];
      (split; [split; [split; done|lia]|]).
    + assert (Hle : Z.pos md <= Z.pos m).
      { change (Pos.compare_cont Eq m md) with (m ?= md)%positive in Hlt.
        destruct (Pos.compare_spec m md); try done; lia. }
      cbn. destruct (0 <=? ed) eqn:E0; zbool.
      * assert (ed = 0) as -> by lia. cbn in *. lia.
      * rewrite <- Hfl. apply Z.div_le_mono; lia.
    + cbn. destruct (0 <=? ed) eqn:E0; zbool; [lia|]. apply Z.div_le_upper_bound; [lia|].
      assert (2 * 2 ^ (- e) <= 2 ^ (- ed)).
      { rewrite <- Z.pow_succ_r by lia. apply Z.pow_le_mono_r; lia. }
      assert (Z.pos md <= 2 * (n * 2 ^ (- e))) by lia. nia.
Qed.

Lemma floor_nonneg d : finite d -> 0 <= floor d.
Proof.
  intros [Hd Hi]. destruct d as [| | |s m e]; cbn in *; try done.
  destruct (0 <=? e) eqn:E; zbool; [lia|]. apply Z.div_pos; lia.
Qed.

Lemma to_int64_floor d : finite d -> floor d <= int64_max -> to_int64 d = floor d.
Proof.
  intros Hf Hmax. pose proof (floor_nonneg d Hf) as H0. destruct Hf as [Hd Hi].
  destruct d as [| | |s m e]; cbn in *; try done. destruct Hd as [-> _].
  unfold int64_ok, int64_min, int64_max in *. by rewrite !(proj2 (Z.leb_le _ _)) by lia.
Qed.

(** ** Delays *)

Lemma shr_fexp_exp m e l mrs' e' :
  shr_fexp 53 1024 m e l = (mrs', e') -> e' <= Z.max e (Z.max (Zdigits2 m + e - 53) (-1074)).
Proof.
  unfold shr_fexp, shr, fexp, SpecFloat.emin. case_goal; intros [= <- <-]; lia.
Qed.

Lemma Zdigits2_le m n : 0 <= m < 2 ^ n -> 0 <= n -> Zdigits2 m <= n.
Proof.
  intros Hm Hn. destruct m as [|p|p]; cbn; [lia| |lia]. pose proof (digits2_bound p) as Hd.
  destruct (Z.le_gt_cases (Z.pos (digits2_pos p)) n); [done|].
  assert (2 ^ n <= 2 ^ (Z.pos (digits2_pos p) - 1)) by (apply Z.pow_le_mono_r; lia). lia.
Qed.

(** The product of small numbers does not overflow. *)
Lemma fmul_small x y : small x -> small y -> finite (fmul x y).
Proof.
  intros [Hx Ex] [Hy Ey]. pose proof (fmul_nonneg x y Hx Hy) as Hp. split; [done|].
  destruct Hx as [Hx Ix], Hy as [Hy Iy]. unfold fmul, SFmul in *.
  destruct x as [| | |sx mx ex], y as [| | |sy my ey]; cbn in *; try done.
  destruct Hx as [-> Hx], Hy as [-> Hy]. cbn [xorb] in *. clear Hp. unfold binary_round_aux.
  destruct (shr_fexp 53 1024 (Z.pos (mx * my)) (ex + ey) loc_Exact) as [mrs' e'] eqn:E1.
  assert (Hm1 : 0 <= shr_m mrs' < 2 ^ 53) by (eapply shr_fexp_bound, E1; lia).
  apply shr_fexp_exp in E1.
  assert (Hd1 : Zdigits2 (Z.pos (mx * my)) <= 106) by (apply Zdigits2_le; nia).
  set (m1 := round_nearest_even _ _).
  assert (Hb1 : 0 <= m1 <= 2 ^ 53) by (unfold m1, round_nearest_even; repeat case_goal; lia).
  destruct (shr_fexp 53 1024 m1 e' loc_Exact) as [mrs'' e''] eqn:E2. apply shr_fexp_exp in E2.
  assert (Hd2 : Zdigits2 m1 <= 54) by (apply Zdigits2_le; lia).
  destruct (shr_m mrs''); [done| |done].
  by rewrite (proj2 (Z.leb_le _ _)) by lia.
Qed.

Lemma backoff_nonneg k n mult d :
  0 < n < 2 ^ 53 -> finite mult -> finite d -> nonneg (backoff k mult (of_int n) d).
Proof.
  intros Hn Hm. revert d. induction k as [|k IH]; intros d Hd; cbn; [apply Hd|].
  pose proof (fmul_nonneg d mult Hd Hm) as Hp. pose proof (cap_bound n _ Hn Hp) as [[Hc _] _].
  unfold cap in Hc. destruct (fgt _ _); [apply Hc|]. by apply IH.
Qed.

Lemma of_int_finite n : 0 < n < 2 ^ 53 -> finite (of_int n).
Proof. intros Hn. destruct (of_int_exact n Hn) as (m & e & -> & Hm & _). split; [split; [done|lia]|done]. Qed.

(** A bit pattern of float64: no mantissa is wider than 53 bits. *)
Definition is_float64 (f : float64) : Prop :=
  match f with S754_finite _ m _ => Z.pos m < 2 ^ 53 | _ => True end.

(** NewEngine leaves a jitter that is either no jitter or at most 1. *)
Lemma NewEngine_jitter cfg :
  is_float64 (Jitter cfg) ->
  let j := Jitter (Engine_Config (NewEngine cfg)) in
  fgt j (of_int 0) = true -> small j.
Proof.
  intros Hj. unfold NewEngine. cbn [Engine_Config Jitter].
  set (j1 := if fgt (of_int 0) (Jitter cfg) then of_int 0 else Jitter cfg). intros Hgt. change (small (cap (of_int 1) j1)). apply cap_bound; [done|].
  assert (Hj1 : is_float64 j1) by (unfold j1; case_goal; done).
  assert (Hneg : fgt (of_int 0) j1 = false) by (unfold j1; destruct (fgt (of_int 0) (Jitter cfg)) eqn:E; done).
  clearbody j1. destruct j1 as [s|s| |s m e]; [done| | |].
  - by destruct s.
  - done.
  - split; [by destruct s|done].
Qed.

Lemma NewEngine_finite cfg :
  is_float64 (Multiplier cfg) -> Multiplier cfg <> S754_nan -> Multiplier cfg <> S754_infinity false ->
  finite (Multiplier (Engine_Config (NewEngine cfg))).
Proof.
  intros Hm Hn Hi. unfold NewEngine. cbn [Engine_Config Multiplier]. destruct (fle _ _) eqn:E; [by apply of_int_finite|].
  destruct (Multiplier cfg) as [s|[]| |[] m e]; try done.
Qed.

Lemma NewEngine_delays cfg :
  BaseDelay cfg < 2 ^ 53 -> MaxDelay cfg < 2 ^ 53 ->
  let e := Engine_Config (NewEngine cfg) in
  0 < BaseDelay e < 2 ^ 53 /\ 0 < MaxDelay e < 2 ^ 53.
Proof.
  intros Hb Hm. cbn. unfold Second. repeat case_goal; zbool; lia.
Qed.

(** C30. For delays below 2^53 nanoseconds (104 days) and a multiplier that
    is neither NaN nor infinite, which the server's own configuration satisfies:
    whatever the attempt and the random draw, a delay is never negative and
    never exceeds the configured maximum, since there the float64 arithmetic
    neither overflows nor rounds past the cap.  NewEngine accepts more than
    that; [delay_out_of_range] has what Delay then returns. *)
Theorem delay_within_bounds (cfg : Config) (rnd : float64) (attempt : Z) :
  BaseDelay cfg < 2 ^ 53 -> MaxDelay cfg < 2 ^ 53 ->
  is_float64 (Multiplier cfg) -> is_float64 (Jitter cfg) -> finite rnd ->
  Multiplier cfg <> S754_nan -> Multiplier cfg <> S754_infinity false ->
  0 <= Delay (NewEngine cfg) rnd attempt <= MaxDelay (Engine_Config (NewEngine cfg)).
Proof.
  intros Hb Hm Hmul Hj Hr Hnan Hinf. unfold Delay.
  pose proof (NewEngine_jitter cfg Hj) as Hjit. pose proof (NewEngine_finite cfg Hmul Hnan Hinf) as Hfin.
  pose proof (NewEngine_delays cfg Hb Hm) as [Hb' Hm'].
  set (e := Engine_Config (NewEngine cfg)) in *. set (d := cap _ (backoff _ _ _ _)).
  assert (Hd : small d /\ floor d <= MaxDelay e).
  { apply cap_bound; [done|]. apply backoff_nonneg; auto using of_int_finite. }
  assert (Hf : forall x, small x /\ floor x <= MaxDelay e -> 0 <= to_int64 x <= MaxDelay e).
  { intros x [[Hx _] Hfl]. pose proof (floor_nonneg x Hx).
    rewrite to_int64_floor by (unfold int64_max; auto; lia). lia. }
  destruct (fgt (Jitter e) _) eqn:Hg; apply Hf; [|done]. apply cap_bound; [done|].
  apply fadd_nonneg; [apply Hd|]. apply fmul_nonneg; [|done]. apply fmul_small; [apply Hd|]. by apply Hjit.
Qed.

(** The configuration of the server (cmd/server/main.go). *)
Definition retryConfig : Config := mkConfig Second (30 * Second) (of_int 2) 5 (S754_finite false 7205759403792794 (-56)).

Lemma delay_within_bounds_witness :
  0 <= Delay (NewEngine retryConfig) (S754_finite false 6755399441055744 (-53)) 3 <= 30 * Second /\
  Delay (NewEngine retryConfig) (S754_zero false) 3 = 8 * Second.
Proof.
  split; [|vm_compute; reflexivity].
  apply (delay_within_bounds retryConfig (S754_finite false 6755399441055744 (-53)) 3);
    [done|done|done|done|by repeat split|done|done].
Defined.

(** Outside that range the bounds fail.  A maximum above 2^53 is rounded to
    float64, so a delay can exceed it, and the largest Duration rounds to 2^63, which
    converts back to the smallest; a NaN multiplier is not below 1 and makes every
    delay after the first failure the smallest Duration. *)
Example delay_out_of_range :
  let delay base max mult := Delay (NewEngine (mkConfig base max mult 5 (of_int 0))) (S754_zero false) in
  delay 1 (2 ^ 53 + 3) (of_int 2) 60 = 2 ^ 53 + 4 /\
  delay 1 (2 ^ 63 - 1) (of_int 2) 64 = - 2 ^ 63 /\
  delay Second (30 * Second) S754_nan 1 = - 2 ^ 63.
Proof. vm_compute. repeat split. Qed.

Lemma should_retry_iff e attempt err :
  ShouldRetry e attempt err = true <->
  (forall x, err = Some x -> errors_Is x ErrNoRetry = false) /\
  (0 < MaxAttempts (Engine_Config e) -> attempt < MaxAttempts (Engine_Config e)).
Proof.
  unfold ShouldRetry. destruct err as [x|]; [destruct (errors_Is x ErrNoRetry) eqn:E|].
  - split; [done|]. intros [H _]. by rewrite (H x) in E.
  - destruct (_ && _) eqn:B; [|split; [|done]]; [split; [done|intros [_ H]; zbool; lia]|].
    intros _. split; [by intros ? [= <-]|]. apply andb_false_iff in B as [?|?]; zbool; lia.
  - destruct (_ && _) eqn:B; [|split; [|done]]; [split; [done|intros [_ H]; zbool; lia]|].
    intros _. split; [done|]. apply andb_false_iff in B as [?|?]; zbool; lia.
Qed.
