(* ===== verification/Service.v ===== *)
(** * internal/service/job_service.go: the door every job goes through

    The service is written against the [JobStore] interface of the store, a
    type class here; [JobStoreLaws] states what it relies on, its theorems are
    proved against those laws, and [PostgresStore] discharges them. *)

From stdpp Require Import strings.
From S2P Require Import Prelude Models JobStore JobFacts JobSystem JobSpec JobProps Retry.

(** ** The interface

    The methods of [store.JobStore] the service calls. *)

Class JobStore (S : Type) := {
  js_CreateJob : Env S -> Job -> S -> result unit * S;
  js_GetJob : Env S -> string -> string -> S -> result Job * S;
  js_GetJobByIdempotencyKey : Env S -> string -> string -> S -> result Job * S;
  js_CancelJob : Env S -> Env S -> string -> string -> S -> result unit * S;
  js_ClaimNextJob : Env S -> Dur -> ClaimFilter -> S -> result Job * S;
  js_RenewLease : Env S -> Job -> Dur -> S -> result unit * S;
  js_CompleteClaimedJob : Env S -> string -> string -> StrMap -> S -> result Job * S;
  js_FailClaimedJob : Env S -> string -> string -> string -> option Time -> S -> result unit * S
}.

#[global] Instance PostgresStore : JobStore Jobs := {
  js_CreateJob := CreateJob;
  js_GetJob := GetJob;
  js_GetJobByIdempotencyKey := GetJobByIdempotencyKey;
  js_CancelJob := CancelJob;
  js_ClaimNextJob := ClaimNextJob;
  js_RenewLease := RenewLease;
  js_CompleteClaimedJob := CompleteClaimedJob;
  js_FailClaimedJob := FailClaimedJob
}.

(** ** The service *)

Record JobService := mkJobService {
  svc_retry : Engine;
  svc_topic : string;
  svc_lease : Dur
}.

Definition NewJobService (r : Engine) (topic : string) (lease : Dur) : JobService :=
  mkJobService r topic (if lease <=? 0 then 5 * Minute else lease).

Definition shouldRetry (svc : JobService) (job : Job) : bool :=
  if 0 <? Task_MaxRetries (Job_Task job)
  then Job_Attempt job <? Task_MaxRetries (Job_Task job)
  else ShouldRetry (svc_retry svc) (Job_Attempt job) None.

Definition clampLease (svc : JobService) (requested : Dur) : Dur :=
  if (requested <=? 0) || (svc_lease svc <? requested) then svc_lease svc else requested.

(** [b[i] = f(b[i])]. *)
Definition set_byte (i : nat) (f : Z -> Z) (b : list Z) : list Z := alter f i b.

(** A random UUID, version 4, as both newJobID and store.newID print it. *)
Definition uuid_v4 (b : list Z) : string :=
  let b := set_byte 6 (fun x => Z.lor (Z.land x 15) 64) b in
  let b := set_byte 8 (fun x => Z.lor (Z.land x 63) 128) b in
  let h := hex_EncodeToString b in
  String.substring 0 8 h +:+ "-" +:+ String.substring 8 4 h +:+ "-" +:+ String.substring 12 4 h
    +:+ "-" +:+ String.substring 16 4 h +:+ "-" +:+ String.substring 20 (String.length h - 20) h.

Definition newJobID (rnd : option (list Z)) : result string :=
  match rand_Read 16 rnd with
  | Error e => Error e
  | Ok b => Ok (uuid_v4 b)
  end.

Definition shouldPublishImmediately (job : Job) (now : Time) : bool :=
  match Job_ScheduledAt job with None => true | Some at_ => negb (After at_ now) end.

(** ** Enqueue *)

(** The round trips of one Enqueue: the lookup, the random bytes of a new id,
    the clock it reads, the insert, the lookup after a lost race. *)
Record EnqueueEnv (S : Type) := mkEnqueueEnv {
  ee_lookup : Env S;
  ee_rand : option (list Z);
  ee_now : Time;
  ee_create : Env S;
  ee_again : Env S
}.
Arguments mkEnqueueEnv {S}.
Arguments ee_lookup {S}.
Arguments ee_rand {S}.
Arguments ee_now {S}.
Arguments ee_create {S}.
Arguments ee_again {S}.

Definition set_tenant (job : Job) : Job :=
  mkJob (Job_ID job) (if bool_decide (Job_TenantID job = "") then DefaultTenant else Job_TenantID job)
    (Job_IdempotencyKey job) (Job_Task job) (Job_State job) (Job_Attempt job) (Job_ScheduledAt job)
    (Job_StartedAt job) (Job_LeaseExpiresAt job) (Job_LeaseToken job) (Job_CompletedAt job)
    (Job_LastError job) (Job_Metadata job) (Job_CreatedAt job) (Job_UpdatedAt job).

(** The defaults Enqueue fills in before it persists: state, queue, retry
    budget and scheduled time. *)
Definition normalise (svc : JobService) (now : Time) (id : string) (job : Job) : Job :=
  let task := Job_Task job in
  let engineMax := MaxAttempts (Engine_Config (svc_retry svc)) in
  let task' := mkTask (Task_ID task) (Task_Name task) (Task_Payload task) (Task_RetryCount task)
    (if Task_MaxRetries task <=? 0
     then (if engineMax <=? 0 then DefaultMaxAttempts else engineMax)
     else Task_MaxRetries task)
    (Task_Timeout task) (Task_CronExpression task)
    (if bool_decide (Task_Queue task = "") then DefaultQueue else Task_Queue task)
    (Task_Metadata task) (Task_Priority task) in
  mkJob id (Job_TenantID job) (Job_IdempotencyKey job) task'
    (if bool_decide (Job_State job = JobStateUnset) then JobStatePending else Job_State job)
    (Job_Attempt job)
    (match Job_ScheduledAt job with None => Some now | Some at_ => Some at_ end)
    (Job_StartedAt job) (Job_LeaseExpiresAt job) (Job_LeaseToken job) (Job_CompletedAt job)
    (Job_LastError job) (Job_Metadata job) (Job_CreatedAt job) (Job_UpdatedAt job).

(** What Enqueue returns: the id or an error, and the job the goroutine it
    starts will publish, if any. *)
Abbreviation EnqueueResult S := (result string * option Job * S)%type.

(** Its second half: persist the normalised job, and on a lost race fall back
    on the job that won. *)
Definition enqueue_new {S} `{JobStore S} (svc : JobService) (ee : EnqueueEnv S) (job : Job) (s : S)
    : EnqueueResult S :=
  match (if bool_decide (Job_ID job = "") then newJobID (ee_rand ee) else Ok (Job_ID job)) with
  | Error e => (Error (Wrapf "service: generate job id: " e), None, s)
  | Ok id =>
      let job := normalise svc (ee_now ee) id job in
      match js_CreateJob (ee_create ee) job s with
      | (Error e, s1) =>
          if errors_Is e ErrDuplicateIdempotencyKey && str_nonempty (Job_IdempotencyKey job) then
            match js_GetJobByIdempotencyKey (ee_again ee) (Job_TenantID job) (Job_IdempotencyKey job) s1 with
            | (Error e2, s2) =>
                (Error (Wrapf "service: lookup duplicate idempotency key: " e2), None, s2)
            | (Ok existing, s2) => (Ok (Job_ID existing), None, s2)
            end
          else (Error (Wrapf "service: persist job: " e), None, s1)
      | (Ok _, s1) =>
          (Ok id, if shouldPublishImmediately job (ee_now ee) then Some job else None, s1)
      end
  end.

Definition Enqueue {S} `{JobStore S} (svc : JobService) (ee : EnqueueEnv S) (job : Job) (s : S)
    : EnqueueResult S :=
  let job := set_tenant job in
  if str_nonempty (Job_IdempotencyKey job) then
    match js_GetJobByIdempotencyKey (ee_lookup ee) (Job_TenantID job) (Job_IdempotencyKey job) s with
    | (Ok existing, s1) => (Ok (Job_ID existing), None, s1)
    | (Error e, s1) =>
        if negb (errors_Is e ErrJobNotFound)
        then (Error (Wrapf "service: lookup idempotency key: " e), None, s1)
        else enqueue_new svc ee job s1
    end
  else enqueue_new svc ee job s.

(** ** The other operations *)

Definition Cancel {S} `{JobStore S} (env1 env2 : Env S) (tenant key : string) (s : S)
    : result unit * S :=
  match js_CancelJob env1 env2 tenant key s with
  | (Error e, s1) => (Error (Wrapf ("service: cancel job " +:+ key +:+ ": ") e), s1)
  | r => r
  end.

Definition Claim {S} `{JobStore S} (svc : JobService) (env : Env S) (f : ClaimFilter) (lease : Dur)
    (s : S) : result Job * S :=
  match js_ClaimNextJob env (clampLease svc lease) f s with
  | (Error e, s1) =>
      (Error (if errors_Is e ErrJobNotFound then e else Wrapf "service: claim job: " e), s1)
  | r => r
  end.

(** The expiry it reports is read off the clock again, after the renewal. *)
Definition Heartbeat {S} `{JobStore S} (svc : JobService) (env : Env S) (now : Time)
    (key tok : string) (lease : Dur) (s : S) : result Time * S :=
  let d := clampLease svc lease in
  let job := mkJob key "" "" zeroTask JobStateUnset 0 None None None tok None "" None 0 0 in
  match js_RenewLease env job d s with
  | (Error e, s1) =>
      (Error (if errors_Is e ErrInvalidTransition then Sentinel ErrLeaseLost
              else Wrapf ("service: renew lease for job " +:+ key +:+ ": ") e), s1)
  | (Ok _, s1) => (Ok (Add now d), s1)
  end.

Definition Complete {S} `{JobStore S} (env : Env S) (key tok : string) (meta : StrMap) (s : S)
    : result Job * S :=
  match js_CompleteClaimedJob env key tok meta s with
  | (Error e, s1) =>
      (Error (if errors_Is e ErrLeaseLost then e
              else Wrapf ("service: complete job " +:+ key +:+ ": ") e), s1)
  | r => r
  end.

(** The job Fail hands back, put together without a second read. *)
Definition failed_job (msg : string) (nextRun : option Time) (job : Job) : Job :=
  mkJob (Job_ID job) (Job_TenantID job) (Job_IdempotencyKey job) (Job_Task job)
    (match nextRun with Some _ => JobStatePending | None => JobStateDead end)
    (Job_Attempt job)
    (match nextRun with Some t => Some t | None => Job_ScheduledAt job end)
    None None "" (Job_CompletedAt job) msg (Job_Metadata job) (Job_CreatedAt job) (Job_UpdatedAt job).

Definition retry_at (svc : JobService) (now : Time) (rnd : float64) (permanent : bool) (job : Job)
    : option Time :=
  if negb permanent && shouldRetry svc job
  then Some (Add now (Delay (svc_retry svc) rnd (Job_Attempt job)))
  else None.

Definition Fail {S} `{JobStore S} (svc : JobService) (env1 : Env S) (now : Time) (rnd : float64)
    (env2 : Env S) (key tok msg : string) (permanent : bool) (s : S) : result Job * S :=
  match js_GetJob env1 AnyTenant key s with
  | (Error e, s1) => (Error (Wrapf ("service: load job " +:+ key +:+ ": ") e), s1)
  | (Ok job, s1) =>
      let nextRun := retry_at svc now rnd permanent job in
      match js_FailClaimedJob env2 key tok msg nextRun s1 with
      | (Error e, s2) =>
          (Error (if errors_Is e ErrLeaseLost then e
                  else Wrapf ("service: fail job " +:+ key +:+ ": ") e), s2)
      | (Ok _, s2) => (Ok (failed_job msg nextRun job), s2)
      end
  end.

(** ** What the service relies on *)

Class JobStoreLaws (S : Type) `{JobStore S} := {
  js_ok : S -> Prop;
  (** [js_holds tenant key id s]: job [id] holds the key in the tenant. *)
  js_holds : string -> string -> string -> S -> Prop;
  lookup_reads env tenant key s : (js_GetJobByIdempotencyKey env tenant key s).2 = intf env s;
  lookup_found env tenant key s job s' :
    tenant <> AnyTenant -> js_ok (intf env s) ->
    js_GetJobByIdempotencyKey env tenant key s = (Ok job, s') ->
    s' = intf env s /\ js_holds tenant key (Job_ID job) s';
  lookup_hit env tenant key id s :
    tenant <> AnyTenant -> js_ok (intf env s) -> fault env = NoFault ->
    js_holds tenant key id (intf env s) ->
    exists job, js_GetJobByIdempotencyKey env tenant key s = (Ok job, intf env s) /\ Job_ID job = id;
  create_holds env job s s' :
    Job_IdempotencyKey job <> "" -> js_CreateJob env job s = (Ok tt, s') ->
    js_holds (Job_TenantID job) (Job_IdempotencyKey job) (Job_ID job) s';
  create_duplicate env job s e s' :
    fault env = NoFault -> Job_IdempotencyKey job <> "" ->
    js_CreateJob env job s = (Error e, s') -> errors_Is e ErrDuplicateIdempotencyKey = true ->
    s' = intf env s /\ exists id, js_holds (Job_TenantID job) (Job_IdempotencyKey job) id s';
  create_ok env job s :
    fresh_job job -> js_ok (intf env s) -> js_ok (js_CreateJob env job s).2
}.

Definition row_holds (tenant key id : string) (t : Jobs) : Prop :=
  exists r, t !! id = Some r /\ tenant_id r = tenant /\ idempotency_key r = Some key.

Lemma by_key_spec tenant key r :
  tenant <> AnyTenant ->
  by_key tenant key r = true <-> tenant_id r = tenant /\ idempotency_key r = Some key.
Proof.
  intros Hne. unfold by_key. rewrite andb_true_iff, bool_decide_eq_true, tenant_matches_spec.
  unfold in_tenant. naive_solver.
Qed.

(** Under the unique index the lookup by key has at most one answer. *)
Lemma by_key_head ids tenant key (t : Jobs) id :
  tenant <> AnyTenant -> table_ok t -> row_holds tenant key id t ->
  exists r, head (List.filter (by_key tenant key) (all_rows ids t)) = Some r /\
    Models.id r = id.
Proof.
  intros Hne Hok (r & Hr & Htn & Hkey). set (l := List.filter _ _).
  assert (Hin : r ∈ l).
  { apply elem_of_Lfilter. split; [apply elem_of_all_rows; by exists id|by apply by_key_spec]. }
  destruct l as [|r' l'] eqn:E; [by apply not_elem_of_nil in Hin|]. exists r'. split; [done|].
  assert (Hin' : r' ∈ l) by (rewrite E; left). apply elem_of_Lfilter in Hin' as [Hv Hb].
  apply elem_of_all_rows in Hv as [k' Hk']. apply by_key_spec in Hb as [Htn' Hkey']; [|done].
  rewrite (ok_keyed _ Hok _ _ Hk'). apply (ok_unique _ Hok k' id r' r Hk' Hr).
  unfold same_key. rewrite Htn, Htn', Hkey, Hkey'. done.
Qed.

#[global] Program Instance PostgresLaws : JobStoreLaws Jobs := {
  js_ok := table_ok;
  js_holds := row_holds
}.
Next Obligation.
  intros env tenant key t. cbn. unfold GetJobByIdempotencyKey, query_job, run_stmt.
  destruct (fault env); [|done|done]. by case_goal.
Qed.
Next Obligation.
  intros env tenant key t job t' Hne Hok (r & Hq & -> & ->)%query_job_Ok. split; [done|].
  apply head_Some_elem_of, elem_of_Lfilter in Hq as [Hv Hb]. apply elem_of_all_rows in Hv as [k Hk].
  exists r. cbn. rewrite (ok_keyed _ Hok _ _ Hk). split; [done|]. by apply by_key_spec.
Qed.
Next Obligation.
  intros env tenant key id t Hne Hok Hf Hh.
  destruct (by_key_head (scan env) tenant key _ id Hne Hok Hh) as (r & Hr & <-).
  exists (scanJob r). cbn. unfold GetJobByIdempotencyKey, query_job, run_stmt. by rewrite Hf, Hr.
Qed.
Next Obligation.
  intros env job t t' Hkey. cbn. unfold CreateJob, run_stmt.
  destruct (fault env); [|by repeat case_goal|by repeat case_goal].
  unfold insert_job. destruct (negb _); [done|]. destruct (intf env t !! _); [done|].
  destruct (bool_decide (map_Exists _ _)); [done|]. intros Heq. simplify_eq.
  exists (job_row (stamp_job (gonow env) job)).
  split; [apply lookup_insert_eq|]. split; [done|]. cbn.
  unfold nullableString. by rewrite bool_decide_false.
Qed.
Next Obligation.
  intros env job t e t' Hf Hkey. cbn. unfold CreateJob, run_stmt. rewrite Hf.
  unfold insert_job. destruct (negb _); [by intros [= <- <-]|].
  destruct (intf env t !! _); [by intros [= <- <-]|].
  destruct (bool_decide (map_Exists _ _)) eqn:E; [|done]. intros [= <- <-] _. split; [done|].
  zbool. destruct E as (k & r & Hr & Htn & Hk & _). exists k, r. split; [done|]. split; [done|].
  rewrite Hk. cbn. unfold nullableString. by rewrite bool_decide_false.
Qed.

Next Obligation.
  intros env job t Hf Hok. cbn.
  assert (HP : table_ok (run_stmt env (insert_job (job_row (stamp_job (gonow env) job))) t).2)
    by (apply run_stmt_pred; [done|by apply insert_job_ok]).
  unfold CreateJob. destruct (run_stmt _ _ _) as [[?|?] ?]; [done|]. by repeat case_goal.
Qed.

(** ** Enqueue *)

(** A job as the API and the scheduler submit it. *)
Definition submission (job : Job) : Prop :=
  (Job_State job = JobStateUnset \/ Job_State job = JobStatePending) /\ Job_Attempt job = 0 /\
  Job_StartedAt job = None /\ Job_LeaseExpiresAt job = None /\ Job_CompletedAt job = None /\
  Job_LeaseToken job = "".

(** Other sessions keep the jobs table well formed around an enqueue. *)
Definition enqueue_keeps (ee : EnqueueEnv Jobs) : Prop :=
  keeps table_ok (ee_lookup ee) /\ keeps table_ok (ee_create ee) /\ keeps table_ok (ee_again ee).

(** The defaults make it the job CreateJob expects, with a budget to spend. *)
Lemma normalise_fresh svc now id job : submission job -> fresh_job (normalise svc now id job).
Proof.
  intros (Hst & Ha & H1 & H2 & H3 & H4). unfold fresh_job. cbn. split_and!; try done.
  - destruct Hst as [->| ->]; done.
  - by destruct (Job_ScheduledAt job).
  - unfold DefaultMaxAttempts. repeat case_goal; zbool; lia.
Qed.

Section Enqueueing.
Context {S : Type} `{JobStoreLaws S}.

Lemma normalise_key svc now id job : Job_IdempotencyKey (normalise svc now id job) = Job_IdempotencyKey job.
Proof. done. Qed.

Lemma set_tenant_nonempty job : Job_TenantID (set_tenant job) <> AnyTenant.
Proof. cbn. by case_bool_decide. Qed.

Lemma str_nonempty_true s : str_nonempty s = true <-> s <> "".
Proof. unfold str_nonempty. by rewrite negb_true_iff, bool_decide_eq_false. Qed.

Lemma enqueue_holds (svc : JobService) (ee : EnqueueEnv S) (job : Job) (s s' : S)
    (id : string) (pub : option Job) :
  Job_IdempotencyKey job <> "" -> submission job ->
  (forall s, js_ok s -> js_ok (intf (ee_lookup ee) s)) ->
  (forall s, js_ok s -> js_ok (intf (ee_create ee) s)) ->
  (forall s, js_ok s -> js_ok (intf (ee_again ee) s)) -> js_ok s ->
  Enqueue svc ee job s = (Ok id, pub, s') ->
  js_holds (Job_TenantID (set_tenant job)) (Job_IdempotencyKey job) id s'.
Proof.
  intros Hkey Hsub Hk1 Hk2 Hk3 Hok. unfold Enqueue.
  pose proof (set_tenant_nonempty job) as Hne.
  change (Job_IdempotencyKey (set_tenant job)) with (Job_IdempotencyKey job) in *.
  rewrite (proj2 (str_nonempty_true _) Hkey).
  pose proof (lookup_reads (ee_lookup ee) (Job_TenantID (set_tenant job)) (Job_IdempotencyKey job) s) as Hs1.
  destruct (js_GetJobByIdempotencyKey (ee_lookup ee) _ _ s) as [[ex|e] s1] eqn:E1; cbn [snd] in Hs1.
  - intros [= <- _ <-]. by apply lookup_found in E1 as [_ ?]; [|done|apply Hk1].
  - subst s1. destruct (negb _); [done|]. unfold enqueue_new.
    destruct (if bool_decide _ then _ else _) as [id'|]; [|done].
    destruct (js_CreateJob _ _ _) as [[[]|e2] s2] eqn:E2.
    + intros [= <- _ <-]. by apply create_holds in E2.
    + cbn [Job_IdempotencyKey normalise]. destruct (_ && _); [|done].
      destruct (js_GetJobByIdempotencyKey (ee_again ee) _ _ s2) as [[ex|e3] s3] eqn:E3; [|done].
      intros [= <- _ <-]. apply lookup_found in E3 as [_ ?]; [done|done|]. apply Hk3.
      replace s2 with (js_CreateJob (ee_create ee)
        (normalise svc (ee_now ee) id' (set_tenant job)) (intf (ee_lookup ee) s)).2 by (by rewrite E2).
      apply create_ok; [by apply normalise_fresh|auto].
Qed.

(** C14. An enqueue under an idempotency key that succeeds returns the id of
    the one job that holds the key in that tenant when it returns, whether it
    created that job, found it, or lost the race to another submitter. *)
Theorem enqueue_returns_holder (svc : JobService) (ee : EnqueueEnv S) (job : Job) (s s' : S)
    (id : string) (pub : option Job) :
  Job_IdempotencyKey job <> "" -> submission job ->
  (forall s, js_ok s -> js_ok (intf (ee_lookup ee) s)) ->
  (forall s, js_ok s -> js_ok (intf (ee_create ee) s)) ->
  (forall s, js_ok s -> js_ok (intf (ee_again ee) s)) -> js_ok s ->
  Enqueue svc ee job s = (Ok id, pub, s') ->
  js_holds (Job_TenantID (set_tenant job)) (Job_IdempotencyKey job) id s'.
Proof. apply enqueue_holds. Qed.

Lemma enqueue_hit svc ee job s id :
  Job_IdempotencyKey job <> "" -> js_ok (intf (ee_lookup ee) s) -> fault (ee_lookup ee) = NoFault ->
  js_holds (Job_TenantID (set_tenant job)) (Job_IdempotencyKey job) id (intf (ee_lookup ee) s) ->
  Enqueue svc ee job s = (Ok id, None, intf (ee_lookup ee) s).
Proof.
  intros Hkey Hok Hf Hh. pose proof (set_tenant_nonempty job) as Hne. unfold Enqueue.
  change (Job_IdempotencyKey (set_tenant job)) with (Job_IdempotencyKey job).
  rewrite (proj2 (str_nonempty_true _) Hkey).
  destruct (lookup_hit _ _ _ _ _ Hne Hok Hf Hh) as (ex & -> & <-). done.
Qed.

Lemma enqueue_ok svc ee job s :
  submission job ->
  (forall s, js_ok s -> js_ok (intf (ee_lookup ee) s)) ->
  (forall s, js_ok s -> js_ok (intf (ee_create ee) s)) ->
  (forall s, js_ok s -> js_ok (intf (ee_again ee) s)) -> js_ok s ->
  js_ok (Enqueue svc ee job s).2.
Proof.
  intros Hsub Hk1 Hk2 Hk3 Hok. unfold Enqueue.
  assert (Hins : forall s, js_ok s -> js_ok (enqueue_new svc ee (set_tenant job) s).2).
  { intros s1 Hs1. unfold enqueue_new. destruct (if bool_decide _ then _ else _) as [id'|]; [|done].
    pose proof (create_ok (ee_create ee) (normalise svc (ee_now ee) id' (set_tenant job)) s1
      (normalise_fresh svc (ee_now ee) id' (set_tenant job) Hsub) (Hk2 _ Hs1)) as Hc.
    destruct (js_CreateJob _ _ s1) as [[u|e] s2]; [done|]. cbn [snd] in Hc. destruct (_ && _); [|done].
    match goal with |- context [js_GetJobByIdempotencyKey ?env ?tn ?k s2] =>
      pose proof (lookup_reads env tn k s2) as Hr; destruct (js_GetJobByIdempotencyKey env tn k s2) as [[?|?] s3] end;
      cbn in *; subst s3; by apply Hk3. }
  destruct (str_nonempty _); [|by apply Hins].
  match goal with |- context [js_GetJobByIdempotencyKey ?env ?tn ?k s] =>
    pose proof (lookup_reads env tn k s) as Hr; destruct (js_GetJobByIdempotencyKey env tn k s) as [[?|e] s1] end;
    cbn [snd] in Hr; subst s1; [by apply Hk1|]. destruct (negb _); [by apply Hk1|]. by apply Hins, Hk1.
Qed.

(** Enqueueing again is a no-op: while a job holds the key, an enqueue
    under it, whatever else it asks for, returns that job's id, publishes
    nothing and writes nothing.  And an enqueue that loses the race between
    its lookup and its insert also ends with the winner's id, not an error. *)
Theorem enqueue_again_is_noop (svc : JobService) (ee : EnqueueEnv S) (job : Job) (s : S) (id : string) :
  let tenant := Job_TenantID (set_tenant job) in
  let key := Job_IdempotencyKey job in
  key <> "" -> js_ok (intf (ee_lookup ee) s) -> fault (ee_lookup ee) = NoFault ->
  (js_holds tenant key id (intf (ee_lookup ee) s) ->
   Enqueue svc ee job s = (Ok id, None, intf (ee_lookup ee) s)) /\
  (forall e1 e2 s1 s2 newid, fault (ee_create ee) = NoFault -> fault (ee_again ee) = NoFault ->
   js_GetJobByIdempotencyKey (ee_lookup ee) tenant key s = (Error e1, s1) ->
   errors_Is e1 ErrJobNotFound = true ->
   (if bool_decide (Job_ID job = "") then newJobID (ee_rand ee) else Ok (Job_ID job)) = Ok newid ->
   js_CreateJob (ee_create ee) (normalise svc (ee_now ee) newid (set_tenant job)) s1 = (Error e2, s2) ->
   errors_Is e2 ErrDuplicateIdempotencyKey = true ->
   (forall s, intf (ee_again ee) s = s) -> js_ok s2 ->
   exists winner, js_holds tenant key winner s2 /\ Enqueue svc ee job s = (Ok winner, None, s2)).
Proof.
  intros tenant key Hkey Hok Hf. pose proof (set_tenant_nonempty job) as Hne. subst tenant key.
  split; [by apply enqueue_hit|]. unfold Enqueue.
  change (Job_IdempotencyKey (set_tenant job)) with (Job_IdempotencyKey job).
  rewrite (proj2 (str_nonempty_true _) Hkey).
  - intros e1 e2 s1 s2 newid Hf2 Hf3 -> Hnf Hid Hcr Hdup Hq Hok2. rewrite Hnf. cbn [negb].
    unfold enqueue_new. change (Job_ID (set_tenant job)) with (Job_ID job). rewrite Hid, Hcr, Hdup.
    cbn [Job_IdempotencyKey normalise Job_TenantID].
    change (Job_IdempotencyKey (set_tenant job)) with (Job_IdempotencyKey job).
    rewrite (proj2 (str_nonempty_true _) Hkey). cbn [andb].
    apply create_duplicate in Hcr as [_ [w Hw]]; [|done..]. exists w. split; [done|].
    destruct (lookup_hit (ee_again ee) (Job_TenantID (set_tenant job)) (Job_IdempotencyKey job) w s2) as (ex & Hl & <-); rewrite ?Hq; try done.
    rewrite Hq in Hl. by rewrite Hl.
Qed.
End Enqueueing.

Definition demo_service : JobService := NewJobService (NewEngine retryConfig) "jobs" 0.

Definition demo_enqueue (b : Z) : EnqueueEnv Jobs :=
  mkEnqueueEnv (demo_env [] 0) (Some [b]) demo_now (demo_env [] 0) (demo_env [] 0).

(** A submission as the API makes it: only a key and a task. *)
Definition demo_submit (key : string) : Job :=
  mkJob "" "" key demo_task JobStateUnset 0 None None None "" None "" None 0 0.

Definition demo_enqueued : Jobs := (Enqueue demo_service (demo_enqueue 1) (demo_submit "k") ∅).2.

Lemma demo_submission key : submission (demo_submit key).
Proof. by repeat split; auto. Qed.

Lemma enqueue_returns_holder_witness :
  js_holds DefaultTenant "k" (uuid_v4 (1 :: replicate 15 0)) demo_enqueued.
Proof.
  apply (enqueue_returns_holder (S := Jobs) demo_service (demo_enqueue 1) (demo_submit "k") ∅ demo_enqueued
    (uuid_v4 (1 :: replicate 15 0))
    (Some (normalise demo_service demo_now (uuid_v4 (1 :: replicate 15 0)) (set_tenant (demo_submit "k"))))).
  - discriminate.
  - apply demo_submission.
  - intros s Hs. exact Hs.
  - intros s Hs. exact Hs.
  - intros s Hs. exact Hs.
  - apply table_ok_empty.
  - vm_compute. reflexivity.
Defined.

Lemma demo_enqueued_ok : table_ok demo_enqueued.
Proof.
  replace demo_enqueued with (CreateJob (demo_env [] 0)
    (normalise demo_service demo_now (uuid_v4 (1 :: replicate 15 0)) (set_tenant (demo_submit "k"))) ∅).2
    by (vm_compute; reflexivity).
  apply (create_ok (JobStoreLaws := PostgresLaws) (demo_env [] 0));
    [apply normalise_fresh, demo_submission|apply table_ok_empty].
Qed.

Lemma enqueue_again_is_noop_witness :
  Enqueue demo_service (demo_enqueue 2) (demo_submit "k") demo_enqueued
    = (Ok (uuid_v4 (1 :: replicate 15 0)), None, demo_enqueued).
Proof.
  apply (enqueue_again_is_noop (S := Jobs) demo_service (demo_enqueue 2) (demo_submit "k") demo_enqueued).
  - discriminate.
  - apply demo_enqueued_ok.
  - reflexivity.
  - eexists. split; [vm_compute; reflexivity|]. split; reflexivity.
Defined.

(** ** Failing a job *)

(** The stored budget, or the engine's when the job has none, against the
    attempts spent. *)
Definition budget_left (svc : JobService) (r : JobRow) : Prop :=
  if 0 <? task_max_retries r then attempt r < task_max_retries r
  else 0 < MaxAttempts (Engine_Config (svc_retry svc)) ->
       attempt r < MaxAttempts (Engine_Config (svc_retry svc)).

Lemma shouldRetry_budget svc r : shouldRetry svc (scanJob r) = true <-> budget_left svc r.
Proof.
  unfold shouldRetry, budget_left.
  change (Task_MaxRetries (Job_Task (scanJob r))) with (task_max_retries r).
  change (Job_Attempt (scanJob r)) with (attempt r).
  destruct (0 <? task_max_retries r); [apply Z.ltb_lt|].
  rewrite should_retry_iff. split; [by intros [_ ?]|done].
Qed.

(** The job handed back as the database recorded it: the due time at the column's
    resolution, the stamps of the write. *)
Definition as_recorded (next : option Time) (now : Time) (job : Job) : Job :=
  mkJob (Job_ID job) (Job_TenantID job) (Job_IdempotencyKey job) (Job_Task job) (Job_State job) (Job_Attempt job)
    (match next with Some at_ => Some (pg_ts at_) | None => Job_ScheduledAt job end)
    (Job_StartedAt job) (Job_LeaseExpiresAt job) (Job_LeaseToken job)
    (match next with Some _ => Job_CompletedAt job | None => Some now end)
    (Job_LastError job) (Job_Metadata job) (Job_CreatedAt job) now.

(** C15. Fail applies the retry policy in one write.  The holder's job goes
    back to PENDING, due after the backoff for its attempt, exactly when the
    failure is not permanent and budget is left; otherwise it is DEAD.  The
    retry it writes is one the store's invariant allows.  The job handed back is
    the row written in every field but the ones [as_recorded] replaces: the due
    time, which the column truncates, completed_at of a dead job and
    updated_at, which the database sets. *)
Theorem fail_applies_policy (svc : JobService) (env1 env2 : Env Jobs) (now : Time) (rnd : float64)
    (key tok msg : string) (permanent : bool) (t : Jobs) (r : JobRow) :
  fault env1 = NoFault -> fault env2 = NoFault -> tok <> "" ->
  intf env1 t !! key = Some r -> intf env2 (intf env1 t) !! key = Some r ->
  holds_lease tok r = true -> row_ok r ->
  let t1 := intf env1 t in
  let next := retry_at svc now rnd permanent (scanJob r) in
  let r' := fail_row msg (pg_ts <$> next) (NOW env2) r in
  (is_Some next <-> permanent = false /\ budget_left svc r) /\
  (forall at_, next = Some at_ -> at_ = now + Delay (svc_retry svc) rnd (attempt r)) /\
  allowed (OFail env2 key tok msg next) t1 /\
  Fail svc env1 now rnd env2 key tok msg permanent t
    = (Ok (failed_job msg next (scanJob r)), <[key := r']> (intf env2 t1)) /\
  scanJob r' = as_recorded next (NOW env2) (failed_job msg next (scanJob r)).
Proof.
  intros Hf1 Hf2 Htok Hr1 Hr2 Hh Hok t1 next r'.
  assert (Hret : is_Some next <-> permanent = false /\ budget_left svc r).
  { unfold next, retry_at. rewrite <- shouldRetry_budget.
    destruct permanent, (shouldRetry svc (scanJob r)); cbn; split; try (by intros [? ?]); eauto. }
  split; [done|]. split.
  { intros at_. unfold next, retry_at. case_goal; [|done]. by intros [= <-]. }
  split.
  { unfold allowed. destruct next; [|done]. intros r0 Hr0 _. unfold t1 in *. rewrite Hr2 in Hr0.
    injection Hr0 as <-. destruct Hret as [[_ Hb] _]; [done|]. unfold budget_left in Hb.
    destruct Hok as [Hmax _]. by rewrite (proj2 (Z.ltb_lt 0 _)) in Hb by lia. }
  split.
  - unfold Fail. cbn. unfold GetJob, query_job, run_stmt. rewrite Hf1, Hr1. cbn.
    rewrite (proj2 (tenant_matches_spec AnyTenant r)) by (by left). cbn.
    fold next. unfold FailClaimedJob. rewrite bool_decide_false by done.
    by rewrite (exec_update_hit _ _ _ _ _ r).
  - unfold r'. by destruct next.
Qed.

(** Fail as store calls: a read, then a fenced write that the store's
    invariant allows as long as nobody changed the attempt or the budget of
    the row the token holds between the two. *)
Lemma Fail_traced (E : Env Jobs -> Prop) (O : Op -> Prop) svc env1 now rnd env2 key tok msg permanent t :
  E env1 -> E env2 -> (forall env tenant key, O (OGet env tenant key)) ->
  (forall next, O (OFail env2 key tok msg next)) -> table_ok (intf env1 t) ->
  (forall r2, intf env2 (intf env1 t) !! key = Some r2 -> holds_lease tok r2 = true ->
     exists r1, intf env1 t !! key = Some r1 /\ attempt r1 = attempt r2 /\
       task_max_retries r1 = task_max_retries r2) ->
  traced E O t (Fail svc env1 now rnd env2 key tok msg permanent t).2.
Proof.
  intros H1 H2 Hget Hfail Hok Hst. unfold Fail. cbn [js_GetJob js_FailClaimedJob PostgresStore].
  pose proof (GetJob_snd env1 AnyTenant key t) as Hs.
  destruct (GetJob _ _ key t) as [[job|e] t1] eqn:E1; cbn [snd] in Hs; subst t1; [|exact (traced_read E O env1 t H1 Hget)].
  eapply traced_trans; [exact (traced_read E O env1 t H1 Hget)|]. set (next := retry_at _ _ _ _ _).
  assert (H3 : traced E O (intf env1 t) (FailClaimedJob env2 key tok msg next (intf env1 t)).2).
  { apply (traced_one _ _ (OFail env2 key tok msg next)); [done| |done|by apply Forall_singleton].
    unfold allowed. destruct next as [at_|] eqn:En; [|done]. intros r2 Hr2 Hh.
    destruct (Hst r2 Hr2 Hh) as (r1 & Hr1 & Ha & Hm).
    assert (Hj : job = scanJob r1).
    { apply query_job_Ok in E1 as (r & Hq & -> & _). rewrite Hr1 in Hq. cbn in Hq. by simplify_option_eq. }
    unfold next, retry_at in En. destruct (_ && shouldRetry _ _) eqn:Eb; [|done].
    apply andb_true_iff in Eb as [_ Eb]. rewrite Hj in Eb. apply shouldRetry_budget in Eb. unfold budget_left in Eb.
    destruct (ok_rows _ Hok _ _ Hr1) as [Hmax _]. rewrite (proj2 (Z.ltb_lt 0 _)) in Eb by lia. lia. }
  destruct (FailClaimedJob _ _ _ _ _ _) as [[?|?] t2]; exact H3.
Qed.

Lemma fail_applies_policy_witness :
  (Fail demo_service (demo_env [] 0) demo_now (of_int 0) (demo_env [] 0) "j1" (demo_token 7)
     "boom" false demo_leased).1
    = Ok (failed_job "boom" (Some (demo_now + 2 * Second))
        (scanJob (default (job_row zeroJob) (demo_leased !! "j1")))).
Proof.
  destruct (demo_leased !! "j1") as [r|] eqn:E; [|vm_compute in E; discriminate].
  destruct (fail_applies_policy demo_service (demo_env [] 0) (demo_env [] 0) demo_now (of_int 0)
    "j1" (demo_token 7) "boom" false demo_leased r) as (_ & _ & _ & Heq & _).
  - reflexivity.
  - reflexivity.
  - discriminate.
  - exact E.
  - exact E.
  - vm_compute in E. injection E as <-. reflexivity.
  - apply (ok_rows _ demo_leased_ok _ _ E).
  - rewrite Heq. vm_compute in E. injection E as <-. vm_compute. reflexivity.
Defined.

(** ** Leases *)

Lemma clampLease_bounds svc d : 0 < svc_lease svc -> 0 < clampLease svc d <= svc_lease svc.
Proof. intros Hl. unfold clampLease. destruct (_ || _) eqn:E; zbool; lia. Qed.

Lemma NewJobService_lease r topic lease : 0 < svc_lease (NewJobService r topic lease).
Proof.
  unfold NewJobService. cbn [svc_lease]. destruct (lease <=? 0) eqn:E; zbool; [done|lia].
Qed.

(** No worker can park a job: whatever lease it asks for, negative and
    absurd values included, the claim the service grants expires after now
    and at most the server's configured lease later. *)
Theorem claim_lease_bounded (r : Engine) (topic : string) (lease d : Dur) (env : Env Jobs)
    (f : ClaimFilter) (t t' : Jobs) (job : Job) :
  let svc := NewJobService r topic lease in
  keyed (intf env t) -> Claim svc env f d t = (Ok job, t') ->
  exists e, Job_LeaseExpiresAt job = Some e /\
    gonow env - Microsecond < e <= gonow env + svc_lease svc /\
    (0 < d <= svc_lease svc -> e = pg_ts (gonow env + d)).
Proof.
  intros svc Hk. unfold Claim. cbn [js_ClaimNextJob PostgresStore].
  destruct (ClaimNextJob env (clampLease svc d) f t) as [[j|e] t1] eqn:E; [|done].
  intros [= <- <-]. apply ClaimNextJob_Ok in E as (r0 & tok & _ & _ & -> & _); [|done].
  assert (Hl : 0 < svc_lease svc) by apply NewJobService_lease.
  pose proof (clampLease_bounds svc d Hl) as Hc. eexists. split; [done|].
  pose proof (pg_ts_bounds (Add (gonow env) (clampLease svc d))) as Hb. unfold Add in *. split; [lia|].
  intros Hd. unfold clampLease. by rewrite (proj2 (Z.leb_gt d 0)), (proj2 (Z.ltb_ge (svc_lease svc) d)) by lia.
Qed.

Lemma claim_lease_bounded_witness :
  exists job, (Claim demo_service (demo_env ["j1"] 3) (demo_filter "acme") (-5) demo_table).1 = Ok job /\
    exists e, Job_LeaseExpiresAt job = Some e /\ e <= demo_now + 5 * Minute.
Proof.
  destruct (Claim demo_service (demo_env ["j1"] 3) (demo_filter "acme") (-5) demo_table)
    as [[job|e] t'] eqn:E; [|vm_compute in E; discriminate].
  exists job. split; [reflexivity|].
  destruct (claim_lease_bounded (NewEngine retryConfig) "jobs" 0 (-5) (demo_env ["j1"] 3)
    (demo_filter "acme") demo_table t' job) as (x & Hx & [_ Hle] & _).
  - apply ok_keyed, demo_table_ok.
  - exact E.
  - exists x. split; [exact Hx|exact Hle].
Defined.

(** ** Job ids *)

Lemma hex_length b : String.length (hex_EncodeToString b) = (2 * length b)%nat.
Proof. induction b as [|x b IH]; cbn; [done|]. rewrite IH. lia. Qed.
