(* ===== verification/Calendar.v ===== *)
(** * The part of package time the scheduler uses

    The proleptic Gregorian calendar of [time.Time] in UTC: the fields of an
    instant and [time.Date] with its normalisation of out-of-range months,
    days and hours.  Days are counted from January 1 of year 1. *)

From S2P Require Import Prelude.

Definition day_secs : Z := 86400.

Definition isLeap (y : Z) : bool := (y mod 4 =? 0) && (negb (y mod 100 =? 0) || (y mod 400 =? 0)).

(** Days before January 1 of year [y]. *)
Definition days_before_year (y : Z) : Z :=
  let n := y - 1 in 365 * n + n / 4 - n / 100 + n / 400.

(** Days of the year before month [m], 0 for January; [m = 12] is the whole
    year. *)
Definition days_before_month (leap : bool) (m : Z) : Z :=
  let l := if leap then 1 else 0 in
  match m with
  | 0 => 0 | 1 => 31 | 2 => 59 + l | 3 => 90 + l | 4 => 120 + l | 5 => 151 + l | 6 => 181 + l
  | 7 => 212 + l | 8 => 243 + l | 9 => 273 + l | 10 => 304 + l | 11 => 334 + l | _ => 365 + l
  end.

(** The year that contains a day, by 400-, 100-, 4- and 1-year cycles. *)
Definition year_of_day (d : Z) : Z :=
  let n400 := d / 146097 in
  let r := d mod 146097 in
  let n100 := Z.min 3 (r / 36524) in
  let r := r - 36524 * n100 in
  let n4 := r / 1461 in
  let r := r mod 1461 in
  let n1 := Z.min 3 (r / 365) in
  400 * n400 + 100 * n100 + 4 * n4 + n1 + 1.

(** The month, 0 for January, that contains a day of the year. *)
Definition month_of_yday (leap : bool) (yd : Z) : Z :=
  let before m := days_before_month leap m in
  if yd <? before 1 then 0 else if yd <? before 2 then 1 else if yd <? before 3 then 2
  else if yd <? before 4 then 3 else if yd <? before 5 then 4 else if yd <? before 6 then 5
  else if yd <? before 7 then 6 else if yd <? before 8 then 7 else if yd <? before 9 then 8
  else if yd <? before 10 then 9 else if yd <? before 11 then 10 else 11.

(** Months counted from January of year 1, and the day each starts on. *)
Definition month_index (d : Z) : Z :=
  let y := year_of_day d in
  12 * (y - 1) + month_of_yday (isLeap y) (d - days_before_year y).

Definition month_start (k : Z) : Z :=
  let y := k / 12 + 1 in days_before_year y + days_before_month (isLeap y) (k mod 12).

(** ** Fields of an instant *)

Definition secs (t : Time) : Z := t / Second.
Definition day_of (t : Time) : Z := secs t / day_secs.

Definition Year (t : Time) : Z := month_index (day_of t) / 12 + 1.
Definition Month (t : Time) : Z := month_index (day_of t) mod 12 + 1.
Definition Day (t : Time) : Z := day_of t - month_start (month_index (day_of t)) + 1.
Definition Weekday (t : Time) : Z := (day_of t + 1) mod 7.
Definition Hour_of (t : Time) : Z := secs t mod day_secs / 3600.
Definition Minute_of (t : Time) : Z := secs t mod 3600 / 60.

(** [time.Date(y, mo, d, h, mi, 0, 0, time.UTC)]. *)
Definition Date (y mo d h mi : Z) : Time :=
  let k := 12 * (y - 1) + (mo - 1) in
  ((month_start k + (d - 1)) * day_secs + h * 3600 + mi * 60) * Second.

(** ** The calendar is sound *)

Lemma isLeap_spec y : (if isLeap y then 1 else 0) = days_before_year (y + 1) - days_before_year y - 365.
Proof.
  unfold isLeap, days_before_year. replace (y + 1 - 1) with y by lia.
  destruct (y mod 4 =? 0) eqn:E4, (y mod 100 =? 0) eqn:E100, (y mod 400 =? 0) eqn:E400;
    cbn [andb orb negb]; zbool; Z.div_mod_to_equations; lia.
Qed.

Lemma year_of_day_bounds d :
  0 <= d -> days_before_year (year_of_day d) <= d < days_before_year (year_of_day d + 1).
Proof.
  intros Hd. unfold year_of_day, days_before_year.
  set (a := d / 146097). set (r1 := d mod 146097).
  assert (H1 : d = 146097 * a + r1 /\ 0 <= r1 < 146097)
    by (unfold a, r1; pose proof (Z.div_mod d 146097); pose proof (Z.mod_pos_bound d 146097); lia).
  set (b := Z.min 3 (r1 / 36524)).
  assert (H2 : 0 <= b <= 3 /\ 0 <= r1 - 36524 * b /\ (b < 3 -> r1 - 36524 * b < 36524) /\
               (b = 3 -> r1 - 36524 * b <= 36524)).
  { unfold b. pose proof (Z.div_mod r1 36524). pose proof (Z.mod_pos_bound r1 36524). lia. }
  set (r2 := r1 - 36524 * b) in *. assert (Hr2 : r2 = r1 - 36524 * b) by done. set (c := r2 / 1461). set (r3 := r2 mod 1461).
  assert (H3 : r2 = 1461 * c + r3 /\ 0 <= r3 < 1461)
    by (unfold c, r3; pose proof (Z.div_mod r2 1461); pose proof (Z.mod_pos_bound r2 1461); lia).
  set (e := Z.min 3 (r3 / 365)).
  assert (H4 : 0 <= e <= 3 /\ 0 <= r3 - 365 * e /\ (e < 3 -> r3 - 365 * e < 365)).
  { unfold e. pose proof (Z.div_mod r3 365). pose proof (Z.mod_pos_bound r3 365). lia. }
  clearbody a r1 b r2 c r3 e.
  replace (400 * a + 100 * b + 4 * c + e + 1 - 1) with (400 * a + 100 * b + 4 * c + e) by lia.
  replace (400 * a + 100 * b + 4 * c + e + 1 + 1 - 1) with (400 * a + 100 * b + 4 * c + e + 1) by lia.
  assert (Hc : c <= 24) by lia. set (n := 400 * a + 100 * b + 4 * c + e).
  assert (Hn : n = 400 * a + 100 * b + 4 * c + e) by done. clearbody n.
  assert (D4 : n / 4 = 100 * a + 25 * b + c) by (symmetry; apply Z.div_unique with e; lia).
  assert (D100 : n / 100 = 4 * a + b) by (symmetry; apply Z.div_unique with (4 * c + e); lia).
  assert (D400 : n / 400 = a) by (symmetry; apply Z.div_unique with (100 * b + 4 * c + e); lia).
  rewrite D4, D100, D400. split; [lia|].
  assert (S4 : (n + 1) / 4 = n / 4 + (if e =? 3 then 1 else 0)).
  { rewrite D4. symmetry. destruct (e =? 3) eqn:E; zbool;
      [apply Z.div_unique with 0|apply Z.div_unique with (e + 1)]; lia. }
  assert (S100 : (n + 1) / 100 = n / 100 + (if 4 * c + e =? 99 then 1 else 0)).
  { rewrite D100. symmetry. destruct (_ =? 99) eqn:E; zbool;
      [apply Z.div_unique with 0|apply Z.div_unique with (4 * c + e + 1)]; lia. }
  assert (S400 : (n + 1) / 400 = n / 400 + (if 100 * b + 4 * c + e =? 399 then 1 else 0)).
  { rewrite D400. symmetry. destruct (_ =? 399) eqn:E; zbool;
      [apply Z.div_unique with 0|apply Z.div_unique with (100 * b + 4 * c + e + 1)]; lia. }
  rewrite S4, S100, S400, D4, D100, D400.
  destruct (e =? 3) eqn:E1, (4 * c + e =? 99) eqn:E2, (_ =? 399) eqn:E3; zbool; lia.
Qed.

(** ** Months *)

Lemma month_of_yday_bounds (leap : bool) yd :
  0 <= yd < 365 + (if leap then 1 else 0) ->
  let m := month_of_yday leap yd in
  0 <= m <= 11 /\ days_before_month leap m <= yd < days_before_month leap (m + 1).
Proof.
  intros Hy. unfold month_of_yday. destruct leap; cbn -[Z.add Z.ltb] in *;
    repeat match goal with |- context [if ?x <? ?y then _ else _] => destruct (x <? y) eqn:? end;
    zbool; cbv [days_before_month Z.add Pos.add Pos.succ] in *; lia.
Qed.

Lemma month_start_split y m :
  0 <= m <= 11 -> month_start (12 * (y - 1) + m) = days_before_year y + days_before_month (isLeap y) m /\
  month_start (12 * (y - 1) + m + 1) = days_before_year y + days_before_month (isLeap y) (m + 1).
Proof.
  intros Hm. unfold month_start.
  assert (H1 : (12 * (y - 1) + m) / 12 = y - 1) by (symmetry; apply Z.div_unique with m; lia).
  assert (H2 : (12 * (y - 1) + m) mod 12 = m) by (symmetry; apply Z.mod_unique with (y - 1); lia).
  rewrite H1, H2. replace (y - 1 + 1) with y by lia. split; [done|].
  destruct (Z.eq_dec m 11) as [->|].
  - assert (H3 : (12 * (y - 1) + 11 + 1) / 12 = y) by (symmetry; apply Z.div_unique with 0; lia).
    assert (H4 : (12 * (y - 1) + 11 + 1) mod 12 = 0) by (symmetry; apply Z.mod_unique with y; lia).
    rewrite H3, H4. pose proof (isLeap_spec y) as Hl.
    change (days_before_month _ 0) with 0. change (11 + 1) with 12.
    unfold days_before_month. destruct (isLeap y); lia.
  - assert (H3 : (12 * (y - 1) + m + 1) / 12 = y - 1) by (symmetry; apply Z.div_unique with (m + 1); lia).
    assert (H4 : (12 * (y - 1) + m + 1) mod 12 = m + 1) by (symmetry; apply Z.mod_unique with (y - 1); lia).
    rewrite H3, H4. by replace (y - 1 + 1) with y by lia.
Qed.

(** A day lies in its month. *)
Lemma month_index_bounds d :
  0 <= d -> month_start (month_index d) <= d < month_start (month_index d + 1).
Proof.
  intros Hd. unfold month_index. set (y := year_of_day d).
  pose proof (year_of_day_bounds d Hd) as Hy. fold y in Hy. pose proof (isLeap_spec y) as Hl.
  pose proof (month_of_yday_bounds (isLeap y) (d - days_before_year y)) as Hm. cbv zeta in Hm.
  destruct Hm as [Hm Hb]; [destruct (isLeap y); lia|].
  destruct (month_start_split y _ Hm) as [-> ->]. lia.
Qed.

Lemma days_before_month_step l m :
  0 <= m <= 11 -> 28 <= days_before_month l (m + 1) - days_before_month l m <= 31.
Proof.
  intros Hm.
  assert (m = 0 \/ m = 1 \/ m = 2 \/ m = 3 \/ m = 4 \/ m = 5 \/ m = 6 \/ m = 7 \/ m = 8 \/ m = 9 \/
          m = 10 \/ m = 11) as Hc by lia.
  destruct_or! Hc; subst; destruct l; vm_compute; split; discriminate.
Qed.

(** Months have at least 28 and at most 31 days. *)
Lemma month_length k : 28 <= month_start (k + 1) - month_start k <= 31.
Proof.
  assert (Hk : k = 12 * ((k / 12 + 1) - 1) + k mod 12) by (pose proof (Z.div_mod k 12); lia).
  pose proof (Z.mod_pos_bound k 12 ltac:(lia)) as Hm. rewrite Hk.
  destruct (month_start_split (k / 12 + 1) (k mod 12)) as [-> ->]; [lia|].
  pose proof (days_before_month_step (isLeap (k / 12 + 1)) (k mod 12)). lia.
Qed.

Lemma month_start_mono k k' : k <= k' -> month_start k <= month_start k'.
Proof.
  intros Hk. replace k' with (k + Z.of_nat (Z.to_nat (k' - k))) by lia.
  generalize (Z.to_nat (k' - k)) as n. induction n as [|n IH]; [by rewrite Z.add_0_r|].
  pose proof (month_length (k + Z.of_nat n)). rewrite Nat2Z.inj_succ.
  replace (k + Z.succ (Z.of_nat n)) with (k + Z.of_nat n + 1) by lia. lia.
Qed.

(** The month of a day is the one it lies in. *)
Lemma month_index_unique d k : 0 <= d -> month_start k <= d < month_start (k + 1) -> month_index d = k.
Proof.
  intros Hd Hk. pose proof (month_index_bounds d Hd) as Hm.
  destruct (Z.lt_trichotomy (month_index d) k) as [?|[?|?]]; [|done|].
  - pose proof (month_start_mono (month_index d + 1) k). lia.
  - pose proof (month_start_mono (k + 1) (month_index d)). lia.
Qed.

(** ** Fields *)

Lemma Day_bounds t : 0 <= day_of t -> 1 <= Day t <= 31.
Proof.
  intros Ht. unfold Day. pose proof (month_index_bounds _ Ht). pose proof (month_length (month_index (day_of t))).
  lia.
Qed.

Lemma Month_bounds t : 1 <= Month t <= 12.
Proof. unfold Month. pose proof (Z.mod_pos_bound (month_index (day_of t)) 12). lia. Qed.

Lemma Weekday_bounds t : 0 <= Weekday t <= 6.
Proof. unfold Weekday. pose proof (Z.mod_pos_bound (day_of t + 1) 7). lia. Qed.

Lemma Hour_bounds t : 0 <= Hour_of t <= 23.
Proof.
  unfold Hour_of, day_secs. pose proof (Z.mod_pos_bound (secs t) 86400 ltac:(lia)).
  split; [apply Z.div_pos; lia|]. apply Z.lt_succ_r, Z.div_lt_upper_bound; lia.
Qed.

Lemma Minute_bounds t : 0 <= Minute_of t <= 59.
Proof.
  unfold Minute_of. pose proof (Z.mod_pos_bound (secs t) 3600 ltac:(lia)).
  split; [apply Z.div_pos; lia|]. apply Z.lt_succ_r, Z.div_lt_upper_bound; lia.
Qed.

(** [time.Date] of an instant's own fields is the start of its minute. *)
Lemma Date_fields t :
  Date (Year t) (Month t) (Day t) (Hour_of t) (Minute_of t) = Truncate t Minute.
Proof.
  unfold Date, Year, Month, Day. set (k := month_index (day_of t)).
  replace (12 * (k / 12 + 1 - 1) + (k mod 12 + 1 - 1)) with k by (pose proof (Z.div_mod k 12); lia).
  replace (month_start k + (day_of t - month_start k + 1 - 1)) with (day_of t) by lia.
  unfold day_of, Hour_of, Minute_of, Truncate, Minute, secs, day_secs, Second.
  Z.div_mod_to_equations. lia.
Qed.

(** ** Days as intervals *)

Definition day_ns : Z := day_secs * Second.

Lemma day_of_div t : day_of t = t / day_ns.
Proof. unfold day_of, secs, day_ns, day_secs, Second. by rewrite Z.div_div by lia. Qed.

Lemma day_of_mono t t' : t <= t' -> day_of t <= day_of t'.
Proof. intros. rewrite !day_of_div. apply Z.div_le_mono; [done|lia]. Qed.

Lemma day_of_nonneg t : 0 <= t -> 0 <= day_of t.
Proof. intros. rewrite day_of_div. apply Z.div_pos; done. Qed.

Lemma day_of_lt t n : t < n * day_ns -> day_of t < n.
Proof. intros. rewrite day_of_div. apply Z.div_lt_upper_bound; [done|lia]. Qed.

(** [time.Date] at the fields of an instant, one of them moved forward. *)
Lemma Date_next_month t : Date (Year t) (Month t + 1) 1 0 0 = month_start (month_index (day_of t) + 1) * day_ns.
Proof.
  unfold Date, Year, Month. generalize (month_index (day_of t)) as k. intros k.
  replace (12 * (k / 12 + 1 - 1) + (k mod 12 + 1 + 1 - 1)) with (k + 1)
    by (pose proof (Z.div_mod k 12); lia).
  generalize (month_start (k + 1)) as n. intros n. unfold day_ns. lia.
Qed.

Lemma Date_in_month t d h :
  Date (Year t) (Month t) (Day t + d) h 0 = (day_of t + d) * day_ns + h * 3600 * Second.
Proof.
  unfold Date, Year, Month, Day. generalize (month_index (day_of t)) as k. intros k.
  replace (12 * (k / 12 + 1 - 1) + (k mod 12 + 1 - 1)) with k by (pose proof (Z.div_mod k 12); lia).
  generalize (month_start k) (day_of t). intros n m. unfold day_ns. lia.
Qed.

(** Instants before the next month, day or hour share the month, day, hour. *)
Lemma same_month t t' :
  0 <= t -> t <= t' < Date (Year t) (Month t + 1) 1 0 0 -> Month t' = Month t.
Proof.
  intros Ht [Hle Hlt]. rewrite Date_next_month in Hlt. apply day_of_lt in Hlt. apply day_of_mono in Hle.
  pose proof (day_of_nonneg t Ht) as H0. pose proof (month_index_bounds _ H0) as Hb.
  unfold Month. by rewrite (month_index_unique (day_of t') (month_index (day_of t))) by lia.
Qed.

Lemma same_day t t' :
  t <= t' < Date (Year t) (Month t) (Day t + 1) 0 0 -> Day t' = Day t /\ Weekday t' = Weekday t.
Proof.
  rewrite Date_in_month. intros [Hle Hlt]. apply day_of_mono in Hle.
  assert (Hd : day_of t' = day_of t) by (enough (day_of t' < day_of t + 1) by lia; apply day_of_lt; lia).
  unfold Day, Weekday. by rewrite Hd.
Qed.

Lemma Hour_split t : exists r, 0 <= r < 3600 * Second /\ t = day_of t * day_ns + Hour_of t * (3600 * Second) + r.
Proof.
  exists (t mod (3600 * Second)). split; [apply Z.mod_pos_bound; done|].
  unfold day_of, Hour_of, secs, day_ns, day_secs, Second. Z.div_mod_to_equations. lia.
Qed.

Lemma same_hour t t' :
  t <= t' < Date (Year t) (Month t) (Day t) (Hour_of t + 1) 0 -> Hour_of t' = Hour_of t.
Proof.
  pose proof (Date_in_month t 0 (Hour_of t + 1)) as Hd. rewrite Z.add_0_r in Hd. rewrite Hd. clear Hd.
  intros [Hle Hlt]. destruct (Hour_split t) as (r & Hr & Ht). destruct (Hour_split t') as (r' & Hr' & Ht').
  pose proof (Hour_bounds t). pose proof (Hour_bounds t'). revert Hle Hlt Ht Ht'.
  generalize (day_of t) (day_of t'). intros d d'. unfold day_ns, day_secs, Second in *. lia.
Qed.

(** ** Moving forward *)

Lemma next_month_after t : 0 <= t -> t < Date (Year t) (Month t + 1) 1 0 0.
Proof.
  intros Ht. rewrite Date_next_month. pose proof (month_index_bounds _ (day_of_nonneg t Ht)) as [_ Hb].
  destruct (Hour_split t) as (r & Hr & Heq). pose proof (Hour_bounds t). revert Hb Heq.
  generalize (month_start (month_index (day_of t) + 1)) (day_of t). intros n d.
  unfold day_ns, day_secs, Second in *. lia.
Qed.

Lemma next_day_after t : t < Date (Year t) (Month t) (Day t + 1) 0 0.
Proof.
  rewrite Date_in_month. destruct (Hour_split t) as (r & Hr & Heq). pose proof (Hour_bounds t). revert Heq.
  generalize (day_of t). intros d. unfold day_ns, day_secs, Second in *. lia.
Qed.

Lemma next_hour_after t : t < Date (Year t) (Month t) (Day t) (Hour_of t + 1) 0.
Proof.
  pose proof (Date_in_month t 0 (Hour_of t + 1)) as Hd. rewrite Z.add_0_r in Hd. rewrite Hd. clear Hd.
  destruct (Hour_split t) as (r & Hr & Heq). revert Heq.
  generalize (day_of t). intros d. unfold day_ns, day_secs, Second in *. lia.
Qed.

Lemma Date_whole_minute y mo d h mi : Date y mo d h mi mod Minute = 0.
Proof.
  unfold Date, day_secs, Minute. generalize (month_start (12 * (y - 1) + (mo - 1))). intros n.
  replace (((n + (d - 1)) * 86400 + h * 3600 + mi * 60) * Second)
    with (((n + (d - 1)) * 1440 + h * 60 + mi) * (60 * Second)) by (unfold Second; lia).
  apply Z.mod_mul. done.
Qed.

(** Whole minutes are a minute apart. *)
Lemma whole_minutes t t' : t mod Minute = 0 -> t' mod Minute = 0 -> t < t' -> t + Minute <= t'.
Proof.
  intros Ht Ht' Hlt. pose proof (Z.div_mod t Minute). pose proof (Z.div_mod t' Minute).
  unfold Minute, Second in *. lia.
Qed.
