(* ===== verification/GoStrings.v ===== *)
(** * The parts of packages strings and strconv the program uses

    A Go string is a sequence of bytes.  White space is Unicode white space in
    its UTF-8 encoding: the lead bytes involved never occur as continuation
    bytes, so recognising the encoded runes at any byte position agrees with
    decoding the string rune by rune. *)

From S2P Require Import Prelude.

Definition byte_of (c : ascii) : Z := Z.of_N (N_of_ascii c).

(** ** White space *)

(** The number of bytes of the white-space rune a string starts with; 0 if
    it does not start with one. *)
Definition space_len (s : string) : nat :=
  match s with
  | String c1 s1 =>
      let b1 := byte_of c1 in
      if ((9 <=? b1) && (b1 <=? 13)) || (b1 =? 32) then 1%nat
      else match s1 with
      | String c2 s2 =>
          let b2 := byte_of c2 in
          if (b1 =? 194) && ((b2 =? 133) || (b2 =? 160)) then 2%nat       (* U+0085, U+00A0 *)
          else match s2 with
          | String c3 _ =>
              let b3 := byte_of c3 in
              if ((b1 =? 225) && (b2 =? 154) && (b3 =? 128))                (* U+1680 *)
                 || ((b1 =? 226) && (b2 =? 128)
                     && (((128 <=? b3) && (b3 <=? 138)) || (b3 =? 168) || (b3 =? 169) || (b3 =? 175)))
                 || ((b1 =? 226) && (b2 =? 129) && (b3 =? 159))             (* U+205F *)
                 || ((b1 =? 227) && (b2 =? 128) && (b3 =? 128))             (* U+3000 *)
              then 3%nat else 0%nat
          | EmptyString => 0%nat
          end
      | EmptyString => 0%nat
      end
  | EmptyString => 0%nat
  end.

Fixpoint drop_bytes (n : nat) (s : string) : string :=
  match n, s with
  | S n', String _ s' => drop_bytes n' s'
  | _, _ => s
  end.

(** Close the field being read. *)
Definition flush (cur : string) (fields : list string) : list string :=
  if str_nonempty cur then cur :: fields else fields.

(** [strings.Fields]; the fuel is the length of the string, and every round
    consumes at least one byte. *)
Fixpoint fields_loop (fuel : nat) (cur s : string) : list string :=
  match fuel with
  | O => flush cur []
  | S fuel' =>
      match s with
      | EmptyString => flush cur []
      | String c s' =>
          match space_len s with
          | O => fields_loop fuel' (cur +:+ String c "") s'
          | n => flush cur (fields_loop fuel' "" (drop_bytes n s))
          end
      end
  end.

Definition Fields (s : string) : list string := fields_loop (String.length s) "" s.

Fixpoint trim_left (fuel : nat) (s : string) : string :=
  match fuel with
  | O => s
  | S fuel' => match space_len s with O => s | n => trim_left fuel' (drop_bytes n s) end
  end.

(** The string is all white space. *)
Definition all_space (s : string) : bool := bool_decide (trim_left (String.length s) s = "").

Fixpoint trim_right (s : string) : string :=
  if all_space s then ""
  else match s with String c s' => String c (trim_right s') | EmptyString => "" end.

Definition TrimSpace (s : string) : string := trim_right (trim_left (String.length s) s).

(** ** Splitting *)

(** [strings.Split(s, sep)] for a one-byte separator. *)
Fixpoint split_loop (sep : ascii) (cur s : string) : list string :=
  match s with
  | EmptyString => [cur]
  | String c s' =>
      if Ascii.eqb c sep then cur :: split_loop sep "" s' else split_loop sep (cur +:+ String c "") s'
  end.
Definition Split (s : string) (sep : ascii) : list string := split_loop sep "" s.

(** [strings.SplitN(s, sep, 2)]: around the first separator, if any. *)
Fixpoint cut_loop (sep : ascii) (cur s : string) : option (string * string) :=
  match s with
  | EmptyString => None
  | String c s' => if Ascii.eqb c sep then Some (cur, s') else cut_loop sep (cur +:+ String c "") s'
  end.
Definition SplitN2 (s : string) (sep : ascii) : list string :=
  match cut_loop sep "" s with Some (a, b) => [a; b] | None => [s] end.

Fixpoint Contains (s : string) (sep : ascii) : bool :=
  match s with EmptyString => false | String c s' => Ascii.eqb c sep || Contains s' sep end.

Fixpoint HasPrefix (s prefix : string) : bool :=
  match prefix, s with
  | EmptyString, _ => true
  | String p prefix', String c s' => Ascii.eqb c p && HasPrefix s' prefix'
  | _, _ => false
  end.

(** ** Numbers *)

Definition digit_val (c : ascii) : option Z :=
  let b := byte_of c in if (48 <=? b) && (b <=? 57) then Some (b - 48) else None.

Fixpoint digits_val (acc : Z) (s : string) : option Z :=
  match s with
  | EmptyString => Some acc
  | String c s' => match digit_val c with Some d => digits_val (10 * acc + d) s' | None => None end
  end.

Definition minus : ascii := ascii_of_N 45.
Definition plus : ascii := ascii_of_N 43.

(** [strconv.ParseInt(s, 10, 64)] and [strconv.Atoi]: an optional sign, at
    least one digit, nothing else, and a value of 64 bits. *)
Definition ParseInt (s : string) : result Z :=
  let neg_body :=
    match s with
    | String c s' => if Ascii.eqb c minus then (true, s') else if Ascii.eqb c plus then (false, s') else (false, s)
    | EmptyString => (false, s)
    end in
  match neg_body.2 with
  | EmptyString => Error (ErrText "invalid syntax")
  | body =>
      match digits_val 0 body with
      | None => Error (ErrText "invalid syntax")
      | Some n =>
          let v := if neg_body.1 : bool then - n else n in
          if int64_ok v then Ok v else Error (ErrText "value out of range")
      end
  end.

Definition Atoi (s : string) : result Z := ParseInt s.

Definition digit_char (d : Z) : ascii := ascii_of_N (Z.to_N (48 + d)).

(** Decimal digits, least significant first, put in front of [acc]. *)
Fixpoint print_loop (fuel : nat) (n : Z) (acc : string) : string :=
  match fuel with
  | O => acc
  | S fuel' =>
      let acc' := String (digit_char (n mod 10)) acc in
      if n <? 10 then acc' else print_loop fuel' (n / 10) acc'
  end.

(** [%d] and [strconv.Itoa].  A 64-bit integer has at most 19 digits. *)
Definition Itoa (n : Z) : string :=
  if n <? 0 then String minus (print_loop 19 (- n) "") else print_loop 19 n "".

(** ** Round trip of decimal numbers *)

Lemma byte_of_range c : 0 <= byte_of c < 256.
Proof. unfold byte_of. pose proof (Ascii.N_ascii_bounded c). lia. Qed.

Lemma byte_of_digit d : 0 <= d <= 9 -> byte_of (digit_char d) = 48 + d.
Proof.
  intros Hd. unfold byte_of, digit_char. rewrite Ascii.N_ascii_embedding by lia. lia.
Qed.

Lemma digit_val_char d : 0 <= d <= 9 -> digit_val (digit_char d) = Some d.
Proof.
  intros Hd. unfold digit_val. rewrite byte_of_digit by done.
  rewrite (proj2 (Z.leb_le _ _)), (proj2 (Z.leb_le _ _)) by lia. cbn. f_equal. lia.
Qed.

Lemma append_cons c (s1 s2 : string) : String c s1 +:+ s2 = String c (s1 +:+ s2).
Proof. done. Qed.

Lemma string_app_assoc (s1 s2 s3 : string) : (s1 +:+ s2) +:+ s3 = s1 +:+ (s2 +:+ s3).
Proof. induction s1 as [|c s1 IH]; [done|]. by rewrite !append_cons, IH. Qed.

Lemma append_length (s1 s2 : string) : String.length (s1 +:+ s2) = (String.length s1 + String.length s2)%nat.
Proof. induction s1 as [|c s1 IH]; [done|]. rewrite append_cons. cbn [String.length]. by rewrite IH. Qed.

(** What the printer prints: digits, not empty, that read as the number. *)
Lemma print_loop_spec fuel n acc :
  0 <= n < 10 ^ Z.of_nat fuel -> (0 < fuel)%nat ->
  exists d w, 0 <= d <= 9 /\ print_loop fuel n acc = String (digit_char d) w +:+ acc /\
    forall k s, digits_val k (String (digit_char d) w +:+ s)
                = digits_val (k * 10 ^ (1 + Z.of_nat (String.length w)) + n) s.
Proof.
  revert n acc. induction fuel as [|fuel IH]; intros n acc Hn Hf; [lia|]. cbn [print_loop].
  destruct (n <? 10) eqn:E; zbool.
  - exists n, "". rewrite Z.mod_small by lia. split; [lia|]. split; [done|]. intros k s.
    change (String (digit_char n) "" +:+ s) with (String (digit_char n) s). cbn [digits_val].
    rewrite digit_val_char by lia. f_equal. cbn [String.length]. lia.
  - assert (Hf' : (0 < fuel)%nat).
    { destruct fuel; [|lia]. change (10 ^ Z.of_nat 1) with 10 in Hn. lia. }
    pose proof (Z.div_mod n 10) as Hdm. pose proof (Z.mod_pos_bound n 10) as Hmb.
    rewrite Nat2Z.inj_succ, Z.pow_succ_r in Hn by lia.
    destruct (IH (n / 10) (String (digit_char (n mod 10)) acc)) as (d & w & Hd & Hp & Hv); [|done|].
    { split; [apply Z.div_pos; lia|]. apply Z.div_lt_upper_bound; lia. }
    exists d, (w +:+ String (digit_char (n mod 10)) ""). split; [done|]. split.
    + by rewrite Hp, !append_cons, string_app_assoc.
    + intros k s. pose proof (Hv k (String (digit_char (n mod 10)) s)) as Hk.
      rewrite append_cons in Hk. rewrite append_cons, string_app_assoc.
      change (String (digit_char (n mod 10)) "" +:+ s) with (String (digit_char (n mod 10)) s).
      rewrite Hk. cbn [digits_val]. rewrite digit_val_char by lia. f_equal.
      rewrite append_length. cbn [String.length]. rewrite Nat2Z.inj_add. change (Z.of_nat 1) with 1.
      replace (1 + (Z.of_nat (String.length w) + 1)) with (1 + Z.of_nat (String.length w) + 1) by lia.
      rewrite (Z.pow_add_r 10 _ 1) by lia. lia.
Qed.

Lemma string_app_nil (s : string) : s +:+ "" = s.
Proof. induction s as [|c s IH]; [done|]. by rewrite append_cons, IH. Qed.

Lemma digit_not_sign d : 0 <= d <= 9 ->
  Ascii.eqb (digit_char d) minus = false /\ Ascii.eqb (digit_char d) plus = false.
Proof.
  intros Hd. split; apply Ascii.eqb_neq; intros Heq; apply (f_equal byte_of) in Heq;
    rewrite byte_of_digit in Heq by done;
    change (byte_of minus) with 45 in Heq; change (byte_of plus) with 43 in Heq; lia.
Qed.

(** Printing then parsing a 64-bit integer gives it back. *)
Lemma ParseInt_Itoa n : int64_min <= n <= int64_max -> ParseInt (Itoa n) = Ok n.
Proof.
  intros Hn. assert (Hok : int64_ok n = true).
  { unfold int64_ok. apply andb_true_intro. split; apply Z.leb_le; lia. }
  unfold int64_min, int64_max in Hn. unfold Itoa. destruct (n <? 0) eqn:E; zbool.
  - destruct (print_loop_spec 19 (- n) "") as (d & w & Hd & -> & Hv); [cbn; lia|lia|].
    specialize (Hv 0 ""). rewrite string_app_nil in *. unfold ParseInt.
    rewrite (proj2 (Ascii.eqb_eq minus minus)) by done. cbn [fst snd]. rewrite Hv. cbn [digits_val].
    rewrite Z.mul_0_l, Z.add_0_l, Z.opp_involutive. by rewrite Hok.
  - destruct (print_loop_spec 19 n "") as (d & w & Hd & -> & Hv); [cbn; lia|lia|].
    specialize (Hv 0 ""). rewrite string_app_nil in *. unfold ParseInt.
    destruct (digit_not_sign d Hd) as [-> ->]. cbn [fst snd]. rewrite Hv. cbn [digits_val].
    rewrite Z.mul_0_l, Z.add_0_l. by rewrite Hok.
Qed.

(** ** Separators *)

Lemma Contains_app s1 s2 c : Contains (s1 +:+ s2) c = Contains s1 c || Contains s2 c.
Proof.
  induction s1 as [|a s1 IH]; [done|]. rewrite append_cons. cbn [Contains]. by rewrite IH, orb_assoc.
Qed.

(** Neither a digit nor the sign. *)
Definition is_sep (c : ascii) : Prop := byte_of c < 48 \/ 57 < byte_of c.

Lemma print_loop_no_sep fuel n acc c :
  0 <= n -> is_sep c -> Contains acc c = false -> Contains (print_loop fuel n acc) c = false.
Proof.
  intros Hn Hs. revert n Hn acc. induction fuel as [|fuel IH]; intros n Hn acc Ha; [done|]. cbn [print_loop].
  pose proof (Z.mod_pos_bound n 10 ltac:(lia)) as Hm.
  assert (Hc : Contains (String (digit_char (n mod 10)) acc) c = false).
  { cbn [Contains]. rewrite Ha, orb_false_r. apply Ascii.eqb_neq. intros Heq.
    apply (f_equal byte_of) in Heq. rewrite byte_of_digit in Heq by lia. unfold is_sep in Hs. lia. }
  destruct (n <? 10); [done|]. apply IH; [apply Z.div_pos; lia|done].
Qed.

Lemma Itoa_no_sep n c : is_sep c -> c <> minus -> Contains (Itoa n) c = false.
Proof.
  intros Hs Hm. unfold Itoa. destruct (n <? 0) eqn:E; zbool; [|by apply print_loop_no_sep].
  cbn [Contains]. rewrite print_loop_no_sep, orb_false_r by (done || lia).
  apply Ascii.eqb_neq. congruence.
Qed.

(** Splitting around the first separator. *)
Lemma SplitN2_app (p s : string) sep : Contains p sep = false -> SplitN2 (p +:+ String sep s) sep = [p; s].
Proof.
  assert (Hc : forall p cur, Contains p sep = false -> cut_loop sep cur (p +:+ String sep s) = Some (cur +:+ p, s)).
  { clear p. induction p as [|c p IH]; intros cur Hp.
    - change ("" +:+ String sep s) with (String sep s). cbn [cut_loop].
      by rewrite Ascii.eqb_refl, string_app_nil.
    - rewrite append_cons. cbn [cut_loop Contains] in *. apply orb_false_iff in Hp as [-> Hp].
      rewrite IH by done. by rewrite string_app_assoc. }
  intros Hp. unfold SplitN2. by rewrite Hc.
Qed.
