(* ===== verification/GoText.v ===== *)
(** * Runes: the parts of packages unicode/utf8, unicode and strings that look
    inside a string

    Decoding and encoding of UTF-8 are written out, with Go's treatment of
    invalid bytes (one [RuneError] per byte).  The Unicode tables are an
    interface: Latin-1 letters and ASCII case are explicit, what lies beyond is
    a field of [Unicode]. *)

From S2P Require Import Prelude GoStrings.

Definition RuneError : Z := 65533.

Definition char (b : Z) : ascii := ascii_of_N (Z.to_N b).

(** ** UTF-8 *)

Definition in_range (lo hi b : Z) : bool := (lo <=? b) && (b <=? hi).
Definition is_cont (b : Z) : bool := in_range 128 191 b.

(** The accepted second byte after the lead byte [b0] of a 3- or 4-byte rune. *)
Definition second_ok (b0 b1 : Z) : bool :=
  if b0 =? 224 then in_range 160 191 b1
  else if b0 =? 237 then in_range 128 159 b1
  else if b0 =? 240 then in_range 144 191 b1
  else if b0 =? 244 then in_range 128 143 b1
  else is_cont b1.

(** [utf8.DecodeRuneInString] of a non-empty string: the rune and its size. *)
Definition decode_rune (s : string) : Z * nat :=
  match s with
  | EmptyString => (RuneError, 0%nat)
  | String c0 s0 =>
      let b0 := byte_of c0 in
      if b0 <? 128 then (b0, 1%nat)
      else match s0 with
      | EmptyString => (RuneError, 1%nat)
      | String c1 s1 =>
          let b1 := byte_of c1 in
          if in_range 194 223 b0 then
            if is_cont b1 then ((b0 - 192) * 64 + (b1 - 128), 2%nat) else (RuneError, 1%nat)
          else if negb (in_range 224 244 b0 && second_ok b0 b1) then (RuneError, 1%nat)
          else match s1 with
          | EmptyString => (RuneError, 1%nat)
          | String c2 s2 =>
              let b2 := byte_of c2 in
              if negb (is_cont b2) then (RuneError, 1%nat)
              else if b0 <? 240 then ((b0 - 224) * 4096 + (b1 - 128) * 64 + (b2 - 128), 3%nat)
              else match s2 with
              | EmptyString => (RuneError, 1%nat)
              | String c3 _ =>
                  let b3 := byte_of c3 in
                  if negb (is_cont b3) then (RuneError, 1%nat)
                  else ((b0 - 240) * 262144 + (b1 - 128) * 4096 + (b2 - 128) * 64 + (b3 - 128), 4%nat)
              end
          end
      end
  end.

(** [utf8.AppendRune]. *)
Definition encode_rune (r : Z) : string :=
  let enc r :=
    if r <? 128 then String (char r) ""
    else if r <? 2048 then String (char (192 + r / 64)) (String (char (128 + r mod 64)) "")
    else if r <? 65536 then
      String (char (224 + r / 4096)) (String (char (128 + r / 64 mod 64)) (String (char (128 + r mod 64)) ""))
    else String (char (240 + r / 262144)) (String (char (128 + r / 4096 mod 64))
           (String (char (128 + r / 64 mod 64)) (String (char (128 + r mod 64)) ""))) in
  if (r <? 0) || in_range 55296 57343 r || (1114111 <? r) then enc RuneError else enc r.

(** The runes [for _, r := range s] visits; every round consumes a byte. *)
Fixpoint runes_loop (fuel : nat) (s : string) : list Z :=
  match fuel, s with
  | S fuel', String _ _ => let '(r, n) := decode_rune s in r :: runes_loop fuel' (drop_bytes n s)
  | _, _ => []
  end.
Definition runes (s : string) : list Z := runes_loop (String.length s) s.

(** ** Tables *)

Class Unicode := mkUnicode {
  lower_beyond : Z -> Z;        (* unicode.ToLower, beyond ASCII *)
  upper_beyond : Z -> Z;        (* unicode.ToUpper, beyond ASCII *)
  letter_beyond : Z -> bool;    (* unicode.IsLetter, beyond Latin-1 *)
  digit_beyond : Z -> bool      (* unicode.IsDigit, beyond Latin-1 *)
}.

(** Tables that know nothing beyond Latin-1. *)
Definition latin1 : Unicode := mkUnicode (fun r => r) (fun r => r) (fun _ => false) (fun _ => false).

(** [unicode.IsLetter] and [unicode.IsDigit] up to U+00FF. *)
Definition latin1_letter (r : Z) : bool :=
  in_range 65 90 r || in_range 97 122 r || (r =? 170) || (r =? 181) || (r =? 186)
  || in_range 192 214 r || in_range 216 246 r || in_range 248 255 r.
Definition latin1_digit (r : Z) : bool := in_range 48 57 r.

Section Tables.
Context {U : Unicode}.

Definition ToLowerRune (r : Z) : Z :=
  if r <? 128 then if in_range 65 90 r then r + 32 else r else lower_beyond r.
Definition ToUpperRune (r : Z) : Z :=
  if r <? 128 then if in_range 97 122 r then r - 32 else r else upper_beyond r.
Definition IsLetter (r : Z) : bool := if r <? 256 then latin1_letter r else letter_beyond r.
Definition IsDigit (r : Z) : bool := if r <? 256 then latin1_digit r else digit_beyond r.

(** [strings.Map]: a rune mapped below zero is dropped. *)
Definition strings_Map (f : Z -> Z) (s : string) : string :=
  foldr (fun r acc => (if f r <? 0 then "" else encode_rune (f r)) +:+ acc) "" (runes s).
Definition ToLower (s : string) : string := strings_Map ToLowerRune s.
Definition ToUpper (s : string) : string := strings_Map ToUpperRune s.

End Tables.

(** [strings.EqualFold] of a string and an ASCII one: two runes agree if they
    are equal, differ by ASCII case, or are the two other members of the orbits
    of k (U+212A) and s (U+017F). *)
Definition ascii_fold (r : Z) : Z :=
  if in_range 65 90 r then r + 32 else if r =? 8490 then 107 else if r =? 383 then 115 else r.
Definition EqualFold_ascii (s t : string) : bool :=
  bool_decide (map ascii_fold (runes s) = map ascii_fold (runes t)).

(** The long s (bytes C5 BF) and the Kelvin sign (E2 84 AA) fold too. *)
Example EqualFold_beyond_ascii :
  EqualFold_ascii ("LOCALHO" +:+ String (char 197) (String (char 191) "t")) "localhost" = true /\
  EqualFold_ascii (String (char 226) (String (char 132) (String (char 170) "ey"))) "key" = true.
Proof. split; reflexivity. Qed.

(** ** Joining and trimming *)

Fixpoint Join (l : list string) (sep : string) : string :=
  match l with
  | [] => ""
  | [x] => x
  | x :: l' => x +:+ sep +:+ Join l' sep
  end.

(** [strings.TrimSuffix] for a one-byte suffix. *)
Fixpoint TrimSuffix (s : string) (c : ascii) : string :=
  match s with
  | EmptyString => ""
  | String a EmptyString => if Ascii.eqb a c then "" else s
  | String a s' => String a (TrimSuffix s' c)
  end.

(** ** Facts *)

Lemma byte_of_char b : 0 <= b < 256 -> byte_of (char b) = b.
Proof. intros H. unfold byte_of, char. rewrite Ascii.N_ascii_embedding by lia. lia. Qed.

Lemma char_byte_of c : char (byte_of c) = c.
Proof. unfold char, byte_of. rewrite N2Z.id. apply Ascii.ascii_N_embedding. Qed.

(** A string of ASCII bytes. *)
Fixpoint is_ascii (s : string) : bool :=
  match s with EmptyString => true | String c s' => (byte_of c <? 128) && is_ascii s' end.

Fixpoint bytes_of (s : string) : list Z :=
  match s with EmptyString => [] | String c s' => byte_of c :: bytes_of s' end.

Lemma runes_ascii s : is_ascii s = true -> runes s = bytes_of s.
Proof.
  unfold runes. induction s as [|c s IH]; intros H; [done|].
  cbn [is_ascii] in H. apply andb_true_iff in H as [Hc Hs].
  cbn [String.length runes_loop decode_rune]. rewrite Hc. cbn [drop_bytes bytes_of]. by rewrite IH.
Qed.

(** Lower case of an ASCII string, byte by byte. *)
Fixpoint ascii_lower (s : string) : string :=
  match s with
  | EmptyString => ""
  | String c s' =>
      String (if in_range 65 90 (byte_of c) then char (byte_of c + 32) else c) (ascii_lower s')
  end.

Lemma ToLower_ascii {U : Unicode} s : is_ascii s = true -> ToLower s = ascii_lower s.
Proof.
  intros H. unfold ToLower, strings_Map. rewrite runes_ascii by done.
  induction s as [|c s IH]; [done|]. cbn [is_ascii] in H. apply andb_true_iff in H as [Hc Hs].
  cbn [bytes_of foldr ascii_lower]. rewrite IH by done. unfold ToLowerRune. rewrite Hc.
  pose proof (byte_of_range c). zbool. unfold in_range.
  destruct ((65 <=? byte_of c) && (byte_of c <=? 90)) eqn:E; zbool.
  - rewrite (proj2 (Z.ltb_ge _ _)) by lia. unfold encode_rune, in_range.
    rewrite (proj2 (Z.ltb_ge _ _)), (proj2 (Z.leb_gt _ _)), (proj2 (Z.ltb_ge _ _)) by lia. cbn [orb andb].
    by rewrite (proj2 (Z.ltb_lt _ _)) by lia.
  - rewrite (proj2 (Z.ltb_ge _ _)) by lia. unfold encode_rune, in_range.
    rewrite (proj2 (Z.ltb_ge _ _)), (proj2 (Z.leb_gt 55296 _)), (proj2 (Z.ltb_ge _ _)) by lia. cbn [orb andb].
    rewrite (proj2 (Z.ltb_lt _ _)) by lia. by rewrite char_byte_of.
Qed.
