(* ===== verification/GoDuration.v ===== *)
(** * time.Duration on the wire

    [time.ParseDuration] and [Duration.String] of package time, the JSON
    strings they travel in, and the two methods of [models.Duration] that put
    them together.  Fractions are scaled in float64, as the library does. *)

From Stdlib Require Import Floats.SpecFloat.
From S2P Require Import Prelude GoStrings GoText Retry.

(** ** [Duration.String] *)

Definition fdiv (x y : spec_float) : spec_float := SFdiv 53 1024 x y.

Definition dot : ascii := ascii_of_N 46.

(** The loop of [fmtFrac]: [prec] digits of [v], written right to left, without
    trailing zeros. *)
Fixpoint frac_loop (prec : nat) (v : Z) (print : bool) (acc : string) : string * Z * bool :=
  match prec with
  | O => (acc, v, print)
  | S prec' =>
      let digit := v mod 10 in
      let print := print || negb (digit =? 0) in
      frac_loop prec' (v / 10) print (if print then String (digit_char digit) acc else acc)
  end.

Definition fmtFrac (prec : nat) (v : Z) (acc : string) : string * Z :=
  let '(acc, v, print) := frac_loop prec v false acc in
  (if print : bool then String dot acc else acc, v).

Definition fmtInt (v : Z) (acc : string) : string := print_loop 19 v acc.

(** The micro sign, U+00B5. *)
Definition micro : string := String (char 194) (String (char 181) "").

(** The digits and units of [u], which is not zero. *)
Definition format_abs (u : Z) : string :=
  if u <? Second then
    let '(prec, suffix) :=
      if u <? Microsecond then (0%nat, "ns")
      else if u <? Millisecond then (3%nat, micro +:+ "s")
      else (6%nat, "ms") in
    let '(acc, u) := fmtFrac prec u suffix in fmtInt u acc
  else
    let '(acc, u) := fmtFrac 9 u "s" in
    let acc := fmtInt (u mod 60) acc in
    let u := u / 60 in
    if 0 <? u then
      let acc := fmtInt (u mod 60) ("m" +:+ acc) in
      let u := u / 60 in
      if 0 <? u then fmtInt u ("h" +:+ acc) else acc
    else acc.

Definition Duration_String (d : Dur) : string :=
  let neg := d <? 0 in
  let u := if neg then - d else d in
  if u =? 0 then "0s"
  else if neg then String minus (format_abs u) else format_abs u.

(** ** [time.ParseDuration] *)

Definition invalid_duration : error := ErrText "time: invalid duration".

(** [leadingInt]; [None] is its overflow error. *)
Fixpoint leadingInt (x : Z) (s : string) : option (Z * string) :=
  match s with
  | EmptyString => Some (x, s)
  | String c s' =>
      match digit_val c with
      | None => Some (x, s)
      | Some d =>
          if 2 ^ 63 / 10 <? x then None
          else let x := x * 10 + d in if 2 ^ 63 <? x then None else leadingInt x s'
      end
  end.

Fixpoint leadingFraction (x : Z) (scale : spec_float) (overflow : bool) (s : string)
    : Z * spec_float * string :=
  match s with
  | EmptyString => (x, scale, s)
  | String c s' =>
      match digit_val c with
      | None => (x, scale, s)
      | Some d =>
          if overflow || ((2 ^ 63 - 1) / 10 <? x) then leadingFraction x scale true s'
          else
            let y := x * 10 + d in
            if 2 ^ 63 <? y then leadingFraction x scale true s'
            else leadingFraction y (fmul scale (of_int 10)) false s'
      end
  end.

(** The bytes up to the next digit or period. *)
Fixpoint unit_prefix (s : string) : string * string :=
  match s with
  | EmptyString => ("", "")
  | String c s' =>
      if Ascii.eqb c dot || match digit_val c with Some _ => true | None => false end then ("", s)
      else let '(u, rest) := unit_prefix s' in (String c u, rest)
  end.

(** Both spellings of micro: U+00B5 and U+03BC. *)
Definition unitMap (u : string) : option Z :=
  if bool_decide (u = "ns") then Some Nanosecond
  else if bool_decide (u = "us" \/ u = micro +:+ "s" \/ u = String (char 206) (String (char 188) "s"))
  then Some Microsecond
  else if bool_decide (u = "ms") then Some Millisecond
  else if bool_decide (u = "s") then Some Second
  else if bool_decide (u = "m") then Some Minute
  else if bool_decide (u = "h") then Some Hour
  else None.

(** [v*unit] plus the fraction, or the overflow. *)
Definition term_value (v f : Z) (scale : spec_float) (unit : Z) : option Z :=
  if 2 ^ 63 / unit <? v then None
  else
    let v := v * unit in
    if 0 <? f then
      let v := v + to_int64 (fmul (of_int f) (fdiv (of_int unit) scale)) in
      if 2 ^ 63 <? v then None else Some v
    else Some v.

(** One round of the loop: the value of the leading term and what follows. *)
Definition parse_term (s : string) : option (Z * string) :=
  match s with
  | EmptyString => None
  | String c _ =>
      if negb (Ascii.eqb c dot || match digit_val c with Some _ => true | None => false end) then None
      else match leadingInt 0 s with
      | None => None
      | Some (v, s1) =>
          let pre := negb (String.length s1 =? String.length s)%nat in
          let '(f, scale, s2, post) :=
            match s1 with
            | String c1 s1' =>
                if Ascii.eqb c1 dot then
                  let '(f, scale, s2) := leadingFraction 0 (of_int 1) false s1' in
                  (f, scale, s2, negb (String.length s2 =? String.length s1')%nat)
                else (0, of_int 1, s1, false)
            | EmptyString => (0, of_int 1, s1, false)
            end in
          if negb pre && negb post then None
          else
            let '(u, s3) := unit_prefix s2 in
            match unitMap u with
            | None => None
            | Some unit =>
                match term_value v f scale unit with None => None | Some v => Some (v, s3) end
            end
      end
  end.

(** The loop; [d] is a uint64 sum.  Every round consumes at least one byte. *)
Fixpoint parse_terms (fuel : nat) (d : Z) (s : string) : option Z :=
  match s with
  | EmptyString => Some d
  | _ =>
      match fuel with
      | O => None
      | S fuel' =>
          match parse_term s with
          | None => None
          | Some (v, s') =>
              let d := (d + v) mod 2 ^ 64 in
              if 2 ^ 63 <? d then None else parse_terms fuel' d s'
          end
      end
  end.

Definition ParseDuration (s : string) : result Dur :=
  let '(neg, body) :=
    match s with
    | String c s' => if Ascii.eqb c minus then (true, s') else if Ascii.eqb c plus then (false, s') else (false, s)
    | EmptyString => (false, s)
    end in
  if bool_decide (body = "0") then Ok 0
  else if bool_decide (body = "") then Error invalid_duration
  else match parse_terms (String.length body) 0 body with
  | None => Error invalid_duration
  | Some d =>
      if neg : bool then Ok (wrap64 (- d))
      else if 2 ^ 63 - 1 <? d then Error invalid_duration else Ok d
  end.

Example parse_1 : ParseDuration "1h15m30.918s" = Ok 4530918000000. Proof. vm_compute. reflexivity. Qed.
Example parse_2 : ParseDuration "-1.5h" = Ok (-5400000000000). Proof. vm_compute. reflexivity. Qed.
Example parse_3 : ParseDuration "15" = Error invalid_duration. Proof. vm_compute. reflexivity. Qed.
Example print_1 : Duration_String 4530918000000 = "1h15m30.918s". Proof. vm_compute. reflexivity. Qed.
Example print_2 : Duration_String (-1500) = String minus ("1.5" +:+ micro +:+ "s"). Proof. vm_compute. reflexivity. Qed.
Example print_3 : Duration_String int64_min = "-2562047h47m16.854775808s". Proof. vm_compute. reflexivity. Qed.
Example parse_min : ParseDuration "-2562047h47m16.854775808s" = Ok int64_min. Proof. vm_compute. reflexivity. Qed.

(** ** Exact products in float64 *)

Lemma iter_shr_exact p q :
  0 <= q -> SpecFloat.iter_pos shr_1 p (Build_shr_record (q * 2 ^ Z.pos p) false false)
            = Build_shr_record q false false.
Proof.
  assert (H1 : forall q, 0 <= q -> shr_1 (Build_shr_record (2 * q) false false) = Build_shr_record q false false).
  { intros [|r|r] H; [done|done|lia]. }
  revert q. induction p as [p IH|p IH|]; intros q Hq; cbn [SpecFloat.iter_pos].
  - replace (q * 2 ^ Z.pos p~1) with (2 * (q * 2 ^ Z.pos p * 2 ^ Z.pos p)).
    + rewrite H1 by lia. rewrite IH by lia. by apply IH.
    + replace (Z.pos p~1) with (1 + Z.pos p + Z.pos p) by lia. rewrite !Z.pow_add_r by lia. lia.
  - replace (q * 2 ^ Z.pos p~0) with (q * 2 ^ Z.pos p * 2 ^ Z.pos p).
    + rewrite IH by lia. by apply IH.
    + replace (Z.pos p~0) with (Z.pos p + Z.pos p) by lia. rewrite !Z.pow_add_r by lia. lia.
  - rewrite Z.mul_comm. by apply H1.
Qed.

(** Rounding a multiple of the unit in the last place drops nothing. *)
Lemma round_aux_multiple m q n e :
  0 < n -> Z.pos m = Z.pos q * 2 ^ n -> 2 ^ 52 <= Z.pos q < 2 ^ 53 -> -1074 <= e + n <= 971 ->
  binary_round_aux 53 1024 false (Z.pos m) e loc_Exact = S754_finite false q (e + n).
Proof.
  intros Hn Hm Hq He. destruct n as [|p|]; [lia| |lia].
  assert (Hs : shr_fexp 53 1024 (Z.pos m) e loc_Exact = (Build_shr_record (Z.pos q) false false, e + Z.pos p)).
  { unfold shr_fexp. cbn [Zdigits2]. rewrite (digits2_unique m (53 + Z.pos p)).
    - unfold fexp, SpecFloat.emin. rewrite Z.max_l by lia.
      replace (53 + Z.pos p + e - 53 - e) with (Z.pos p) by lia. cbn [shr shr_record_of_loc].
      rewrite Hm, iter_shr_exact by lia. done.
    - rewrite Hm. replace (53 + Z.pos p - 1) with (52 + Z.pos p) by lia. rewrite !Z.pow_add_r by lia. nia. }
  unfold binary_round_aux. rewrite Hs. cbn [shr_m loc_of_shr_record round_nearest_even].
  assert (Hs2 : shr_fexp 53 1024 (Z.pos q) (e + Z.pos p) loc_Exact
                = (Build_shr_record (Z.pos q) false false, e + Z.pos p)).
  { unfold shr_fexp. cbn [Zdigits2]. rewrite (digits2_unique q 53) by done.
    unfold fexp, SpecFloat.emin. rewrite Z.max_l by lia.
    by replace (53 + (e + Z.pos p) - 53 - (e + Z.pos p)) with 0 by lia. }
  rewrite Hs2. cbn [shr_m]. by rewrite (proj2 (Z.leb_le _ _)) by lia.
Qed.

Lemma fmul_exact a b : 0 < a -> 0 < b -> a * b < 2 ^ 53 -> to_int64 (fmul (of_int a) (of_int b)) = a * b.
Proof.
  intros Ha Hb Hab.
  destruct (of_int_exact a) as (ma & ea & -> & Hma & Hea & Hva); [nia|].
  destruct (of_int_exact b) as (mb & eb & -> & Hmb & Heb & Hvb); [nia|].
  assert (Hexp : forall e m c, 0 < c -> Z.pos m < 2 ^ 53 -> Z.pos m = c * 2 ^ (- e) -> -53 <= e).
  { intros e m c Hc Hm Hv. destruct (Z.le_gt_cases (-53) e); [done|].
    assert (2 ^ 53 <= 2 ^ (- e)) by (apply Z.pow_le_mono_r; lia). nia. }
  pose proof (Hexp ea ma a Ha (proj2 Hma) Hva). pose proof (Hexp eb mb b Hb (proj2 Hmb) Hvb). clear Hexp.
  unfold fmul, SFmul. cbn [xorb].
  set (K := - ea - eb). set (D := Z.pos (digits2_pos (ma * mb))). set (n := D - 53).
  pose proof (digits2_bound (ma * mb)) as HD. fold D in HD.
  assert (HP : Z.pos (ma * mb) = a * b * 2 ^ K).
  { rewrite Pos2Z.inj_mul, Hva, Hvb. unfold K. replace (- ea - eb) with (- ea + - eb) by lia.
    rewrite Z.pow_add_r by lia. lia. }
  assert (HP2 : 2 ^ 104 <= Z.pos (ma * mb) < 2 ^ 106) by (rewrite Pos2Z.inj_mul; nia).
  assert (HD2 : 105 <= D <= 106).
  { split.
    - destruct (Z.le_gt_cases 105 D); [done|]. assert (2 ^ D <= 2 ^ 104) by (apply Z.pow_le_mono_r; lia). lia.
    - destruct (Z.le_gt_cases D 106); [done|]. assert (2 ^ 106 <= 2 ^ (D - 1)) by (apply Z.pow_le_mono_r; lia). lia. }
  assert (HK : n <= K).
  { destruct (Z.le_gt_cases n K); [done|]. assert (2 ^ (53 + K) <= 2 ^ (D - 1)) by (apply Z.pow_le_mono_r; lia).
    rewrite (Z.pow_add_r 2 53 K) in * by lia. nia. }
  assert (Hq : 0 < a * b * 2 ^ (K - n)) by nia.
  destruct (a * b * 2 ^ (K - n)) as [|q|] eqn:Eq; [lia| |lia].
  assert (Hmq : Z.pos (ma * mb) = Z.pos q * 2 ^ n).
  { rewrite HP, <- Eq, <- (Z.mul_assoc (a * b) (2 ^ (K - n)) (2 ^ n)), <- Z.pow_add_r by lia. do 2 f_equal. lia. }
  assert (Hqr : 2 ^ 52 <= Z.pos q < 2 ^ 53).
  { rewrite Hmq in HD. replace (D - 1) with (52 + n) in HD by lia. replace D with (53 + n) in HD by lia.
    rewrite !Z.pow_add_r in HD by lia. nia. }
  rewrite (round_aux_multiple _ q n) by lia. cbn [to_int64].
  assert (Hv : (if 0 <=? ea + eb + n then Z.pos q * 2 ^ (ea + eb + n) else Z.pos q / 2 ^ (- (ea + eb + n))) = a * b).
  { destruct (0 <=? ea + eb + n) eqn:E0; zbool.
    - assert (HKn : K - n = 0) by lia. rewrite HKn in Eq. replace (ea + eb + n) with 0 by lia. lia.
    - replace (- (ea + eb + n)) with (K - n) by lia. rewrite <- Eq. apply Z.div_mul. lia. }
  rewrite Hv. unfold int64_ok, int64_min, int64_max. by rewrite !(proj2 (Z.leb_le _ _)) by lia.
Qed.

(** ** What is printed is read back *)

Definition stops (s : string) : Prop := match s with String c _ => digit_val c = None | EmptyString => True end.

Lemma digit_val_range c d : digit_val c = Some d -> 0 <= d <= 9.
Proof. unfold digit_val. case_goal; [|done]. intros [= <-]. zbool. lia. Qed.

Lemma digits_val_mono x ds v : digits_val x ds = Some v -> 0 <= x -> x <= v.
Proof.
  revert x. induction ds as [|c ds IH]; intros x; cbn [digits_val]; [intros [= <-]; lia|].
  destruct (digit_val c) as [d|] eqn:E; [|done]. apply digit_val_range in E. intros H Hx.
  apply IH in H; lia.
Qed.

Lemma digits_val_app x a b :
  digits_val x (a +:+ b) = match digits_val x a with Some y => digits_val y b | None => None end.
Proof.
  revert x. induction a as [|c a IH]; intros x; [done|]. rewrite append_cons. cbn [digits_val].
  destruct (digit_val c); [apply IH|done].
Qed.

Lemma leadingInt_digits ds x v rest :
  digits_val x ds = Some v -> 0 <= x -> v <= 2 ^ 63 -> stops rest -> leadingInt x (ds +:+ rest) = Some (v, rest).
Proof.
  revert x. induction ds as [|c ds IH]; intros x; cbn [digits_val].
  - intros [= ->] _ _ Hr. change ("" +:+ rest) with rest. destruct rest as [|c r]; cbn; [done|]. cbn in Hr. by rewrite Hr.
  - rewrite append_cons. cbn [leadingInt]. destruct (digit_val c) as [d|] eqn:E; [|done].
    apply digit_val_range in E. intros H Hx Hv Hr. pose proof (digits_val_mono _ _ _ H).
    replace (10 * x + d) with (x * 10 + d) in * by lia.
    assert (x <= 2 ^ 63 / 10) by (apply Z.div_le_lower_bound; lia).
    rewrite (proj2 (Z.ltb_ge _ _)), (proj2 (Z.ltb_ge _ _)) by lia. apply IH; [done|lia|done|done].
Qed.

Lemma leadingFraction_digits ds x sc v rest :
  digits_val x ds = Some v -> 0 <= x -> v <= 10 ^ 9 -> stops rest ->
  leadingFraction x sc false (ds +:+ rest)
  = (v, Nat.iter (String.length ds) (fun s => fmul s (of_int 10)) sc, rest).
Proof.
  revert x sc. induction ds as [|c ds IH]; intros x sc; cbn [digits_val].
  - intros [= ->] _ _ Hr. change ("" +:+ rest) with rest. destruct rest as [|c r]; cbn; [done|]. cbn in Hr. by rewrite Hr.
  - rewrite append_cons. cbn [leadingFraction]. destruct (digit_val c) as [d|] eqn:E; [|done].
    apply digit_val_range in E. intros H Hx Hv Hr. pose proof (digits_val_mono _ _ _ H).
    replace (10 * x + d) with (x * 10 + d) in * by lia. cbn [orb].
    rewrite (proj2 (Z.ltb_ge _ _)), (proj2 (Z.ltb_ge _ _)) by (lia || (apply Z.div_le_lower_bound; lia)).
    rewrite IH by (done || lia). cbn [String.length]. by rewrite Nat.iter_succ_r.
Qed.

(** [fmtInt] writes digits of the number in front. *)
Lemma fmtInt_spec v acc :
  0 <= v <= 2 ^ 63 -> exists c w, fmtInt v acc = String c w +:+ acc /\ digits_val 0 (String c w) = Some v /\
    exists d, 0 <= d <= 9 /\ c = digit_char d.
Proof.
  intros Hv. unfold fmtInt. destruct (print_loop_spec 19 v acc) as (d & w & Hd & -> & Hdv); [cbn; lia|lia|].
  exists (digit_char d), w. split; [done|]. split; [|eauto].
  specialize (Hdv 0 ""). rewrite string_app_nil in Hdv. by rewrite Hdv.
Qed.

Lemma length_app_neq a b : a <> "" -> (String.length b =? String.length (a +:+ b))%nat = false.
Proof. intros H. apply Nat.eqb_neq. rewrite append_length. destruct a; [done|]. cbn. lia. Qed.

(** Bytes of a unit: neither digit nor period. *)
Fixpoint unit_bytes (u : string) : bool :=
  match u with
  | EmptyString => true
  | String c u' => negb (Ascii.eqb c dot || match digit_val c with Some _ => true | None => false end) && unit_bytes u'
  end.

Definition starts_term (s : string) : Prop :=
  match s with EmptyString => True | String c _ => match digit_val c with Some _ => True | None => False end end.

Lemma unit_prefix_app u rest : unit_bytes u = true -> starts_term rest -> unit_prefix (u +:+ rest) = (u, rest).
Proof.
  induction u as [|c u IH]; intros Hu Hr.
  - change ("" +:+ rest) with rest. destruct rest as [|c r]; [done|]. cbn in *.
    destruct (digit_val c); [|done]. by rewrite orb_true_r.
  - rewrite append_cons. cbn [unit_bytes unit_prefix] in *. apply andb_true_iff in Hu as [Hc Hu].
    apply negb_true_iff in Hc. rewrite Hc, IH by done. done.
Qed.

Lemma stops_unit u rest : u <> "" -> unit_bytes u = true -> stops (u +:+ rest).
Proof.
  destruct u as [|c u]; [done|]. intros _ H. rewrite append_cons. cbn [unit_bytes stops] in *.
  apply andb_true_iff in H as [H _]. apply negb_true_iff, orb_false_iff in H as [_ H]. by destruct (digit_val c).
Qed.

Lemma starts_fmtInt v acc : 0 <= v <= 2 ^ 63 -> starts_term (fmtInt v acc).
Proof.
  intros Hv. destruct (fmtInt_spec v acc Hv) as (c & w & -> & _ & d & Hd & ->).
  rewrite append_cons. cbn [starts_term]. by rewrite digit_val_char.
Qed.

(** A term without a fraction. *)
Lemma parse_term_int v u unit rest :
  0 <= v -> unitMap u = Some unit -> u <> "" -> unit_bytes u = true -> 0 < unit -> v * unit <= 2 ^ 63 ->
  starts_term rest -> parse_term (fmtInt v (u +:+ rest)) = Some (v * unit, rest).
Proof.
  intros Hv Hum Hu Hub Hunit Hle Hr.
  assert (Hv2 : v <= 2 ^ 63 / unit) by (apply Z.div_le_lower_bound; lia).
  assert (Hv3 : 0 <= v <= 2 ^ 63) by nia.
  destruct (fmtInt_spec v (u +:+ rest) Hv3) as (c & w & -> & Hdv & d & Hd & ->).
  rewrite append_cons. cbn [parse_term]. rewrite digit_val_char, orb_true_r by done. cbn [negb].
  rewrite <- append_cons. rewrite (leadingInt_digits _ 0 v) by (done || lia || by apply stops_unit).
  rewrite length_app_neq by done. cbn [negb andb].
  assert (Hns : exists c1 s1, u +:+ rest = String c1 s1 /\ Ascii.eqb c1 dot = false).
  { destruct u as [|c1 u']; [done|]. rewrite append_cons. exists c1, (u' +:+ rest). split; [done|].
    cbn in Hub. apply andb_true_iff in Hub as [Hub _]. by apply negb_true_iff, orb_false_iff in Hub as [Hub _]. }
  destruct Hns as (c1 & s1 & Es & Hdot). rewrite Es, Hdot, <- Es. rewrite unit_prefix_app by done.
  rewrite Hum. unfold term_value. by rewrite (proj2 (Z.ltb_ge _ _)) by lia.
Qed.

(** The scale of [k] digits divides a power of ten exactly. *)
Lemma scale_exact p k :
  In p [3%nat; 6%nat; 9%nat] -> (k <= p)%nat ->
  fdiv (of_int (10 ^ Z.of_nat p)) (Nat.iter k (fun s => fmul s (of_int 10)) (of_int 1))
  = of_int (10 ^ Z.of_nat (p - k)).
Proof.
  intros Hp Hk. repeat destruct Hp as [<-|Hp]; try done;
    repeat (destruct k as [|k]; [vm_compute; reflexivity|]); lia.
Qed.

(** A term with a fraction of up to [p] digits of a unit of 10^p. *)
Lemma parse_term_frac p v ds x u rest :
  In p [3%nat; 6%nat; 9%nat] -> 0 <= v -> digits_val 0 ds = Some x -> ds <> "" ->
  (String.length ds <= p)%nat -> x * 10 ^ Z.of_nat (p - String.length ds) < 10 ^ Z.of_nat p ->
  unitMap u = Some (10 ^ Z.of_nat p) -> u <> "" -> unit_bytes u = true ->
  v * 10 ^ Z.of_nat p + x * 10 ^ Z.of_nat (p - String.length ds) <= 2 ^ 63 -> starts_term rest ->
  parse_term (fmtInt v (String dot (ds +:+ (u +:+ rest))))
  = Some (v * 10 ^ Z.of_nat p + x * 10 ^ Z.of_nat (p - String.length ds), rest).
Proof.
  intros Hp Hv Hx Hds Hk Hfr Hum Hu Hub Hle Hr. set (unit := 10 ^ Z.of_nat p) in *.
  set (t := 10 ^ Z.of_nat (p - String.length ds)) in *.
  assert (Ht : 0 < t) by (unfold t; lia).
  assert (Hx0 : 0 <= x) by (by apply (digits_val_mono _ _ _ Hx)).
  assert (Hunit : 0 < unit <= 10 ^ 9).
  { unfold unit. split; [lia|]. apply Z.pow_le_mono_r; [lia|]. repeat destruct Hp as [<-|Hp]; cbn; lia || done. }
  assert (Hv2 : v <= 2 ^ 63 / unit) by (apply Z.div_le_lower_bound; nia).
  assert (Hv3 : 0 <= v <= 2 ^ 63) by nia.
  destruct (fmtInt_spec v (String dot (ds +:+ (u +:+ rest))) Hv3) as (c & w & -> & Hdv & d & Hd & ->).
  rewrite append_cons. cbn [parse_term]. rewrite digit_val_char, orb_true_r by done. cbn [negb].
  rewrite <- append_cons. rewrite (leadingInt_digits _ 0 v) by (done || lia || exact eq_refl).
  rewrite length_app_neq by done. cbn [negb andb]. rewrite Ascii.eqb_refl.
  rewrite (leadingFraction_digits ds 0 _ x) by (done || nia || by apply stops_unit).
  rewrite unit_prefix_app by done. rewrite Hum. unfold term_value.
  rewrite (proj2 (Z.ltb_ge _ _)) by lia. destruct (0 <? x) eqn:Ex; zbool.
  - pose proof (scale_exact p (String.length ds) Hp Hk) as Hsc. fold unit t in Hsc. rewrite Hsc.
    rewrite fmul_exact by nia. by rewrite (proj2 (Z.ltb_ge _ _)) by lia.
  - assert (x = 0) as -> by lia. do 2 f_equal. lia.
Qed.

Lemma pow10_succ n : 10 ^ Z.of_nat (S n) = 10 * 10 ^ Z.of_nat n.
Proof. rewrite Nat2Z.inj_succ, Z.pow_succ_r by lia. done. Qed.

(** Dividing by ten, then taking the low digits. *)
Lemma low_digits v n : 0 <= v ->
  v / 10 / 10 ^ Z.of_nat n = v / 10 ^ Z.of_nat (S n) /\
  v / 10 mod 10 ^ Z.of_nat n * 10 + v mod 10 = v mod 10 ^ Z.of_nat (S n).
Proof.
  intros Hv. rewrite pow10_succ. split; [by rewrite Z.div_div by lia|].
  rewrite (Z.rem_mul_r v 10) by lia. lia.
Qed.

Lemma frac_loop_spec prec v print acc :
  0 <= v ->
  exists ds x print',
    frac_loop prec v print acc = (ds +:+ acc, v / 10 ^ Z.of_nat prec, print') /\
    digits_val 0 ds = Some x /\ (String.length ds <= prec)%nat /\
    x * 10 ^ Z.of_nat (prec - String.length ds) = v mod 10 ^ Z.of_nat prec /\
    (print = true -> String.length ds = prec /\ print' = true) /\
    (print = false -> print' = str_nonempty ds).
Proof.
  revert v print acc. induction prec as [|n IH]; intros v print acc Hv; cbn [frac_loop].
  - exists "", 0, print. rewrite Z.mod_1_r, Z.div_1_r. do 5 (split; [done|]). done.
  - destruct (low_digits v n Hv) as [Hdiv Hmod].
    pose proof (Z.mod_pos_bound v 10 ltac:(lia)) as Hd.
    set (b := print || negb (v mod 10 =? 0)).
    destruct (IH (v / 10) b (if b then String (digit_char (v mod 10)) acc else acc))
      as (ds & x & p' & -> & Hx & Hlen & Hval & Ht & Hf); [apply Z.div_pos; lia|].
    rewrite Hdiv. destruct b eqn:Eb.
    + destruct Ht as [Hl ->]; [done|]. rewrite Hl, Nat.sub_diag in Hval. cbn in Hval. rewrite Z.mul_1_r in Hval.
      exists (ds +:+ String (digit_char (v mod 10)) ""), (10 * x + v mod 10), true.
      assert (Hlen' : String.length (ds +:+ String (digit_char (v mod 10)) "") = S n)
        by (rewrite append_length, Hl; cbn; lia).
      rewrite Hlen', Nat.sub_diag, string_app_assoc, digits_val_app, Hx. cbn [digits_val].
      rewrite digit_val_char by lia. do 3 (split; [done|]). split; [cbn; lia|]. split; [done|].
      intros _. by destruct ds.
    + apply orb_false_iff in Eb as [-> Hz]. zbool. rewrite (Hf eq_refl).
      exists ds, x, (str_nonempty ds). do 2 (split; [done|]). split; [lia|].
      split; [|done]. replace (S n - String.length ds)%nat with (S (n - String.length ds)) by lia.
      rewrite pow10_succ. lia.
Qed.

(** The number before the unit, with the fraction that [fmtFrac] left. *)
Lemma parse_term_fmtFrac p w u v acc q :
  In p [3%nat; 6%nat; 9%nat] -> 0 <= w -> unitMap u = Some (10 ^ Z.of_nat p) -> u <> "" ->
  unit_bytes u = true -> fmtFrac p w u = (acc, q) -> 0 <= v ->
  v * 10 ^ Z.of_nat p + w mod 10 ^ Z.of_nat p <= 2 ^ 63 ->
  q = w / 10 ^ Z.of_nat p /\
  parse_term (fmtInt v acc) = Some (v * 10 ^ Z.of_nat p + w mod 10 ^ Z.of_nat p, "").
Proof.
  intros Hp Hw Hum Hu Hub. unfold fmtFrac.
  destruct (frac_loop_spec p w false u Hw) as (ds & x & pr & -> & Hx & Hlen & Hval & _ & Hpr).
  rewrite (Hpr eq_refl). intros [= <- <-] Hv Hle. split; [done|].
  pose proof (Z.mod_pos_bound w (10 ^ Z.of_nat p) ltac:(lia)) as Hm.
  destruct (str_nonempty ds) eqn:Ene.
  - rewrite <- Hval in *. replace u with (u +:+ "") at 1 by apply string_app_nil.
    apply parse_term_frac; try done; [by destruct ds|lia].
  - destruct ds; [|done]. cbn in Hx, Hval. injection Hx as <-. rewrite <- Hval, Z.add_0_r in *.
    replace u with (u +:+ "") at 1 by apply string_app_nil.
    change ("" +:+ (u +:+ "")) with (u +:+ "").
    rewrite parse_term_int with (unit := 10 ^ Z.of_nat p); try done; lia.
Qed.

(** ** Durations survive the wire *)

Lemma parse_terms_nil fuel d : parse_terms fuel d "" = Some d.
Proof. by destruct fuel. Qed.

Lemma parse_terms_step fuel d s v rest :
  parse_term s = Some (v, rest) -> 0 <= d -> 0 <= v -> d + v <= 2 ^ 63 ->
  parse_terms (S fuel) d s = parse_terms fuel (d + v) rest.
Proof.
  intros Hs Hd Hv Hle. destruct s as [|c s]; [done|]. cbn [parse_terms]. rewrite Hs.
  rewrite Z.mod_small by lia. by rewrite (proj2 (Z.ltb_ge _ _)) by lia.
Qed.

Lemma parse_terms_more fuel fuel' d s r :
  parse_terms fuel d s = Some r -> (fuel <= fuel')%nat -> parse_terms fuel' d s = Some r.
Proof.
  revert fuel' d s. induction fuel as [|fuel IH]; intros fuel' d s.
  - destruct s; [|done]. intros H _. rewrite parse_terms_nil in *. done.
  - destruct s as [|c s]; [by rewrite !parse_terms_nil|]. intros H Hle.
    destruct fuel' as [|fuel']; [lia|]. cbn [parse_terms] in *. case_in H; [|done]. destruct p.
    case_in H; [done|]. apply IH; [done|lia].
Qed.

(** What a printed duration looks like to the parser. *)
Definition reads_as (n : nat) (s : string) (u : Z) : Prop :=
  (exists d w, 0 <= d <= 9 /\ s = String (digit_char d) w) /\ (n + 1 <= String.length s)%nat /\
  parse_terms n 0 s = Some u.

Lemma fmtInt_head v acc : 0 <= v <= 2 ^ 63 ->
  (exists d w, 0 <= d <= 9 /\ fmtInt v acc = String (digit_char d) w) /\
  (1 + String.length acc <= String.length (fmtInt v acc))%nat.
Proof.
  intros Hv. destruct (fmtInt_spec v acc Hv) as (c & w & -> & _ & d & Hd & ->). rewrite append_cons. split.
  - by exists d, (w +:+ acc).
  - cbn [String.length]. rewrite append_length. lia.
Qed.

Lemma fmtFrac_nonempty p w u acc q : u <> "" -> 0 <= w -> fmtFrac p w u = (acc, q) -> (1 <= String.length acc)%nat.
Proof.
  intros Hu Hw. unfold fmtFrac. destruct (frac_loop_spec p w false u Hw) as (ds & x & pr & -> & _).
  destruct u as [|c u]; [done|]. intros [= <- _]. destruct pr; cbn [String.length]; rewrite ?append_length; cbn; lia.
Qed.

Lemma reads_short p w u unit :
  In p [3%nat; 6%nat; 9%nat] -> 0 <= w < 2 ^ 63 -> unitMap u = Some unit -> unit = 10 ^ Z.of_nat p -> u <> "" ->
  unit_bytes u = true ->
  reads_as 1 (let '(acc, q) := fmtFrac p w u in fmtInt q acc) w.
Proof.
  intros Hp Hw Hum -> Hu Hub. destruct (fmtFrac p w u) as [acc q] eqn:Ef.
  pose proof (Z.div_mod w (10 ^ Z.of_nat p) ltac:(lia)) as Hdm.
  pose proof (Z.mod_pos_bound w (10 ^ Z.of_nat p) ltac:(lia)).
  assert (Hq0 : 0 <= w / 10 ^ Z.of_nat p) by (apply Z.div_pos; lia).
  destruct (parse_term_fmtFrac p w u (w / 10 ^ Z.of_nat p) acc q) as [-> Ht]; try done || lia.
  rewrite (Z.mul_comm _ (10 ^ _)), <- Hdm in Ht.
  destruct (fmtInt_head (w / 10 ^ Z.of_nat p) acc) as [Hh Hl]; [split; [lia|nia]|].
  apply fmtFrac_nonempty in Ef; [|done|lia].
  split; [done|]. split; [lia|]. rewrite (parse_terms_step 0 0 _ w "") by (done || lia).
  by rewrite parse_terms_nil.
Qed.

(** Seconds, with minutes and hours in front when there are any. *)
Lemma reads_long w : Second <= w <= 2 ^ 63 -> exists n, reads_as n (format_abs w) w.
Proof.
  unfold Second. intros Hw. unfold format_abs. rewrite (proj2 (Z.ltb_ge _ _)) by (unfold Second; lia).
  destruct (fmtFrac 9 w "s") as [acc q] eqn:Ef.
  pose proof (Z.div_mod w (1000000000) ltac:(lia)) as Hdm. pose proof (Z.mod_pos_bound w (1000000000) ltac:(lia)).
  assert (Hq0 : 0 <= w / 1000000000) by (apply Z.div_pos; lia).
  pose proof (Z.div_mod (w / 1000000000) 60 ltac:(lia)) as Hs. pose proof (Z.mod_pos_bound (w / 1000000000) 60 ltac:(lia)).
  pose proof (Z.div_pos (w / 1000000000) 60 Hq0 ltac:(lia)) as Hm0.
  destruct (parse_term_fmtFrac 9 w "s" ((w / 1000000000) mod 60) acc q) as [-> Ht]; try done; [by do 2 right; left|lia|lia| |].
  { change (10 ^ Z.of_nat 9) with (1000000000). lia. }
  change (10 ^ Z.of_nat 9) with (1000000000) in *.
  apply fmtFrac_nonempty in Ef; [|done|lia].
  set (u := w / 1000000000) in *. set (f := w mod 1000000000) in *.
  destruct (fmtInt_head (u mod 60) acc) as [Hsh Hsl]; [lia|].
  destruct (0 <? u / 60) eqn:Em; zbool.
  - set (mn := u / 60) in *. pose proof (Z.div_mod mn 60 ltac:(lia)). pose proof (Z.mod_pos_bound mn 60 ltac:(lia)).
    pose proof (Z.div_pos mn 60 Hm0 ltac:(lia)) as Hh0.
    assert (Hmt : parse_term (fmtInt (mn mod 60) ("m" +:+ fmtInt (u mod 60) acc))
                  = Some (mn mod 60 * Minute, fmtInt (u mod 60) acc)).
    { apply parse_term_int; try done; [lia|unfold Minute, Second; lia|apply starts_fmtInt; lia]. }
    destruct (fmtInt_head (mn mod 60) ("m" +:+ fmtInt (u mod 60) acc)) as [Hmh Hml]; [lia|].
    rewrite append_length in Hml. unfold Minute, Second in Hmt.
    destruct (0 <? mn / 60) eqn:Eh; zbool.
    + set (h := mn / 60) in *. set (ms := fmtInt (mn mod 60) _) in *.
      assert (Hht : parse_term (fmtInt h ("h" +:+ ms)) = Some (h * Hour, ms)).
      { apply parse_term_int; try done; [unfold Hour, Minute, Second; lia|apply starts_fmtInt; lia]. }
      destruct (fmtInt_head h ("h" +:+ ms)) as [Hhh Hhl]; [lia|].
      rewrite append_length in Hhl. unfold Hour, Minute, Second in Hht.
      exists 3%nat. split; [done|]. split; [lia|].
      rewrite (parse_terms_step 2 0 _ _ _ Hht) by lia. rewrite (parse_terms_step 1 _ _ _ _ Hmt) by lia.
      rewrite (parse_terms_step 0 _ _ _ _ Ht) by lia. rewrite parse_terms_nil. f_equal. lia.
    + exists 2%nat. split; [done|]. split; [lia|].
      rewrite (parse_terms_step 1 0 _ _ _ Hmt) by lia.
      rewrite (parse_terms_step 0 _ _ _ _ Ht) by lia. rewrite parse_terms_nil. f_equal. lia.
  - exists 1%nat. split; [done|]. split; [lia|].
    rewrite (parse_terms_step 0 0 _ _ _ Ht) by lia. rewrite parse_terms_nil. f_equal. lia.
Qed.

Lemma reads_format u : 0 < u <= 2 ^ 63 -> exists n, reads_as n (format_abs u) u.
Proof.
  intros Hu. destruct (Z.lt_ge_cases u Second) as [Hlt|]; [|apply reads_long; lia].
  exists 1%nat. unfold format_abs, Second in *. rewrite (proj2 (Z.ltb_lt _ _)) by done.
  destruct (u <? Microsecond) eqn:E1; zbool.
  - change (fmtFrac 0 u "ns") with ("ns", u). cbv iota beta.
    destruct (fmtInt_head u "ns") as [Hh Hl]; [lia|]. split; [done|]. split; [change (String.length "ns") with 2%nat in Hl; lia|].
    rewrite (parse_terms_step 0 0 _ (u * Nanosecond) ""); unfold Nanosecond; try lia.
    + rewrite parse_terms_nil. f_equal. lia.
    + apply (parse_term_int u "ns" 1 ""); done || lia.
  - destruct (u <? Millisecond) eqn:E2; zbool.
    + apply reads_short with (unit := Microsecond); try done; [by left|lia].
    + apply reads_short with (unit := Millisecond); try done; [by right; left|lia].
Qed.

(** The text of a duration parses to the duration. *)
Lemma ParseDuration_String d : int64_min <= d <= int64_max -> ParseDuration (Duration_String d) = Ok d.
Proof.
  unfold int64_min, int64_max. intros Hd. unfold Duration_String.
  destruct (_ =? 0) eqn:E0; zbool.
  { assert (d = 0) as -> by (destruct (d <? 0) eqn:E; zbool; lia). by vm_compute. }
  destruct (reads_format (if d <? 0 then - d else d)) as (n & (c & w & Hc & Hs) & Hlen & Hp).
  { destruct (d <? 0) eqn:E; zbool; lia. }
  set (s := format_abs _) in *. apply (parse_terms_more _ (String.length s)) in Hp; [|lia].
  assert (H0 : bool_decide (s = "0") = false).
  { apply bool_decide_eq_false. intros Hs0. rewrite Hs0 in Hlen. cbn in Hlen. assert (n = 0%nat) as -> by lia.
    rewrite Hs0 in Hp. by vm_compute in Hp. }
  assert (H1 : bool_decide (s = "") = false) by (apply bool_decide_eq_false; intros Hs1; by rewrite Hs1 in Hs).
  unfold ParseDuration. destruct (d <? 0) eqn:E; zbool.
  - rewrite (proj2 (Ascii.eqb_eq minus minus)) by done. cbv beta iota.
    rewrite !bool_decide_eq_false_2, Hp, Z.opp_involutive by done.
    by rewrite wrap64_id by (unfold int64_min, int64_max; lia).
  - destruct (digit_not_sign c Hc) as [Hm Hpl]. change (format_abs d) with s. clearbody s. subst s. rewrite Hm, Hpl. cbv beta iota.
    rewrite !bool_decide_eq_false_2, Hp by done.
    by rewrite (proj2 (Z.ltb_ge _ _)) by lia.
Qed.
