(* ===== verification/GoJson.v ===== *)
(** * encoding/json, as far as the program looks inside it

    The values of JSON, the parser behind [json.Unmarshal] and [json.Valid],
    string literals in both directions, and the wire forms of [models.Duration]
    and [models.Payload]. *)

From S2P Require Import Prelude GoStrings GoText Retry GoDuration.

(** ** Values *)

Inductive json :=
  | JNull
  | JBool (b : bool)
  | JNumber (text : string)
  | JString (s : string)
  | JArray (elems : list json)
  | JObject (members : list (string * json)).

Definition quote : ascii := ascii_of_N 34.
Definition backslash : ascii := ascii_of_N 92.

Fixpoint skip_ws (s : string) : string :=
  match s with
  | String c s' =>
      let b := byte_of c in
      if (b =? 32) || (b =? 9) || (b =? 10) || (b =? 13) then skip_ws s' else s
  | EmptyString => ""
  end.

(** ** String literals *)

Definition hex_val (c : ascii) : option Z :=
  let b := byte_of c in
  if in_range 48 57 b then Some (b - 48)
  else if in_range 97 102 b then Some (b - 87)
  else if in_range 65 70 b then Some (b - 55)
  else None.

(** [getu4]: the four hexadecimal digits after a [\u]. *)
Definition hex4 (s : string) : option (Z * string) :=
  match s with
  | String c1 (String c2 (String c3 (String c4 s'))) =>
      match hex_val c1, hex_val c2, hex_val c3, hex_val c4 with
      | Some a, Some b, Some c, Some d => Some (a * 4096 + b * 256 + c * 16 + d, s')
      | _, _, _, _ => None
      end
  | _ => None
  end.

(** The escaped unit [rr] and what follows it: a surrogate pair is one rune, a
    lone surrogate is [RuneError]. *)
Definition escaped_rune (rr : Z) (s : string) : Z * string :=
  if negb (in_range 55296 57343 rr) then (rr, s)
  else match s with
  | String b (String u s') =>
      if Ascii.eqb b backslash && (byte_of u =? 117) then
        match hex4 s' with
        | Some (rr1, s'') =>
            if in_range 55296 56319 rr && in_range 56320 57343 rr1
            then ((rr - 55296) * 1024 + (rr1 - 56320) + 65536, s'') else (RuneError, s)
        | None => (RuneError, s)
        end
      else (RuneError, s)
  | _ => (RuneError, s)
  end.

Definition simple_escape (b : Z) : option Z :=
  if (b =? 34) || (b =? 92) || (b =? 47) then Some b
  else if b =? 98 then Some 8 else if b =? 102 then Some 12 else if b =? 110 then Some 10
  else if b =? 114 then Some 13 else if b =? 116 then Some 9 else None.

(** A string literal after its opening quote: its value and what follows its
    closing quote.  Every round consumes a byte. *)
Fixpoint string_body (fuel : nat) (s : string) : option (string * string) :=
  match fuel, s with
  | S fuel', String c s' =>
      let b := byte_of c in
      let cont (piece rest : string) :=
        match string_body fuel' rest with Some (v, r) => Some (piece +:+ v, r) | None => None end in
      if b =? 34 then Some ("", s')
      else if b =? 92 then
        match s' with
        | EmptyString => None
        | String e s'' =>
            if byte_of e =? 117 then
              match hex4 s'' with
              | None => None
              | Some (rr, s3) => let '(r, s4) := escaped_rune rr s3 in cont (encode_rune r) s4
              end
            else match simple_escape (byte_of e) with
            | Some v => cont (String (char v) "") s''
            | None => None
            end
        end
      else if b <? 32 then None
      else if b <? 128 then cont (String c "") s'
      else let '(r, n) := decode_rune s in cont (encode_rune r) (drop_bytes n s)
  | _, _ => None
  end.

(** [json.Marshal] of a string, with the escapes it makes (HTML included). *)
Definition hex_digit (d : Z) : ascii := if d <? 10 then char (48 + d) else char (87 + d).
Definition escape_u (r : Z) : string :=
  "\u" +:+ String (hex_digit (r / 4096)) (String (hex_digit (r / 256 mod 16))
    (String (hex_digit (r / 16 mod 16)) (String (hex_digit (r mod 16)) ""))).

Fixpoint quote_body (fuel : nat) (s : string) : string :=
  match fuel, s with
  | S fuel', String c s' =>
      let b := byte_of c in
      if b <? 128 then
        (if (b =? 34) || (b =? 92) then String backslash (String c "")
         else if b =? 8 then "\b" else if b =? 12 then "\f" else if b =? 10 then "\n"
         else if b =? 13 then "\r" else if b =? 9 then "\t"
         else if (b <? 32) || (b =? 60) || (b =? 62) || (b =? 38) then escape_u b
         else String c "") +:+ quote_body fuel' s'
      else
        let '(r, n) := decode_rune s in
        (if (r =? RuneError) && (n =? 1)%nat then "\ufffd"
         else if (r =? 8232) || (r =? 8233) then escape_u r
         else encode_rune r) +:+ quote_body fuel' (drop_bytes n s)
  | _, _ => ""
  end.

Definition json_quote (s : string) : string :=
  String quote (quote_body (String.length s) s +:+ String quote "").

(** ** Numbers and literals *)

Fixpoint skip_digits (s : string) : string :=
  match s with
  | String c s' => match digit_val c with Some _ => skip_digits s' | None => s end
  | EmptyString => ""
  end.

(** At least one digit. *)
Definition digits1 (s : string) : option string :=
  match s with
  | String c s' => match digit_val c with Some _ => Some (skip_digits s') | None => None end
  | EmptyString => None
  end.

(** The parts of a number after its sign: an integer without leading zeros, a
    fraction and an exponent that may both be missing. *)
Definition number_int (s : string) : option string :=
  match s with
  | String c s' => if byte_of c =? 48 then Some s' else digits1 s
  | EmptyString => None
  end.
Definition number_frac (s : string) : option string :=
  match s with
  | String c s' => if Ascii.eqb c dot then digits1 s' else Some s
  | EmptyString => Some s
  end.
Definition number_exp (s : string) : option string :=
  match s with
  | String c s' =>
      if (byte_of c =? 101) || (byte_of c =? 69) then
        match s' with
        | String c' s'' => if Ascii.eqb c' minus || Ascii.eqb c' plus then digits1 s'' else digits1 s'
        | EmptyString => None
        end
      else Some s
  | EmptyString => Some s
  end.

(** What follows the number a string starts with. *)
Definition skip_number (s : string) : option string :=
  let s := match s with String c s' => if Ascii.eqb c minus then s' else s | EmptyString => s end in
  match number_int s with
  | None => None
  | Some s => match number_frac s with None => None | Some s => number_exp s end
  end.

(** The bytes of [s] before its suffix [rest]. *)
Definition before (s rest : string) : string := String.substring 0 (String.length s - String.length rest) s.

Definition literal (word s : string) : option string :=
  if HasPrefix s word then Some (drop_bytes (String.length word) s) else None.

(** ** The parser *)

Definition maxNestingDepth : Z := 10000.

(** One value after leading white space.  [parse_elems] and [parse_members]
    continue an array and an object after an element.  The fuel bounds the
    bytes consumed. *)
Fixpoint parse_value (fuel : nat) (depth : Z) (s : string) : option (json * string) :=
  match fuel with
  | O => None
  | S fuel' =>
      match skip_ws s with
      | EmptyString => None
      | String c s1 as s0 =>
          let b := byte_of c in
          if b =? 34 then
            match string_body (String.length s1) s1 with Some (v, r) => Some (JString v, r) | None => None end
          else if b =? 123 then
            if maxNestingDepth <=? depth then None else
            match skip_ws s1 with
            | String c2 s2 =>
                if byte_of c2 =? 125 then Some (JObject [], s2)
                else match parse_members fuel' (depth + 1) s1 with Some (m, r) => Some (JObject m, r) | None => None end
            | EmptyString => None
            end
          else if b =? 91 then
            if maxNestingDepth <=? depth then None else
            match skip_ws s1 with
            | String c2 s2 =>
                if byte_of c2 =? 93 then Some (JArray [], s2)
                else match parse_elems fuel' (depth + 1) s1 with Some (l, r) => Some (JArray l, r) | None => None end
            | EmptyString => None
            end
          else if b =? 116 then match literal "true" s0 with Some r => Some (JBool true, r) | None => None end
          else if b =? 102 then match literal "false" s0 with Some r => Some (JBool false, r) | None => None end
          else if b =? 110 then match literal "null" s0 with Some r => Some (JNull, r) | None => None end
          else match skip_number s0 with Some r => Some (JNumber (before s0 r), r) | None => None end
      end
  end
with parse_elems (fuel : nat) (depth : Z) (s : string) : option (list json * string) :=
  match fuel with
  | O => None
  | S fuel' =>
      match parse_value fuel' depth s with
      | None => None
      | Some (v, r) =>
          match skip_ws r with
          | String c r' =>
              if byte_of c =? 44 then
                match parse_elems fuel' depth r' with Some (l, r2) => Some (v :: l, r2) | None => None end
              else if byte_of c =? 93 then Some ([v], r') else None
          | EmptyString => None
          end
      end
  end
with parse_members (fuel : nat) (depth : Z) (s : string) : option (list (string * json) * string) :=
  match fuel with
  | O => None
  | S fuel' =>
      match skip_ws s with
      | String c s1 =>
          if negb (byte_of c =? 34) then None
          else match string_body (String.length s1) s1 with
          | None => None
          | Some (k, r) =>
              match skip_ws r with
              | String c2 r2 =>
                  if negb (byte_of c2 =? 58) then None
                  else match parse_value fuel' depth r2 with
                  | None => None
                  | Some (v, r3) =>
                      match skip_ws r3 with
                      | String c4 r4 =>
                          if byte_of c4 =? 44 then
                            match parse_members fuel' depth r4 with Some (m, r5) => Some ((k, v) :: m, r5) | None => None end
                          else if byte_of c4 =? 125 then Some ([(k, v)], r4) else None
                      | EmptyString => None
                      end
                  end
              | EmptyString => None
              end
          end
      | EmptyString => None
      end
  end.

(** The whole input is one value; [d] arrays and objects are open around it. *)
Definition json_parse_at (d : Z) (s : string) : option json :=
  match parse_value (2 * String.length s + 2) d s with
  | Some (v, r) => if bool_decide (skip_ws r = "") then Some v else None
  | None => None
  end.
Definition json_parse (s : string) : option json := json_parse_at 0 s.

Definition json_Valid (s : string) : bool := match json_parse s with Some _ => true | None => false end.

Example json_1 : json_parse "{ }" = Some (JObject []). Proof. reflexivity. Qed.
Example json_2 : json_parse " [1, -2.5e3, null] " = Some (JArray [JNumber "1"; JNumber "-2.5e3"; JNull]). Proof. reflexivity. Qed.
Example json_3 : json_Valid "[01]" = false. Proof. reflexivity. Qed.
Example json_4 : json_Valid "[1,]" = false. Proof. reflexivity. Qed.
Example json_5 : json_parse (String quote ("a\u00e9\n" +:+ String quote "")) = Some (JString (String (char 97) (encode_rune 233 +:+ String (char 10) ""))). Proof. reflexivity. Qed.

(** ** Strings that need no escape *)

(** ASCII without control bytes, quotes, backslashes and the HTML bytes; or the
    micro sign. *)
Definition plain_byte (b : Z) : bool :=
  in_range 32 127 b && negb ((b =? 34) || (b =? 92) || (b =? 60) || (b =? 62) || (b =? 38)).

Inductive plain : string -> Prop :=
  | plain_nil : plain ""
  | plain_byte_cons c s : plain_byte (byte_of c) = true -> plain s -> plain (String c s)
  | plain_micro s : plain s -> plain (micro +:+ s).
#[export] Hint Constructors plain : conduit.

Lemma plain_quote s fuel : plain s -> (String.length s <= fuel)%nat -> quote_body fuel s = s.
Proof.
  intros Hs. revert fuel. induction Hs as [|c s Hc Hs IH|s Hs IH]; intros fuel Hf.
  - by destruct fuel.
  - destruct fuel as [|fuel]; cbn [String.length] in Hf; [lia|]. cbn [quote_body].
    rewrite IH by lia. unfold plain_byte, in_range in Hc. zbool.
    repeat match goal with |- context [?a =? ?b] => rewrite (proj2 (Z.eqb_neq a b)) by lia end.
    rewrite (proj2 (Z.ltb_lt _ _)), (proj2 (Z.ltb_ge _ _)) by lia. done.
  - change (String.length (micro +:+ s)) with (2 + String.length s)%nat in Hf.
    destruct fuel as [|fuel]; [lia|].
    change (quote_body (S fuel) (micro +:+ s)) with (micro +:+ quote_body fuel s). by rewrite IH by lia.
Qed.

Lemma plain_body s fuel rest :
  plain s -> (String.length s < fuel)%nat -> string_body fuel (s +:+ String quote rest) = Some (s, rest).
Proof.
  intros Hs. revert fuel. induction Hs as [|c s Hc Hs IH|s Hs IH]; intros fuel Hf.
  - by destruct fuel; [lia|].
  - destruct fuel as [|fuel]; cbn [String.length] in Hf; [lia|]. rewrite append_cons. cbn [string_body].
    rewrite IH by lia. unfold plain_byte, in_range in Hc. zbool.
    repeat match goal with |- context [?a =? ?b] => rewrite (proj2 (Z.eqb_neq a b)) by lia end.
    rewrite (proj2 (Z.ltb_ge _ _)), (proj2 (Z.ltb_lt _ _)) by lia. done.
  - change (String.length (micro +:+ s)) with (2 + String.length s)%nat in Hf.
    destruct fuel as [|fuel]; [lia|]. rewrite string_app_assoc.
    change (string_body (S fuel) (micro +:+ (s +:+ String quote rest)))
      with (match string_body fuel (s +:+ String quote rest) with Some (v, r) => Some (micro +:+ v, r) | None => None end).
    by rewrite IH by lia.
Qed.

(** A plain string is quoted as it is, and reads back. *)
Lemma json_quote_plain s : plain s -> json_parse (json_quote s) = Some (JString s).
Proof.
  intros Hs. unfold json_quote. rewrite plain_quote by done. unfold json_parse, json_parse_at.
  set (body := s +:+ String quote "").
  assert (Hp : parse_value (2 * String.length (String quote body) + 2) 0 (String quote body)
               = match string_body (String.length body) body with Some (v, r) => Some (JString v, r) | None => None end).
  { by replace (2 * String.length (String quote body) + 2)%nat
      with (S (2 * String.length (String quote body) + 1)) by lia. }
  rewrite Hp. unfold body. rewrite plain_body; [done|done|].
  rewrite append_length. cbn. lia.
Qed.

(** ** [models.Duration] *)

Definition Duration_MarshalJSON (d : Dur) : string := json_quote (Duration_String d).

(** [json.Unmarshal(b, &s)] for a string [s]: null leaves it empty. *)
Definition unmarshal_string (b : string) : result string :=
  match json_parse b with
  | Some (JString s) => Ok s
  | Some JNull => Ok ""
  | Some _ | None => Error (ErrText "json: cannot unmarshal into Go value of type string")
  end.

(** The error of [json.Unmarshal] is not wrapped. *)
Definition Duration_UnmarshalJSON (b : string) : result Dur :=
  match unmarshal_string b with
  | Error _ => Error (ErrText ("timeout must be a duration string, got " +:+ b))
  | Ok s =>
      match ParseDuration s with
      | Error e => Error (Wrapf ("timeout " +:+ s +:+ ": ") e)
      | Ok d => Ok d
      end
  end.

(** ** [models.Payload] *)

(** base64.StdEncoding, with padding. *)
Definition std64_char (n : Z) : ascii :=
  char (if n <? 26 then 65 + n else if n <? 52 then 71 + n else if n <? 62 then n - 4
        else if n =? 62 then 43 else 47).
Definition pad : ascii := ascii_of_N 61.

Fixpoint std64_encode (s : string) : string :=
  match s with
  | String c0 (String c1 (String c2 rest)) =>
      let v := byte_of c0 * 65536 + byte_of c1 * 256 + byte_of c2 in
      String (std64_char (v / 262144)) (String (std64_char (v / 4096 mod 64))
        (String (std64_char (v / 64 mod 64)) (String (std64_char (v mod 64)) (std64_encode rest))))
  | String c0 (String c1 EmptyString) =>
      let v := byte_of c0 * 1024 + byte_of c1 * 4 in
      String (std64_char (v / 4096)) (String (std64_char (v / 64 mod 64))
        (String (std64_char (v mod 64)) (String pad "")))
  | String c0 EmptyString =>
      let v := byte_of c0 * 16 in
      String (std64_char (v / 64)) (String (std64_char (v mod 64)) (String pad (String pad "")))
  | EmptyString => ""
  end.

(** A nil payload and an empty one are the same to both methods. *)
Definition Payload_MarshalJSON (p : option string) : string :=
  let p := default "" p in
  if bool_decide (p = "") then "null"
  else if json_Valid p then p
  else json_quote (std64_encode p).

Definition Payload_UnmarshalJSON (b : string) : option string := Some b.

(** ** The wire forms *)

Lemma plain_digit d s : 0 <= d <= 9 -> plain s -> plain (String (digit_char d) s).
Proof.
  intros Hd Hs. constructor; [|done]. rewrite byte_of_digit by done. unfold plain_byte, in_range.
  repeat match goal with |- context [?a =? ?b] => rewrite (proj2 (Z.eqb_neq a b)) by lia end.
  by rewrite !(proj2 (Z.leb_le _ _)) by lia.
Qed.

Lemma plain_fmtInt v s : 0 <= v -> plain s -> plain (fmtInt v s).
Proof.
  unfold fmtInt. generalize 19%nat as n. intros n. revert v s. induction n as [|n IH]; intros v s Hv Hs; [done|].
  cbn [print_loop]. pose proof (Z.mod_pos_bound v 10 ltac:(lia)).
  assert (Hd : plain (String (digit_char (v mod 10)) s)) by (apply plain_digit; [lia|done]).
  destruct (v <? 10); [done|]. apply IH; [apply Z.div_pos; lia|done].
Qed.

Lemma plain_fmtFrac p v s acc q : 0 <= v -> plain s -> fmtFrac p v s = (acc, q) -> plain acc /\ 0 <= q.
Proof.
  assert (Hl : forall p v b s, 0 <= v -> plain s ->
    plain (frac_loop p v b s).1.1 /\ 0 <= (frac_loop p v b s).1.2).
  { clear. induction p as [|p IH]; intros v b s Hv Hs; [done|]. cbn [frac_loop].
    pose proof (Z.mod_pos_bound v 10 ltac:(lia)).
    apply IH; [apply Z.div_pos; lia|]. case_goal; [apply plain_digit; [lia|done]|done]. }
  intros Hv Hs. unfold fmtFrac. specialize (Hl p v false s Hv Hs).
  destruct (frac_loop p v false s) as [[a q'] b]. cbn in Hl. intros [= <- <-]. destruct Hl as [Ha Hq].
  split; [|done]. destruct b; [|done]. by apply plain_byte_cons.
Qed.

Lemma plain_format u : 0 < u -> plain (format_abs u).
Proof.
  intros Hu. assert (Hs : plain "s") by (by repeat constructor).
  assert (Hunit : forall c s, plain_byte (byte_of c) = true -> plain s -> plain (String c "" +:+ s))
    by (intros; by apply plain_byte_cons).
  unfold format_abs. destruct (u <? Second).
  - destruct (if u <? Microsecond then _ else _) as [p suf] eqn:E.
    assert (Hsuf : plain suf).
    { destruct (u <? Microsecond); [injection E as <- <-; by repeat constructor|].
      destruct (u <? Millisecond); injection E as <- <-; [by apply plain_micro|by repeat constructor]. }
    destruct (fmtFrac p u suf) as [acc q] eqn:Ef. apply plain_fmtFrac in Ef as [Ha Hq]; [|lia|done].
    by apply plain_fmtInt.
  - destruct (fmtFrac 9 u "s") as [acc q] eqn:Ef. apply plain_fmtFrac in Ef as [Ha Hq]; [|lia|done].
    pose proof (Z.mod_pos_bound q 60 ltac:(lia)). pose proof (Z.mod_pos_bound (q / 60) 60 ltac:(lia)).
    assert (Hsec : plain (fmtInt (q mod 60) acc)) by (apply plain_fmtInt; [lia|done]).
    destruct (0 <? q / 60) eqn:Em; [|done]. zbool.
    assert (Hmin : plain (fmtInt (q / 60 mod 60) ("m" +:+ fmtInt (q mod 60) acc)))
      by (apply plain_fmtInt; [lia|by apply Hunit]).
    destruct (0 <? q / 60 / 60) eqn:Eh; [|done]. zbool. apply plain_fmtInt; [lia|by apply Hunit].
Qed.

Lemma plain_Duration_String d : plain (Duration_String d).
Proof.
  unfold Duration_String. destruct (_ =? 0) eqn:E0; zbool; [by repeat constructor|].
  destruct (d <? 0) eqn:E; zbool.
  - apply plain_byte_cons; [done|]. apply plain_format. lia.
  - apply plain_format. lia.
Qed.

Lemma Duration_wire d :
  int64_min <= d <= int64_max -> Duration_UnmarshalJSON (Duration_MarshalJSON d) = Ok d.
Proof.
  intros Hd. unfold Duration_UnmarshalJSON, Duration_MarshalJSON, unmarshal_string.
  rewrite json_quote_plain by apply plain_Duration_String. by rewrite ParseDuration_String.
Qed.

(** Every 64-bit duration survives the wire: what [MarshalJSON] writes,
    [UnmarshalJSON] reads as the same duration. *)
Theorem duration_wire_roundtrip d :
  int64_min <= d <= int64_max -> Duration_UnmarshalJSON (Duration_MarshalJSON d) = Ok d.
Proof. exact (Duration_wire d). Qed.

Lemma duration_wire_roundtrip_witness :
  Duration_UnmarshalJSON (Duration_MarshalJSON (-5400000000001)) = Ok (-5400000000001).
Proof. apply duration_wire_roundtrip. split; vm_compute; discriminate. Defined.

Lemma std64_plain_char n : 0 <= n < 64 -> plain_byte (byte_of (std64_char n)) = true.
Proof.
  intros Hn. unfold std64_char. rewrite byte_of_char by (repeat case_goal; zbool; lia).
  unfold plain_byte, in_range. repeat (case_goal; zbool); try lia;
    rewrite !(proj2 (Z.leb_le _ _)) by lia;
    repeat match goal with |- context [?a =? ?b] => rewrite (proj2 (Z.eqb_neq a b)) by lia end; done.
Qed.

Lemma plain_std64 s : plain (std64_encode s).
Proof.
  assert (Hd : forall v k, 0 <= v < 64 * k -> 0 < k -> 0 <= v / k < 64).
  { intros v k Hv Hk. split; [apply Z.div_pos; lia|]. apply Z.div_lt_upper_bound; lia. }
  assert (Hm : forall v, 0 <= v mod 64 < 64) by (intros v; apply Z.mod_pos_bound; lia).
  assert (IH : forall n s, (String.length s <= n)%nat -> plain (std64_encode s)); [|by eapply IH].
  clear s. induction n as [|n IH]; intros s Hs.
  { destruct s; [constructor|cbn in Hs; lia]. }
  destruct s as [|c0 [|c1 [|c2 rest]]]; cbn [std64_encode]; [constructor| | |].
  - pose proof (byte_of_range c0).
    do 2 (apply plain_byte_cons; [apply std64_plain_char; first [apply Hd; lia|apply Hm]|]). by repeat constructor.
  - pose proof (byte_of_range c0). pose proof (byte_of_range c1).
    do 3 (apply plain_byte_cons; [apply std64_plain_char; first [apply Hd; lia|apply Hm]|]). by repeat constructor.
  - pose proof (byte_of_range c0). pose proof (byte_of_range c1). pose proof (byte_of_range c2).
    do 4 (apply plain_byte_cons; [apply std64_plain_char; first [apply Hd; lia|apply Hm]|]).
    apply IH. cbn [String.length] in Hs. lia.
Qed.

(** Whatever bytes a payload column holds, a response carries it as valid
    JSON; a payload that is valid JSON is carried byte for byte, and reads back
    as it was. *)
Theorem payload_wire_valid p :
  json_Valid (Payload_MarshalJSON p) = true /\
  (forall s, p = Some s -> json_Valid s = true -> Payload_UnmarshalJSON (Payload_MarshalJSON p) = p).
Proof.
  unfold Payload_MarshalJSON. split.
  - destruct (bool_decide _); [done|]. destruct (json_Valid (default "" p)) eqn:E; [done|].
    unfold json_Valid. by rewrite json_quote_plain by apply plain_std64.
  - intros s -> Hs. change (default "" (Some s)) with s. rewrite bool_decide_eq_false_2 by (by intros ->).
    by rewrite Hs.
Qed.

Lemma payload_wire_valid_witness :
  json_Valid (Payload_MarshalJSON (Some "not json")) = true /\
  Payload_UnmarshalJSON (Payload_MarshalJSON (Some "[1, 2]")) = Some "[1, 2]".
Proof.
  split; [apply (payload_wire_valid (Some "not json"))|].
  apply (proj2 (payload_wire_valid (Some "[1, 2]")) "[1, 2]"); vm_compute; reflexivity.
Defined.
