(* ===== verification/JsonText.v ===== *)
(** * The text of JSON: compaction, raw members, and reading back what was written

    [json.Marshal] passes the output of a MarshalJSON method through its
    compactor, and [json.Unmarshal] hands an UnmarshalJSON method the bytes of
    its value.  Both are written out here over the parser of GoJson.v, with the
    facts the codecs of JobJson.v rest on: the parser reads a text wherever it
    stands and with any fuel that covers it, and compaction changes no value. *)

From S2P Require Import Prelude GoStrings GoText Retry GoDuration GoJson.

(** ** Compaction *)

(** Where the compactor is: outside strings, inside one, after a backslash. *)
Inductive place := Out | In | Esc.

Definition is_ws (b : Z) : bool := (b =? 32) || (b =? 9) || (b =? 10) || (b =? 13).
Definition is_html (b : Z) : bool := (b =? 60) || (b =? 62) || (b =? 38).

Definition after_byte (p : place) (b : Z) : place :=
  match p with
  | Out => if b =? 34 then In else Out
  | In => if b =? 34 then Out else if b =? 92 then Esc else In
  | Esc => In
  end.

(** The third byte of U+2028 or U+2029 after the bytes E2 80. *)
Definition line_sep (b0 b1 b2 : Z) : bool := (b0 =? 226) && (b1 =? 128) && ((b2 =? 168) || (b2 =? 169)).

Fixpoint compact_at (p : place) (s : string) : string :=
  match s with
  | EmptyString => ""
  | String c s1 =>
      let b := byte_of c in
      let plain_case :=
        if is_html b then escape_u b +:+ compact_at (after_byte p b) s1
        else if (match p with Out => is_ws b | _ => false end) then compact_at Out s1
        else String c (compact_at (after_byte p b) s1) in
      match s1 with
      | String c1 (String c2 s3) =>
          if line_sep b (byte_of c1) (byte_of c2)
          then escape_u (8192 + (byte_of c2 - 128)) +:+ compact_at (after_byte p b) s3
          else plain_case
      | _ => plain_case
      end
  end.

Definition compact (s : string) : string := compact_at Out s.

Example compact_1 : compact " { } " = "{}". Proof. reflexivity. Qed.
Example compact_2 :
  compact (String quote ("a <b" +:+ String quote " ")) = String quote ("a \u003cb" +:+ String quote ""). Proof. reflexivity. Qed.

(** ** Strings *)

(** Copied as it is. *)
Lemma compact_keep p c s : line_sep (byte_of c) 128 168 = false -> is_html (byte_of c) = false ->
  match p with Out => is_ws (byte_of c) | _ => false end = false ->
  compact_at p (String c s) = String c (compact_at (after_byte p (byte_of c)) s).
Proof.
  intros Hl Hh Hw. cbn [compact_at]. rewrite Hh, Hw.
  assert (Hn : forall b1 b2, line_sep (byte_of c) b1 b2 = false).
  { intros b1 b2. unfold line_sep in *. destruct (byte_of c =? 226); [done|done]. }
  destruct s as [|c1 [|c2 s]]; [done..|]. by rewrite Hn.
Qed.

Lemma compact_space c s : is_ws (byte_of c) = true -> compact_at Out (String c s) = compact_at Out s.
Proof.
  intros Hw. assert (Hb : byte_of c <> 226 /\ is_html (byte_of c) = false).
  { unfold is_ws, is_html in *. split; [intros E; by rewrite E in Hw|].
    repeat (apply orb_true_iff in Hw as [Hw|Hw]); apply Z.eqb_eq in Hw; by rewrite Hw. }
  destruct Hb as [Hb Hh]. cbn [compact_at]. rewrite Hh, Hw.
  assert (Hn : forall b1 b2, line_sep (byte_of c) b1 b2 = false).
  { intros b1 b2. unfold line_sep. by rewrite (proj2 (Z.eqb_neq _ _) Hb). }
  destruct s as [|c1 [|c2 s]]; [done..|]. by rewrite Hn.
Qed.

Lemma compact_skip s : compact_at Out s = compact_at Out (skip_ws s).
Proof.
  induction s as [|c s IH]; [done|]. cbn [skip_ws]. change (_ || _ || _ || _) with (is_ws (byte_of c)).
  destruct (is_ws (byte_of c)) eqn:Hw; [by rewrite compact_space|done].
Qed.

(** The continuation bytes a string starts with: all that decoding a lead byte
    looks at. *)
Fixpoint lead (s : string) : string :=
  match s with
  | EmptyString => ""
  | String c s' => if is_cont (byte_of c) then String c (lead s') else ""
  end.

Lemma second_cont b0 b1 : second_ok b0 b1 = true -> is_cont b1 = true.
Proof.
  unfold second_ok, is_cont, in_range. repeat case_goal; intros; zbool;
    apply andb_true_iff; split; apply Z.leb_le; lia.
Qed.

Lemma decode_lead c s : 128 <= byte_of c -> decode_rune (String c s) = decode_rune (String c (lead s)).
Proof.
  intros Hc. unfold decode_rune. rewrite (proj2 (Z.ltb_ge (byte_of c) 128)) by done.
  destruct s as [|c1 s]; [done|]. cbn [lead]. destruct (is_cont (byte_of c1)) eqn:E1; cbn [lead].
  2: { destruct (in_range 194 223 (byte_of c)); [done|].
       destruct (second_ok (byte_of c) (byte_of c1)) eqn:Es; [|by rewrite andb_false_r].
       apply second_cont in Es. congruence. }
  destruct (in_range 194 223 (byte_of c)); [by rewrite E1|]. destruct (negb _); [done|].
  destruct s as [|c2 s]; [done|]. cbn [lead]. destruct (is_cont (byte_of c2)) eqn:E2; cbn [negb]; [|done].
  rewrite E2. cbn [negb]. destruct (byte_of c <? 240); [done|].
  destruct s as [|c3 s]; [done|]. cbn [lead]. destruct (is_cont (byte_of c3)) eqn:E3; cbn [negb]; by rewrite ?E3.
Qed.

Lemma lead_quote u X : lead (u +:+ String quote X) = lead u.
Proof. induction u as [|c u IH]; [done|]. rewrite append_cons. cbn [lead]. by rewrite IH. Qed.

Lemma cont_plain b : is_cont b = true ->
  line_sep b 128 168 = false /\ is_html b = false /\ after_byte In b = In /\ 128 <= b.
Proof.
  unfold is_cont, in_range, line_sep, is_html, after_byte. intros H. zbool.
  repeat match goal with |- context [b =? ?n] => rewrite (proj2 (Z.eqb_neq b n)) by lia end. done.
Qed.

Lemma compact_cont c s : is_cont (byte_of c) = true -> compact_at In (String c s) = String c (compact_at In s).
Proof. intros (H1 & H2 & H3 & _)%cont_plain. rewrite compact_keep by done. by rewrite H3. Qed.

(** The low surrogate an escape at the start of a string gives. *)
Definition low_ahead (s : string) : option Z :=
  match s with
  | String b (String u s') =>
      if Ascii.eqb b backslash && (byte_of u =? 117) then
        match hex4 s' with
        | Some (rr1, _) => if in_range 56320 57343 rr1 then Some rr1 else None
        | None => None
        end
      else None
  | _ => None
  end.

Lemma hex4_cons c1 c2 c3 c4 s n r : hex4 (String c1 (String c2 (String c3 (String c4 s)))) = Some (n, r) ->
  r = s /\ Forall (fun c => is_Some (hex_val c)) [c1; c2; c3; c4].
Proof.
  cbn [hex4]. repeat case_match; try done. intros [= _ <-]. split; [done|]. repeat constructor; by eexists.
Qed.

Lemma hex4_inv s n r : hex4 s = Some (n, r) ->
  exists c1 c2 c3 c4, s = String c1 (String c2 (String c3 (String c4 r))) /\
    Forall (fun c => is_Some (hex_val c)) [c1; c2; c3; c4].
Proof.
  destruct s as [|c1 [|c2 [|c3 [|c4 s]]]]; try done. intros H. destruct (hex4_cons _ _ _ _ _ _ _ H) as [-> ?].
  by exists c1, c2, c3, c4.
Qed.

Lemma hex_plain c : is_Some (hex_val c) ->
  line_sep (byte_of c) 128 168 = false /\ is_html (byte_of c) = false /\ after_byte In (byte_of c) = In.
Proof.
  intros [n Hn]. assert (Hr : 48 <= byte_of c <= 57 \/ 65 <= byte_of c <= 70 \/ 97 <= byte_of c <= 102).
  { unfold hex_val, in_range in Hn. repeat case_match; zbool; try done; lia. }
  unfold line_sep, is_html, after_byte.
  repeat match goal with |- context [byte_of c =? ?n] => rewrite (proj2 (Z.eqb_neq (byte_of c) n)) by lia end. done.
Qed.

Lemma compact_hex c s : is_Some (hex_val c) -> compact_at In (String c s) = String c (compact_at In s).
Proof. intros (H1 & H2 & H3)%hex_plain. rewrite compact_keep by done. by rewrite H3. Qed.

Lemma hex4_quote u X : fst <$> hex4 (u +:+ String quote X) = fst <$> hex4 u.
Proof.
  assert (Hq : hex_val quote = None) by done.
  destruct u as [|a [|b [|c [|d u]]]]; rewrite ?append_cons; cbn [String.append].
  1-4: destruct (hex4 _) as [[n r]|] eqn:E; [|done]; exfalso;
       destruct (hex4_inv _ _ _ E) as (c1 & c2 & c3 & c4 & Eu & HF);
       repeat (apply Forall_cons in HF as [[? ?] HF]); injection Eu; intros; subst; congruence.
  cbn [hex4]. repeat case_match; done.
Qed.

Lemma low_ahead_quote u X : low_ahead (u +:+ String quote X) = low_ahead u.
Proof.
  destruct u as [|b [|e u]]; [by destruct X| |].
  - rewrite !append_cons. unfold low_ahead. change ("" +:+ String quote X) with (String quote X). cbv beta iota.
    assert (E : (byte_of quote =? 117) = false) by done. by rewrite E, andb_false_r.
  - rewrite !append_cons. cbn [low_ahead]. destruct (_ && _); [|done]. pose proof (hex4_quote u X) as H.
    destruct (hex4 (u +:+ _)) as [[]|], (hex4 u) as [[]|]; cbn in H; by simplify_eq.
Qed.

Lemma escaped_rune_spec rr s :
  escaped_rune rr s =
    if negb (in_range 55296 57343 rr) then (rr, s)
    else match low_ahead s with
    | Some rr1 => if in_range 55296 56319 rr then ((rr - 55296) * 1024 + (rr1 - 56320) + 65536, drop_bytes 6 s) else (RuneError, s)
    | None => (RuneError, s)
    end.
Proof.
  unfold escaped_rune. destruct (negb _); [done|]. destruct s as [|b [|u s]]; [done..|]. cbn [low_ahead].
  destruct (_ && _); [|done]. destruct (hex4 s) as [[n r]|] eqn:E; [|done].
  destruct (hex4_inv _ _ _ E) as (c1 & c2 & c3 & c4 & -> & _). cbn [drop_bytes].
  destruct (in_range 56320 57343 n); [by rewrite andb_true_r|by rewrite andb_false_r].
Qed.

(** ** The grammar of string literals *)

(** [chars t v]: the text [t] between two quotes denotes [v].  An escaped
    surrogate looks ahead for its other half, and a lead byte for its
    continuation. *)
Inductive chars : string -> string -> Prop :=
  | chars_nil : chars "" ""
  | chars_plain c t v : 32 <= byte_of c < 128 -> byte_of c <> 34 -> byte_of c <> 92 ->
      chars t v -> chars (String c t) (String c v)
  | chars_simple e x t v : simple_escape (byte_of e) = Some x ->
      chars t v -> chars (String backslash (String e t)) (String (char x) v)
  | chars_unit h rr t v : hex4 h = Some (rr, "") -> in_range 55296 57343 rr = false ->
      chars t v -> chars ("\u" +:+ h +:+ t) (encode_rune rr +:+ v)
  | chars_pair h rr h1 rr1 t v : hex4 h = Some (rr, "") -> in_range 55296 56319 rr = true ->
      hex4 h1 = Some (rr1, "") -> in_range 56320 57343 rr1 = true -> chars t v ->
      chars ("\u" +:+ h +:+ "\u" +:+ h1 +:+ t) (encode_rune ((rr - 55296) * 1024 + (rr1 - 56320) + 65536) +:+ v)
  | chars_lone h rr t v : hex4 h = Some (rr, "") -> in_range 55296 57343 rr = true ->
      in_range 55296 56319 rr = false \/ low_ahead t = None -> chars t v ->
      chars ("\u" +:+ h +:+ t) (encode_rune RuneError +:+ v)
  | chars_multi c t r n v : 128 <= byte_of c -> decode_rune (String c t) = (r, n) ->
      chars (drop_bytes n (String c t)) v -> chars (String c t) (encode_rune r +:+ v).
#[export] Hint Constructors chars : conduit.

Lemma hex4_split s rr r : hex4 s = Some (rr, r) -> exists h, s = h +:+ r /\ hex4 h = Some (rr, "").
Proof.
  intros H. destruct (hex4_inv _ _ _ H) as (c1 & c2 & c3 & c4 & -> & _).
  exists (String c1 (String c2 (String c3 (String c4 "")))). split; [done|].
  cbn [hex4] in *. repeat case_match; by simplify_eq.
Qed.

Lemma hex4_app h rr s : hex4 h = Some (rr, "") -> hex4 (h +:+ s) = Some (rr, s).
Proof.
  intros H. destruct (hex4_inv _ _ _ H) as (c1 & c2 & c3 & c4 & -> & _). rewrite !append_cons.
  cbn [hex4] in *. repeat case_match; by simplify_eq.
Qed.

Lemma hex4_length h rr : hex4 h = Some (rr, "") -> String.length h = 4%nat.
Proof. intros H. by destruct (hex4_inv _ _ _ H) as (c1 & c2 & c3 & c4 & -> & _). Qed.

(** A decoded rune past ASCII is its lead byte and continuation bytes. *)
Lemma decode_split c t r n : 128 <= byte_of c -> decode_rune (String c t) = (r, n) ->
  exists k t1, t = k +:+ t1 /\ n = S (String.length k) /\ lead k = k.
Proof.
  intros Hc. unfold decode_rune. rewrite (proj2 (Z.ltb_ge (byte_of c) 128)) by done. intros H.
  assert (H1 : n = 1%nat -> exists k t1, t = k +:+ t1 /\ n = S (String.length k) /\ lead k = k)
    by (intros ->; by exists "", t).
  destruct t as [|c1 t]; [simplify_eq; by apply H1|].
  assert (Hs : forall b, negb (in_range 224 244 (byte_of c) && second_ok (byte_of c) b) = false -> is_cont b = true).
  { intros b Hb. apply negb_false_iff, andb_true_iff in Hb as [_ Hb]. by eapply second_cont. }
  repeat case_match; simplify_eq; try (by apply H1);
    repeat match goal with H : negb (is_cont _) = false |- _ => apply negb_false_iff in H end;
    try match goal with H : negb _ = false |- _ => apply Hs in H end;
    [exists (String c1 ""), t|eexists (String c1 (String _ "")), _|eexists (String c1 (String _ (String _ ""))), _];
    (split; [reflexivity|]); cbn [lead];
    repeat match goal with H : is_cont _ = true |- _ => rewrite H; clear H end; done.
Qed.

Lemma drop_bytes_app k t : drop_bytes (String.length k) (k +:+ t) = t.
Proof. by induction k as [|c k IH]; [destruct t|]. Qed.

Lemma escape_prefix s : "\u" +:+ s = String backslash (String (char 117) s).
Proof. reflexivity. Qed.

Lemma body_u f h rr s : hex4 h = Some (rr, "") ->
  string_body (S f) ("\u" +:+ h +:+ s) =
    match string_body f (escaped_rune rr s).2 with
    | Some (v, r) => Some (encode_rune (escaped_rune rr s).1 +:+ v, r)
    | None => None
    end.
Proof.
  intros Hh. rewrite escape_prefix. cbn [string_body].
  change (byte_of (char 117) =? 117) with true. cbv iota. rewrite (hex4_app _ _ _ Hh).
  by destruct (escaped_rune rr s).
Qed.

Lemma low_ahead_u h rr s : hex4 h = Some (rr, "") ->
  low_ahead ("\u" +:+ h +:+ s) = if in_range 56320 57343 rr then Some rr else None.
Proof.
  intros Hh. rewrite escape_prefix. unfold low_ahead. change (_ && _) with true. cbv iota.
  by rewrite (hex4_app _ _ _ Hh).
Qed.

(** A surrogate is a high or a low one. *)
Lemma surrogate_high rr : in_range 55296 56319 rr = true -> in_range 55296 57343 rr = true.
Proof. unfold in_range. intros H. zbool. apply andb_true_iff; split; apply Z.leb_le; lia. Qed.

(** The parser reads every literal of the grammar, wherever it stands. *)
Lemma chars_complete t v : chars t v -> forall f X, (String.length t < f)%nat ->
  string_body f (t +:+ String quote X) = Some (v, X).
Proof.
  induction 1 as [|c t v Hc Hq Hb Ht IH|e x t v He Ht IH|h rr t v Hh Hr Ht IH|h rr h1 rr1 t v Hh Hr Hh1 Hr1 Ht IH
    |h rr t v Hh Hr Hl Ht IH|c t r n v Hc Hd Ht IH]; intros f X Hf;
    (destruct f as [|f]; [lia|]); rewrite ?append_length in Hf; cbn [String.length] in Hf.
  - done.
  - rewrite append_cons. cbn [string_body]. rewrite IH by lia.
    rewrite (proj2 (Z.eqb_neq _ 34)), (proj2 (Z.eqb_neq _ 92)), (proj2 (Z.ltb_ge _ 32)), (proj2 (Z.ltb_lt _ 128)) by lia. done.
  - rewrite !append_cons. cbn [string_body]. rewrite IH by lia. rewrite He.
    destruct (byte_of e =? 117) eqn:Eu; [zbool; by rewrite Eu in He|done].
  - pose proof (hex4_length _ _ Hh). rewrite !string_app_assoc, (body_u _ _ _ _ Hh), escaped_rune_spec, Hr.
    cbn [negb fst snd]. by rewrite IH by lia.
  - pose proof (hex4_length _ _ Hh). pose proof (hex4_length _ _ Hh1).
    rewrite !string_app_assoc, (body_u _ _ _ _ Hh), escaped_rune_spec, (low_ahead_u _ _ _ Hh1), (surrogate_high _ Hr), Hr1, Hr.
    cbn [negb fst snd]. replace (drop_bytes 6 _) with (t +:+ String quote X).
    2: { destruct (hex4_inv _ _ _ Hh1) as (? & ? & ? & ? & -> & _). done. }
    change (String.length "\u") with 2%nat in Hf. by rewrite IH by lia.
  - pose proof (hex4_length _ _ Hh). rewrite !string_app_assoc, (body_u _ _ _ _ Hh), escaped_rune_spec, Hr, low_ahead_quote.
    replace (match low_ahead t with Some _ => _ | None => _ end) with (RuneError, t +:+ String quote X)
      by (destruct Hl as [Hl|Hl]; rewrite Hl; [by destruct (low_ahead t)|done]).
    cbn [negb fst snd]. by rewrite IH by lia.
  - rewrite append_cons. cbn [string_body].
    rewrite (proj2 (Z.eqb_neq _ 34)), (proj2 (Z.eqb_neq _ 92)), (proj2 (Z.ltb_ge _ 32)), (proj2 (Z.ltb_ge _ 128)) by lia.
    rewrite decode_lead, lead_quote, <- decode_lead, Hd by done.
    destruct (decode_split _ _ _ _ Hc Hd) as (k & t1 & -> & -> & _). cbn [drop_bytes] in *.
    rewrite string_app_assoc, drop_bytes_app in *. rewrite append_length in Hf. by rewrite IH by lia.
Qed.

(** What an escape and the text after it denote. *)
Lemma escaped_sound h rr s t v X : hex4 h = Some (rr, "") ->
  (escaped_rune rr s).2 = t +:+ String quote X -> chars t v ->
  exists t', s = t' +:+ String quote X /\ chars ("\u" +:+ h +:+ t') (encode_rune (escaped_rune rr s).1 +:+ v).
Proof.
  intros Hh. rewrite escaped_rune_spec. destruct (in_range 55296 57343 rr) eqn:Hr; cbn [negb].
  2: { cbn [fst snd]. intros -> Ht. exists t. split; [done|by eapply chars_unit]. }
  assert (Hlone : in_range 55296 56319 rr = false \/ low_ahead s = None -> s = t +:+ String quote X -> chars t v ->
    exists t', s = t' +:+ String quote X /\ chars ("\u" +:+ h +:+ t') (encode_rune RuneError +:+ v)).
  { intros Hl -> Ht. rewrite low_ahead_quote in Hl. exists t. split; [done|by eapply chars_lone]. }
  destruct (low_ahead s) as [rr1|] eqn:Hl; [|cbn [fst snd]; auto].
  destruct (in_range 55296 56319 rr) eqn:Hi; [|cbn [fst snd]; auto]. clear Hlone. cbn [fst snd].
  destruct s as [|b [|u s]]; [done..|]. cbn [low_ahead] in Hl.
  destruct (Ascii.eqb b backslash && (byte_of u =? 117)) eqn:Hbu; [|done]. apply andb_true_iff in Hbu as [Hb Hu].
  apply Ascii.eqb_eq in Hb as ->. apply Z.eqb_eq in Hu. assert (u = char 117) as -> by (by rewrite <- (char_byte_of u), Hu).
  destruct (hex4 s) as [[n s4]|] eqn:Hh1; [|done]. destruct (in_range 56320 57343 n) eqn:Hn; [|done]. simplify_eq.
  apply hex4_split in Hh1 as (h1 & -> & Hh1). intros Hd Ht.
  assert (drop_bytes 6 (String backslash (String (char 117) (h1 +:+ s4))) = s4) as Hdrop
    by (destruct (hex4_inv _ _ _ Hh1) as (? & ? & ? & ? & -> & _); done).
  rewrite Hdrop in Hd. subst s4. exists ("\u" +:+ h1 +:+ t). split; [by rewrite !string_app_assoc|by eapply chars_pair].
Qed.

(** And reads nothing else. *)
Lemma chars_sound f s v r : string_body f s = Some (v, r) -> exists t, s = t +:+ String quote r /\ chars t v.
Proof.
  revert s v r. induction f as [|f IH]; intros s v r H; [done|]. destruct s as [|c s]; [done|]. cbn [string_body] in H.
  destruct (Z.eqb_spec (byte_of c) 34) as [Hq|Hq].
  { simplify_eq. exists "". split; [|constructor]. by rewrite <- (char_byte_of c), Hq. }
  destruct (Z.eqb_spec (byte_of c) 92) as [Hb|Hb].
  - assert (c = backslash) as -> by (by rewrite <- (char_byte_of c), Hb).
    destruct s as [|e s]; [done|]. destruct (Z.eqb_spec (byte_of e) 117) as [Hu|Hu].
    + assert (e = char 117) as -> by (by rewrite <- (char_byte_of e), Hu).
      destruct (hex4 s) as [[rr s3]|] eqn:Hh; [|done]. apply hex4_split in Hh as (h & -> & Hh).
      pose proof (escaped_sound h rr s3) as Hs. destruct (escaped_rune rr s3) as [ru s4]. cbn [fst snd] in Hs.
      destruct (string_body f s4) as [[v' r']|] eqn:E; [|done]. simplify_eq. destruct (IH _ _ _ E) as (t & -> & Ht).
      destruct (Hs t v' r Hh eq_refl Ht) as (t' & -> & Ht'). exists ("\u" +:+ h +:+ t'). by rewrite !string_app_assoc.
    + destruct (simple_escape (byte_of e)) as [x|] eqn:He; [|done].
      destruct (string_body f s) as [[v' r']|] eqn:E; [|done]. simplify_eq.
      destruct (IH _ _ _ E) as (t & -> & Ht). exists (String backslash (String e t)). split; [done|by constructor].
  - destruct (byte_of c <? 32) eqn:H32; [done|]. destruct (byte_of c <? 128) eqn:H128; zbool.
    + destruct (string_body f s) as [[v' r']|] eqn:E; [|done]. simplify_eq.
      destruct (IH _ _ _ E) as (t & -> & Ht). exists (String c t). split; [done|by constructor].
    + destruct (decode_rune (String c s)) as [ru n] eqn:Hd. destruct (decode_split _ _ _ _ H128 Hd) as (k & s1 & -> & -> & Hk).
      cbn [drop_bytes] in H. rewrite drop_bytes_app in H.
      destruct (string_body f s1) as [[v' r']|] eqn:E; [|done]. simplify_eq.
      destruct (IH _ _ _ E) as (t & -> & Ht). exists (String c (k +:+ t)). rewrite append_cons, string_app_assoc. split; [done|].
      apply (chars_multi c (k +:+ t) ru (S (String.length k))); [done| |cbn [drop_bytes]; by rewrite drop_bytes_app].
      rewrite <- string_app_assoc, decode_lead, lead_quote, <- decode_lead in Hd by done. done.
Qed.

(** ** Compaction of literals *)

Lemma compact_sep c c1 c2 s : line_sep (byte_of c) (byte_of c1) (byte_of c2) = true ->
  compact_at In (String c (String c1 (String c2 s))) = escape_u (8192 + (byte_of c2 - 128)) +:+ compact_at In s.
Proof.
  intros H. cbn [compact_at]. rewrite H. f_equal. unfold line_sep in H. zbool. by replace (byte_of c) with 226.
Qed.

Lemma compact_high c s : 128 <= byte_of c ->
  (forall c1 c2 s3, s = String c1 (String c2 s3) -> line_sep (byte_of c) (byte_of c1) (byte_of c2) = false) ->
  compact_at In (String c s) = String c (compact_at In s).
Proof.
  intros Hc Hn. assert (Hh : is_html (byte_of c) = false /\ after_byte In (byte_of c) = In).
  { unfold is_html, after_byte.
    repeat match goal with |- context [byte_of c =? ?n] => rewrite (proj2 (Z.eqb_neq (byte_of c) n)) by lia end. done. }
  destruct Hh as [Hh Ha]. cbn [compact_at]. rewrite Hh, Ha. destruct s as [|c1 [|c2 s3]]; [done..|]. by rewrite (Hn _ _ _ eq_refl).
Qed.

Lemma compact_html c s : is_html (byte_of c) = true -> compact_at In (String c s) = escape_u (byte_of c) +:+ compact_at In s.
Proof.
  intros Hh. assert (Hc : byte_of c = 60 \/ byte_of c = 62 \/ byte_of c = 38) by (unfold is_html in Hh; zbool; lia).
  assert (Hn : forall b1 b2, line_sep (byte_of c) b1 b2 = false) by (by destruct Hc as [-> |[-> | ->]]).
  assert (Ha : after_byte In (byte_of c) = In) by (by destruct Hc as [-> |[-> | ->]]).
  cbn [compact_at]. rewrite Hh, Ha. destruct s as [|c1 [|c2 s3]]; [done..|]. by rewrite Hn.
Qed.

Lemma compact_conts k s : lead k = k -> compact_at In (k +:+ s) = k +:+ compact_at In s.
Proof.
  induction k as [|c k IH]; [done|]. cbn [lead]. destruct (is_cont (byte_of c)) eqn:Hc; [|done].
  intros [= Hk]. rewrite append_cons, compact_cont, IH by done. done.
Qed.

Lemma compact_hex4 h rr s : hex4 h = Some (rr, "") -> compact_at In (h +:+ s) = h +:+ compact_at In s.
Proof.
  intros H. destruct (hex4_inv _ _ _ H) as (c1 & c2 & c3 & c4 & -> & HF).
  repeat (apply Forall_cons in HF as [? HF]). rewrite !append_cons, !compact_hex by done. done.
Qed.

Lemma compact_u h rr s : hex4 h = Some (rr, "") -> compact_at In ("\u" +:+ h +:+ s) = "\u" +:+ h +:+ compact_at In s.
Proof.
  intros H. rewrite !escape_prefix. rewrite compact_keep by done. change (after_byte In (byte_of backslash)) with Esc.
  rewrite compact_keep by done. cbn [after_byte]. by rewrite (compact_hex4 _ _ _ H).
Qed.

Lemma compact_simple e x s : simple_escape (byte_of e) = Some x ->
  compact_at In (String backslash (String e s)) = String backslash (String e (compact_at In s)).
Proof.
  intros H. rewrite compact_keep by done. change (after_byte In (byte_of backslash)) with Esc.
  assert (Hb : line_sep (byte_of e) 128 168 = false /\ is_html (byte_of e) = false).
  { unfold simple_escape in H. unfold line_sep, is_html. split.
    - destruct (Z.eqb_spec (byte_of e) 226) as [E|]; [by rewrite E in H|done].
    - destruct (Z.eqb_spec (byte_of e) 60) as [E|]; [by rewrite E in H|].
      destruct (Z.eqb_spec (byte_of e) 62) as [E|]; [by rewrite E in H|].
      destruct (Z.eqb_spec (byte_of e) 38) as [E|]; [by rewrite E in H|done]. }
  destruct Hb. by rewrite compact_keep.
Qed.

(** What [escape_u] writes for the runes the compactor escapes. *)
Lemma escape_u_written r : (r = 60 \/ r = 62 \/ r = 38 \/ r = 8232 \/ r = 8233) ->
  exists h, escape_u r = "\u" +:+ h /\ hex4 h = Some (r, "").
Proof. intros [-> |[-> |[-> |[-> | ->]]]]; eexists; (split; [reflexivity|reflexivity]). Qed.

(** The text [t'] is what the compactor makes of [t] inside a string; a client
    of the first bytes of either sees the same. *)
Definition squeezed (t t' : string) : Prop :=
  (forall X, compact_at In (t +:+ String quote X) = t' +:+ String quote (compact_at Out X)) /\
  lead t' = lead t /\ low_ahead t' = low_ahead t.

Lemma squeezed_u h rr t t' : hex4 h = Some (rr, "") -> squeezed t t' -> squeezed ("\u" +:+ h +:+ t) ("\u" +:+ h +:+ t').
Proof.
  intros Hh (Hs & _ & _). split; [|split; [done|by rewrite !(low_ahead_u _ _ _ Hh)]].
  intros X. by rewrite !string_app_assoc, (compact_u _ _ _ Hh), Hs.
Qed.

Lemma low_ahead_other c s : byte_of c <> 92 -> low_ahead (String c s) = None.
Proof.
  intros Hc. destruct s; [done|]. cbn [low_ahead]. destruct (Ascii.eqb_spec c backslash) as [->|]; [done|done].
Qed.

Lemma squeezed_sep c c1 c2 t t' : line_sep (byte_of c) (byte_of c1) (byte_of c2) = true ->
  squeezed t t' -> squeezed (String c (String c1 (String c2 t))) (escape_u (8192 + (byte_of c2 - 128)) +:+ t').
Proof.
  intros Hl (Hs & _ & _). assert (Hc : byte_of c = 226 /\ (byte_of c2 = 168 \/ byte_of c2 = 169)) by (unfold line_sep in Hl; zbool; lia).
  destruct Hc as [Hc Hc2]. split; [|split].
  - intros X. by rewrite !append_cons, compact_sep, Hs, string_app_assoc.
  - cbn [lead]. rewrite Hc. by destruct Hc2 as [-> | ->].
  - rewrite low_ahead_other by (by rewrite Hc). by destruct Hc2 as [-> | ->].
Qed.

Lemma lead_app k u : lead k = k -> lead (k +:+ u) = k +:+ lead u.
Proof.
  intros Hk. induction k as [|a k IH]; [done|]. rewrite append_cons. cbn [lead] in *.
  destruct (is_cont (byte_of a)); [|done]. injection Hk as Hk. by rewrite IH.
Qed.

Lemma squeezed_high c k t t' : 128 <= byte_of c -> lead k = k ->
  (forall c1 c2 s3, k +:+ t = String c1 (String c2 s3) -> line_sep (byte_of c) (byte_of c1) (byte_of c2) = false) ->
  squeezed t t' -> squeezed (String c (k +:+ t)) (String c (k +:+ t')).
Proof.
  intros Hc Hk Hn (Hs & Hl & _).
  split; [|split].
  - intros X. rewrite !append_cons, !string_app_assoc, compact_high, compact_conts, Hs; [done..|].
    intros c1 c2 s3 E. destruct (line_sep _ _ _) eqn:El; [|done].
    rewrite <- string_app_assoc in E. destruct (k +:+ t) as [|a [|b u]] eqn:Eu; rewrite ?append_cons in E.
    + injection E as <- _. unfold line_sep in El. by rewrite andb_false_r in El.
    + injection E as <- <- _. unfold line_sep in El. by rewrite andb_false_r in El.
    + injection E as <- <- _. by rewrite (Hn _ _ _ eq_refl) in El.
  - cbn [lead]. by rewrite !lead_app, Hl.
  - by rewrite !low_ahead_other by lia.
Qed.

(** U+2028 and U+2029 are escaped, every other rune past ASCII is copied. *)
Lemma chars_compact_multi c t r n v : 128 <= byte_of c -> decode_rune (String c t) = (r, n) ->
  (exists t', chars t' v /\ squeezed (drop_bytes n (String c t)) t') ->
  exists t', chars t' (encode_rune r +:+ v) /\ squeezed (String c t) t'.
Proof.
  intros Hc Hd (t1' & Ht' & Hs). destruct (decode_split _ _ _ _ Hc Hd) as (k & t1 & -> & -> & Hk).
  cbn [drop_bytes] in Hs. rewrite drop_bytes_app in Hs.
  assert (Hsep : (exists c1 c2 s3, k +:+ t1 = String c1 (String c2 s3) /\ line_sep (byte_of c) (byte_of c1) (byte_of c2) = true) \/
    (forall c1 c2 s3, k +:+ t1 = String c1 (String c2 s3) -> line_sep (byte_of c) (byte_of c1) (byte_of c2) = false)).
  { destruct (k +:+ t1) as [|c1 [|c2 s3]]; [by right..|]. destruct (line_sep (byte_of c) (byte_of c1) (byte_of c2)) eqn:El.
    - left. by exists c1, c2, s3.
    - right. by intros ? ? ? [= <- <- <-]. }
  destruct Hsep as [(c1 & c2 & s3 & E & El)|Hn].
  - assert (Hb : byte_of c = 226 /\ byte_of c1 = 128 /\ (byte_of c2 = 168 \/ byte_of c2 = 169)) by (unfold line_sep in El; zbool; lia).
    destruct Hb as (Hb & Hb1 & Hb2). rewrite E in *.
    assert (Hr : r = 8192 + (byte_of c2 - 128) /\ String.length k = 2%nat).
    { unfold decode_rune in Hd. rewrite Hb, Hb1 in Hd. destruct Hb2 as [Hb2|Hb2]; rewrite Hb2 in *; by simplify_eq/=. }
    destruct Hr as [-> Hlen]. destruct k as [|a [|b [|? ?]]]; [done..| |done]. rewrite !append_cons in E. injection E as -> -> <-.
    exists (escape_u (8192 + (byte_of c2 - 128)) +:+ t1'). split; [|by apply squeezed_sep].
    destruct (escape_u_written (8192 + (byte_of c2 - 128))) as (h & -> & Hh); [destruct Hb2; lia|].
    rewrite string_app_assoc. eapply chars_unit; [done| |done]. by destruct Hb2 as [-> | ->].
  - exists (String c (k +:+ t1')). split; [|by apply squeezed_high].
    apply (chars_multi _ _ _ (S (String.length k))); [done| |cbn [drop_bytes]; by rewrite drop_bytes_app].
    destruct Hs as (_ & Hl & _). rewrite decode_lead, lead_app, Hl, <- lead_app, <- decode_lead by done. done.
Qed.

(** Compaction changes no literal's value. *)
Lemma chars_compact t v : chars t v -> exists t', chars t' v /\ squeezed t t'.
Proof.
  induction 1 as [|c t v Hc Hq Hb Ht IH|e x t v He Ht IH|h rr t v Hh Hr Ht IH|h rr h1 rr1 t v Hh Hr Hh1 Hr1 Ht IH
    |h rr t v Hh Hr Hl Ht IH|c t r n v Hc Hd Ht IH].
  - exists "". split; [constructor|]. split; [|done]. intros X. change ("" +:+ ?s) with s. by rewrite compact_keep.
  - destruct IH as (t' & Ht' & Hs & _ & _).
    assert (Hnl : lead (String c t) = "") by (cbn [lead]; unfold is_cont, in_range; by rewrite (proj2 (Z.leb_gt _ _)) by lia).
    destruct (is_html (byte_of c)) eqn:Hh.
    + assert (Hcc : byte_of c = 60 \/ byte_of c = 62 \/ byte_of c = 38) by (unfold is_html in Hh; zbool; lia).
      destruct (escape_u_written (byte_of c)) as (h & Eh & Hh4); [tauto|]. exists ("\u" +:+ h +:+ t'). split.
      { replace (String c v) with (encode_rune (byte_of c) +:+ v); [|by rewrite <- (char_byte_of c); destruct Hcc as [-> |[-> | ->]]].
        eapply chars_unit; [done|by destruct Hcc as [-> |[-> | ->]]|done]. }
      split; [|split; [by rewrite Hnl|]].
      * intros X. rewrite append_cons, compact_html, Hs, Eh by done. by rewrite !string_app_assoc.
      * rewrite low_ahead_other by done. rewrite (low_ahead_u _ _ _ Hh4). by destruct Hcc as [-> |[-> | ->]].
    + exists (String c t'). split; [by constructor|]. split; [|split].
      * intros X. rewrite append_cons, compact_keep; [|unfold line_sep; by rewrite (proj2 (Z.eqb_neq _ 226)) by lia|done..].
        unfold after_byte. rewrite (proj2 (Z.eqb_neq _ 34)), (proj2 (Z.eqb_neq _ 92)), Hs by done. done.
      * rewrite Hnl. cbn [lead] in *. by destruct (is_cont _).
      * by rewrite !low_ahead_other.
  - destruct IH as (t' & Ht' & Hs & _ & _). exists (String backslash (String e t')). split; [by constructor|]. split; [|split; [done|]].
    + intros X. by rewrite !append_cons, (compact_simple _ _ _ He), Hs.
    + cbn [low_ahead]. destruct (Z.eqb_spec (byte_of e) 117) as [E|]; [by rewrite E in He|]. by rewrite andb_false_r.
  - destruct IH as (t' & Ht' & Hs). exists ("\u" +:+ h +:+ t'). split; [by eapply chars_unit|by eapply squeezed_u].
  - destruct IH as (t' & Ht' & Hs). exists ("\u" +:+ h +:+ "\u" +:+ h1 +:+ t'). split; [by eapply chars_pair|by do 2 (eapply squeezed_u; [done|])].
  - destruct IH as (t' & Ht' & Hs). exists ("\u" +:+ h +:+ t'). split; [|by eapply squeezed_u].
    eapply chars_lone; [done..| |done]. destruct Hs as (_ & _ & ->). done.
  - by eapply chars_compact_multi.
Qed.
