(* ===== verification/JsonGrammar.v ===== *)
(** * The grammar of JSON, and that the parser implements it

    The texts that denote a value, as an inductive relation without fuel, rest
    or white-space skipping: an abstract specification of the parser of
    GoJson.v.  The parser accepts exactly these texts with exactly these
    values ([json_parse_grammar]), and the compactor maps a text to one of the
    same value ([json_parse_compact]). *)

From S2P Require Import Prelude GoStrings GoText Retry GoDuration GoJson JsonText.

(** ** White space and what may follow a value *)

Definition blank (w : string) : Prop := skip_ws w = "".

Definition first_is (P : ascii -> Prop) (s : string) : Prop := match s with EmptyString => True | String c _ => P c end.

(** White space, a comma, a closing bracket or brace. *)
Definition stop_byte (b : Z) : bool := is_ws b || (b =? 44) || (b =? 93) || (b =? 125).
Definition stops (s : string) : Prop := first_is (fun c => stop_byte (byte_of c) = true) s.

Lemma skip_ws_cons c s : skip_ws (String c s) = if is_ws (byte_of c) then skip_ws s else String c s.
Proof. reflexivity. Qed.

Lemma skip_ws_blank w s : blank w -> skip_ws (w +:+ s) = skip_ws s.
Proof.
  unfold blank. induction w as [|c w IH]; [done|]. rewrite append_cons, !skip_ws_cons.
  destruct (is_ws (byte_of c)); [exact IH|done].
Qed.

Lemma skip_ws_split s : exists w, s = w +:+ skip_ws s /\ blank w.
Proof.
  induction s as [|c s IH]; [by exists ""|]. rewrite skip_ws_cons. destruct (is_ws (byte_of c)) eqn:Hc; [|by exists ""].
  destruct IH as (w & Hs & Hw). exists (String c w). rewrite append_cons, <- Hs. split; [done|].
  unfold blank. by rewrite skip_ws_cons, Hc.
Qed.

Lemma compact_blank w s : blank w -> compact_at Out (w +:+ s) = compact_at Out s.
Proof. intros Hw. by rewrite compact_skip, skip_ws_blank, <- compact_skip. Qed.

Lemma blank_app w1 w2 : blank w1 -> blank w2 -> blank (w1 +:+ w2).
Proof. intros H1 H2. unfold blank. by rewrite skip_ws_blank. Qed.

Lemma blank_stops w c s : blank w -> stop_byte (byte_of c) = true -> stops (w +:+ String c s).
Proof.
  destruct w as [|a w]; [done|]. unfold blank. rewrite skip_ws_cons. destruct (is_ws (byte_of a)) eqn:Ha; [|done].
  intros _ _. rewrite append_cons. cbn. unfold stop_byte. by rewrite Ha.
Qed.

(** ** Numbers *)

Definition no_digit (s : string) : Prop := first_is (fun c => digit_val c = None) s.

(** Copied by the compactor. *)
Definition copied (t : string) : Prop := forall X, compact_at Out (t +:+ X) = t +:+ compact_at Out X.

Definition copied_byte (b : Z) : bool := negb (is_ws b || is_html b || (b =? 34) || (b =? 226)).

Lemma copied_cons c t : copied_byte (byte_of c) = true -> copied t -> copied (String c t).
Proof.
  intros Hc Ht X. unfold copied_byte in Hc.
  apply negb_true_iff, orb_false_iff in Hc as [[[Hw Hh]%orb_false_iff Hq]%orb_false_iff Hl].
  rewrite !append_cons, compact_keep; [|unfold line_sep; by rewrite Hl|done..]. cbn [after_byte]. by rewrite Hq, Ht.
Qed.

Lemma copied_app t1 t2 : copied t1 -> copied t2 -> copied (t1 +:+ t2).
Proof. intros H1 H2 X. by rewrite !string_app_assoc, H1, H2. Qed.

Lemma digit_byte c n : digit_val c = Some n -> 48 <= byte_of c <= 57.
Proof. unfold digit_val, byte_of. intros H. repeat case_match; simplify_eq; zbool; lia. Qed.

Lemma digit_copied c n : digit_val c = Some n -> copied_byte (byte_of c) = true.
Proof.
  intros H%digit_byte. unfold copied_byte, is_ws, is_html.
  repeat match goal with |- context [byte_of c =? ?n] => rewrite (proj2 (Z.eqb_neq (byte_of c) n)) by lia end. done.
Qed.

Lemma skip_digits_local s : exists t, s = t +:+ skip_digits s /\ copied t /\
  forall X, no_digit X -> skip_digits (t +:+ X) = X.
Proof.
  assert (Hstop : forall X, no_digit X -> skip_digits ("" +:+ X) = X).
  { intros [|c X]; [done|]. cbn [no_digit first_is]. intros HX. change ("" +:+ ?s) with s. cbn [skip_digits]. by rewrite HX. }
  induction s as [|c s IH]; [by exists ""|]. cbn [skip_digits]. destruct (digit_val c) as [n|] eqn:Hc; [|by exists ""].
  destruct IH as (t & Hs & Ht & HX). exists (String c t). rewrite append_cons, <- Hs. split; [done|].
  split; [apply copied_cons; [by eapply digit_copied|done]|]. intros X HnX. rewrite append_cons. cbn [skip_digits]. rewrite Hc. auto.
Qed.

Lemma digits1_local s r : digits1 s = Some r -> exists c t n, s = String c t +:+ r /\ digit_val c = Some n /\ copied (String c t) /\
  forall X, no_digit X -> digits1 (String c t +:+ X) = Some X.
Proof.
  destruct s as [|c s]; [done|]. cbn [digits1]. destruct (digit_val c) as [n|] eqn:Hc; [|done]. intros [= <-].
  destruct (skip_digits_local s) as (t & Hs & Ht & HX). exists c, t, n. rewrite append_cons, <- Hs.
  split; [done|]. split; [done|]. split; [apply copied_cons; [by eapply digit_copied|done]|].
  intros X HnX. rewrite append_cons. cbn [digits1]. rewrite Hc. by rewrite HX.
Qed.

Lemma number_int_local s r : number_int s = Some r -> exists c t n, s = String c t +:+ r /\ digit_val c = Some n /\ copied (String c t) /\
  forall X, no_digit X -> number_int (String c t +:+ X) = Some X.
Proof.
  destruct s as [|c s]; [done|]. cbn [number_int]. destruct (Z.eqb_spec (byte_of c) 48) as [H0|H0].
  - intros [= <-]. assert (c = char 48) as -> by (by rewrite <- (char_byte_of c), H0).
    exists (char 48), "", 0. split; [done|]. split; [done|]. split; [by apply copied_cons|done].
  - intros H. apply digits1_local in H as (c' & t & n & E & Hn & Ht & HX). rewrite append_cons in E. injection E as -> ->.
    exists c', t, n. split; [done|]. split; [done|]. split; [done|]. intros X HnX. rewrite <- HX by done.
    rewrite append_cons. cbn [number_int]. by rewrite (proj2 (Z.eqb_neq _ _) H0).
Qed.

Lemma number_frac_local s r : number_frac s = Some r -> exists t, s = t +:+ r /\ copied t /\
  (t = "" \/ exists t', t = String dot t') /\
  forall X, no_digit X -> first_is (fun c => c <> dot) X -> number_frac (t +:+ X) = Some X.
Proof.
  assert (H0 : Some s = Some r -> exists t, s = t +:+ r /\ copied t /\ (t = "" \/ exists t', t = String dot t') /\
    forall X, no_digit X -> first_is (fun c => c <> dot) X -> number_frac (t +:+ X) = Some X).
  { intros [= ->]. exists "". split; [done|]. split; [done|]. split; [by left|].
    intros [|c X] _ Hd; [done|]. change ("" +:+ ?s) with s. cbn [number_frac]. by rewrite (proj2 (Ascii.eqb_neq _ _) Hd). }
  destruct s as [|c s]; [done|]. cbn [number_frac]. destruct (Ascii.eqb_spec c dot) as [->|]; [|done]. clear H0.
  intros H. apply digits1_local in H as (c & t & n & -> & _ & Ht & HX). exists (String dot (String c t)).
  split; [done|]. split; [by apply copied_cons|]. split; [right; by eexists|]. intros X HnX _. by apply HX.
Qed.

Definition no_exp (c : ascii) : Prop := byte_of c <> 101 /\ byte_of c <> 69.

Lemma number_exp_local s r : number_exp s = Some r -> exists t, s = t +:+ r /\ copied t /\
  (t = "" \/ exists c t', t = String c t' /\ (byte_of c = 101 \/ byte_of c = 69)) /\
  forall X, no_digit X -> first_is no_exp X -> number_exp (t +:+ X) = Some X.
Proof.
  destruct s as [|c s]; [|cbn [number_exp]; destruct ((byte_of c =? 101) || (byte_of c =? 69)) eqn:He].
  2: { assert (Hc : byte_of c = 101 \/ byte_of c = 69) by (zbool; lia).
       assert (Hcc : copied_byte (byte_of c) = true) by (by destruct Hc as [-> | ->]).
       destruct s as [|c1 s]; [done|]. destruct (Ascii.eqb c1 minus || Ascii.eqb c1 plus) eqn:Hs; intros H;
         apply digits1_local in H as (c2 & t & n & E & Hn & Ht & HX).
       - exists (String c (String c1 (String c2 t))). rewrite !append_cons, <- append_cons, <- E. split; [done|].
         assert (Hc1 : copied_byte (byte_of c1) = true) by (apply orb_true_iff in Hs as [->%Ascii.eqb_eq| ->%Ascii.eqb_eq]; done).
         split; [by do 2 (apply copied_cons; [done|])|]. split; [right; eauto|].
         intros X HnX _. rewrite !append_cons. cbn [number_exp]. rewrite He, Hs. by apply HX.
       - rewrite append_cons in E. injection E as -> ->. exists (String c (String c2 t)). split; [done|].
         split; [by apply copied_cons|]. split; [right; eauto|].
         intros X HnX _. rewrite !append_cons. cbn [number_exp]. rewrite He, Hs. by apply HX. }
  all: intros [= <-]; exists ""; split; [done|]; split; [done|]; split; [by left|].
  all: intros [|c' X] _ Hd; [done|]; change ("" +:+ ?s) with s; cbn [number_exp]; destruct Hd as [H1 H2];
    by rewrite (proj2 (Z.eqb_neq _ _) H1), (proj2 (Z.eqb_neq _ _) H2).
Qed.

(** What may follow a number follows each of its parts. *)
Lemma stops_number X : stops X -> no_digit X /\ first_is (fun c => c <> dot) X /\ first_is no_exp X.
Proof.
  destruct X as [|c X]; [done|]. cbn. intros H.
  assert (Hc : List.In (byte_of c) [32; 9; 10; 13; 44; 93; 125]) by (unfold stop_byte, is_ws in H; cbn; zbool; lia).
  rewrite <- (char_byte_of c). repeat (destruct Hc as [<-|Hc]; [by repeat split|]). done.
Qed.

Lemma number_unsigned_local s r :
  match number_int s with None => None | Some s => match number_frac s with None => None | Some s => number_exp s end end = Some r ->
  exists c t n, s = String c t +:+ r /\ digit_val c = Some n /\ copied (String c t) /\
    forall X, stops X ->
      match number_int (String c t +:+ X) with
      | None => None | Some s => match number_frac s with None => None | Some s => number_exp s end
      end = Some X.
Proof.
  destruct (number_int s) as [s1|] eqn:E1; [|done]. destruct (number_frac s1) as [s2|] eqn:E2; [|done]. intros E3.
  apply number_int_local in E1 as (c & t1 & n & -> & Hn & C1 & H1).
  apply number_frac_local in E2 as (t2 & -> & C2 & F2 & H2). apply number_exp_local in E3 as (t3 & -> & C3 & F3 & H3).
  exists c, (t1 +:+ t2 +:+ t3), n. rewrite !append_cons, !string_app_assoc. split; [done|]. split; [done|].
  split; [rewrite <- append_cons; by repeat apply copied_app|]. intros X (HX1 & HX2 & HX3)%stops_number.
  assert (Hd3 : no_digit (t3 +:+ X) /\ first_is (fun c => c <> dot) (t3 +:+ X)).
  { destruct F3 as [-> |(a & t' & -> & Ha)]; [done|]. rewrite append_cons. cbn. rewrite <- (char_byte_of a).
    by destruct Ha as [-> | ->]. }
  assert (Hd2 : no_digit (t2 +:+ t3 +:+ X)) by (destruct F2 as [-> |(t' & ->)]; [apply Hd3|done]).
  replace (String c (t1 +:+ t2 +:+ t3) +:+ X) with (String c t1 +:+ t2 +:+ t3 +:+ X) by (by rewrite !append_cons, !string_app_assoc).
  rewrite H1, H2, H3; [done|done..|apply Hd3|apply Hd3|done].
Qed.

Definition number_start (c : ascii) : Prop := c = minus \/ exists n, digit_val c = Some n.

Lemma skip_number_local s r : skip_number s = Some r -> exists c t, s = String c t +:+ r /\ number_start c /\ copied (String c t) /\
  forall X, stops X -> skip_number (String c t +:+ X) = Some X.
Proof.
  unfold skip_number. destruct s as [|c s]; [done|]. destruct (Ascii.eqb_spec c minus) as [->|Hm]; intros H;
    apply number_unsigned_local in H as (c' & t & n & E & Hn & Ht & HX).
  - exists minus, (String c' t). rewrite append_cons, E. split; [done|]. split; [by left|]. split; [by apply copied_cons|].
    intros X HsX. rewrite append_cons. change (Ascii.eqb minus minus) with true. cbv iota. auto.
  - rewrite append_cons in E. injection E as -> ->. exists c', t. split; [done|]. split; [right; eauto|]. split; [done|].
    intros X HsX. rewrite append_cons, (proj2 (Ascii.eqb_neq _ _) Hm), <- append_cons. auto.
Qed.

(** ** The grammar *)

Definition number (t : string) : Prop := skip_number t = Some "".

Definition quoted (t : string) : string := String quote (t +:+ String quote "").

(** [val d t v]: the text [t] denotes [v] inside [d] open arrays and objects;
    [elems] and [members] are the texts between the brackets. *)
Inductive val : Z -> string -> json -> Prop :=
  | val_string d t v : chars t v -> val d (quoted t) (JString v)
  | val_number d t : number t -> val d t (JNumber t)
  | val_true d : val d "true" (JBool true)
  | val_false d : val d "false" (JBool false)
  | val_null d : val d "null" JNull
  | val_object_nil d w : d < maxNestingDepth -> blank w -> val d ("{" +:+ w +:+ "}") (JObject [])
  | val_object d t m : d < maxNestingDepth -> members (d + 1) t m -> val d ("{" +:+ t +:+ "}") (JObject m)
  | val_array_nil d w : d < maxNestingDepth -> blank w -> val d ("[" +:+ w +:+ "]") (JArray [])
  | val_array d t l : d < maxNestingDepth -> elems (d + 1) t l -> val d ("[" +:+ t +:+ "]") (JArray l)
with elems : Z -> string -> list json -> Prop :=
  | elems_one d w1 t w2 v : blank w1 -> val d t v -> blank w2 -> elems d (w1 +:+ t +:+ w2) [v]
  | elems_more d w1 t w2 v u l : blank w1 -> val d t v -> blank w2 -> elems d u l ->
      elems d (w1 +:+ t +:+ w2 +:+ "," +:+ u) (v :: l)
with members : Z -> string -> list (string * json) -> Prop :=
  | members_one d w1 k key w2 w3 t w4 v : blank w1 -> chars k key -> blank w2 -> blank w3 -> val d t v -> blank w4 ->
      members d (w1 +:+ quoted k +:+ w2 +:+ ":" +:+ w3 +:+ t +:+ w4) [(key, v)]
  | members_more d w1 k key w2 w3 t w4 v u m : blank w1 -> chars k key -> blank w2 -> blank w3 -> val d t v -> blank w4 ->
      members d u m ->
      members d (w1 +:+ quoted k +:+ w2 +:+ ":" +:+ w3 +:+ t +:+ w4 +:+ "," +:+ u) ((key, v) :: m).

Scheme val_mut := Minimality for val Sort Prop
  with elems_mut := Minimality for elems Sort Prop
  with members_mut := Minimality for members Sort Prop.
Combined Scheme grammar_ind from val_mut, elems_mut, members_mut.

(** A document: one value between white space, [d] levels deep. *)
Definition document (d : Z) (s : string) (v : json) : Prop :=
  exists w1 t w2, s = w1 +:+ t +:+ w2 /\ blank w1 /\ blank w2 /\ val d t v.

(** ** The parser accepts the grammar *)

Lemma parse_ws f d w s : blank w -> parse_value f d (w +:+ s) = parse_value f d s.
Proof. intros Hw. destruct f as [|f]; [done|]. cbn [parse_value]. by rewrite skip_ws_blank. Qed.

Lemma number_first t : number t -> exists c t', t = String c t' /\ number_start c.
Proof.
  intros H. apply skip_number_local in H as (c & t' & -> & Hc & _ & _). exists c, t'. by rewrite string_app_nil.
Qed.

Lemma number_start_byte c : number_start c -> byte_of c = 45 \/ 48 <= byte_of c <= 57.
Proof. intros [-> |(n & H)]; [by left|right; by eapply digit_byte]. Qed.

Lemma val_first d t v : val d t v ->
  exists c t', t = String c t' /\ is_ws (byte_of c) = false /\ byte_of c <> 93.
Proof.
  intros H. destruct H as [d t v H|d t H| | | | | | |]; try (by do 2 eexists).
  apply number_first in H as (c & t' & -> & Hc%number_start_byte). exists c, t'. split; [done|]. split; [|lia].
  unfold is_ws. repeat match goal with |- context [byte_of c =? ?n] => rewrite (proj2 (Z.eqb_neq (byte_of c) n)) by lia end. done.
Qed.

Lemma quoted_app t X : quoted t +:+ X = String quote (t +:+ String quote X).
Proof. unfold quoted. by rewrite append_cons, string_app_assoc. Qed.

Lemma before_app t X : before (t +:+ X) X = t.
Proof.
  unfold before. rewrite append_length. replace (String.length t + String.length X - String.length X)%nat with (String.length t) by lia.
  induction t as [|c t IH]; [by destruct X|]. rewrite append_cons. cbn. by rewrite IH.
Qed.

Lemma chars_body t v X : chars t v ->
  string_body (String.length (t +:+ String quote X)) (t +:+ String quote X) = Some (v, X).
Proof. intros H. apply chars_complete; [done|]. rewrite append_length. cbn. lia. Qed.

Lemma parse_string f d t v X : chars t v -> parse_value (S f) d (quoted t +:+ X) = Some (JString v, X).
Proof.
  intros H. rewrite quoted_app. cbn [parse_value]. rewrite skip_ws_cons. change (is_ws (byte_of quote)) with false. cbv iota.
  change (byte_of quote =? 34) with true. cbv iota. by rewrite (chars_body _ _ _ H).
Qed.

Lemma parse_number f d t X : number t -> stops X -> parse_value (S f) d (t +:+ X) = Some (JNumber t, X).
Proof.
  intros H HX. destruct (number_first _ H) as (c & t' & -> & Hc%number_start_byte).
  apply skip_number_local in H as (c' & t'' & E & _ & _ & Hs). rewrite string_app_nil in E. injection E as <- <-.
  specialize (Hs X HX). pose proof (before_app (String c t') X) as Hb. rewrite append_cons in *.
  cbn [parse_value]. rewrite skip_ws_cons. replace (is_ws (byte_of c)) with false.
  2: { unfold is_ws. by repeat match goal with |- context [byte_of c =? ?n] => rewrite (proj2 (Z.eqb_neq (byte_of c) n)) by lia end. }
  repeat match goal with |- context [byte_of c =? ?n] => rewrite (proj2 (Z.eqb_neq (byte_of c) n)) by lia end.
  by rewrite Hs, Hb.
Qed.

Lemma parse_object f d s : d < maxNestingDepth ->
  parse_value (S f) d ("{" +:+ s) =
    match skip_ws s with
    | String c2 s2 =>
        if byte_of c2 =? 125 then Some (JObject [], s2)
        else match parse_members f (d + 1) s with Some (m, r) => Some (JObject m, r) | None => None end
    | EmptyString => None
    end.
Proof.
  intros Hd. change ("{" +:+ s) with (String (ascii_of_N 123) s). cbn [parse_value]. rewrite skip_ws_cons.
  change (is_ws (byte_of (ascii_of_N 123))) with false. cbv iota. change (byte_of (ascii_of_N 123)) with 123.
  cbv iota. by rewrite (proj2 (Z.leb_gt _ _)).
Qed.

Lemma parse_array f d s : d < maxNestingDepth ->
  parse_value (S f) d ("[" +:+ s) =
    match skip_ws s with
    | String c2 s2 =>
        if byte_of c2 =? 93 then Some (JArray [], s2)
        else match parse_elems f (d + 1) s with Some (l, r) => Some (JArray l, r) | None => None end
    | EmptyString => None
    end.
Proof.
  intros Hd. change ("[" +:+ s) with (String (ascii_of_N 91) s). cbn [parse_value]. rewrite skip_ws_cons.
  change (is_ws (byte_of (ascii_of_N 91))) with false. cbv iota. change (byte_of (ascii_of_N 91)) with 91.
  cbv iota. by rewrite (proj2 (Z.leb_gt _ _)).
Qed.

Lemma val_length d t v : val d t v -> (1 <= String.length t)%nat.
Proof. intros H. destruct (val_first _ _ _ H) as (c & t' & -> & _). cbn. lia. Qed.

(** An element up to the byte that ends it. *)
Lemma skip_ws_stop w c X : blank w -> is_ws (byte_of c) = false -> skip_ws (w +:+ String c X) = String c X.
Proof. intros Hw Hc. by rewrite skip_ws_blank, skip_ws_cons, Hc. Qed.

Lemma string_app_cons c (s : string) : String c "" +:+ s = String c s.
Proof. reflexivity. Qed.

(** One unit of fuel is there, and the lengths of the parts. *)
Ltac fuel_step f Hf :=
  rewrite ?append_length in Hf; cbn [String.length quoted] in Hf; destruct f as [|f]; [lia|].

Lemma parse_elems_step f d w1 t w2 v s : blank w1 -> blank w2 ->
  (forall X, stops X -> parse_value f d (t +:+ X) = Some (v, X)) ->
  first_is (fun c => stop_byte (byte_of c) = true /\ is_ws (byte_of c) = false) s -> s <> "" ->
  parse_elems (S f) d (w1 +:+ t +:+ w2 +:+ s) =
    match s with
    | String c r' =>
        if byte_of c =? 44 then match parse_elems f d r' with Some (l, r2) => Some (v :: l, r2) | None => None end
        else if byte_of c =? 93 then Some ([v], r') else None
    | EmptyString => None
    end.
Proof.
  intros H1 H2 Hv Hs Hne. destruct s as [|c s]; [done|]. destruct Hs as [Hs Hc].
  cbn [parse_elems]. rewrite parse_ws, Hv by (done || by apply blank_stops). by rewrite skip_ws_stop.
Qed.

Lemma parse_members_step f d w1 k key w2 w3 t w4 v s : blank w1 -> chars k key -> blank w2 -> blank w3 -> blank w4 ->
  (forall X, stops X -> parse_value f d (t +:+ X) = Some (v, X)) ->
  first_is (fun c => stop_byte (byte_of c) = true /\ is_ws (byte_of c) = false) s -> s <> "" ->
  parse_members (S f) d (w1 +:+ quoted k +:+ w2 +:+ ":" +:+ w3 +:+ t +:+ w4 +:+ s) =
    match s with
    | String c r' =>
        if byte_of c =? 44 then match parse_members f d r' with Some (m, r2) => Some ((key, v) :: m, r2) | None => None end
        else if byte_of c =? 125 then Some ([(key, v)], r') else None
    | EmptyString => None
    end.
Proof.
  intros H1 Hk H2 H3 H4 Hv Hs Hne. destruct s as [|c s]; [done|]. destruct Hs as [Hs Hc].
  cbn [parse_members]. rewrite quoted_app, skip_ws_stop by done. change (byte_of quote =? 34) with true. cbn [negb].
  rewrite (chars_body _ _ _ Hk). rewrite string_app_cons, skip_ws_stop by done.
  match goal with |- context [byte_of ?c0 =? 58] => change (byte_of c0 =? 58) with true end. cbn [negb].
  rewrite parse_ws, Hv by (done || by apply blank_stops). by rewrite skip_ws_stop.
Qed.

Lemma members_first d t m : members d t m -> exists w t', t = w +:+ String quote t' /\ blank w.
Proof. intros H. destruct H as [d w1 k|d w1 k]; exists w1; eexists; (split; [by rewrite quoted_app|done]). Qed.

Lemma elems_first d t l : elems d t l ->
  exists w c t', t = w +:+ String c t' /\ blank w /\ is_ws (byte_of c) = false /\ byte_of c <> 93.
Proof.
  intros H. destruct H as [d w1 t w2 v Hw Hv|d w1 t w2 v u l Hw Hv];
    destruct (val_first _ _ _ Hv) as (c & t' & -> & ? & ?); exists w1, c; eexists; (split; [by rewrite append_cons|done]).
Qed.

(** With fuel for twice its length, a text of the grammar is read wherever it
    stands. *)
Lemma grammar_complete :
  (forall d t v, val d t v -> forall f X, stops X -> (2 * String.length t <= f)%nat ->
    parse_value f d (t +:+ X) = Some (v, X)) /\
  (forall d t l, elems d t l -> forall f X, (2 * String.length t < f)%nat ->
    parse_elems f d (t +:+ "]" +:+ X) = Some (l, X)) /\
  (forall d t m, members d t m -> forall f X, (2 * String.length t < f)%nat ->
    parse_members f d (t +:+ "}" +:+ X) = Some (m, X)).
Proof.
  apply grammar_ind.
  - intros d t v H f X _ Hf. fuel_step f Hf. by apply parse_string.
  - intros d t H f X HX Hf. destruct f; [|by apply parse_number].
    destruct (number_first _ H) as (c & t' & -> & _). cbn in Hf; lia.
  - intros d f X _ Hf. destruct f; [cbn in Hf; lia|by destruct X].
  - intros d f X _ Hf. destruct f; [cbn in Hf; lia|by destruct X].
  - intros d f X _ Hf. destruct f; [cbn in Hf; lia|by destruct X].
  - intros d w Hd Hw f X _ Hf. fuel_step f Hf. rewrite !string_app_assoc, parse_object by done.
    by rewrite string_app_cons, skip_ws_stop.
  - intros d t m Hd Hm IH f X _ Hf. fuel_step f Hf. rewrite !string_app_assoc, parse_object by done. rewrite IH by lia.
    destruct (members_first _ _ _ Hm) as (w & t' & -> & Hw). by rewrite string_app_assoc, append_cons, skip_ws_stop.
  - intros d w Hd Hw f X _ Hf. fuel_step f Hf. rewrite !string_app_assoc, parse_array by done.
    by rewrite string_app_cons, skip_ws_stop.
  - intros d t l Hd Hl IH f X _ Hf. fuel_step f Hf. rewrite !string_app_assoc, parse_array by done. rewrite IH by lia.
    destruct (elems_first _ _ _ Hl) as (w & c & t' & -> & Hw & Hc & H93).
    rewrite string_app_assoc, append_cons, skip_ws_stop by done. by rewrite (proj2 (Z.eqb_neq _ _) H93).
  - intros d w1 t w2 v H1 Hv IH H2 f X Hf. fuel_step f Hf. rewrite !string_app_assoc.
    rewrite (parse_elems_step _ _ _ _ _ v) by (first [done|intros; apply IH; [done|lia]]). done.
  - intros d w1 t w2 v u l H1 Hv IH H2 Hu IHu f X Hf. fuel_step f Hf. rewrite !string_app_assoc.
    rewrite (parse_elems_step _ _ _ _ _ v) by (first [done|intros; apply IH; [done|lia]]).
    rewrite string_app_cons. cbv iota. change (byte_of _ =? 44) with true. cbv iota. by rewrite IHu by lia.
  - intros d w1 k key w2 w3 t w4 v H1 Hk H2 H3 Hv IH H4 f X Hf. fuel_step f Hf. rewrite !string_app_assoc.
    rewrite (parse_members_step _ _ _ _ key _ _ _ _ v) by (first [done|intros; apply IH; [done|lia]]). done.
  - intros d w1 k key w2 w3 t w4 v u m H1 Hk H2 H3 Hv IH H4 Hu IHu f X Hf. fuel_step f Hf. rewrite !string_app_assoc.
    rewrite (parse_members_step _ _ _ _ key _ _ _ _ v) by (first [done|intros; apply IH; [done|lia]]).
    rewrite string_app_cons. cbv iota. change (byte_of _ =? 44) with true. cbv iota. by rewrite IHu by lia.
Qed.

(** ** The parser accepts nothing else *)

Lemma literal_sound word s r : literal word s = Some r -> s = word +:+ r.
Proof.
  unfold literal. destruct (HasPrefix s word) eqn:Hp; [|done]. intros [= <-]. revert s Hp.
  induction word as [|p word IH]; intros s Hp; [by destruct s|]. destruct s as [|c s]; [done|].
  cbn [HasPrefix] in Hp. apply andb_true_iff in Hp as [->%Ascii.eqb_eq Hp]. rewrite append_cons. cbn [String.length drop_bytes].
  f_equal. by apply IH.
Qed.

Lemma byte_ascii c n : byte_of c = n -> c = char n.
Proof. intros <-. by rewrite char_byte_of. Qed.

Definition sound_value f := forall d s v r, parse_value f d s = Some (v, r) -> exists w t, s = w +:+ t +:+ r /\ blank w /\ val d t v.
Definition sound_elems f := forall d s l r, parse_elems f d s = Some (l, r) -> exists t, s = t +:+ "]" +:+ r /\ elems d t l.
Definition sound_members f := forall d s m r, parse_members f d s = Some (m, r) -> exists t, s = t +:+ "}" +:+ r /\ members d t m.

Lemma sound_value_step f : sound_elems f -> sound_members f -> sound_value (S f).
Proof.
  intros He Hm d s v r H. destruct (skip_ws_split s) as (w & Hs & Hw). cbn [parse_value] in H. rewrite Hs.
  destruct (skip_ws s) as [|c s1]; [done|]. clear Hs.
  assert (Hval : forall t, String c s1 = t +:+ r -> val d t v -> exists w' t', w +:+ String c s1 = w' +:+ t' +:+ r /\ blank w' /\ val d t' v)
    by (intros t -> Ht; by exists w, t).
  destruct (Z.eqb_spec (byte_of c) 34) as [->%byte_ascii|_].
  { destruct (string_body _ s1) as [[k r']|] eqn:E; [|done]. simplify_eq. apply chars_sound in E as (t & -> & Ht).
    apply (Hval (quoted t)); [by rewrite quoted_app|by constructor]. }
  destruct (Z.eqb_spec (byte_of c) 123) as [->%byte_ascii|_].
  { destruct (maxNestingDepth <=? d) eqn:Hd; zbool; [done|]. destruct (skip_ws_split s1) as (w' & Hs1 & Hw').
    destruct (skip_ws s1) as [|c2 s2]; [done|]. destruct (Z.eqb_spec (byte_of c2) 125) as [->%byte_ascii|_].
    - simplify_eq. apply (Hval ("{" +:+ w' +:+ "}")); [|by constructor]. by rewrite !string_app_assoc.
    - clear Hs1. destruct (parse_members f (d + 1) s1) as [[m r']|] eqn:E; [|done]. simplify_eq. apply Hm in E as (t & -> & Ht).
      apply (Hval ("{" +:+ t +:+ "}")); [by rewrite !string_app_assoc|by constructor]. }
  destruct (Z.eqb_spec (byte_of c) 91) as [->%byte_ascii|_].
  { destruct (maxNestingDepth <=? d) eqn:Hd; zbool; [done|]. destruct (skip_ws_split s1) as (w' & Hs1 & Hw').
    destruct (skip_ws s1) as [|c2 s2]; [done|]. destruct (Z.eqb_spec (byte_of c2) 93) as [->%byte_ascii|_].
    - simplify_eq. apply (Hval ("[" +:+ w' +:+ "]")); [|by constructor]. by rewrite !string_app_assoc.
    - clear Hs1. destruct (parse_elems f (d + 1) s1) as [[l r']|] eqn:E; [|done]. simplify_eq. apply He in E as (t & -> & Ht).
      apply (Hval ("[" +:+ t +:+ "]")); [by rewrite !string_app_assoc|by constructor]. }
  destruct (byte_of c =? 116).
  { destruct (literal _ _) as [r'|] eqn:E; [|done]. simplify_eq. apply literal_sound in E. eapply Hval; [done|constructor]. }
  destruct (byte_of c =? 102).
  { destruct (literal _ _) as [r'|] eqn:E; [|done]. simplify_eq. apply literal_sound in E. eapply Hval; [done|constructor]. }
  destruct (byte_of c =? 110).
  { destruct (literal _ _) as [r'|] eqn:E; [|done]. simplify_eq. apply literal_sound in E. eapply Hval; [done|constructor]. }
  destruct (skip_number (String c s1)) as [r'|] eqn:E; [|done]. simplify_eq.
  apply skip_number_local in E as (c' & t & E & _ & _ & HX). rewrite E, before_app in *. eapply Hval; [done|].
  constructor. unfold number. by rewrite <- (HX "" I), string_app_nil.
Qed.

Lemma sound_elems_step f : sound_value f -> sound_elems f -> sound_elems (S f).
Proof.
  intros Hv He d s l r H. cbn [parse_elems] in H. destruct (parse_value f d s) as [[v r1]|] eqn:E; [|done].
  apply Hv in E as (w1 & t & -> & H1 & Ht). destruct (skip_ws_split r1) as (w2 & Hr1 & H2). rewrite Hr1.
  destruct (skip_ws r1) as [|c r']; [done|]. destruct (Z.eqb_spec (byte_of c) 44) as [->%byte_ascii|_].
  - destruct (parse_elems f d r') as [[l' r2]|] eqn:E; [|done]. simplify_eq. apply He in E as (u & -> & Hu).
    exists (w1 +:+ t +:+ w2 +:+ "," +:+ u). split; [by rewrite !string_app_assoc|by constructor].
  - destruct (Z.eqb_spec (byte_of c) 93) as [->%byte_ascii|_]; [|done]. simplify_eq.
    exists (w1 +:+ t +:+ w2). split; [by rewrite !string_app_assoc|by constructor].
Qed.

Lemma sound_members_step f : sound_value f -> sound_members f -> sound_members (S f).
Proof.
  intros Hv Hm d s m r H. cbn [parse_members] in H. destruct (skip_ws_split s) as (w1 & Hs & H1). rewrite Hs.
  destruct (skip_ws s) as [|c s1]; [done|]. clear Hs. destruct (Z.eqb_spec (byte_of c) 34) as [->%byte_ascii|_]; [|done].
  cbn [negb] in H. destruct (string_body _ s1) as [[key r0]|] eqn:E; [|done]. apply chars_sound in E as (k & -> & Hk).
  destruct (skip_ws_split r0) as (w2 & Hr0 & H2). destruct (skip_ws r0) as [|c2 r2]; [done|].
  destruct (Z.eqb_spec (byte_of c2) 58) as [->%byte_ascii|_]; [|done]. cbn [negb] in H. subst r0.
  destruct (parse_value f d r2) as [[v r3]|] eqn:E; [|done]. apply Hv in E as (w3 & t & -> & H3 & Ht).
  destruct (skip_ws_split r3) as (w4 & Hr3 & H4). rewrite Hr3.
  destruct (skip_ws r3) as [|c4 r4]; [done|]. destruct (Z.eqb_spec (byte_of c4) 44) as [->%byte_ascii|_].
  - destruct (parse_members f d r4) as [[m' r5]|] eqn:E; [|done]. simplify_eq. apply Hm in E as (u & -> & Hu).
    exists (w1 +:+ quoted k +:+ w2 +:+ ":" +:+ w3 +:+ t +:+ w4 +:+ "," +:+ u).
    split; [by rewrite !string_app_assoc, quoted_app|by constructor].
  - destruct (Z.eqb_spec (byte_of c4) 125) as [->%byte_ascii|_]; [|done]. simplify_eq.
    exists (w1 +:+ quoted k +:+ w2 +:+ ":" +:+ w3 +:+ t +:+ w4).
    split; [by rewrite !string_app_assoc, quoted_app|by constructor].
Qed.

Lemma grammar_sound f : sound_value f /\ sound_elems f /\ sound_members f.
Proof.
  induction f as [|f (Hv & He & Hm)]; [by repeat split|].
  split; [by apply sound_value_step|]. split; [by apply sound_elems_step|by apply sound_members_step].
Qed.

(** The parser implements the grammar: it accepts exactly the
    documents, and gives each its value. *)
Lemma json_parse_grammar d s v : json_parse_at d s = Some v <-> document d s v.
Proof.
  unfold json_parse_at. split.
  - destruct (parse_value _ d s) as [[v' r]|] eqn:E; [|done]. apply (grammar_sound _) in E as (w & t & -> & Hw & Ht).
    destruct (bool_decide_reflect (skip_ws r = "")); [|done]. intros [= <-]. by exists w, t, r.
  - intros (w1 & t & w2 & -> & H1 & H2 & Ht). rewrite parse_ws by done.
    rewrite (proj1 grammar_complete _ _ _ Ht).
    + by rewrite bool_decide_eq_true_2.
    + destruct w2 as [|c w2]; [done|]. unfold blank in H2. rewrite skip_ws_cons in H2. cbn. unfold stop_byte. by destruct (is_ws _).
    + rewrite !append_length. lia.
Qed.

(** ** Compaction keeps the value *)

Definition shrinks {A} (P : string -> A -> Prop) (t : string) (v : A) : Prop :=
  exists t', P t' v /\ forall X, compact_at Out (t +:+ X) = t' +:+ compact_at Out X.

Lemma compact_quoted t v : chars t v -> exists t', chars t' v /\
  forall X, compact_at Out (quoted t +:+ X) = quoted t' +:+ compact_at Out X.
Proof.
  intros H. destruct (chars_compact _ _ H) as (t' & Ht' & Hs & _). exists t'. split; [done|].
  intros X. rewrite !quoted_app, compact_keep by done. change (after_byte Out (byte_of quote)) with In. by rewrite Hs.
Qed.

Lemma compact_punct c s : copied_byte (byte_of c) = true -> compact_at Out (String c s) = String c (compact_at Out s).
Proof. intros Hc. exact (copied_cons c "" Hc (fun X => eq_refl) s). Qed.

Lemma grammar_compact :
  (forall d t v, val d t v -> shrinks (val d) t v) /\
  (forall d t l, elems d t l -> shrinks (elems d) t l) /\
  (forall d t m, members d t m -> shrinks (members d) t m).
Proof.
  assert (Hlit : forall t, copied t -> forall d v, val d t v -> shrinks (val d) t v) by (intros t Ht d v Hv; by exists t).
  apply grammar_ind.
  - intros d t v H. destruct (compact_quoted _ _ H) as (t' & Ht' & Hs). exists (quoted t'). split; [by constructor|done].
  - intros d t H. apply Hlit; [|by constructor]. pose proof H as H'. apply skip_number_local in H' as (c & t' & E & _ & Hc & _).
    rewrite string_app_nil in E. by rewrite E.
  - intros d. apply Hlit; [by repeat apply copied_cons|constructor].
  - intros d. apply Hlit; [by repeat apply copied_cons|constructor].
  - intros d. apply Hlit; [by repeat apply copied_cons|constructor].
  - intros d w Hd Hw. exists ("{" +:+ "" +:+ "}"). split; [by constructor|]. intros X.
    rewrite !string_app_assoc, !string_app_cons, compact_punct, compact_blank by done. by rewrite compact_punct.
  - intros d t m Hd _ (t' & Ht' & Hs). exists ("{" +:+ t' +:+ "}"). split; [by constructor|]. intros X.
    rewrite !string_app_assoc, !string_app_cons, compact_punct, Hs by done. by rewrite compact_punct.
  - intros d w Hd Hw. exists ("[" +:+ "" +:+ "]"). split; [by constructor|]. intros X.
    rewrite !string_app_assoc, !string_app_cons, compact_punct, compact_blank by done. by rewrite compact_punct.
  - intros d t m Hd _ (t' & Ht' & Hs). exists ("[" +:+ t' +:+ "]"). split; [by constructor|]. intros X.
    rewrite !string_app_assoc, !string_app_cons, compact_punct, Hs by done. by rewrite compact_punct.
  - intros d w1 t w2 v H1 _ (t' & Ht' & Hs) H2. exists ("" +:+ t' +:+ ""). split; [by constructor|]. intros X.
    rewrite !string_app_assoc, compact_blank, Hs, compact_blank by done. done.
  - intros d w1 t w2 v u l H1 _ (t' & Ht' & Hs) H2 _ (u' & Hu' & Hsu). exists ("" +:+ t' +:+ "" +:+ "," +:+ u').
    split; [by constructor|]. intros X.
    rewrite !string_app_assoc, compact_blank, Hs, compact_blank by done. by rewrite !string_app_cons, compact_punct, Hsu.
  - intros d w1 k key w2 w3 t w4 v H1 Hk H2 H3 _ (t' & Ht' & Hs) H4.
    destruct (compact_quoted _ _ Hk) as (k' & Hk' & Hsk). exists ("" +:+ quoted k' +:+ "" +:+ ":" +:+ "" +:+ t' +:+ "").
    split; [by constructor|]. intros X. rewrite !string_app_assoc, compact_blank, Hsk, compact_blank by done.
    by rewrite !string_app_cons, compact_punct, compact_blank, Hs, compact_blank.
  - intros d w1 k key w2 w3 t w4 v u m H1 Hk H2 H3 _ (t' & Ht' & Hs) H4 _ (u' & Hu' & Hsu).
    destruct (compact_quoted _ _ Hk) as (k' & Hk' & Hsk).
    exists ("" +:+ quoted k' +:+ "" +:+ ":" +:+ "" +:+ t' +:+ "" +:+ "," +:+ u').
    split; [by constructor|]. intros X. rewrite !string_app_assoc, compact_blank, Hsk, compact_blank by done.
    by rewrite !string_app_cons, compact_punct, compact_blank, Hs, compact_blank, compact_punct, Hsu.
Qed.

(** The compact form of a document is one value without white space around
    it, and denotes the same. *)
Lemma document_compact d s v : document d s v -> val d (compact s) v.
Proof.
  intros (w1 & t & w2 & -> & H1 & H2 & Ht). destruct (proj1 grammar_compact _ _ _ Ht) as (t' & Ht' & Hs).
  unfold compact. rewrite compact_blank, Hs by done. rewrite <- (string_app_nil w2), compact_blank by done.
  cbn. by rewrite string_app_nil.
Qed.

Lemma val_document d t v : val d t v -> document d t v.
Proof. intros H. exists "", t, "". by rewrite string_app_nil. Qed.

Lemma json_parse_compact d s v : json_parse_at d s = Some v -> json_parse_at d (compact s) = Some v.
Proof. rewrite !json_parse_grammar. intros H. by apply val_document, document_compact. Qed.

Lemma val_parse d t v : val d t v -> json_parse_at d t = Some v.
Proof. intros H. by apply json_parse_grammar, val_document. Qed.
