(* ===== verification/JsonObject.v ===== *)
(** * Strings and objects on the wire

    What [json.Marshal] writes for a string denotes the runes of the string;
    an object is written member by member, and the decoder finds the members
    again, each value with the bytes it was written with. *)

From S2P Require Import Prelude GoStrings GoText Retry GoDuration GoJson JsonText JsonGrammar.

(** ** Quoting *)

(** What a byte string becomes on the wire: its runes, a [RuneError] for every
    byte that belongs to none. *)
Definition utf8 (s : string) : string := foldr (fun r acc => encode_rune r +:+ acc) "" (runes s).

Lemma hex_digit_val d : 0 <= d < 16 -> hex_val (hex_digit d) = Some d.
Proof.
  intros Hd. unfold hex_val, hex_digit, in_range. destruct (d <? 10) eqn:E; zbool; rewrite byte_of_char by lia.
  - rewrite !(proj2 (Z.leb_le _ _)) by lia. cbn [andb]. f_equal. lia.
  - rewrite (proj2 (Z.leb_gt _ 57)) by lia. rewrite andb_false_r, !(proj2 (Z.leb_le _ _)) by lia. cbn [andb]. f_equal. lia.
Qed.

Lemma escape_u_hex r : 0 <= r < 65536 -> exists h, escape_u r = "\u" +:+ h /\ hex4 h = Some (r, "").
Proof.
  intros Hr. eexists. split; [reflexivity|]. cbn [hex4].
  rewrite !hex_digit_val by (Z.div_mod_to_equations; lia). do 2 f_equal. Z.div_mod_to_equations; lia.
Qed.

Lemma encode_ascii r : 0 <= r < 128 -> encode_rune r = String (char r) "".
Proof.
  intros Hr. unfold encode_rune, in_range. rewrite (proj2 (Z.ltb_ge r 0)), (proj2 (Z.leb_gt 55296 r)), (proj2 (Z.ltb_ge 1114111 r)) by lia.
  cbn [orb andb]. by rewrite (proj2 (Z.ltb_lt _ _)) by lia.
Qed.

(** A scalar value past ASCII. *)
Definition scalar (r : Z) : Prop := 128 <= r < 55296 \/ 57343 < r <= 1114111.

Lemma decoded_scalar c s r n : 128 <= byte_of c -> decode_rune (String c s) = (r, n) ->
  (r = RuneError /\ n = 1%nat) \/ (scalar r /\ n <> 1%nat).
Proof.
  intros Hc. pose proof (byte_of_range c). unfold decode_rune. rewrite (proj2 (Z.ltb_ge _ _)) by done. intros Hd.
  destruct s as [|c1 s]; [simplify_eq; by left|]. pose proof (byte_of_range c1).
  destruct (in_range 194 223 (byte_of c)) eqn:H2.
  { destruct (is_cont (byte_of c1)) eqn:H3; simplify_eq; [|by left]. right. unfold scalar, is_cont, in_range in *. zbool. split; [|done]. lia. }
  destruct (in_range 224 244 (byte_of c)) eqn:H3; [|simplify_eq/=; by left].
  destruct (second_ok (byte_of c) (byte_of c1)) eqn:H4; [|simplify_eq/=; by left]. cbn [andb negb] in Hd.
  destruct s as [|c2 s]; [simplify_eq; by left|].
  destruct (is_cont (byte_of c2)) eqn:H5; cbn [negb] in Hd; [|simplify_eq; by left].
  pose proof (second_cont _ _ H4) as Hc1. unfold second_ok, is_cont, in_range in *. zbool.
  destruct (byte_of c <? 240) eqn:Hlt; zbool.
  { simplify_eq. right. split; [|done]. unfold scalar. repeat case_match; zbool; lia. }
  destruct s as [|c3 s]; [simplify_eq; by left|].
  destruct ((128 <=? byte_of c3) && (byte_of c3 <=? 191)) eqn:Hc3; cbn [negb] in Hd; simplify_eq; [|by left]. zbool.
  right. split; [|done]. unfold scalar. repeat case_match; zbool; lia.
Qed.

Lemma in_range_true lo hi b : lo <= b <= hi -> in_range lo hi b = true.
Proof. intros H. unfold in_range. apply andb_true_iff; split; apply Z.leb_le; lia. Qed.

Lemma in_range_false lo hi b : b < lo \/ hi < b -> in_range lo hi b = false.
Proof. intros H. unfold in_range. apply andb_false_iff. destruct H; [left|right]; apply Z.leb_gt; lia. Qed.

Lemma second_ok_true b0 b1 : 128 <= b1 <= 191 -> (b0 = 224 -> 160 <= b1) -> (b0 = 237 -> b1 <= 159) ->
  (b0 = 240 -> 144 <= b1) -> (b0 = 244 -> b1 <= 143) -> second_ok b0 b1 = true.
Proof. intros. unfold second_ok, is_cont. repeat case_goal; zbool; apply in_range_true; lia. Qed.

Lemma encode_scalar r : scalar r -> encode_rune r =
  if r <? 2048 then String (char (192 + r / 64)) (String (char (128 + r mod 64)) "")
  else if r <? 65536 then
    String (char (224 + r / 4096)) (String (char (128 + r / 64 mod 64)) (String (char (128 + r mod 64)) ""))
  else String (char (240 + r / 262144)) (String (char (128 + r / 4096 mod 64))
         (String (char (128 + r / 64 mod 64)) (String (char (128 + r mod 64)) ""))).
Proof.
  intros Hr. unfold encode_rune, scalar in *. rewrite in_range_false by lia.
  by rewrite (proj2 (Z.ltb_ge r 0)), (proj2 (Z.ltb_ge 1114111 r)), (proj2 (Z.ltb_ge r 128)) by lia.
Qed.

Lemma decode_encode r t : scalar r -> exists c u, encode_rune r = String c u /\ 128 <= byte_of c /\
  decode_rune (encode_rune r +:+ t) = (r, String.length (encode_rune r)).
Proof.
  intros Hr. rewrite encode_scalar by done. unfold scalar in Hr. destruct (r <? 2048) eqn:E1; [|destruct (r <? 65536) eqn:E2]; zbool.
  - assert (Hq : exists q m, r / 64 = q /\ r mod 64 = m /\ r = 64 * q + m /\ 0 <= m < 64 /\ 2 <= q <= 31)
      by (do 2 eexists; do 2 (split; [reflexivity|]); Z.div_mod_to_equations; lia).
    destruct Hq as (q & m & -> & -> & -> & Hm & Hq). do 2 eexists. split; [reflexivity|].
    rewrite !append_cons. unfold decode_rune, is_cont. rewrite !byte_of_char by lia. split; [lia|].
    rewrite (proj2 (Z.ltb_ge _ _)), !in_range_true by lia. cbn [String.length]. f_equal. lia.
  - assert (Hq : exists p q m, r / 4096 = p /\ (r / 64) mod 64 = q /\ r mod 64 = m /\ r = 4096 * p + 64 * q + m /\ 0 <= m < 64 /\ 0 <= q < 64 /\
      0 <= p <= 15) by (do 3 eexists; do 3 (split; [reflexivity|]); Z.div_mod_to_equations; lia).
    destruct Hq as (p & q & m & -> & -> & -> & -> & Hm & Hq & Hp). do 2 eexists. split; [reflexivity|].
    rewrite !append_cons. unfold decode_rune. rewrite !byte_of_char by lia. split; [lia|].
    rewrite (proj2 (Z.ltb_ge _ _)), in_range_false, in_range_true, second_ok_true by lia. cbn [andb negb]. unfold is_cont.
    rewrite in_range_true, (proj2 (Z.ltb_lt _ _)) by lia. cbn [negb String.length]. f_equal. lia.
  - assert (Hq : exists o p q m, r / 262144 = o /\ (r / 4096) mod 64 = p /\ (r / 64) mod 64 = q /\ r mod 64 = m /\
      r = 262144 * o + 4096 * p + 64 * q + m /\ 0 <= m < 64 /\ 0 <= q < 64 /\ 0 <= p < 64 /\ 0 <= o <= 4)
      by (do 4 eexists; do 4 (split; [reflexivity|]); Z.div_mod_to_equations; lia).
    destruct Hq as (o & p & q & m & -> & -> & -> & -> & -> & Hm & Hq & Hp & Ho). do 2 eexists. split; [reflexivity|].
    rewrite !append_cons. unfold decode_rune. rewrite !byte_of_char by lia. split; [lia|].
    rewrite (proj2 (Z.ltb_ge _ 128)), in_range_false, in_range_true, second_ok_true by lia. cbn [andb negb]. unfold is_cont.
    rewrite !in_range_true, (proj2 (Z.ltb_ge _ 240)) by lia. cbn [negb String.length]. f_equal. lia.
Qed.

Lemma chars_scalar r t v : scalar r -> chars t v -> chars (encode_rune r +:+ t) (encode_rune r +:+ v).
Proof.
  intros Hr Ht. destruct (decode_encode r t Hr) as (c & u & E & Hc & Hd).
  replace (encode_rune r +:+ t) with (String c (u +:+ t)) in * by (by rewrite E, append_cons).
  eapply chars_multi; [done|exact Hd|]. rewrite E. cbn [String.length drop_bytes]. by rewrite drop_bytes_app.
Qed.

(** What [json.Marshal] writes between the quotes denotes the runes of the
    string. *)
Lemma quote_body_chars n s : (String.length s <= n)%nat ->
  chars (quote_body n s) (foldr (fun r acc => encode_rune r +:+ acc) "" (runes_loop n s)).
Proof.
  revert s. induction n as [|n IH]; intros s Hn; [constructor|]. destruct s as [|c s]; [constructor|].
  cbn [String.length] in Hn. cbn [quote_body]. pose proof (byte_of_range c) as Hr. destruct (byte_of c <? 128) eqn:Hc; zbool.
  - cbn [runes_loop decode_rune]. rewrite (proj2 (Z.ltb_lt _ _) Hc). cbn [drop_bytes foldr]. rewrite encode_ascii by lia.
    rewrite string_app_cons. specialize (IH s ltac:(lia)). set (v := foldr _ _ _) in *.
    assert (Hu : in_range 55296 57343 (byte_of c) = false) by (apply in_range_false; lia).
    destruct ((byte_of c =? 34) || (byte_of c =? 92)) eqn:H1.
    { rewrite !append_cons. change ("" +:+ ?u) with u. apply chars_simple; [|done]. unfold simple_escape.
      apply orb_true_iff in H1 as [-> | ->]; [done|by rewrite orb_true_r]. }
    destruct (Z.eqb_spec (byte_of c) 8) as [->|]; [by apply (chars_simple (char 98))|].
    destruct (Z.eqb_spec (byte_of c) 12) as [->|]; [by apply (chars_simple (char 102))|].
    destruct (Z.eqb_spec (byte_of c) 10) as [->|]; [by apply (chars_simple (char 110))|].
    destruct (Z.eqb_spec (byte_of c) 13) as [->|]; [by apply (chars_simple (char 114))|].
    destruct (Z.eqb_spec (byte_of c) 9) as [->|]; [by apply (chars_simple (char 116))|].
    destruct ((byte_of c <? 32) || (byte_of c =? 60) || (byte_of c =? 62) || (byte_of c =? 38)) eqn:H2.
    { destruct (escape_u_hex (byte_of c)) as (h & -> & Hh); [lia|]. rewrite string_app_assoc.
      change (String (char (byte_of c)) v) with (String (char (byte_of c)) "" +:+ v). rewrite <- encode_ascii by lia. by eapply chars_unit. }
    rewrite char_byte_of, string_app_cons. zbool. by apply chars_plain; try lia.
  - cbn [runes_loop]. destruct (decode_rune (String c s)) as [r k] eqn:Hd. cbn [foldr].
    assert (Hk : (String.length (drop_bytes k (String c s)) <= n)%nat).
    { destruct (decode_split _ _ _ _ Hc Hd) as (u & t1 & -> & -> & _). cbn [drop_bytes]. rewrite drop_bytes_app, append_length in *. lia. }
    specialize (IH _ Hk). destruct (decoded_scalar _ _ _ _ Hc Hd) as [[-> ->]|[Hs Hk1]].
    + by apply (chars_unit "fffd" 65533).
    + rewrite (proj2 (Nat.eqb_neq _ _) Hk1), andb_false_r. destruct ((r =? 8232) || (r =? 8233)) eqn:Hsep; [|by apply chars_scalar].
      assert (Hr' : r = 8232 \/ r = 8233) by (zbool; lia). destruct (escape_u_hex r) as (h & -> & Hh); [lia|].
      rewrite string_app_assoc. eapply chars_unit; [done| |done]. by destruct Hr' as [-> | ->].
Qed.

(** A quoted string is a literal. *)
Lemma quote_chars s : exists t, json_quote s = quoted t /\ chars t (utf8 s).
Proof. exists (quote_body (String.length s) s). split; [done|]. by apply quote_body_chars. Qed.

(** A string that needs no escape is quoted as it is, and compaction leaves it
    alone. *)
Lemma plain_chars s : plain s -> chars s s /\ forall X, compact_at In (s +:+ String quote X) = s +:+ String quote (compact_at Out X).
Proof.
  induction 1 as [|c s Hc Hs [IH1 IH2]|s Hs [IH1 IH2]].
  - split; [constructor|]. intros X. change ("" +:+ ?s) with s. by rewrite compact_keep.
  - unfold plain_byte, in_range in Hc. zbool. split; [apply chars_plain; [|done..]|].
    + lia.
    + intros X. rewrite append_cons, compact_keep.
      * unfold after_byte. rewrite (proj2 (Z.eqb_neq _ 34)), (proj2 (Z.eqb_neq _ 92)), IH2 by done. done.
      * unfold line_sep. by rewrite (proj2 (Z.eqb_neq _ 226)) by lia.
      * unfold is_html. by rewrite (proj2 (Z.eqb_neq _ 60)), (proj2 (Z.eqb_neq _ 62)), (proj2 (Z.eqb_neq _ 38)) by done.
      * done.
  - split; [by apply (chars_multi (char 194) _ 181 2)|]. intros X.
    change (micro +:+ s +:+ String quote X) with (String (char 194) (String (char 181) (s +:+ String quote X))).
    rewrite string_app_assoc. change (micro +:+ ?u) with (String (char 194) (String (char 181) u)).
    rewrite !compact_keep by done. cbn [after_byte]. change (after_byte (after_byte In _) _) with In. by rewrite IH2.
Qed.

Lemma compact_plain s : plain s -> compact (quoted s) = quoted s.
Proof.
  intros H. unfold compact, quoted. rewrite compact_keep by done. change (after_byte Out (byte_of quote)) with In.
  by rewrite (proj2 (plain_chars s H)).
Qed.

(** ** Objects *)

(** The members of an object, a value as the bytes it stands as. *)
Fixpoint members_text (ms : list (string * string)) : string :=
  match ms with
  | [] => ""
  | [(k, t)] => json_quote k +:+ ":" +:+ t
  | (k, t) :: ms' => json_quote k +:+ ":" +:+ t +:+ "," +:+ members_text ms'
  end.
Definition object_text (ms : list (string * string)) : string := "{" +:+ members_text ms +:+ "}".

(** The decoder's loop over an object's members after its brace, [d] levels
    deep. *)
Fixpoint raw_members (fuel : nat) (d : Z) (s : string) : option (list (string * string)) :=
  match fuel with
  | O => None
  | S fuel' =>
      match skip_ws s with
      | String c s1 =>
          if negb (byte_of c =? 34) then None
          else match string_body (String.length s1) s1 with
          | None => None
          | Some (k, r) =>
              match skip_ws r with
              | String c2 r2 =>
                  let r3 := skip_ws r2 in
                  if negb (byte_of c2 =? 58) then None
                  else match parse_value (2 * String.length r3) d r3 with
                  | None => None
                  | Some (_, r4) =>
                      match skip_ws r4 with
                      | String c4 r5 =>
                          if byte_of c4 =? 44 then
                            match raw_members fuel' d r5 with Some l => Some ((k, before r3 r4) :: l) | None => None end
                          else if byte_of c4 =? 125 then Some [(k, before r3 r4)] else None
                      | EmptyString => None
                      end
                  end
              | EmptyString => None
              end
          end
      | EmptyString => None
      end
  end.

Definition object_members (d : Z) (s : string) : option (list (string * string)) :=
  match skip_ws s with
  | String c s1 =>
      if byte_of c =? 123 then
        match skip_ws s1 with
        | String c2 _ => if byte_of c2 =? 125 then Some [] else raw_members (String.length s1) (d + 1) s1
        | EmptyString => None
        end
      else None
  | EmptyString => None
  end.

(** Every value is one, at depth [d]. *)
Definition values_ok (d : Z) (ms : list (string * string)) (vs : list (string * json)) : Prop :=
  Forall2 (fun m v => v.1 = utf8 m.1 /\ val d m.2 v.2) ms vs.

Lemma members_val d ms vs : ms <> [] -> values_ok d ms vs -> members d (members_text ms) vs.
Proof.
  intros Hne H. induction H as [|[k t] [k' v] ms vs [Hk Hv] Hms IH]; [done|]. cbn [fst snd] in *. subst k'.
  destruct (quote_chars k) as (q & Hq & Hc). destruct ms as [|m ms].
  - inversion Hms; subst. cbn [members_text]. rewrite Hq.
    pose proof (members_one d "" q (utf8 k) "" "" t "" v) as HM. rewrite !string_app_nil in HM. by apply HM.
  - assert (Hne' : m :: ms <> []) by done. specialize (IH Hne').
    change (members_text ((k, t) :: m :: ms)) with (json_quote k +:+ ":" +:+ t +:+ "," +:+ members_text (m :: ms)). rewrite Hq.
    by apply (members_more d "" q (utf8 k) "" "" t "" v).
Qed.

Lemma object_val d ms vs : d < maxNestingDepth -> values_ok (d + 1) ms vs -> val d (object_text ms) (JObject vs).
Proof.
  intros Hd H. destruct ms as [|m ms]; [inversion H; subst; by apply val_object_nil|]. apply val_object; [done|]. by apply members_val.
Qed.

Lemma raw_members_step f d k t v s : val d t v -> first_is (fun c => stop_byte (byte_of c) = true /\ is_ws (byte_of c) = false) s -> s <> "" ->
  raw_members (S f) d (json_quote k +:+ ":" +:+ t +:+ s) =
    match s with
    | String c r => if byte_of c =? 44 then match raw_members f d r with Some l => Some ((utf8 k, t) :: l) | None => None end
                    else if byte_of c =? 125 then Some [(utf8 k, t)] else None
    | EmptyString => None
    end.
Proof.
  intros Hv Hs Hne. destruct s as [|c s]; [done|]. destruct Hs as [Hs Hc]. destruct (quote_chars k) as (q & -> & Hq).
  cbn [raw_members]. rewrite quoted_app, skip_ws_cons. change (is_ws (byte_of quote)) with false. cbv iota.
  change (byte_of quote =? 34) with true. cbn [negb]. rewrite (chars_body _ _ _ Hq), string_app_cons, skip_ws_cons.
  match goal with |- context [is_ws (byte_of ?c0)] => change (is_ws (byte_of c0)) with false; change (byte_of c0 =? 58) with true end.
  cbn [negb]. assert (Ht : skip_ws (t +:+ String c s) = t +:+ String c s).
  { destruct (val_first _ _ _ Hv) as (c' & t' & -> & Hw & _). by rewrite append_cons, skip_ws_cons, Hw. }
  rewrite Ht, (proj1 grammar_complete _ _ _ Hv); [|done|rewrite append_length; lia]. by rewrite before_app, skip_ws_cons, Hc.
Qed.

Lemma raw_members_text f d ms vs : ms <> [] -> values_ok d ms vs -> (List.length ms <= f)%nat ->
  raw_members f d (members_text ms +:+ "}") = Some (map (fun m => (utf8 m.1, m.2)) ms).
Proof.
  intros Hne H. revert f. induction H as [|[k t] [k' v] ms vs [Hk Hv] Hms IH]; intros f Hf; [done|].
  destruct f as [|f]; [cbn in Hf; lia|]. cbn [fst snd] in *. destruct ms as [|m ms].
  - cbn [members_text]. rewrite !string_app_assoc, (raw_members_step _ _ _ _ v) by done. done.
  - change (members_text ((k, t) :: m :: ms)) with (json_quote k +:+ ":" +:+ t +:+ "," +:+ members_text (m :: ms)).
    rewrite !string_app_assoc, (raw_members_step _ _ _ _ v) by done. rewrite string_app_cons. cbv iota.
    change (byte_of _ =? 44) with true. cbv iota. by rewrite IH by (done || cbn in *; lia).
Qed.

Lemma members_text_length ms : (List.length ms <= String.length (members_text ms))%nat.
Proof.
  induction ms as [|[k t] ms IH]; [done|]. destruct ms as [|m ms].
  - cbn [members_text List.length]. rewrite append_length. cbn. lia.
  - change (members_text ((k, t) :: m :: ms)) with (json_quote k +:+ ":" +:+ t +:+ "," +:+ members_text (m :: ms)).
    rewrite !append_length. cbn [List.length] in *. change (String.length ",") with 1%nat. lia.
Qed.

(** The members the decoder finds are those that were written. *)
Lemma object_members_text d ms vs : values_ok (d + 1) ms vs ->
  object_members d (object_text ms) = Some (map (fun m => (utf8 m.1, m.2)) ms).
Proof.
  intros H. destruct ms as [|[k t] ms]; [done|]. unfold object_members, object_text. rewrite string_app_cons, skip_ws_cons.
  match goal with |- context [is_ws (byte_of ?c0)] => change (is_ws (byte_of c0)) with false; change (byte_of c0 =? 123) with true end.
  cbv iota. pose proof (members_text_length ((k, t) :: ms)) as Hl. rewrite (raw_members_text _ _ _ vs) by (done || rewrite append_length; lia).
  assert (Hf : exists u, members_text ((k, t) :: ms) = String quote u) by (destruct ms; by eexists).
  destruct Hf as [u ->]. rewrite append_cons, skip_ws_cons. done.
Qed.
