(* ===== verification/GoTime.v ===== *)
(** * The text form of [time.Time]

    RFC 3339 with nanoseconds, as [Time.MarshalJSON] writes it and
    [Time.UnmarshalJSON] reads it.  A [Time] of the development is an instant;
    its location matters to the text only through the offset in seconds east
    of UTC, an argument of the printer. *)

From S2P Require Import Prelude GoStrings GoText Calendar Retry GoDuration GoJson.

(** ** Printing *)

Definition Second_of (t : Time) : Z := secs t mod 60.
Definition Nanosecond_of (t : Time) : Z := t mod Second.

Definition digits2 (v : Z) (acc : string) : string :=
  String (digit_char (v / 10)) (String (digit_char (v mod 10)) acc).
Definition digits4 (v : Z) (acc : string) : string := digits2 (v / 100) (digits2 (v mod 100) acc).

Definition colon : ascii := ascii_of_N 58.
Definition letter_T : ascii := ascii_of_N 84.
Definition letter_Z : ascii := ascii_of_N 90.

Definition zone_text (off : Z) : string :=
  if off =? 0 then String letter_Z ""
  else
    let zone := Z.quot off 60 in
    String (if zone <? 0 then minus else plus)
      (digits2 (Z.abs zone / 60) (String colon (digits2 (Z.abs zone mod 60) ""))).

(** [appendStrictRFC3339]; years of four digits and offsets below 24 hours. *)
Definition format_RFC3339 (off : Z) (t : Time) : result string :=
  let local := t + off * Second in
  if negb (in_range 0 9999 (Year local)) then Error (ErrText "year outside of range [0,9999]")
  else if 24 <=? Z.abs (Z.quot off 60) / 60 then Error (ErrText "timezone hour outside of range [0,23]")
  else Ok (digits4 (Year local) (String minus (digits2 (Month local) (String minus (digits2 (Day local) (String letter_T
             (digits2 (Hour_of local) (String colon (digits2 (Minute_of local) (String colon (digits2 (Second_of local)
             (fmtFrac 9 (Nanosecond_of local) (zone_text off)).1))))))))))).

Definition Time_MarshalJSON (off : Z) (t : Time) : result string :=
  match format_RFC3339 off t with
  | Ok s => Ok (String quote (s +:+ String quote ""))
  | Error e => Error (Wrapf "Time.MarshalJSON: " e)
  end.

(** ** Parsing *)

(** [parseUint] of two or four bytes. *)
Definition uint2 (lo hi : Z) (c1 c2 : ascii) : option Z :=
  match digit_val c1, digit_val c2 with
  | Some a, Some b => if in_range lo hi (10 * a + b) then Some (10 * a + b) else None
  | _, _ => None
  end.
Definition uint4 (c1 c2 c3 c4 : ascii) : option Z :=
  match uint2 0 99 c1 c2, uint2 0 99 c3 c4 with Some a, Some b => Some (100 * a + b) | _, _ => None end.

Definition daysIn (mo y : Z) : Z :=
  let k := 12 * (y - 1) + (mo - 1) in month_start (k + 1) - month_start k.

Fixpoint take_digits (s : string) : string :=
  match s with
  | String c s' => match digit_val c with Some _ => String c (take_digits s') | None => "" end
  | EmptyString => ""
  end.

(** [parseNanoseconds]: the first nine digits count. *)
Definition nano_of (ds : string) : Z :=
  let ds := String.substring 0 9 ds in
  default 0 (digits_val 0 ds) * 10 ^ Z.of_nat (9 - String.length ds).

(** An optional fraction: a dot and at least one digit. *)
Definition parse_fraction (s : string) : Z * string :=
  match s with
  | String c s' =>
      if Ascii.eqb c dot && str_nonempty (take_digits s') then (nano_of (take_digits s'), skip_digits s') else (0, s)
  | EmptyString => (0, s)
  end.

(** The offset in seconds. *)
Definition parse_zone (s : string) : option Z :=
  match s with
  | String z EmptyString => if Ascii.eqb z letter_Z then Some 0 else None
  | String sg (String h1 (String h2 (String c (String m1 (String m2 EmptyString))))) =>
      match uint2 0 23 h1 h2, uint2 0 59 m1 m2 with
      | Some hr, Some mm =>
          if (Ascii.eqb sg minus || Ascii.eqb sg plus) && Ascii.eqb c colon
          then Some ((if Ascii.eqb sg minus then -1 else 1) * ((hr * 60 + mm) * 60)) else None
      | _, _ => None
      end
  | _ => None
  end.

(** [parseRFC3339]; what it rejects is an error of [parseStrictRFC3339] too. *)
Definition parse_RFC3339 (s : string) : option Time :=
  match s with
  | String y1 (String y2 (String y3 (String y4 (String d1 (String mo1 (String mo2 (String d2 (String da1 (String da2
    (String ct (String h1 (String h2 (String c1 (String mi1 (String mi2 (String c2 (String s1 (String s2 rest)))))))))))))))))) =>
      match uint4 y1 y2 y3 y4, uint2 1 12 mo1 mo2 with
      | Some y, Some mo =>
          match uint2 1 (daysIn mo y) da1 da2, uint2 0 23 h1 h2, uint2 0 59 mi1 mi2, uint2 0 59 s1 s2 with
          | Some d, Some h, Some mi, Some sec =>
              if Ascii.eqb d1 minus && Ascii.eqb d2 minus && Ascii.eqb ct letter_T && Ascii.eqb c1 colon && Ascii.eqb c2 colon
              then
                let '(nsec, rest) := parse_fraction rest in
                match parse_zone rest with
                | Some off => Some (Date y mo d h mi + sec * Second + nsec - off * Second)
                | None => None
                end
              else None
          | _, _, _, _ => None
          end
      | _, _ => None
      end
  | _ => None
  end.

Fixpoint ends_quote (s : string) : bool :=
  match s with
  | EmptyString => false
  | String c EmptyString => Ascii.eqb c quote
  | String _ s' => ends_quote s'
  end.

(** [Time.UnmarshalJSON] into [old]: the bytes between the quotes as they are. *)
Definition Time_UnmarshalJSON (old : Time) (b : string) : result Time :=
  if bool_decide (b = "null") then Ok old
  else match b with
  | String q s =>
      if Ascii.eqb q quote && ends_quote s
      then match parse_RFC3339 (TrimSuffix s quote) with
           | Some t => Ok t
           | None => Error (ErrText "Time.UnmarshalJSON: parsing time")
           end
      else Error (ErrText "Time.UnmarshalJSON: input is not a JSON string")
  | EmptyString => Error (ErrText "Time.UnmarshalJSON: input is not a JSON string")
  end.

Example time_1 : format_RFC3339 0 0 = Ok "0001-01-01T00:00:00Z". Proof. reflexivity. Qed.
Example time_2 : format_RFC3339 (-18000) (Date 2024 2 29 23 5 + 7 * Second + 120000000) = Ok "2024-02-29T18:05:07.12-05:00".
Proof. reflexivity. Qed.
Example time_3 : parse_RFC3339 "2024-02-29T18:05:07.12-05:00" = Some (Date 2024 2 29 23 5 + 7 * Second + 120000000).
Proof. reflexivity. Qed.
Example time_4 : parse_RFC3339 "2023-02-29T18:05:07Z" = None. Proof. reflexivity. Qed.

(** ** Reading back *)

Lemma uint2_digits lo hi v : 0 <= v <= 99 -> lo <= v <= hi ->
  uint2 lo hi (digit_char (v / 10)) (digit_char (v mod 10)) = Some v.
Proof.
  intros Hv Hr. assert (H1 : 0 <= v / 10 <= 9) by (Z.div_mod_to_equations; lia).
  assert (H2 : 0 <= v mod 10 <= 9) by (Z.div_mod_to_equations; lia).
  unfold uint2. rewrite !digit_val_char by done. replace (10 * (v / 10) + v mod 10) with v by (Z.div_mod_to_equations; lia).
  unfold in_range. by rewrite !(proj2 (Z.leb_le _ _)) by lia.
Qed.

Lemma uint4_digits v : 0 <= v <= 9999 ->
  uint4 (digit_char (v / 100 / 10)) (digit_char ((v / 100) mod 10)) (digit_char (v mod 100 / 10)) (digit_char (v mod 100 mod 10)) = Some v.
Proof.
  intros Hv. unfold uint4. rewrite !uint2_digits by (Z.div_mod_to_equations; lia). f_equal. Z.div_mod_to_equations; lia.
Qed.

(** A digit run in front of what is none. *)
Lemma take_digits_app ds x s : digits_val 0 ds = Some x -> (match s with String c _ => digit_val c = None | _ => True end) ->
  take_digits (ds +:+ s) = ds /\ skip_digits (ds +:+ s) = s.
Proof.
  intros Hx Hs. generalize dependent 0. induction ds as [|c ds IH]; intros acc Hx.
  - destruct s as [|c s]; [done|]. change ("" +:+ ?u) with u. cbn [take_digits skip_digits]. by rewrite Hs.
  - cbn [digits_val] in Hx. rewrite append_cons. cbn [take_digits skip_digits]. destruct (digit_val c); [|done].
    destruct (IH _ Hx) as [-> ->]. done.
Qed.

Lemma substring_all n s : (String.length s <= n)%nat -> String.substring 0 n s = s.
Proof.
  revert n. induction s as [|c s IH]; intros n Hn; [by destruct n|]. destruct n as [|n]; cbn in *; [lia|]. by rewrite IH by lia.
Qed.

Lemma parse_fraction_fmtFrac ns z zs : 0 <= ns < Second -> digit_val z = None -> z <> dot ->
  parse_fraction (fmtFrac 9 ns (String z zs)).1 = (ns, String z zs).
Proof.
  intros Hns Hz Hd. unfold fmtFrac.
  destruct (frac_loop_spec 9 ns false (String z zs) (proj1 Hns)) as (ds & x & pr & -> & Hx & Hlen & Hval & _ & Hpr).
  change (10 ^ Z.of_nat 9) with Second in Hval. rewrite Z.mod_small in Hval by done. rewrite Hpr by done. cbn [fst].
  destruct ds as [|c ds].
  - cbn in Hx. simplify_eq. change (str_nonempty "") with false. cbn [fst]. change ("" +:+ ?u) with u. unfold parse_fraction.
    by rewrite (proj2 (Ascii.eqb_neq _ _) Hd).
  - change (str_nonempty (String c ds)) with true. cbn [fst]. unfold parse_fraction. destruct (take_digits_app (String c ds) x (String z zs) Hx Hz) as [-> ->].
    change (Ascii.eqb dot dot && str_nonempty (String c ds)) with true. cbv iota. unfold nano_of. rewrite substring_all by done. by rewrite Hx, <- Hval.
Qed.

Lemma zone_text_first off : exists z zs, zone_text off = String z zs /\ digit_val z = None /\ z <> dot.
Proof. unfold zone_text. repeat case_match; do 2 eexists; (split; [done|]); done. Qed.

Lemma parse_zone_text off : off mod 60 = 0 -> Z.abs (Z.quot off 60) / 60 < 24 -> parse_zone (zone_text off) = Some off.
Proof.
  intros Hm Hh. unfold zone_text. destruct (off =? 0) eqn:E0; zbool; [by subst|].
  pose proof (Z.div_mod off 60 ltac:(lia)) as Hdm. rewrite Hm, Z.add_0_r in Hdm. set (z := off / 60) in *.
  assert (Hq : Z.quot off 60 = z) by (rewrite Hdm, Z.mul_comm; apply Z.quot_mul; lia). rewrite Hq in *.
  cbn [parse_zone digits2]. rewrite !uint2_digits by (Z.div_mod_to_equations; lia).
  destruct (z <? 0) eqn:Ez; zbool; cbn; f_equal; Z.div_mod_to_equations; lia.
Qed.

Lemma Second_bounds t : 0 <= Second_of t <= 59.
Proof. unfold Second_of. pose proof (Z.mod_pos_bound (secs t) 60). lia. Qed.

Lemma Day_daysIn t : 0 <= day_of t -> 1 <= Day t <= daysIn (Month t) (Year t).
Proof.
  intros Ht. pose proof (month_index_bounds _ Ht). unfold Day, daysIn, Month, Year.
  replace (12 * (month_index (day_of t) / 12 + 1 - 1) + (month_index (day_of t) mod 12 + 1 - 1)) with (month_index (day_of t))
    by (pose proof (Z.div_mod (month_index (day_of t)) 12); lia). lia.
Qed.

Lemma Date_seconds t : Date (Year t) (Month t) (Day t) (Hour_of t) (Minute_of t) + Second_of t * Second + Nanosecond_of t = t.
Proof.
  rewrite Date_fields. unfold Truncate, Second_of, Nanosecond_of, secs, Minute, Second. Z.div_mod_to_equations. lia.
Qed.

Lemma parse_format_RFC3339 off t s : off mod 60 = 0 -> 0 <= t + off * Second ->
  format_RFC3339 off t = Ok s -> parse_RFC3339 s = Some t.
Proof.
  intros Hoff Ht. unfold format_RFC3339. set (l := t + off * Second) in *.
  destruct (in_range 0 9999 (Year l)) eqn:Hy; [|done]. cbn [negb]. destruct (24 <=? _) eqn:Hz; [done|]. zbool.
  destruct (zone_text_first off) as (z & zs & Ez & Hz1 & Hz2).
  pose proof (parse_fraction_fmtFrac (Nanosecond_of l) z zs (Z.mod_pos_bound l Second eq_refl) Hz1 Hz2) as Hfr. rewrite <- Ez in Hfr.
  remember (fmtFrac 9 (Nanosecond_of l) (zone_text off)).1 as fr eqn:Efr. clear Efr. intros [= <-].
  unfold in_range in Hy. zbool. pose proof (day_of_nonneg l Ht) as Hd. pose proof (Day_daysIn l Hd). pose proof (Day_bounds l Hd).
  pose proof (Month_bounds l). pose proof (Hour_bounds l). pose proof (Minute_bounds l). pose proof (Second_bounds l).
  cbn [parse_RFC3339 digits2 digits4]. rewrite uint4_digits, uint2_digits by lia. rewrite !uint2_digits by lia.
  rewrite !Ascii.eqb_refl. cbn [andb]. rewrite Hfr, parse_zone_text by done.
  rewrite Date_seconds. unfold l. f_equal. lia.
Qed.

(** Four-digit years and offsets of whole minutes below a day survive. *)
Definition printable (off : Z) (t : Time) : bool :=
  (off mod 60 =? 0) && (Z.abs (Z.quot off 60) / 60 <? 24) && (0 <=? t + off * Second) && (Year (t + off * Second) <=? 9999).

Lemma ends_quote_app s : ends_quote (s +:+ String quote "") = true /\ TrimSuffix (s +:+ String quote "") quote = s.
Proof.
  induction s as [|c s [IH1 IH2]]; [done|]. rewrite append_cons. cbn [ends_quote TrimSuffix].
  destruct (s +:+ String quote "") as [|c' s'] eqn:E; [by destruct s|]. by rewrite IH1, IH2.
Qed.

Lemma Year_pos t : 0 <= t -> 1 <= Year t.
Proof.
  intros Ht%day_of_nonneg. pose proof (month_index_bounds _ Ht) as Hb. unfold Year. set (k := month_index (day_of t)) in *.
  destruct (Z.lt_ge_cases k 0) as [Hk|Hk]; [|pose proof (Z.div_pos k 12); lia].
  pose proof (month_start_mono (k + 1) 0 ltac:(lia)) as Hm. change (month_start 0) with 0 in Hm. lia.
Qed.

Lemma Time_wire old off t : printable off t = true ->
  exists s, Time_MarshalJSON off t = Ok (String quote (s +:+ String quote "")) /\ format_RFC3339 off t = Ok s /\
    Time_UnmarshalJSON old (String quote (s +:+ String quote "")) = Ok t.
Proof.
  unfold printable. intros H. apply andb_true_iff in H as [H Hy]. zbool.
  pose proof (Year_pos (t + off * Second) ltac:(done)).
  assert (Hf : exists s, format_RFC3339 off t = Ok s).
  { unfold format_RFC3339, in_range. rewrite (proj2 (Z.leb_le 0 _)), (proj2 (Z.leb_le _ 9999)) by lia. cbn [negb andb].
    rewrite (proj2 (Z.leb_gt 24 _)) by lia. by eexists. }
  destruct Hf as [s Hs]. exists s. unfold Time_MarshalJSON. rewrite Hs. split; [done|]. split; [done|].
  unfold Time_UnmarshalJSON. rewrite bool_decide_eq_false_2 by done. destruct (ends_quote_app s) as [-> ->].
  change (Ascii.eqb quote quote && true) with true. cbv iota.
  by rewrite (parse_format_RFC3339 off t s).
Qed.
