(* ===== verification/JsonStruct.v ===== *)
(** * Structs on the wire

    [json.Marshal] of a struct writes the fields of a table in order, and
    [json.Unmarshal] walks the members of the text and sets the field each
    names.  A table gives, per field, its name, the text it writes (none when
    [omitempty] leaves it out) and what reading a value does.  The round trip
    is proved once for every table ([struct_wire]). *)

From stdpp Require Import sorting.
From S2P Require Import Prelude GoStrings GoText Models Retry GoDuration GoJson JsonText JsonGrammar JsonObject Calendar GoTime.

(** ** Tables *)

(** What decoding a value gives: the target, the target and a type error that
    [json.Unmarshal] keeps while it goes on, or the error of an UnmarshalJSON
    method, which ends it. *)
Inductive decoded (A : Type) :=
  | Got (a : A)
  | TypeErr (a : A)
  | Halt (e : error).
Arguments Got {A} a.
Arguments TypeErr {A} a.
Arguments Halt {A} e.

Definition decoded_map {A B} (f : A -> B) (r : decoded A) : decoded B :=
  match r with Got a => Got (f a) | TypeErr a => TypeErr (f a) | Halt e => Halt e end.

Record field (R : Type) := mkField {
  f_name : string;
  f_get : R -> result (option string);
  f_set : string -> R -> decoded R
}.
Arguments mkField {R}.
Arguments f_name {R}.
Arguments f_get {R}.
Arguments f_set {R}.

Definition json_type_error : error := ErrText "json: cannot unmarshal".

Section Struct.
Context {R : Type}.

Fixpoint emit (fs : list (field R)) (r : R) : result (list (string * string)) :=
  match fs with
  | [] => Ok []
  | f :: fs' =>
      match f_get f r with
      | Error e => Error e
      | Ok o =>
          match emit fs' r with
          | Error e => Error e
          | Ok ms => Ok (match o with Some raw => (f_name f, raw) :: ms | None => ms end)
          end
      end
  end.

Definition marshal_struct (fs : list (field R)) (r : R) : result string :=
  match emit fs r with Ok ms => Ok (object_text ms) | Error e => Error e end.

(** The field a key names: by exact name, else by case folding, under which the
    long s is an s and the Kelvin sign a k (see [ascii_fold]). *)
Definition find_named (key : string) (fs : list (field R)) : option (field R) :=
  match List.find (fun f => bool_decide (f_name f = key)) fs with
  | Some f => Some f
  | None => List.find (fun f => EqualFold_ascii key (f_name f)) fs
  end.

(** [strict] is the decoder's DisallowUnknownFields: a key that names no field
    is an error that is kept. *)
Fixpoint set_members (strict : bool) (fs : list (field R)) (ms : list (string * string)) (r : R) (saved : bool) : decoded R :=
  match ms with
  | [] => if saved then TypeErr r else Got r
  | (k, raw) :: ms' =>
      match find_named k fs with
      | None => set_members strict fs ms' r (strict || saved)
      | Some f =>
          match f_set f raw r with
          | Got r' => set_members strict fs ms' r' saved
          | TypeErr r' => set_members strict fs ms' r' true
          | Halt e => Halt e
          end
      end
  end.

(** A value decoded into a struct: [raw] is the text of a value [d] levels
    deep; null leaves the struct alone. *)
Definition decode_struct (strict : bool) (fs : list (field R)) (d : Z) (raw : string) (r : R) : decoded R :=
  match raw with
  | String c _ =>
      if byte_of c =? 123 then
        match object_members d raw with Some ms => set_members strict fs ms r false | None => Halt json_type_error end
      else if byte_of c =? 110 then Got r
      else TypeErr r
  | EmptyString => Halt json_type_error
  end.

(** [json.Unmarshal]: the whole text is checked first. *)
Definition unmarshal_struct (fs : list (field R)) (s : string) (zero : R) : result R :=
  if negb (json_Valid s) then Error (ErrText "invalid JSON")
  else match decode_struct false fs 0 (skip_ws s) zero with
  | Got r => Ok r
  | TypeErr _ => Error json_type_error
  | Halt e => Error e
  end.

(** ** The round trip of a table *)

(** The text a field writes is a value. *)
Definition emits (d : Z) (r : R) (f : field R) : Prop :=
  exists o, f_get f r = Ok o /\ forall raw, o = Some raw -> exists v, val d raw v.

(** Read what [r] writes for a field. *)
Definition apply_field (f : field R) (r st : R) : decoded R :=
  match f_get f r with
  | Ok (Some raw) => f_set f raw st
  | Ok None => Got st
  | Error e => Halt e
  end.

Inductive applies (r : R) : list (field R) -> R -> R -> Prop :=
  | applies_nil st : applies r [] st st
  | applies_cons f fs st st1 st2 : apply_field f r st = Got st1 -> applies r fs st1 st2 -> applies r (f :: fs) st st2.

Definition names_ok (fs : list (field R)) : Prop :=
  NoDup (map f_name fs) /\ Forall (fun f => utf8 (f_name f) = f_name f) fs.

Lemma find_named_in fs f : NoDup (map f_name fs) -> f ∈ fs -> find_named (f_name f) fs = Some f.
Proof.
  intros Hnd Hf. unfold find_named.
  assert (H : List.find (fun g => bool_decide (f_name g = f_name f)) fs = Some f); [|by rewrite H].
  induction fs as [|g fs IH]; [by apply elem_of_nil in Hf|]. cbn in *. apply NoDup_cons in Hnd as [Hg Hnd].
  apply elem_of_cons in Hf as [<-|Hf]; [by rewrite bool_decide_eq_true_2|].
  rewrite bool_decide_eq_false_2; [by apply IH|]. intros E. apply Hg. rewrite E. apply list_elem_of_fmap; by exists f.
Qed.

Lemma emit_ok d fs r : Forall (emits d r) fs -> exists ms vs, emit fs r = Ok ms /\ values_ok d ms vs.
Proof.
  induction 1 as [|f fs (o & Ho & Hv) _ (ms & vs & Hms & Hvs)]; [by exists [], []; repeat constructor|].
  cbn [emit]. rewrite Ho, Hms. destruct o as [raw|]; [|by exists ms, vs].
  destruct (Hv raw eq_refl) as [v Hval]. exists ((f_name f, raw) :: ms), ((utf8 (f_name f), v) :: vs). split; [done|]. by constructor.
Qed.

Lemma set_members_emit strict all fs r ms st st' : names_ok all -> (forall f, f ∈ fs -> f ∈ all) ->
  emit fs r = Ok ms -> applies r fs st st' -> set_members strict all (map (fun m => (utf8 m.1, m.2)) ms) st false = Got st'.
Proof.
  intros [Hnd Hu] Hin Hms Ha. revert ms Hms. induction Ha as [st|f fs st st1 st2 Hf _ IH]; intros ms Hms; cbn [emit] in Hms.
  { simplify_eq. done. }
  assert (Hf' : f ∈ all) by (apply Hin; left). rewrite Forall_forall in Hu. unfold apply_field in Hf.
  destruct (f_get f r) as [o|e]; [|done]. destruct (emit fs r) as [ms'|e] eqn:E; [|done]. simplify_eq.
  assert (Hin' : forall g, g ∈ fs -> g ∈ all) by (intros g Hg; apply Hin; by right).
  destruct o as [raw|]; [|simplify_eq; by apply IH]. cbn [map fst snd set_members].
  rewrite (Hu f Hf'), find_named_in, Hf by done. by apply IH.
Qed.

(** What a table writes is one JSON value, and reading it does to the target
    what reading the fields one after the other does. *)
Lemma struct_wire fs d r st st' : names_ok fs -> d < maxNestingDepth -> Forall (emits (d + 1) r) fs -> applies r fs st st' ->
  exists s vs, marshal_struct fs r = Ok s /\ val d s (JObject vs) /\
    forall strict, decode_struct strict fs d s st = Got st'.
Proof.
  intros Hn Hd He Ha. destruct (emit_ok _ _ _ He) as (ms & vs & Hms & Hvs). exists (object_text ms), vs.
  unfold marshal_struct. rewrite Hms. split; [done|]. split; [by apply object_val|]. intros strict.
  unfold decode_struct. rewrite (object_members_text _ _ _ Hvs). unfold object_text. rewrite string_app_cons.
  match goal with |- context [byte_of ?c =? 123] => change (byte_of c =? 123) with true end. cbv iota.
  by apply (set_members_emit strict fs fs r).
Qed.

(** Reading does not depend on what a field would write. *)
Definition same_reader (f g : field R) : Prop := f_name f = f_name g /\ f_set f = f_set g.

Lemma find_same (p : string -> bool) fs gs : Forall2 same_reader fs gs ->
  option_Forall2 same_reader (List.find (fun f => p (f_name f)) fs) (List.find (fun f => p (f_name f)) gs).
Proof.
  induction 1 as [|f g fs gs Hfg _ IH]; [constructor|]. cbn. destruct Hfg as [Hn Hs]. rewrite Hn.
  destruct (p (f_name g)); [by repeat constructor|done].
Qed.

Lemma set_members_same strict fs gs ms r saved : Forall2 same_reader fs gs ->
  set_members strict fs ms r saved = set_members strict gs ms r saved.
Proof.
  intros H. revert r saved. induction ms as [|[k raw] ms IH]; intros r saved; [done|]. cbn [set_members].
  assert (Hf : option_Forall2 same_reader (find_named k fs) (find_named k gs)).
  { unfold find_named. pose proof (find_same (fun n => bool_decide (n = k)) _ _ H) as H1.
    pose proof (find_same (fun n => EqualFold_ascii k n) _ _ H) as H2. cbn beta in *.
    destruct H1; [by constructor|exact H2]. }
  destruct Hf as [f g [_ Hs]|]; [|done]. rewrite Hs. by destruct (f_set g raw r).
Qed.

Lemma decode_same strict fs gs d s r : Forall2 same_reader fs gs -> decode_struct strict fs d s r = decode_struct strict gs d s r.
Proof.
  intros H. unfold decode_struct. destruct s as [|c s]; [done|]. case_match; [|done].
  destruct (object_members d (String c s)); [by apply set_members_same|done].
Qed.

(** What [json.Unmarshal] does with what a table wrote. *)
Lemma emit_total fs r : Forall (fun f => exists o, f_get f r = Ok o) fs -> exists ms, emit fs r = Ok ms.
Proof.
  intros H. induction H as [|f fs [o Ho] _ [ms IH]]; cbn [emit]; [eauto|]. rewrite Ho, IH. eauto.
Qed.

Lemma unmarshal_marshal_struct fs gs r zero r' : names_ok fs -> Forall (emits 1 r) fs -> applies r fs zero r' ->
  Forall2 same_reader gs fs ->
  exists s, marshal_struct fs r = Ok s /\ json_Valid s = true /\ unmarshal_struct gs s zero = Ok r'.
Proof.
  intros Hn He Ha Hsame. destruct (struct_wire fs 0 r zero r' Hn eq_refl He Ha) as (s & vs & Hs & Hv & Hd).
  assert (Hp : json_Valid s = true) by (unfold json_Valid; by rewrite (val_parse 0 s _ Hv : json_parse s = Some (JObject vs))).
  exists s. split; [done|]. split; [done|]. unfold unmarshal_struct. rewrite Hp. cbn [negb].
  destruct (val_first _ _ _ Hv) as (c & t & -> & Hw & _). by rewrite skip_ws_cons, Hw, (decode_same false gs fs), Hd.
Qed.

End Struct.
