(* ===== verification/JsonFields.v ===== *)
(** * The field types of the models' structs

    Per Go type of a field: the text it is written as, what reading a value
    into it does (null included), and that a value survives. *)

From stdpp Require Import sorting.
From S2P Require Import Prelude GoStrings GoText Models Retry GoDuration GoJson JsonText JsonGrammar JsonObject Calendar GoTime JsonStruct.

(** ** Values *)

Lemma json_quote_val d s : val d (json_quote s) (JString (utf8 s)).
Proof. destruct (quote_chars s) as (t & -> & Ht). by constructor. Qed.

Lemma quoted_plain_val d s : plain s -> val d (quoted s) (JString s).
Proof. intros Hs. constructor. by apply plain_chars. Qed.

(** Decoding a string: an escape that does not denote is past the check. *)
Definition decode_text (raw old : string) : decoded string :=
  match raw with
  | String c s =>
      if byte_of c =? 34 then match string_body (String.length s) s with Some (v, _) => Got v | None => Halt json_type_error end
      else if byte_of c =? 110 then Got old
      else TypeErr old
  | EmptyString => Halt json_type_error
  end.

Lemma decode_text_quote s old : decode_text (json_quote s) old = Got (utf8 s).
Proof.
  destruct (quote_chars s) as (t & -> & Ht). unfold decode_text, quoted. change (byte_of quote =? 34) with true. cbv iota.
  by rewrite (chars_body _ _ _ Ht).
Qed.

(** Decoding an int: only an integer literal of 64 bits will do. *)
Definition decode_int (raw : string) (old : Z) : decoded Z :=
  match raw with
  | String c _ =>
      if (byte_of c =? 45) || in_range 48 57 (byte_of c)
      then match ParseInt raw with Ok n => Got n | Error _ => TypeErr old end
      else if byte_of c =? 110 then Got old
      else TypeErr old
  | EmptyString => Halt json_type_error
  end.

Definition decode_bool (raw : string) (old : bool) : decoded bool :=
  match raw with
  | String c _ =>
      if byte_of c =? 116 then Got true else if byte_of c =? 102 then Got false
      else if byte_of c =? 110 then Got old else TypeErr old
  | EmptyString => Halt json_type_error
  end.

(** The decimal form of a positive number starts with another digit than zero. *)
Lemma print_loop_number fuel n acc : 0 < n < 10 ^ Z.of_nat fuel ->
  exists d, 1 <= d <= 9 /\ exists w, print_loop fuel n acc = String (digit_char d) w /\ skip_digits w = skip_digits acc.
Proof.
  revert n acc. induction fuel as [|fuel IH]; intros n acc Hn; [cbn in Hn; lia|]. cbn [print_loop].
  rewrite Nat2Z.inj_succ, Z.pow_succ_r in Hn by lia.
  destruct (n <? 10) eqn:E; zbool; [rewrite Z.mod_small by lia; exists n; split; [lia|]; by eexists|].
  destruct (IH (n / 10) (String (digit_char (n mod 10)) acc)) as (d & Hd & w & -> & Hw); [Z.div_mod_to_equations; lia|].
  exists d. split; [done|]. exists w. split; [done|]. rewrite Hw. cbn [skip_digits].
  by rewrite digit_val_char by (Z.div_mod_to_equations; lia).
Qed.

Lemma Itoa_number n : int64_min <= n <= int64_max -> number (Itoa n).
Proof.
  intros Hn. assert (Hpos : forall k, 0 < k <= 2 ^ 63 -> exists d w, 1 <= d <= 9 /\ print_loop 19 k "" = String (digit_char d) w /\ skip_digits w = "").
  { intros k Hk. destruct (print_loop_number 19 k "") as (d & Hd & w & Hp & Hw); [change (10 ^ Z.of_nat 19) with 10000000000000000000; lia|].
    by exists d, w. }
  assert (Hint : forall d w, 1 <= d <= 9 -> skip_digits w = "" -> number_int (String (digit_char d) w) = Some "").
  { intros d w Hd Hw. cbn [number_int]. rewrite byte_of_digit by lia. rewrite (proj2 (Z.eqb_neq _ 48)) by lia.
    cbn [digits1]. by rewrite digit_val_char, Hw by lia. }
  unfold number, skip_number, Itoa. unfold int64_min, int64_max in Hn. destruct (n <? 0) eqn:E; zbool.
  - change (Ascii.eqb minus minus) with true. cbv iota. destruct (Hpos (- n)) as (d & w & Hd & -> & Hw); [lia|]. by rewrite Hint.
  - destruct (Z.eq_dec n 0) as [->|Hn0]; [reflexivity|]. destruct (Hpos n) as (d & w & Hd & -> & Hw); [lia|].
    destruct (digit_not_sign d) as [-> _]; [lia|]. by rewrite Hint.
Qed.

Lemma decode_int_Itoa n old : int64_min <= n <= int64_max -> decode_int (Itoa n) old = Got n.
Proof.
  intros Hn. destruct (number_first _ (Itoa_number n Hn)) as (c & t & E & Hc%number_start_byte).
  unfold decode_int. rewrite E, <- E, ParseInt_Itoa by done. unfold in_range.
  replace ((byte_of c =? 45) || ((48 <=? byte_of c) && (byte_of c <=? 57))) with true; [done|]. symmetry. apply orb_true_iff.
  destruct Hc; [left; by apply Z.eqb_eq|right; by apply in_range_true].
Qed.

(** ** Maps *)

Definition key_le (a b : string * string) : Prop := String.leb a.1 b.1 = true.
#[global] Instance key_le_dec a b : Decision (key_le a b) := decide (String.leb a.1 b.1 = true).

(** A map is written with its keys in byte order. *)
Definition sorted_pairs (m : gmap string string) : list (string * string) := merge_sort key_le (map_to_list m).
Definition map_text (m : gmap string string) : string :=
  object_text ((fun p => (p.1, json_quote p.2)) <$> sorted_pairs m).

Fixpoint set_entries (ms : list (string * string)) (m : gmap string string) (saved : bool) : decoded (gmap string string) :=
  match ms with
  | [] => if saved then TypeErr m else Got m
  | (k, raw) :: ms' =>
      match decode_text raw "" with
      | Got v => set_entries ms' (<[k := v]> m) saved
      | TypeErr v => set_entries ms' (<[k := v]> m) true
      | Halt e => Halt e
      end
  end.

(** Decoding into a map that may have entries: they stay. *)
Definition decode_map (d : Z) (raw : string) (old : StrMap) : decoded StrMap :=
  match raw with
  | String c _ =>
      if byte_of c =? 123 then
        match object_members d raw with
        | Some ms => decoded_map Some (set_entries ms (default ∅ old) false)
        | None => Halt json_type_error
        end
      else if byte_of c =? 110 then Got None
      else TypeErr old
  | EmptyString => Halt json_type_error
  end.

(** What of a map survives: nothing of an empty one; two keys with the same
    runes become one. *)
Definition wire_entries (l : list (string * string)) (m : gmap string string) : gmap string string :=
  foldl (fun m p => <[utf8 p.1 := utf8 p.2]> m) m l.
Definition wire_map (m : StrMap) : StrMap :=
  match m with
  | Some g => if bool_decide (g = ∅) then None else Some (wire_entries (sorted_pairs g) ∅)
  | None => None
  end.

Lemma set_entries_wire l m :
  set_entries ((fun m => (utf8 m.1, m.2)) <$> ((fun p => (p.1, json_quote p.2)) <$> l)) m false = Got (wire_entries l m).
Proof.
  revert m. induction l as [|[k v] l IH]; intros m; [done|]. rewrite !fmap_cons. cbn [set_entries fst snd].
  by rewrite decode_text_quote, IH.
Qed.

Lemma map_values_ok d l :
  values_ok d ((fun p => (p.1, json_quote p.2)) <$> l) ((fun p => (utf8 p.1, JString (utf8 p.2))) <$> l).
Proof. induction l as [|p l IH]; constructor; [|exact IH]. split; [done|]. apply json_quote_val. Qed.

Lemma decode_map_text d m : decode_map d (map_text m) None = Got (Some (wire_entries (sorted_pairs m) ∅)).
Proof.
  unfold decode_map, map_text. rewrite (object_members_text d _ _ (map_values_ok (d + 1) (sorted_pairs m))).
  unfold object_text. rewrite string_app_cons.
  match goal with |- context [byte_of ?c =? 123] => change (byte_of c =? 123) with true end. cbv iota.
  pose proof (set_entries_wire (sorted_pairs m) ∅) as H. cbn [default]. change (@map ?A ?B ?f ?l) with (f <$> l). by rewrite H.
Qed.

Lemma map_text_val d m : d < maxNestingDepth -> exists v, val d (map_text m) v.
Proof. intros Hd. eexists. apply object_val; [done|]. apply map_values_ok. Qed.

(** Valid UTF-8. *)
Definition utf8_ok (s : string) : bool := bool_decide (utf8 s = s).

Definition map_ok (m : StrMap) : bool :=
  match m with
  | Some g => bool_decide (g <> ∅) && forallb (fun p => utf8_ok p.1 && utf8_ok p.2) (map_to_list g)
  | None => true
  end.

Lemma wire_entries_union l (m : gmap string string) : NoDup l.*1 -> Forall (fun p => utf8 p.1 = p.1 /\ utf8 p.2 = p.2) l ->
  wire_entries l m = list_to_map l ∪ m.
Proof.
  revert m. induction l as [|[k v] l IH]; intros m Hnd Hl; cbn [wire_entries foldl fst snd].
  - by rewrite list_to_map_nil, (left_id_L ∅ (∪)).
  - rewrite fmap_cons in Hnd. apply NoDup_cons in Hnd as [Hk Hnd]. apply Forall_cons in Hl as [[Hk1 Hv1] Hl].
    cbn [fst snd] in *. rewrite Hk1, Hv1. change (foldl _ ?a l) with (wire_entries l a). rewrite IH by done.
    rewrite list_to_map_cons, <- insert_union_l, insert_union_r; [done|]. by apply not_elem_of_list_to_map_1.
Qed.

(** A map of valid strings that is not empty survives as it is. *)
Lemma wire_map_ok m : map_ok m = true -> wire_map m = m.
Proof.
  destruct m as [g|]; [|done]. cbn [map_ok wire_map]. intros H. apply andb_true_iff in H as [Hg H].
  apply bool_decide_eq_true in Hg. rewrite bool_decide_eq_false_2 by done. f_equal.
  assert (Hp : sorted_pairs g ≡ₚ map_to_list g) by apply merge_sort_Permutation.
  rewrite wire_entries_union, (right_id_L ∅ (∪)).
  - rewrite <- (list_to_map_to_list g) at 2. apply list_to_map_proper; [|done]. rewrite Hp. apply NoDup_fst_map_to_list.
  - rewrite Hp. apply NoDup_fst_map_to_list.
  - rewrite Hp. apply Forall_forall. intros p Hpin. rewrite forallb_forall in H.
    apply list_elem_of_In in Hpin. specialize (H p Hpin). unfold utf8_ok in H. zbool. done.
Qed.

(** ** Fields *)

Section Fields.
Context {R : Type}.

Definition string_field (name : string) (get : R -> string) (set : string -> R -> R) : field R :=
  mkField name (fun r => Ok (Some (json_quote (get r))))
    (fun raw r => decoded_map (fun v => set v r) (decode_text raw (get r))).

(** The tag [omitempty]. *)
Definition omitempty (empty : R -> bool) (f : field R) : field R :=
  mkField (f_name f) (fun r => if empty r then Ok None else f_get f r) (f_set f).

Definition string_omit name (get : R -> string) set : field R :=
  omitempty (fun r => bool_decide (get r = "")) (string_field name get set).

Definition int_field (name : string) (get : R -> Z) (set : Z -> R -> R) : field R :=
  mkField name (fun r => Ok (Some (Itoa (get r)))) (fun raw r => decoded_map (fun v => set v r) (decode_int raw (get r))).
Definition int_omit name (get : R -> Z) set : field R := omitempty (fun r => get r =? 0) (int_field name get set).

Definition bool_field (name : string) (get : R -> bool) (set : bool -> R -> R) : field R :=
  mkField name (fun r => Ok (Some (if get r then "true" else "false")))
    (fun raw r => decoded_map (fun v => set v r) (decode_bool raw (get r))).

Definition map_omit (d : Z) (name : string) (get : R -> StrMap) (set : StrMap -> R -> R) : field R :=
  mkField name (fun r => match get r with Some m => if bool_decide (m = ∅) then Ok None else Ok (Some (map_text m)) | None => Ok None end)
    (fun raw r => decoded_map (fun v => set v r) (decode_map d raw (get r))).

(** Types with methods of their own: what MarshalJSON returns is compacted, and
    UnmarshalJSON gets the bytes of the value, null included. *)
Definition method_field {A} (name : string) (marshal : A -> result string) (unmarshal : A -> string -> result A)
    (get : R -> A) (set : A -> R -> R) : field R :=
  mkField name (fun r => match marshal (get r) with Ok s => Ok (Some (compact s)) | Error e => Error e end)
    (fun raw r => match unmarshal (get r) raw with Ok v => Got (set v r) | Error e => Halt e end).

Definition duration_field name (get : R -> Dur) set : field R :=
  method_field name (fun d => Ok (Duration_MarshalJSON d)) (fun _ b => Duration_UnmarshalJSON b) get set.

Definition payload_omit name (get : R -> Payload) set : field R :=
  omitempty (fun r => bool_decide (default "" (get r) = ""))
    (method_field name (fun p => Ok (Payload_MarshalJSON p)) (fun _ b => Ok (Payload_UnmarshalJSON b)) get set).

(** [time.Time], in a location [off] seconds east of UTC. *)
Definition time_field (off : Z) name (get : R -> Time) set : field R :=
  method_field name (Time_MarshalJSON off) Time_UnmarshalJSON get set.

(** [*time.Time]: null makes it nil without asking the method. *)
Definition unmarshal_time_ptr (old : option Time) (b : string) : result (option Time) :=
  match b with
  | String c _ =>
      if byte_of c =? 110 then Ok None
      else match Time_UnmarshalJSON (default 0 old) b with Ok t => Ok (Some t) | Error e => Error e end
  | EmptyString => Error json_type_error
  end.
Definition time_ptr_omit (off : Z) name (get : R -> option Time) set : field R :=
  omitempty (fun r => match get r with Some _ => false | None => true end)
    (method_field name (fun o => match o with Some t => Time_MarshalJSON off t | None => Ok "null" end) unmarshal_time_ptr get set).

Definition struct_field {A} (strict : bool) (fs : list (field A)) (d : Z) (name : string) (get : R -> A) (set : A -> R -> R) : field R :=
  mkField name (fun r => match marshal_struct fs (get r) with Ok s => Ok (Some s) | Error e => Error e end)
    (fun raw r => decoded_map (fun v => set v r) (decode_struct strict fs d raw (get r))).

(** ** Each field writes a value *)

Lemma string_field_emits d r name get set : emits d r (string_field name get set).
Proof. eexists. split; [reflexivity|]. intros raw [= <-]. eexists. apply json_quote_val. Qed.

Lemma omitempty_emits d r empty f : emits d r f -> emits d r (omitempty empty f).
Proof. intros H. unfold emits, omitempty. cbn. destruct (empty r); [by exists None|exact H]. Qed.

Lemma string_omit_emits d r name get set : emits d r (string_omit name get set).
Proof. apply omitempty_emits, string_field_emits. Qed.

Lemma int_field_emits d r name get set : int64_min <= get r <= int64_max -> emits d r (int_field name get set).
Proof. intros Hn. eexists. split; [reflexivity|]. intros raw [= <-]. eexists. by apply val_number, Itoa_number. Qed.

Lemma int_omit_emits d r name get set : int64_min <= get r <= int64_max -> emits d r (int_omit name get set).
Proof. intros Hn. by apply omitempty_emits, int_field_emits. Qed.

Lemma bool_field_emits d r name get set : emits d r (bool_field name get set).
Proof. eexists. split; [reflexivity|]. intros raw [= <-]. destruct (get r); eexists; [apply val_true|apply val_false]. Qed.

Lemma map_omit_emits d r name get set : d < maxNestingDepth -> emits d r (map_omit d name get set).
Proof.
  intros Hd. unfold emits, map_omit. cbn. destruct (get r) as [m|]; [|by exists None]. case_bool_decide; [by exists None|].
  eexists. split; [reflexivity|]. intros raw [= <-]. by apply map_text_val.
Qed.

Lemma method_field_emits {A} d r name (marshal : A -> result string) unmarshal get set s :
  marshal (get r) = Ok s -> is_Some (json_parse_at d s) -> emits d r (method_field name marshal unmarshal get set).
Proof.
  intros Hm [v Hv]. unfold emits, method_field. cbn. rewrite Hm. eexists. split; [reflexivity|]. intros raw [= <-].
  exists v. by apply document_compact, json_parse_grammar.
Qed.

Lemma duration_field_emits d r name get set : emits d r (duration_field name get set).
Proof.
  eapply method_field_emits; [reflexivity|]. eexists. unfold Duration_MarshalJSON. apply val_parse, json_quote_val.
Qed.

(** A payload that is JSON may be so deep that it is none inside the job. *)
Definition payload_fits (d : Z) (p : Payload) : bool :=
  match p with Some s => negb (json_Valid s) || bool_decide (is_Some (json_parse_at d s)) | None => true end.

Lemma payload_omit_emits d r name get set : payload_fits d (get r) = true -> emits d r (payload_omit name get set).
Proof.
  intros Hf. apply omitempty_emits. eapply method_field_emits; [reflexivity|].
  unfold Payload_MarshalJSON. case_bool_decide as Hp; [eexists; apply val_parse, val_null|].
  destruct (get r) as [s|] eqn:E; [|done]. cbn [payload_fits] in Hf. change (default "" (Some s)) with s in *.
  destruct (json_Valid s) eqn:Hv.
  - by apply bool_decide_eq_true in Hf.
  - eexists. apply val_parse, json_quote_val.
Qed.

Lemma plain_digits2 v acc : 0 <= v <= 99 -> plain acc -> plain (digits2 v acc).
Proof. intros Hv Ha. unfold digits2. do 2 (apply plain_digit; [Z.div_mod_to_equations; lia|]). done. Qed.

Lemma plain_punct c s : plain_byte (byte_of c) = true -> plain s -> plain (String c s).
Proof. by constructor. Qed.

Lemma plain_zone_text off : Z.abs (Z.quot off 60) / 60 < 24 -> plain (zone_text off).
Proof.
  intros Hz. unfold zone_text. destruct (off =? 0); [by apply plain_punct; [|constructor]|]. cbv zeta.
  apply plain_punct; [by destruct (_ <? 0)|].
  apply plain_digits2; [Z.div_mod_to_equations; lia|]. apply plain_punct; [done|].
  apply plain_digits2; [Z.div_mod_to_equations; lia|]. constructor.
Qed.

Lemma plain_format_RFC3339 off t s : printable off t = true -> format_RFC3339 off t = Ok s -> plain s.
Proof.
  unfold printable. intros Hp. zbool. unfold format_RFC3339. set (l := t + off * Second) in *.
  pose proof (day_of_nonneg l ltac:(done)) as Hd. pose proof (Day_bounds l Hd). pose proof (Year_pos l ltac:(done)).
  pose proof (Month_bounds l). pose proof (Hour_bounds l). pose proof (Minute_bounds l). pose proof (Second_bounds l).
  assert (Hfr : plain (fmtFrac 9 (Nanosecond_of l) (zone_text off)).1).
  { destruct (fmtFrac 9 _ _) as [acc q] eqn:E. apply plain_fmtFrac in E as [Ha _]; [done|by apply Z.mod_pos_bound|by apply plain_zone_text]. }
  remember (fmtFrac 9 (Nanosecond_of l) (zone_text off)).1 as fr eqn:Efr. clear Efr.
  destruct (negb _); [done|]. destruct (24 <=? _); [done|]. intros [= <-]. unfold digits4.
  repeat first [apply plain_punct; [done|]|apply plain_digits2; [Z.div_mod_to_equations; lia|]]. done.
Qed.

Lemma Time_MarshalJSON_wire old off t : printable off t = true -> exists s, plain s /\ Time_MarshalJSON off t = Ok (quoted s) /\
  Time_UnmarshalJSON old (quoted s) = Ok t.
Proof.
  intros Hp. destruct (Time_wire old off t Hp) as (s & Hm & Hf & Hu). exists s. split; [by eapply plain_format_RFC3339|done].
Qed.

Lemma time_field_emits d off r name get set : printable off (get r) = true -> emits d r (time_field off name get set).
Proof.
  intros Hp. destruct (Time_MarshalJSON_wire 0 off _ Hp) as (s & Hs & Hm & _). eapply method_field_emits; [exact Hm|].
  eexists. by apply val_parse, quoted_plain_val.
Qed.

Definition printable_ptr (off : Z) (o : option Time) : bool := match o with Some t => printable off t | None => true end.

Lemma time_ptr_omit_emits d off r name get set : printable_ptr off (get r) = true -> emits d r (time_ptr_omit off name get set).
Proof.
  intros Hp. apply omitempty_emits. destruct (get r) as [t|] eqn:E.
  - destruct (Time_MarshalJSON_wire 0 off _ Hp) as (s & Hs & Hm & _). eapply method_field_emits; [rewrite E; exact Hm|].
    eexists. by apply val_parse, quoted_plain_val.
  - eapply method_field_emits; [by rewrite E|]. eexists. apply val_parse, val_null.
Qed.

(** ** Each field reads what it wrote *)

Lemma string_field_apply r st name get set : apply_field (string_field name get set) r st = Got (set (utf8 (get r)) st).
Proof. unfold apply_field, string_field. cbn [f_get f_set]. by rewrite decode_text_quote. Qed.

Lemma omitempty_apply empty f r st st' :
  (empty r = true -> st = st') -> (empty r = false -> apply_field f r st = Got st') ->
  apply_field (omitempty empty f) r st = Got st'.
Proof. intros H1 H2. unfold apply_field, omitempty in *. cbn [f_get f_set]. destruct (empty r); [by rewrite H1|by apply H2]. Qed.

Lemma string_omit_apply r st name get set : set "" st = st -> apply_field (string_omit name get set) r st = Got (set (utf8 (get r)) st).
Proof.
  intros H. apply omitempty_apply; intros E; [|apply string_field_apply]. apply bool_decide_eq_true in E. rewrite E. by symmetry.
Qed.

Lemma int_field_apply r st name get set : int64_min <= get r <= int64_max ->
  apply_field (int_field name get set) r st = Got (set (get r) st).
Proof. intros Hn. unfold apply_field, int_field. cbn [f_get f_set]. by rewrite decode_int_Itoa. Qed.

Lemma int_omit_apply r st name get set : int64_min <= get r <= int64_max -> set 0 st = st ->
  apply_field (int_omit name get set) r st = Got (set (get r) st).
Proof. intros Hn H. apply omitempty_apply; intros E; [|by apply int_field_apply]. zbool. rewrite E. by symmetry. Qed.

Lemma bool_field_apply r st name get set : apply_field (bool_field name get set) r st = Got (set (get r) st).
Proof. unfold apply_field. cbn. by destruct (get r). Qed.

Lemma map_omit_apply d r st name get set : get st = None -> set None st = st ->
  apply_field (map_omit d name get set) r st = Got (set (wire_map (get r)) st).
Proof.
  intros Hst H. unfold apply_field, map_omit. cbn [f_get f_set]. unfold wire_map. destruct (get r) as [m|]; [|by rewrite H].
  case_bool_decide; [by rewrite H|]. by rewrite Hst, decode_map_text.
Qed.

Lemma duration_field_apply r st name get set : int64_min <= get r <= int64_max ->
  apply_field (duration_field name get set) r st = Got (set (get r) st).
Proof.
  intros Hn. unfold apply_field, duration_field, method_field. cbn [f_get f_set].
  replace (compact (Duration_MarshalJSON (get r))) with (Duration_MarshalJSON (get r)); [by rewrite Duration_wire|].
  pose proof (plain_Duration_String (get r)) as Hp. unfold Duration_MarshalJSON, json_quote. rewrite plain_quote by done.
  symmetry. by apply compact_plain.
Qed.

(** A payload arrives compacted; the empty one as nil. *)
Definition wire_payload (p : Payload) : Payload :=
  if bool_decide (default "" p = "") then None else Some (compact (Payload_MarshalJSON p)).

Lemma payload_omit_apply r st name get set : set None st = st ->
  apply_field (payload_omit name get set) r st = Got (set (wire_payload (get r)) st).
Proof.
  intros H. unfold wire_payload. apply omitempty_apply; intros E; rewrite E; [by symmetry|done].
Qed.

Lemma time_field_apply off r st name get set : printable off (get r) = true ->
  apply_field (time_field off name get set) r st = Got (set (get r) st).
Proof.
  intros Hp. destruct (Time_MarshalJSON_wire (get st) off _ Hp) as (s & Hs & Hm & Hu).
  unfold apply_field, time_field, method_field. cbn [f_get f_set]. by rewrite Hm, compact_plain, Hu.
Qed.

Lemma time_ptr_omit_apply off r st name get set : printable_ptr off (get r) = true -> set None st = st ->
  apply_field (time_ptr_omit off name get set) r st = Got (set (get r) st).
Proof.
  intros Hp H. apply omitempty_apply; destruct (get r) as [t|] eqn:E; try done. intros _. cbn in Hp.
  destruct (Time_MarshalJSON_wire (default 0 (get st)) off _ Hp) as (s & Hs & Hm & Hu).
  unfold apply_field, method_field. cbn [f_get f_set]. rewrite E, Hm, compact_plain by done. unfold unmarshal_time_ptr.
  unfold quoted at 1. change (byte_of quote =? 110) with false. cbv iota. by rewrite Hu.
Qed.

Lemma struct_field_apply {A} strict (fs : list (field A)) d r st name get set a s : marshal_struct fs (get r) = Ok s ->
  decode_struct strict fs d s (get st) = Got a -> apply_field (struct_field strict fs d name get set) r st = Got (set a st).
Proof. intros Hm Hd. unfold apply_field, struct_field. cbn [f_get f_set]. by rewrite Hm, Hd. Qed.

Lemma struct_field_emits {A} strict (fs : list (field A)) d r name get set s v : marshal_struct fs (get r) = Ok s -> val d s v ->
  emits d r (struct_field strict fs d name get set).
Proof.
  intros Hm Hv. unfold emits, struct_field. cbn [f_get]. rewrite Hm. eexists. split; [reflexivity|]. intros raw [= <-]. by exists v.
Qed.

End Fields.

Lemma int64_range n : int64_ok n = true -> int64_min <= n <= int64_max.
Proof. unfold int64_ok. intros H. zbool. done. Qed.

Create HintDb wire.
#[export] Hint Resolve int64_range string_field_emits string_omit_emits int_field_emits int_omit_emits bool_field_emits
  map_omit_emits duration_field_emits payload_omit_emits time_field_emits time_ptr_omit_emits : wire.
#[export] Hint Resolve string_field_apply string_omit_apply int_field_apply int_omit_apply bool_field_apply map_omit_apply
  duration_field_apply payload_omit_apply time_field_apply time_ptr_omit_apply : wire.
#[export] Hint Extern 1 (_ < maxNestingDepth) => first [reflexivity|lia] : wire.
#[export] Hint Extern 5 (_ = _) => reflexivity : wire.
