(* ===== verification/JobJson.v ===== *)
(** * Jobs and schedules on the wire

    The JSON forms of [models.Task], [models.Job] and [models.Schedule] by their
    struct tags: what a response body and a Kafka message carry, and what the
    Kafka consumer reads.  [LeaseToken] has the tag "-" and is in no table. *)

From S2P Require Import Prelude GoStrings GoText Models Retry GoDuration GoJson JsonText JsonGrammar JsonObject Calendar GoTime.
From S2P Require Import JsonStruct JsonFields.

(** ** The fields as lenses *)

Definition set_Task_ID (x : string) (r : Task) : Task :=
  match r with mkTask _ a1 a2 a3 a4 a5 a6 a7 a8 a9 => mkTask x a1 a2 a3 a4 a5 a6 a7 a8 a9 end.
Definition set_Task_Name (x : string) (r : Task) : Task :=
  match r with mkTask a0 _ a2 a3 a4 a5 a6 a7 a8 a9 => mkTask a0 x a2 a3 a4 a5 a6 a7 a8 a9 end.
Definition set_Task_Payload (x : Payload) (r : Task) : Task :=
  match r with mkTask a0 a1 _ a3 a4 a5 a6 a7 a8 a9 => mkTask a0 a1 x a3 a4 a5 a6 a7 a8 a9 end.
Definition set_Task_RetryCount (x : Z) (r : Task) : Task :=
  match r with mkTask a0 a1 a2 _ a4 a5 a6 a7 a8 a9 => mkTask a0 a1 a2 x a4 a5 a6 a7 a8 a9 end.
Definition set_Task_MaxRetries (x : Z) (r : Task) : Task :=
  match r with mkTask a0 a1 a2 a3 _ a5 a6 a7 a8 a9 => mkTask a0 a1 a2 a3 x a5 a6 a7 a8 a9 end.
Definition set_Task_Timeout (x : Dur) (r : Task) : Task :=
  match r with mkTask a0 a1 a2 a3 a4 _ a6 a7 a8 a9 => mkTask a0 a1 a2 a3 a4 x a6 a7 a8 a9 end.
Definition set_Task_CronExpression (x : string) (r : Task) : Task :=
  match r with mkTask a0 a1 a2 a3 a4 a5 _ a7 a8 a9 => mkTask a0 a1 a2 a3 a4 a5 x a7 a8 a9 end.
Definition set_Task_Queue (x : string) (r : Task) : Task :=
  match r with mkTask a0 a1 a2 a3 a4 a5 a6 _ a8 a9 => mkTask a0 a1 a2 a3 a4 a5 a6 x a8 a9 end.
Definition set_Task_Metadata (x : StrMap) (r : Task) : Task :=
  match r with mkTask a0 a1 a2 a3 a4 a5 a6 a7 _ a9 => mkTask a0 a1 a2 a3 a4 a5 a6 a7 x a9 end.
Definition set_Task_Priority (x : Z) (r : Task) : Task :=
  match r with mkTask a0 a1 a2 a3 a4 a5 a6 a7 a8 _ => mkTask a0 a1 a2 a3 a4 a5 a6 a7 a8 x end.

Definition set_Job_ID (x : string) (r : Job) : Job :=
  match r with mkJob _ a1 a2 a3 a4 a5 a6 a7 a8 a9 a10 a11 a12 a13 a14 => mkJob x a1 a2 a3 a4 a5 a6 a7 a8 a9 a10 a11 a12 a13 a14 end.
Definition set_Job_TenantID (x : string) (r : Job) : Job :=
  match r with mkJob a0 _ a2 a3 a4 a5 a6 a7 a8 a9 a10 a11 a12 a13 a14 => mkJob a0 x a2 a3 a4 a5 a6 a7 a8 a9 a10 a11 a12 a13 a14 end.
Definition set_Job_IdempotencyKey (x : string) (r : Job) : Job :=
  match r with mkJob a0 a1 _ a3 a4 a5 a6 a7 a8 a9 a10 a11 a12 a13 a14 => mkJob a0 a1 x a3 a4 a5 a6 a7 a8 a9 a10 a11 a12 a13 a14 end.
Definition set_Job_Task (x : Task) (r : Job) : Job :=
  match r with mkJob a0 a1 a2 _ a4 a5 a6 a7 a8 a9 a10 a11 a12 a13 a14 => mkJob a0 a1 a2 x a4 a5 a6 a7 a8 a9 a10 a11 a12 a13 a14 end.
Definition set_Job_State (x : JobState) (r : Job) : Job :=
  match r with mkJob a0 a1 a2 a3 _ a5 a6 a7 a8 a9 a10 a11 a12 a13 a14 => mkJob a0 a1 a2 a3 x a5 a6 a7 a8 a9 a10 a11 a12 a13 a14 end.
Definition set_Job_Attempt (x : Z) (r : Job) : Job :=
  match r with mkJob a0 a1 a2 a3 a4 _ a6 a7 a8 a9 a10 a11 a12 a13 a14 => mkJob a0 a1 a2 a3 a4 x a6 a7 a8 a9 a10 a11 a12 a13 a14 end.
Definition set_Job_ScheduledAt (x : option Time) (r : Job) : Job :=
  match r with mkJob a0 a1 a2 a3 a4 a5 _ a7 a8 a9 a10 a11 a12 a13 a14 => mkJob a0 a1 a2 a3 a4 a5 x a7 a8 a9 a10 a11 a12 a13 a14 end.
Definition set_Job_StartedAt (x : option Time) (r : Job) : Job :=
  match r with mkJob a0 a1 a2 a3 a4 a5 a6 _ a8 a9 a10 a11 a12 a13 a14 => mkJob a0 a1 a2 a3 a4 a5 a6 x a8 a9 a10 a11 a12 a13 a14 end.
Definition set_Job_LeaseExpiresAt (x : option Time) (r : Job) : Job :=
  match r with mkJob a0 a1 a2 a3 a4 a5 a6 a7 _ a9 a10 a11 a12 a13 a14 => mkJob a0 a1 a2 a3 a4 a5 a6 a7 x a9 a10 a11 a12 a13 a14 end.
Definition set_Job_CompletedAt (x : option Time) (r : Job) : Job :=
  match r with mkJob a0 a1 a2 a3 a4 a5 a6 a7 a8 a9 _ a11 a12 a13 a14 => mkJob a0 a1 a2 a3 a4 a5 a6 a7 a8 a9 x a11 a12 a13 a14 end.
Definition set_Job_LastError (x : string) (r : Job) : Job :=
  match r with mkJob a0 a1 a2 a3 a4 a5 a6 a7 a8 a9 a10 _ a12 a13 a14 => mkJob a0 a1 a2 a3 a4 a5 a6 a7 a8 a9 a10 x a12 a13 a14 end.
Definition set_Job_Metadata (x : StrMap) (r : Job) : Job :=
  match r with mkJob a0 a1 a2 a3 a4 a5 a6 a7 a8 a9 a10 a11 _ a13 a14 => mkJob a0 a1 a2 a3 a4 a5 a6 a7 a8 a9 a10 a11 x a13 a14 end.
Definition set_Job_CreatedAt (x : Time) (r : Job) : Job :=
  match r with mkJob a0 a1 a2 a3 a4 a5 a6 a7 a8 a9 a10 a11 a12 _ a14 => mkJob a0 a1 a2 a3 a4 a5 a6 a7 a8 a9 a10 a11 a12 x a14 end.
Definition set_Job_UpdatedAt (x : Time) (r : Job) : Job :=
  match r with mkJob a0 a1 a2 a3 a4 a5 a6 a7 a8 a9 a10 a11 a12 a13 _ => mkJob a0 a1 a2 a3 a4 a5 a6 a7 a8 a9 a10 a11 a12 a13 x end.

Definition set_Schedule_ID (x : string) (r : Schedule) : Schedule :=
  match r with mkSchedule _ a1 a2 a3 a4 a5 a6 a7 a8 a9 a10 => mkSchedule x a1 a2 a3 a4 a5 a6 a7 a8 a9 a10 end.
Definition set_Schedule_TenantID (x : string) (r : Schedule) : Schedule :=
  match r with mkSchedule a0 _ a2 a3 a4 a5 a6 a7 a8 a9 a10 => mkSchedule a0 x a2 a3 a4 a5 a6 a7 a8 a9 a10 end.
Definition set_Schedule_Name (x : string) (r : Schedule) : Schedule :=
  match r with mkSchedule a0 a1 _ a3 a4 a5 a6 a7 a8 a9 a10 => mkSchedule a0 a1 x a3 a4 a5 a6 a7 a8 a9 a10 end.
Definition set_Schedule_Cron (x : string) (r : Schedule) : Schedule :=
  match r with mkSchedule a0 a1 a2 _ a4 a5 a6 a7 a8 a9 a10 => mkSchedule a0 a1 a2 x a4 a5 a6 a7 a8 a9 a10 end.
Definition set_Schedule_Task (x : Task) (r : Schedule) : Schedule :=
  match r with mkSchedule a0 a1 a2 a3 _ a5 a6 a7 a8 a9 a10 => mkSchedule a0 a1 a2 a3 x a5 a6 a7 a8 a9 a10 end.
Definition set_Schedule_Enabled (x : bool) (r : Schedule) : Schedule :=
  match r with mkSchedule a0 a1 a2 a3 a4 _ a6 a7 a8 a9 a10 => mkSchedule a0 a1 a2 a3 a4 x a6 a7 a8 a9 a10 end.
Definition set_Schedule_NextRunAt (x : Time) (r : Schedule) : Schedule :=
  match r with mkSchedule a0 a1 a2 a3 a4 a5 _ a7 a8 a9 a10 => mkSchedule a0 a1 a2 a3 a4 a5 x a7 a8 a9 a10 end.
Definition set_Schedule_LastRunAt (x : option Time) (r : Schedule) : Schedule :=
  match r with mkSchedule a0 a1 a2 a3 a4 a5 a6 _ a8 a9 a10 => mkSchedule a0 a1 a2 a3 a4 a5 a6 x a8 a9 a10 end.
Definition set_Schedule_LastJobID (x : string) (r : Schedule) : Schedule :=
  match r with mkSchedule a0 a1 a2 a3 a4 a5 a6 a7 _ a9 a10 => mkSchedule a0 a1 a2 a3 a4 a5 a6 a7 x a9 a10 end.
Definition set_Schedule_CreatedAt (x : Time) (r : Schedule) : Schedule :=
  match r with mkSchedule a0 a1 a2 a3 a4 a5 a6 a7 a8 _ a10 => mkSchedule a0 a1 a2 a3 a4 a5 a6 a7 a8 x a10 end.
Definition set_Schedule_UpdatedAt (x : Time) (r : Schedule) : Schedule :=
  match r with mkSchedule a0 a1 a2 a3 a4 a5 a6 a7 a8 a9 _ => mkSchedule a0 a1 a2 a3 a4 a5 a6 a7 a8 a9 x end.

(** The states have six values here; a string that is none of the constants
    reads as the unset one. *)
Definition JobState_of (s : string) : JobState :=
  if bool_decide (s = "PENDING") then JobStatePending else if bool_decide (s = "RUNNING") then JobStateRunning
  else if bool_decide (s = "COMPLETED") then JobStateCompleted else if bool_decide (s = "FAILED") then JobStateFailed
  else if bool_decide (s = "DEAD") then JobStateDead else JobStateUnset.

(** ** The tables *)

(** A task that is [d] levels deep. *)
Definition task_fields (d : Z) : list (field Task) :=
  [ string_field "id" Task_ID set_Task_ID;
    string_field "name" Task_Name set_Task_Name;
    payload_omit "payload" Task_Payload set_Task_Payload;
    int_field "retry_count" Task_RetryCount set_Task_RetryCount;
    int_field "max_retries" Task_MaxRetries set_Task_MaxRetries;
    duration_field "timeout" Task_Timeout set_Task_Timeout;
    string_omit "cron_expression" Task_CronExpression set_Task_CronExpression;
    string_omit "queue" Task_Queue set_Task_Queue;
    map_omit (d + 1) "metadata" Task_Metadata set_Task_Metadata;
    int_omit "priority" Task_Priority set_Task_Priority ].

(** [loc] is the offset of the location each time field carries. *)
Definition job_fields (d : Z) (loc : string -> Z) : list (field Job) :=
  [ string_field "id" Job_ID set_Job_ID;
    string_field "tenant_id" Job_TenantID set_Job_TenantID;
    string_omit "idempotency_key" Job_IdempotencyKey set_Job_IdempotencyKey;
    struct_field false (task_fields (d + 1)) (d + 1) "task" Job_Task set_Job_Task;
    string_field "state" (fun j => JobState_string (Job_State j)) (fun s => set_Job_State (JobState_of s));
    int_field "attempt" Job_Attempt set_Job_Attempt;
    time_ptr_omit (loc "scheduled_at") "scheduled_at" Job_ScheduledAt set_Job_ScheduledAt;
    time_ptr_omit (loc "started_at") "started_at" Job_StartedAt set_Job_StartedAt;
    time_ptr_omit (loc "lease_expires_at") "lease_expires_at" Job_LeaseExpiresAt set_Job_LeaseExpiresAt;
    time_ptr_omit (loc "completed_at") "completed_at" Job_CompletedAt set_Job_CompletedAt;
    string_omit "last_error" Job_LastError set_Job_LastError;
    map_omit (d + 1) "metadata" Job_Metadata set_Job_Metadata;
    time_field (loc "created_at") "created_at" Job_CreatedAt set_Job_CreatedAt;
    time_field (loc "updated_at") "updated_at" Job_UpdatedAt set_Job_UpdatedAt ].

Definition schedule_fields (d : Z) (loc : string -> Z) : list (field Schedule) :=
  [ string_field "id" Schedule_ID set_Schedule_ID;
    string_field "tenant_id" Schedule_TenantID set_Schedule_TenantID;
    string_field "name" Schedule_Name set_Schedule_Name;
    string_field "cron" Schedule_Cron set_Schedule_Cron;
    struct_field false (task_fields (d + 1)) (d + 1) "task" Schedule_Task set_Schedule_Task;
    bool_field "enabled" Schedule_Enabled set_Schedule_Enabled;
    time_field (loc "next_run_at") "next_run_at" Schedule_NextRunAt set_Schedule_NextRunAt;
    time_ptr_omit (loc "last_run_at") "last_run_at" Schedule_LastRunAt set_Schedule_LastRunAt;
    string_omit "last_job_id" Schedule_LastJobID set_Schedule_LastJobID;
    time_field (loc "created_at") "created_at" Schedule_CreatedAt set_Schedule_CreatedAt;
    time_field (loc "updated_at") "updated_at" Schedule_UpdatedAt set_Schedule_UpdatedAt ].

(** [json.Marshal] and [json.Unmarshal]. *)
Definition marshal_job (loc : string -> Z) (j : Job) : result string := marshal_struct (job_fields 0 loc) j.
Definition unmarshal_job (s : string) : result Job := unmarshal_struct (job_fields 0 (fun _ => 0)) s zeroJob.

Definition zeroSchedule : Schedule := mkSchedule "" "" "" "" zeroTask false 0 None "" 0 0.
Definition marshal_schedule (loc : string -> Z) (s : Schedule) : result string := marshal_struct (schedule_fields 0 loc) s.
Definition unmarshal_schedule (s : string) : result Schedule := unmarshal_struct (schedule_fields 0 (fun _ => 0)) s zeroSchedule.

(** ** What survives *)

Definition task_wire (t : Task) : Task :=
  mkTask (utf8 (Task_ID t)) (utf8 (Task_Name t)) (wire_payload (Task_Payload t)) (Task_RetryCount t) (Task_MaxRetries t)
    (Task_Timeout t) (utf8 (Task_CronExpression t)) (utf8 (Task_Queue t)) (wire_map (Task_Metadata t)) (Task_Priority t).

Definition job_wire (j : Job) : Job :=
  mkJob (utf8 (Job_ID j)) (utf8 (Job_TenantID j)) (utf8 (Job_IdempotencyKey j)) (task_wire (Job_Task j)) (Job_State j)
    (Job_Attempt j) (Job_ScheduledAt j) (Job_StartedAt j) (Job_LeaseExpiresAt j) "" (Job_CompletedAt j)
    (utf8 (Job_LastError j)) (wire_map (Job_Metadata j)) (Job_CreatedAt j) (Job_UpdatedAt j).

Definition schedule_wire (s : Schedule) : Schedule :=
  mkSchedule (utf8 (Schedule_ID s)) (utf8 (Schedule_TenantID s)) (utf8 (Schedule_Name s)) (utf8 (Schedule_Cron s))
    (task_wire (Schedule_Task s)) (Schedule_Enabled s) (Schedule_NextRunAt s) (Schedule_LastRunAt s)
    (utf8 (Schedule_LastJobID s)) (Schedule_CreatedAt s) (Schedule_UpdatedAt s).

(** What the Go types give (64-bit integers), times of four-digit years in
    locations of whole minutes, and a payload not nested to the limit. *)
Definition task_sendable (d : Z) (t : Task) : bool :=
  int64_ok (Task_RetryCount t) && int64_ok (Task_MaxRetries t) && int64_ok (Task_Timeout t) && int64_ok (Task_Priority t)
  && payload_fits (d + 1) (Task_Payload t).

Definition job_sendable_at (d : Z) (loc : string -> Z) (j : Job) : bool :=
  task_sendable (d + 1) (Job_Task j) && int64_ok (Job_Attempt j)
  && printable_ptr (loc "scheduled_at") (Job_ScheduledAt j) && printable_ptr (loc "started_at") (Job_StartedAt j)
  && printable_ptr (loc "lease_expires_at") (Job_LeaseExpiresAt j) && printable_ptr (loc "completed_at") (Job_CompletedAt j)
  && printable (loc "created_at") (Job_CreatedAt j) && printable (loc "updated_at") (Job_UpdatedAt j).

Definition job_sendable (loc : string -> Z) (j : Job) : bool := job_sendable_at 0 loc j.

Definition schedule_sendable_at (d : Z) (loc : string -> Z) (s : Schedule) : bool :=
  task_sendable (d + 1) (Schedule_Task s) && printable (loc "next_run_at") (Schedule_NextRunAt s)
  && printable_ptr (loc "last_run_at") (Schedule_LastRunAt s)
  && printable (loc "created_at") (Schedule_CreatedAt s) && printable (loc "updated_at") (Schedule_UpdatedAt s).

Definition schedule_sendable (loc : string -> Z) (s : Schedule) : bool := schedule_sendable_at 0 loc s.

(** ** The tables at work *)

Lemma task_names d : names_ok (task_fields d).
Proof. split; [apply (bool_decide_unpack _); vm_compute; exact I|]. repeat constructor. Qed.

Lemma job_names d loc : names_ok (job_fields d loc).
Proof. split; [apply (bool_decide_unpack _); vm_compute; exact I|]. repeat constructor. Qed.

Lemma schedule_names d loc : names_ok (schedule_fields d loc).
Proof. split; [apply (bool_decide_unpack _); vm_compute; exact I|]. repeat constructor. Qed.

(** A field of a table: it writes a value, it reads what it wrote. *)
Ltac emits_all := repeat (apply Forall_cons_2; [by eauto with wire|]); apply Forall_nil_2.
Ltac applies_all := repeat (eapply applies_cons; [by eauto with wire|]); apply applies_nil.

Lemma task_wire_struct d t : d + 1 < maxNestingDepth -> task_sendable d t = true ->
  exists s vs, marshal_struct (task_fields d) t = Ok s /\ val d s (JObject vs) /\
    forall strict, decode_struct strict (task_fields d) d s zeroTask = Got (task_wire t).
Proof.
  unfold task_sendable. intros Hd H. zbool. apply struct_wire; [apply task_names|lia|emits_all|applies_all].
Qed.

Lemma JobState_wire s : JobState_of (utf8 (JobState_string s)) = s.
Proof. by destruct s. Qed.

Lemma task_field_emits {R} strict d (get : R -> Task) set r : d + 1 < maxNestingDepth -> task_sendable d (get r) = true ->
  emits d r (struct_field strict (task_fields d) d "task" get set).
Proof. intros Hd H. destruct (task_wire_struct _ _ Hd H) as (s & vs & Hs & Hv & _). by eapply struct_field_emits. Qed.

Lemma task_field_apply {R} strict d (get : R -> Task) set r st : d + 1 < maxNestingDepth -> task_sendable d (get r) = true -> get st = zeroTask ->
  apply_field (struct_field strict (task_fields d) d "task" get set) r st = Got (set (task_wire (get r)) st).
Proof.
  intros Hd H Hst. destruct (task_wire_struct _ _ Hd H) as (s & vs & Hs & _ & Hdec). eapply struct_field_apply; [done|]. by rewrite Hst.
Qed.
#[export] Hint Resolve task_field_emits task_field_apply : wire.

Lemma job_emits d loc j : d + 2 < maxNestingDepth -> job_sendable_at d loc j = true -> Forall (emits (d + 1) j) (job_fields d loc).
Proof. unfold job_sendable_at. intros Hd H. zbool. emits_all. Qed.

Lemma job_applies d loc j : d + 2 < maxNestingDepth -> job_sendable_at d loc j = true -> applies j (job_fields d loc) zeroJob (job_wire j).
Proof.
  unfold job_sendable_at. intros Hd H. zbool. unfold job_wire. rewrite <- (JobState_wire (Job_State j)) at 1. applies_all.
Qed.

Lemma schedule_emits d loc s : d + 2 < maxNestingDepth -> schedule_sendable_at d loc s = true ->
  Forall (emits (d + 1) s) (schedule_fields d loc).
Proof. unfold schedule_sendable_at. intros Hd H. zbool. emits_all. Qed.

Lemma schedule_applies d loc s : d + 2 < maxNestingDepth -> schedule_sendable_at d loc s = true ->
  applies s (schedule_fields d loc) zeroSchedule (schedule_wire s).
Proof. unfold schedule_sendable_at. intros Hd H. zbool. applies_all. Qed.

Lemma job_wire_text loc j : job_sendable loc j = true ->
  exists s, marshal_job loc j = Ok s /\ json_Valid s = true /\ unmarshal_job s = Ok (job_wire j).
Proof.
  intros H. apply unmarshal_marshal_struct; [apply job_names|by apply (job_emits 0)|by apply (job_applies 0)|by repeat constructor].
Qed.

(** C32. A job survives the wire: what [json.Marshal] writes is valid JSON, and
    [json.Unmarshal] reads it as the job with its token cleared, its strings as
    UTF-8, its payload compacted and its empty maps and payload gone. *)
Theorem job_wire_roundtrip loc j : job_sendable loc j = true ->
  exists s, marshal_job loc j = Ok s /\ json_Valid s = true /\ unmarshal_job s = Ok (job_wire j).
Proof. exact (job_wire_text loc j). Qed.

(** A job with everything set, its times in three locations. *)
Definition wire_sample : Job :=
  mkJob "job-1" "acme" "key" (mkTask "t" (String (char 233) "<n>") (Some " [1, 2.5e3]") 1 3 (-1500000000) "" "etl" (Some {["k" := "v"; "j" := "w"]}) (-7))
    JobStateRunning 2 (Some (Date 2024 2 29 23 59)) None (Some (Date 2024 3 1 0 0 + 123456789)) "secret" None "boom" (Some ∅)
    (Date 2024 2 29 22 0) (Date 9999 12 31 23 59).
Definition wire_locations (name : string) : Z :=
  if bool_decide (name = "created_at") then -18000 else if bool_decide (name = "scheduled_at") then 20700 else 0.

Lemma job_wire_roundtrip_witness :
  exists s, marshal_job wire_locations wire_sample = Ok s /\ json_Valid s = true /\ unmarshal_job s = Ok (job_wire wire_sample).
Proof. apply job_wire_roundtrip. vm_compute. reflexivity. Defined.

(** Strings in UTF-8, maps that are nil or not empty, a payload that is nil or
    JSON: what the API lets through. *)
Definition payload_clean (p : Payload) : bool := match p with Some s => json_Valid s | None => true end.
Definition task_clean (t : Task) : bool :=
  utf8_ok (Task_ID t) && utf8_ok (Task_Name t) && utf8_ok (Task_CronExpression t) && utf8_ok (Task_Queue t)
  && map_ok (Task_Metadata t) && payload_clean (Task_Payload t).
Definition job_clean (j : Job) : bool :=
  utf8_ok (Job_ID j) && utf8_ok (Job_TenantID j) && utf8_ok (Job_IdempotencyKey j) && utf8_ok (Job_LastError j)
  && map_ok (Job_Metadata j) && task_clean (Job_Task j).

Lemma wire_payload_clean p : payload_clean p = true -> wire_payload p = compact <$> p.
Proof.
  destruct p as [s|]; [|done]. cbn [payload_clean]. intros Hv. unfold wire_payload, Payload_MarshalJSON.
  change (default "" (Some s)) with s. rewrite bool_decide_eq_false_2 by (intros ->; done). by rewrite Hv.
Qed.

(** A clean job arrives as it is but for its token and the white space of its
    payload, which denotes the same JSON value. *)
Theorem job_wire_clean j : job_clean j = true ->
  job_wire j = match j with
               | mkJob id tenant key t st at_ sch sta lease _ compl err meta cr upd =>
                   mkJob id tenant key (set_Task_Payload (compact <$> Task_Payload t) t) st at_ sch sta lease "" compl err meta cr upd
               end /\
  forall p v, Task_Payload (Job_Task j) = Some p -> json_parse p = Some v ->
    exists p', Task_Payload (Job_Task (job_wire j)) = Some p' /\ json_parse p' = Some v.
Proof.
  unfold job_clean, task_clean, utf8_ok. intros H. zbool. split.
  - unfold job_wire, task_wire. rewrite wire_payload_clean, !wire_map_ok by done.
    repeat match goal with H : utf8 ?x = ?x |- _ => rewrite H; clear H end. destruct j as [? ? ? t]. by destruct t.
  - intros p v Hp Hv. cbn. rewrite wire_payload_clean, Hp by done. exists (compact p). split; [done|]. by apply json_parse_compact.
Qed.

Lemma job_wire_clean_witness :
  job_wire (set_Job_Metadata None (set_Job_Task (mkTask "t" "n" (Some "[ 1 ]") 0 0 0 "" "q" None 0) wire_sample)) =
    set_Job_Metadata None (mkJob "job-1" "acme" "key" (mkTask "t" "n" (Some "[1]") 0 0 0 "" "q" None 0) JobStateRunning 2
      (Some (Date 2024 2 29 23 59)) None (Some (Date 2024 3 1 0 0 + 123456789)) "" None "boom" None
      (Date 2024 2 29 22 0) (Date 9999 12 31 23 59)).
Proof.
  refine (proj1 (job_wire_clean (set_Job_Metadata None (set_Job_Task (mkTask "t" "n" (Some "[ 1 ]") 0 0 0 "" "q" None 0) wire_sample)) _)).
  vm_compute. reflexivity.
Defined.

(** A schedule is answered as JSON a client reads back. *)
Theorem schedule_wire_roundtrip loc s : schedule_sendable loc s = true ->
  exists t, marshal_schedule loc s = Ok t /\ json_Valid t = true /\ unmarshal_schedule t = Ok (schedule_wire s).
Proof.
  intros H. apply unmarshal_marshal_struct; [apply schedule_names|by apply (schedule_emits 0)|by apply (schedule_applies 0)|by repeat constructor].
Qed.
