(* ===== verification/Pool.v ===== *)
(** * internal/worker/pool.go: the worker pool

    A transition system: the buffered channel of jobs, the dispatcher
    goroutine of Start, the semaphore, the goroutines running jobs, and the
    calls Submit, SubmitBlocking and Stop.  One event is one channel operation
    or one call; a [select] with several ready cases takes any of them, so the
    event names the case.  What was accepted, started and finished so far is
    recorded beside the state. *)

From S2P Require Import Prelude Models Config.

(** ** State *)

(** Where the goroutine of Start is: in its [select], past it with a job and
    waiting for a semaphore slot, or gone. *)
Inductive Dispatcher := NotStarted | Selecting | Holding (job : Job) | Returned.

Record PoolConfig := mkPoolConfig {
  Concurrency : Z;
  QueueSize : Z;
  ShutdownTimeout : Dur
}.

Record Pool := mkPool {
  pool_cfg : PoolConfig;
  queue : list Job;            (* the buffer of the channel jobs *)
  closed : bool;               (* close(p.jobs) happened *)
  running : list Job;          (* one goroutine and one semaphore slot each *)
  dispatcher : Dispatcher;
  cancelled : bool;            (* the context of Start is done *)
  accepted : list Job;         (* sent on the channel, in order *)
  started : list Job;          (* handed to a goroutine, in order *)
  finished : list Job          (* whose goroutine ended *)
}.

(** [make(chan T, n)] panics for a negative [n]: no pool. *)
Definition NewPool (cfg : PoolConfig) : option Pool :=
  if (QueueSize cfg <? 0) || (Concurrency cfg <? 0) then None
  else Some (mkPool cfg [] false [] NotStarted false [] [] []).

Definition set_dispatcher (d : Dispatcher) (p : Pool) : Pool :=
  mkPool (pool_cfg p) (queue p) (closed p) (running p) d (cancelled p) (accepted p) (started p) (finished p).

(** ** The channel *)

Inductive sent := Sent (p : Pool) | SendBlocks | SendPanics.

(** [p.jobs <- job]: a closed channel panics; otherwise there is room in the
    buffer, or the channel is unbuffered and its receiver is waiting. *)
Definition send (job : Job) (p : Pool) : sent :=
  if closed p then SendPanics
  else if Z.of_nat (length (queue p)) <? QueueSize (pool_cfg p) then
    Sent (mkPool (pool_cfg p) (queue p ++ [job]) (closed p) (running p) (dispatcher p) (cancelled p)
            (accepted p ++ [job]) (started p) (finished p))
  else match dispatcher p, queue p with
  | Selecting, [] =>
      Sent (mkPool (pool_cfg p) [] (closed p) (running p) (Holding job) (cancelled p)
              (accepted p ++ [job]) (started p) (finished p))
  | _, _ => SendBlocks
  end.

(** How a call or a channel operation goes. *)
Inductive outcome :=
  | Next (answer : bool) (p : Pool)   (* it happened; [answer] is what the call returns *)
  | Blocked                           (* not possible now *)
  | Crash.                            (* a panic nobody recovers *)

(** [before]: the caller's context is done at the first test; [now]: at the
    select; [pick]: the select takes the context when the send is ready too. *)
Definition Submit (before now pick : bool) (job : Job) (p : Pool) : outcome :=
  if before then Next false p
  else if now && pick then Next false p
  else match send job p with
  | Sent p' => Next true p'
  | SendPanics => Crash
  | SendBlocks => Next false p
  end.

Definition SubmitBlocking (before now pick : bool) (job : Job) (p : Pool) : outcome :=
  if before then Next false p
  else if now && pick then Next false p
  else match send job p with
  | Sent p' => Next true p'
  | SendPanics => Crash
  | SendBlocks => if now then Next false p else Blocked
  end.

(** ** The goroutines *)

Definition Start (p : Pool) : Pool := set_dispatcher Selecting p.

(** The dispatcher's select takes [<-p.jobs]. *)
Definition receive (p : Pool) : outcome :=
  match dispatcher p, queue p with
  | Selecting, job :: rest =>
      Next true (mkPool (pool_cfg p) rest (closed p) (running p) (Holding job) (cancelled p)
                   (accepted p) (started p) (finished p))
  | Selecting, [] => if closed p then Next false (set_dispatcher Returned p) else Blocked
  | _, _ => Blocked
  end.

(** It takes [<-ctx.Done()]. *)
Definition see_done (p : Pool) : outcome :=
  match dispatcher p with
  | Selecting => if cancelled p then Next false (set_dispatcher Returned p) else Blocked
  | _ => Blocked
  end.

(** [p.semaphore <- struct{}{}] goes through and the job's goroutine starts. *)
Definition spawn (p : Pool) : outcome :=
  match dispatcher p with
  | Holding job =>
      if Z.of_nat (length (running p)) <? Concurrency (pool_cfg p) then
        Next true (mkPool (pool_cfg p) (queue p) (closed p) (running p ++ [job]) Selecting (cancelled p)
                     (accepted p) (started p ++ [job]) (finished p))
      else Blocked
  | _ => Blocked
  end.

(** The [i]-th running goroutine ends: Run returned, or panicked and was
    recovered; its slot and its count on the wait group go. *)
Definition finish (i : nat) (p : Pool) : outcome :=
  match running p !! i with
  | Some job =>
      Next true (mkPool (pool_cfg p) (queue p) (closed p) (delete i (running p)) (dispatcher p) (cancelled p)
                   (accepted p) (started p) (finished p ++ [job]))
  | None => Blocked
  end.

Definition cancel (p : Pool) : Pool :=
  mkPool (pool_cfg p) (queue p) (closed p) (running p) (dispatcher p) true (accepted p) (started p) (finished p).

(** The first statement of Stop. *)
Definition close_jobs (p : Pool) : outcome :=
  if closed p then Crash
  else Next true (mkPool (pool_cfg p) (queue p) true (running p) (dispatcher p) (cancelled p)
                    (accepted p) (started p) (finished p)).

(** [p.wg.Wait()] returns: neither the dispatcher nor a job is left.  Stop
    answers nil then, and [ctx.Err()] if its own context ends first. *)
Definition wait_over (p : Pool) : bool :=
  match dispatcher p, running p with
  | (NotStarted | Returned), [] => true
  | _, _ => false
  end.

Definition Stop_answer (ctx_err : option error) (p : Pool) : option (option error) :=
  if wait_over p then Some None
  else match ctx_err with Some e => Some (Some e) | None => None end.

(** ** Events *)

Inductive event :=
  | EvSubmit (before now pick : bool) (job : Job)
  | EvSubmitBlocking (before now pick : bool) (job : Job)
  | EvStart
  | EvCancel
  | EvClose
  | EvReceive
  | EvSeeDone
  | EvSpawn
  | EvFinish (i : nat).

Definition exec_event (e : event) (p : Pool) : outcome :=
  match e with
  | EvSubmit b n k job => Submit b n k job p
  | EvSubmitBlocking b n k job => SubmitBlocking b n k job p
  | EvStart => match dispatcher p with NotStarted => Next true (Start p) | _ => Blocked end
  | EvCancel => Next true (cancel p)
  | EvClose => close_jobs p
  | EvReceive => receive p
  | EvSeeDone => see_done p
  | EvSpawn => spawn p
  | EvFinish i => finish i p
  end.

(** The steps the pool makes by itself. *)
Definition internal (e : event) : bool :=
  match e with EvReceive | EvSeeDone | EvSpawn | EvFinish _ => true | _ => false end.

(** [steps p es p']: the events [es] lead from [p] to [p']. *)
Inductive steps (p : Pool) : list event -> Pool -> Prop :=
  | steps_nil : steps p [] p
  | steps_snoc es p1 e b p2 : steps p es p1 -> exec_event e p1 = Next b p2 -> steps p (es ++ [e]) p2.
#[export] Hint Constructors steps : conduit.

(** ** The invariant *)

Definition held (p : Pool) : list Job := match dispatcher p with Holding job => [job] | _ => [] end.

Record pool_ok (p : Pool) : Prop := mkPoolOk {
  ok_queue : Z.of_nat (length (queue p)) <= QueueSize (pool_cfg p);
  ok_running : Z.of_nat (length (running p)) <= Concurrency (pool_cfg p);
  ok_fifo : accepted p = started p ++ held p ++ queue p;
  ok_once : started p ≡ₚ running p ++ finished p;
  ok_returned : dispatcher p = Returned -> cancelled p = true \/ (closed p = true /\ queue p = [])
}.

Lemma NewPool_ok cfg p : NewPool cfg = Some p -> pool_ok p.
Proof.
  unfold NewPool. case_goal; [done|]. intros [= <-]. zbool. by split; cbn.
Qed.

Lemma send_ok job p p' : pool_ok p -> send job p = Sent p' -> pool_ok p'.
Proof.
  intros [Hq Hr Hf Ho Hret]. unfold send. repeat (case_goal; try done); intros [= <-]; zbool; split; cbn; try done.
  - rewrite length_app. cbn. lia.
  - unfold held in *. cbn. rewrite Hf. by rewrite <- !(assoc_L (++)).
  - intros Hd. rewrite Hd in Hret. destruct (Hret eq_refl) as [?|[? ?]]; [by left|]. congruence.
  - unfold held in Hf. rewrite Heqd in Hf. rewrite Hf. by rewrite !app_nil_r.
Qed.

(** What no event changes, and what only the dispatcher does. *)
Lemma send_keeps job p p' :
  send job p = Sent p' ->
  pool_cfg p' = pool_cfg p /\ (dispatcher p = Returned -> dispatcher p' = Returned /\ started p' = started p).
Proof. unfold send. repeat (case_goal; try done); intros [= <-]; cbn; by simplify_eq. Qed.

Lemma exec_keeps e b p p' :
  exec_event e p = Next b p' ->
  pool_cfg p' = pool_cfg p /\ (dispatcher p = Returned -> dispatcher p' = Returned /\ started p' = started p).
Proof.
  destruct e; cbn; unfold Submit, SubmitBlocking, close_jobs, receive, see_done, spawn, finish;
    repeat (case_goal; try done); intros [= _ <-]; cbn; eauto using send_keeps; by simplify_eq.
Qed.

Lemma exec_event_ok e b p p' : pool_ok p -> exec_event e p = Next b p' -> pool_ok p'.
Proof.
  intros Hok. pose proof Hok as [Hq Hr Hf Ho Hret]. destruct e; cbn.
  - unfold Submit. repeat (case_goal; try done); intros [= _ <-]; eauto using send_ok.
  - unfold SubmitBlocking. repeat (case_goal; try done); intros [= _ <-]; eauto using send_ok.
  - case_goal; try done. intros [= _ <-]. split; cbn; try done. unfold held in *. cbn. by rewrite Heqd in Hf.
  - intros [= _ <-]. split; cbn; try done. by left.
  - unfold close_jobs. case_goal; [done|]. intros [= _ <-]. split; cbn; try done.
    intros Hd. destruct (Hret Hd) as [?|[? ?]]; [by left|congruence].
  - unfold receive. destruct (dispatcher p) eqn:Ed; try done. destruct (queue p) as [|j q] eqn:Eq.
    + case_goal; [|done]. intros [= _ <-]. split; cbn; rewrite ?Eq; try done.
      * unfold held in *. rewrite Ed in Hf. cbn. by rewrite Hf.
      * by right.
    + intros [= _ <-]. split; cbn; try done; [cbn in Hq; lia|]. unfold held in *. cbn. by rewrite Ed in Hf.
  - unfold see_done. destruct (dispatcher p) eqn:Ed; try done. case_goal; [|done]. intros [= _ <-].
    split; cbn; try done; [|by left]. unfold held in *. cbn. by rewrite Ed in Hf.
  - unfold spawn. destruct (dispatcher p) eqn:Ed; try done. case_goal; [|done]. intros [= _ <-]. zbool.
    split; cbn; try done.
    + rewrite length_app. cbn. lia.
    + unfold held in *. rewrite Ed in Hf. cbn. rewrite Hf. by rewrite <- (assoc_L (++)).
    + rewrite Ho. solve_Permutation.
  - unfold finish. destruct (running p !! i) as [j|] eqn:El; [|done]. intros [= _ <-].
    split; cbn; try done.
    + pose proof (length_delete (running p) i) as Hl. rewrite Hl by eauto. lia.
    + rewrite Ho. rewrite (delete_Permutation (running p) i j El) at 1. solve_Permutation.
Qed.

Lemma steps_ok p es p' : steps p es p' -> pool_ok p -> pool_ok p'.
Proof. induction 1; eauto using exec_event_ok. Qed.

(** C19. From [NewPool] on, under any sequence of calls, cancellations and
    scheduling: the buffer and the running goroutines stay within their
    configured bounds, jobs are started in the order they were accepted, each at
    most once, and none is invented or dropped between the queue, the
    dispatcher, the goroutines and the finished. *)
Theorem pool_invariant cfg p es p' :
  NewPool cfg = Some p -> steps p es p' ->
  Z.of_nat (length (queue p')) <= QueueSize cfg /\ Z.of_nat (length (running p')) <= Concurrency cfg /\
  accepted p' = started p' ++ held p' ++ queue p' /\ started p' ≡ₚ running p' ++ finished p'.
Proof.
  intros Hn Hs. pose proof (steps_ok _ _ _ Hs (NewPool_ok _ _ Hn)) as [Hq Hr Hf Ho _].
  assert (Hc : pool_cfg p' = cfg); [|rewrite Hc in *; done].
  assert (Hp : pool_cfg p = cfg) by (unfold NewPool in Hn; case_in Hn; [done|by injection Hn as <-]).
  rewrite <- Hp. clear -Hs. induction Hs as [|es p1 e b p2 _ IH He]; [done|]. rewrite <- IH.
  by apply exec_keeps in He as [-> _].
Qed.

(** A job, for concrete runs. *)
Definition a_job (id : string) : Job :=
  mkJob id "default" "" zeroTask JobStateRunning 1 None None None "t" None "" None 0 0.

Definition small_pool : Pool := mkPool (mkPoolConfig 1 2 0) [] false [] NotStarted false [] [] [].

Lemma steps_app p es1 p1 es2 p2 : steps p es1 p1 -> steps p1 es2 p2 -> steps p (es1 ++ es2) p2.
Proof.
  intros H1 H2. induction H2 as [|es p2 e b p3 H2 IH He]; [by rewrite app_nil_r|].
  rewrite (assoc_L (++)). by eapply steps_snoc.
Qed.

Lemma steps_cons e b p p1 es p2 : exec_event e p = Next b p1 -> steps p1 es p2 -> steps p (e :: es) p2.
Proof. intros He Hs. apply (steps_app p [e] p1); [by apply (steps_snoc p [] p e b); [constructor|]|done]. Qed.

(** The events executed. *)
Fixpoint run_events (es : list event) (p : Pool) : option Pool :=
  match es with
  | [] => Some p
  | e :: es' => match exec_event e p with Next _ p1 => run_events es' p1 | _ => None end
  end.

Lemma run_events_steps es p p' : run_events es p = Some p' -> steps p es p'.
Proof.
  revert p. induction es as [|e es IH]; intros p; cbn; [intros [= ->]; constructor|].
  destruct (exec_event e p) eqn:E; try done. intros H. eauto using steps_cons.
Qed.

Definition two_jobs : list event :=
  [EvStart; EvSubmit false false false (a_job "1"); EvSubmit false false false (a_job "2");
   EvReceive; EvSpawn; EvReceive; EvFinish 0; EvSpawn].

Lemma pool_invariant_witness :
  exists p', run_events two_jobs small_pool = Some p' /\ accepted p' = started p' ++ held p' ++ queue p' /\ started p' = [a_job "1"; a_job "2"].
Proof.
  exists (default small_pool (run_events two_jobs small_pool)).
  split; [vm_compute; reflexivity|]. split; [|vm_compute; reflexivity].
  apply (pool_invariant (mkPoolConfig 1 2 0) small_pool two_jobs); [reflexivity|].
  apply run_events_steps. vm_compute. reflexivity.
Defined.

(** ** Draining *)

(** What is left to do: every internal event makes it smaller. *)
Definition work_left (p : Pool) : nat :=
  4 * length (queue p) + length (running p) +
  match dispatcher p with Selecting => 1 | Holding _ => 3 | NotStarted | Returned => 0 end.

Lemma internal_decreases e b p p' :
  internal e = true -> exec_event e p = Next b p' -> (work_left p' < work_left p)%nat.
Proof.
  destruct e; cbn; try done; intros _; unfold receive, see_done, spawn, finish, work_left.
  - destruct (dispatcher p); try done. destruct (queue p) eqn:Eq.
    + case_goal; [|done]. intros [= _ <-]. cbn. rewrite Eq. cbn. lia.
    + intros [= _ <-]. cbn. lia.
  - destruct (dispatcher p); try done. case_goal; [|done]. intros [= _ <-]. cbn. lia.
  - destruct (dispatcher p); try done. case_goal; [|done]. intros [= _ <-]. cbn. rewrite length_app. cbn. lia.
  - destruct (running p !! i) eqn:E; [|done]. intros [= _ <-]. cbn.
    pose proof (lookup_lt_Some _ _ _ E). rewrite length_delete by eauto. lia.
Qed.

Lemma internal_bounded p es p' :
  steps p es p' -> Forall (fun e => internal e = true) es -> (length es + work_left p' <= work_left p)%nat.
Proof.
  induction 1 as [|es p1 e b p2 Hs IH He]; intros Hi; [cbn; lia|].
  apply Forall_app in Hi as [Hi Hie]. apply Forall_cons in Hie as [Hie _].
  pose proof (internal_decreases _ _ _ _ Hie He). specialize (IH Hi). rewrite length_app. cbn [length]. lia.
Qed.

(** Nothing more happens by itself. *)
Definition stuck (p : Pool) : Prop := forall e b p', internal e = true -> exec_event e p <> Next b p'.

(** A pool that was stopped but not cancelled. *)
Definition stopping (p : Pool) : Prop :=
  pool_ok p /\ closed p = true /\ cancelled p = false /\ dispatcher p <> NotStarted /\ 0 < Concurrency (pool_cfg p).

Lemma stopping_stuck_done p :
  stopping p -> stuck p -> wait_over p = true /\ queue p = [] /\ held p = [] /\ running p = [].
Proof.
  intros ([Hq Hr Hf Ho Hret] & Hc & Hnc & Hd & Hcon) Hst.
  assert (Hrun : running p = []).
  { destruct (running p) as [|j r] eqn:E; [done|]. exfalso.
    eapply (Hst (EvFinish 0)); [done|]. cbn. unfold finish. by rewrite E. }
  destruct (dispatcher p) as [| |j|] eqn:Ed; [done| | |].
  - exfalso. destruct (queue p) eqn:Eq.
    + eapply (Hst EvReceive); [done|]. cbn. unfold receive. by rewrite Ed, Eq, Hc.
    + eapply (Hst EvReceive); [done|]. cbn. unfold receive. by rewrite Ed, Eq.
  - exfalso. eapply (Hst EvSpawn); [done|]. cbn. unfold spawn. rewrite Ed, Hrun. cbn.
    by rewrite (proj2 (Z.ltb_lt _ _)) by lia.
  - destruct (Hret eq_refl) as [?|[_ Hqe]]; [congruence|].
    unfold wait_over, held. by rewrite Ed, Hrun.
Qed.

Lemma internal_keeps e b p p' :
  internal e = true -> exec_event e p = Next b p' ->
  closed p' = closed p /\ cancelled p' = cancelled p /\ pool_cfg p' = pool_cfg p /\ accepted p' = accepted p /\
  (dispatcher p <> NotStarted -> dispatcher p' <> NotStarted).
Proof.
  destruct e; cbn; try done; intros _; unfold receive, see_done, spawn, finish;
    repeat (case_goal; try done); intros [= _ <-]; cbn; simplify_eq; done.
Qed.

Lemma steps_stopping p es p' :
  steps p es p' -> Forall (fun e => internal e = true) es -> stopping p -> stopping p' /\ accepted p' = accepted p.
Proof.
  induction 1 as [|es p1 e b p2 Hs IH He]; intros Hi Hp; [done|].
  apply Forall_app in Hi as [Hi Hie]. apply Forall_cons in Hie as [Hie _].
  destruct (IH Hi Hp) as [(Hok & Hc & Hnc & Hd & Hcon) Ha].
  destruct (internal_keeps _ _ _ _ Hie He) as (E1 & E2 & E3 & E4 & E5).
  split; [|congruence]. split; [by eapply exec_event_ok|]. rewrite E1, E2, E3. auto.
Qed.

(** C20. Stop without cancellation drains: once the queue is closed, the pool
    makes only finitely many more steps by itself, whatever the scheduling; and
    when it can make no more, the wait of Stop is over and every job ever
    accepted has finished. *)
Theorem stop_drains p es p' :
  stopping p -> steps p es p' -> Forall (fun e => internal e = true) es ->
  (length es <= work_left p)%nat /\
  (stuck p' -> Stop_answer None p' = Some None /\ accepted p ≡ₚ finished p').
Proof.
  intros Hp Hs Hi. split; [pose proof (internal_bounded _ _ _ Hs Hi); lia|].
  intros Hst. destruct (steps_stopping _ _ _ Hs Hi Hp) as [Hp' Ha].
  destruct (stopping_stuck_done _ Hp' Hst) as (Hw & Hq & Hh & Hr). destruct Hp' as [[_ _ Hf Ho _] _].
  unfold Stop_answer. rewrite Hw. split; [done|]. rewrite <- Ha, Hf, Hq, Hh, !app_nil_r, Ho, Hr. done.
Qed.

(** The small pool with two jobs, stopped. *)
Definition stopped_pool : Pool :=
  mkPool (mkPoolConfig 1 2 0) [a_job "1"; a_job "2"] true [] Selecting false [a_job "1"; a_job "2"] [] [].

Definition drain_events : list event :=
  [EvReceive; EvSpawn; EvReceive; EvFinish 0; EvSpawn; EvReceive; EvFinish 0].

Definition drained_pool : Pool :=
  mkPool (mkPoolConfig 1 2 0) [] true [] Returned false [a_job "1"; a_job "2"] [a_job "1"; a_job "2"]
    [a_job "1"; a_job "2"].

Lemma stop_drains_witness :
  run_events drain_events stopped_pool = Some drained_pool /\ Stop_answer None drained_pool = Some None /\ accepted stopped_pool ≡ₚ finished drained_pool.
Proof.
  split; [vm_compute; reflexivity|].
  apply (stop_drains stopped_pool drain_events).
  - split; [split; cbn; try done; lia|]. by cbn.
  - apply run_events_steps. vm_compute. reflexivity.
  - by repeat constructor.
  - intros [] b p' Hi; try done.
Defined.

(** ** What cancellation leaves behind *)

Lemma returned_starts_nothing p es p' :
  steps p es p' -> dispatcher p = Returned -> dispatcher p' = Returned /\ started p' = started p.
Proof.
  induction 1 as [|es p1 e b p2 Hs IH He]; intros Hd; [done|]. destruct (IH Hd) as [Hd1 Hs1]. rewrite <- Hs1.
  apply exec_keeps in He as [_ He]. by apply He.
Qed.

(** When the context of Start ends, the dispatcher may leave with jobs still
    in the queue, and nothing starts them afterwards, whatever happens: Stop
    reports a clean shutdown all the same.  The rows of such jobs stay RUNNING
    until their lease expires and the reaper takes them. *)
Theorem cancellation_abandons_queue p :
  dispatcher p = Selecting -> cancelled p = true -> running p = [] ->
  exists p1, steps p [EvSeeDone] p1 /\ Stop_answer None p1 = Some None /\ queue p1 = queue p /\
  forall es p2, steps p1 es p2 -> started p2 = started p.
Proof.
  intros Hd Hc Hr. exists (set_dispatcher Returned p).
  split; [|split; [|split; [done|]]].
  - apply (steps_cons EvSeeDone false p (set_dispatcher Returned p)); [|constructor].
    cbn. unfold see_done. by rewrite Hd, Hc.
  - unfold Stop_answer, wait_over. cbn. by rewrite Hr.
  - intros es p2 Hs. by apply returned_starts_nothing in Hs as [_ ->].
Qed.

Lemma cancellation_abandons_queue_witness :
  exists p1, steps (cancel stopped_pool) [EvSeeDone] p1 /\ Stop_answer None p1 = Some None /\
    queue p1 = [a_job "1"; a_job "2"] /\ forall es p2, steps p1 es p2 -> started p2 = [].
Proof. apply (cancellation_abandons_queue (cancel stopped_pool)); reflexivity. Defined.

(** ** Calls after Stop, and a size nobody checks *)

(** A send on the closed queue panics: the callers of Submit must be stopped
    first, or have their context cancelled, in which case the first test
    answers false. *)
Lemma submit_after_stop job p now pick :
  closed p = true -> Submit true now pick job p = Next false p /\ Submit false false pick job p = Crash.
Proof. intros Hc. unfold Submit, send. by rewrite Hc. Qed.

Definition pool_config (w : WorkerConfig) : PoolConfig :=
  mkPoolConfig (Worker_Concurrency w) (Worker_QueueSize w) (Worker_ShutdownTimeout w).

(** A configuration Validate accepts builds a pool with at least one
    semaphore slot, unless its queue size is negative: that is accepted too, and
    making the channel panics. *)
Theorem accepted_config_builds_pool env cfg :
  LoadFromEnvironment env = (cfg, None) ->
  (NewPool (pool_config (Worker cfg)) = None <-> Worker_QueueSize (Worker cfg) < 0) /\
  0 < Concurrency (pool_config (Worker cfg)).
Proof.
  unfold LoadFromEnvironment. intros [= <- Hv].
  assert (Hc : 0 < Worker_Concurrency (Worker (load env Default))).
  { unfold Validate in Hv. repeat (case_in Hv; try done). by zbool. }
  split; [|done]. unfold NewPool, pool_config. cbn [QueueSize Concurrency].
  rewrite (proj2 (Z.ltb_ge (Worker_Concurrency _) 0)) by lia. rewrite orb_false_r.
  destruct (_ <? 0) eqn:E; zbool; split; done || lia.
Qed.

Definition negative_queue : Environment :=
  fun name => if bool_decide (name = "CONDUIT_WORKER_QUEUE_SIZE") then Some "-1" else None.

Lemma accepted_config_builds_pool_witness :
  exists cfg, LoadFromEnvironment negative_queue = (cfg, None) /\ NewPool (pool_config (Worker cfg)) = None.
Proof.
  exists (LoadFromEnvironment negative_queue).1. split; [vm_compute; reflexivity|].
  apply (accepted_config_builds_pool negative_queue); vm_compute; reflexivity.
Defined.
