(* ===== verification/Transport.v ===== *)
(** * internal/queue: wake-ups and message delivery

    The Waker as a store of channels that are closed once (its waiters are in
    LongPoll); the Postgres listener's loop; and the Kafka consumer's loop with
    what it marks. *)

From S2P Require Import Prelude Models Config JobJson.

(** ** The Waker *)

(** Channels are numbered in the order they are made; [ch] is the one the Waker
    holds, every smaller one has been closed. *)
Record Waker := mkWaker {
  ch : nat;
  closed_chs : gset nat
}.

Definition NewWaker : Waker := mkWaker 0 ∅.

Definition C (w : Waker) : nat := ch w.

(** [close(w.ch)] and a fresh channel in its place. *)
Definition Wake (w : Waker) : Waker := mkWaker (S (ch w)) ({[ch w]} ∪ closed_chs w).

(** A receive from the channel goes through. *)
Definition ready (c : nat) (w : Waker) : bool := bool_decide (c ∈ closed_chs w).

(** Exactly the channels before the current one are closed, so no channel is
    closed twice. *)
Definition waker_ok (w : Waker) : Prop := forall c, c ∈ closed_chs w <-> (c < ch w)%nat.

Lemma NewWaker_ok : waker_ok NewWaker.
Proof. intros c. split; [set_solver|cbn; lia]. Qed.

Lemma Wake_ok w : waker_ok w -> waker_ok (Wake w) /\ ch w ∉ closed_chs w.
Proof.
  intros Hw. split; [|rewrite (Hw (ch w)); lia].
  intros c. cbn. rewrite elem_of_union, elem_of_singleton, (Hw c). lia.
Qed.

Lemma ready_closed w c : waker_ok w -> ready c w = true <-> (c < ch w)%nat.
Proof. intros Hw. unfold ready. rewrite bool_decide_eq_true. apply Hw. Qed.

(** ** The Postgres listener *)

(** One connection of the listener: what Connect and LISTEN answered, how many
    notifications came before the wait failed, with which error, and whether the
    context was done then and during the retry delay. *)
Record Session := mkSession {
  se_connect : option error;
  se_listen : option error;
  se_notifications : nat;
  se_wait : error;
  se_done : bool;
  se_done_later : bool
}.

(** The error of [listen] and how often it called onWake. *)
Definition listen (s : Session) : option error * nat :=
  match se_connect s with
  | Some e => (Some (Wrapf "queue: connect listener: " e), 0%nat)
  | None =>
      match se_listen s with
      | Some e => (Some (Wrapf "queue: listen on conduit_jobs: " e), 0%nat)
      | None =>
          (if se_done s || errors_Is (se_wait s) ErrCanceled then None
           else Some (Wrapf "queue: wait for notification: " (se_wait s)), se_notifications s)
      end
  end.

(** Run over the connections it gets; [false] while it is still listening.  The
    result counts the calls of onWake. *)
Fixpoint Run (sessions : list Session) : bool * nat :=
  match sessions with
  | [] => (false, 0%nat)
  | s :: rest =>
      let n := (listen s).2 in
      if se_done s || se_done_later s then (true, n)
      else let '(r, m) := Run rest in (r, (n + m)%nat)
  end.

(** Notifications of the sessions that got as far as listening. *)
Definition heard (s : Session) : nat :=
  match se_connect s, se_listen s with None, None => se_notifications s | _, _ => 0%nat end.

(** The listener ends only with its context, and until then every notification
    it hears is one wake-up, whatever failures and reconnections lie between. *)
Lemma listener_relays sessions :
  Forall (fun s => se_done s = false /\ se_done_later s = false) sessions ->
  Run sessions = (false, sum_list (map heard sessions)).
Proof.
  induction 1 as [|s rest [Hd Hl] _ IH]; [done|]. cbn [Run map sum_list]. rewrite Hd, Hl, IH. cbn [orb].
  unfold listen, heard. by destruct (se_connect s), (se_listen s).
Qed.

(** ** The Kafka consumer *)

(** What the select of ConsumeClaim takes: a message, the closed message
    channel, or the end of the session. *)
Inductive delivery (M : Type) := Message (msg : M) | ChannelClosed | SessionDone.
Arguments Message {M} msg.
Arguments ChannelClosed {M}.
Arguments SessionDone {M}.

(** ConsumeClaim: the messages it marks, in order, and the state its handler
    and the other goroutines share, [None] if the handler panicked.  [handle] is
    Handle: the error it returns and the state it leaves; each select comes with
    what the others did to the state until then. *)
Fixpoint ConsumeClaim {M S} (handle : M -> S -> option (option error * S)) (ds : list ((S -> S) * delivery M)) (s : S)
    : list M * option S :=
  match ds with
  | [] => ([], Some s)
  | (meanwhile, ChannelClosed) :: _ | (meanwhile, SessionDone) :: _ => ([], Some (meanwhile s))
  | (meanwhile, Message msg) :: ds' =>
      match handle msg (meanwhile s) with
      | None => ([], None)
      | Some (None, s1) => let '(marked, s2) := ConsumeClaim handle ds' s1 in (msg :: marked, s2)
      | Some (Some _, s1) => ConsumeClaim handle ds' s1
      end
  end.

(** Consume: sessions until one fails or the context is done. *)
Fixpoint Consume (sessions : list (option error * option error)) : option (option error) :=
  match sessions with
  | [] => None
  | (Some e, _) :: _ => Some (Some e)
  | (None, Some ctxErr) :: _ => Some (Some ctxErr)
  | (None, None) :: rest => Consume rest
  end.

Lemma Consume_ends_with_error sessions r : Consume sessions = Some r -> r <> None.
Proof. induction sessions as [|[[e|] [c|]] rest IH]; cbn; try done; by intros [= <-]. Qed.

(** ** Publishing *)

(** A message a broker or the database was given. *)
Record ProducerMessage := mkProducerMessage {
  pm_topic : string;
  pm_key : string;
  pm_value : string;
  pm_headers : list (string * string)
}.

(** The notification goes out with the statement, which may fail on either side
    of its effect. *)
Definition PostgresNotifier_Publish (f : Fault) (channel : string) (job : Job) (sent : list (string * string))
    : option error * list (string * string) :=
  match f with
  | NoFault => (None, sent ++ [(channel, Job_ID job)])
  | FaultBefore e => (Some (Wrapf ("queue: notify " +:+ channel) e), sent)
  | FaultAfter e => (Some (Wrapf ("queue: notify " +:+ channel) e), sent ++ [(channel, Job_ID job)])
  end.

(** The job goes out as JSON; a job that has none is not sent. *)
Definition KafkaClient_Publish (loc : string -> Z) (f : Fault) (topic : string) (job : Job)
    (sent : list ProducerMessage) : option error * list ProducerMessage :=
  match marshal_job loc job with
  | Error e => (Some (Wrapf "queue: marshal job" e), sent)
  | Ok value =>
      let msg := mkProducerMessage topic (Job_ID job) value
        [("job_id", Job_ID job); ("job_name", Task_Name (Job_Task job))] in
      match f with
      | NoFault => (None, sent ++ [msg])
      | FaultBefore e => (Some e, sent)
      | FaultAfter e => (Some e, sent ++ [msg])
      end
  end.

(** ** The client's construction and end *)

Record SaramaConfig := mkSaramaConfig {
  sc_ClientID : string;
  sc_ChannelBufferSize : Z;
  sc_RequiredAcks : Z;
  sc_Compression : Z;
  sc_FlushFrequency : Dur;
  sc_FlushBytes : Z;
  sc_OffsetsInitial : Z
}.

Definition OffsetOldest : Z := -2.

Definition sarama_config (cfg : KafkaConfig) : SaramaConfig :=
  mkSaramaConfig (Kafka_ClientID cfg) (Kafka_ChannelBufferSize cfg) (Kafka_RequiredAcks cfg) (Kafka_CompressionCodec cfg)
    (mulDur (Kafka_FlushFrequencyMs cfg) Millisecond) (Kafka_FlushBytes cfg) OffsetOldest.

(** The connections it holds: the producer's and the consumer group's. *)
Record KafkaClient := mkKafkaClient { kc_producer_open : bool; kc_group_open : bool; kc_topic : string }.

(** [producer] and [group] are what sarama answered; the second component is
    the connections left open. *)
Definition NewKafkaClient (cfg : KafkaConfig) (producer group : option error) : result KafkaClient * nat :=
  match producer with
  | Some e => (Error (Wrapf "queue: create producer" e), 0%nat)
  | None =>
      match group with
      | Some e => (Error (Wrapf "queue: create consumer group" e), 0%nat)
      | None => (Ok (mkKafkaClient true true (Kafka_Topic cfg)), 2%nat)
      end
  end.

(** Both are closed, whatever the first answers; the errors are joined. *)
Definition KafkaClient_Close (producer group : option error) (k : KafkaClient) : list error * KafkaClient :=
  (option_list producer ++ option_list group, mkKafkaClient false false (kc_topic k)).
