(* ===== verification/Redlock.v ===== *)
(** * internal/lock/redlock.go: the quorum lock

    The Manager over any number of Redis nodes.  A node is the interface
    [Redis]: the four commands the code sends, with what Redis documents about
    them as [RedisLaws].  Around every command other clients may act on the
    node and the reply may be lost ([Env], as for SQL). *)

From Stdlib Require Import Floats.SpecFloat.
From S2P Require Import Prelude Models JobStore Retry.

(** ** Redis *)

Class Redis (S : Type) := mkRedis {
  set_nx : Time -> string -> string -> Dur -> S -> bool * S;   (* SET key value NX PX ttl *)
  get_key : Time -> string -> S -> option string;              (* GET key, at that time *)
  del_key : Time -> string -> S -> Z * S                       (* DEL key *)
}.

(** What the lock relies on. *)
Class RedisLaws (S : Type) {R : Redis S} := mkRedisLaws {
  set_nx_free : forall now key val ttl s,
    get_key now key s = None ->
    (set_nx now key val ttl s).1 = true /\
    forall t, now <= t < now + ttl -> get_key t key (set_nx now key val ttl s).2 = Some val;
  set_nx_taken : forall now key val ttl s v,
    get_key now key s = Some v -> set_nx now key val ttl s = (false, s)
}.

(** ** The Manager *)

Record RedlockConfig := mkRedlockConfig {
  Quorum : Z;
  TTL : Dur;
  RetryCount : Z;
  RetryDelay : Dur;
  DriftFactor : spec_float
}.

Record Lock := mkLock {
  Resource : string;
  Value : string;
  Expiry : Time
}.

(** 0.01 as a float64 literal. *)
Definition one_percent : spec_float := SFdiv 53 1024 (of_int 1) (of_int 100).

(** The settings a Manager of [n] clients works with. *)
Definition NewManager (n : nat) (cfg : RedlockConfig) : RedlockConfig :=
  mkRedlockConfig
    (if Quorum cfg <=? 0 then Z.of_nat n / 2 + 1 else Quorum cfg)
    (if TTL cfg <=? 0 then 10 * Second else TTL cfg)
    (if RetryCount cfg <=? 0 then 3 else RetryCount cfg)
    (if RetryDelay cfg <=? 0 then 200 * Millisecond else RetryDelay cfg)
    (if fle (DriftFactor cfg) (of_int 0) then one_percent else DriftFactor cfg).

Definition generateToken (rnd : option (list Z)) : result string :=
  match rand_Read 16 rnd with
  | Error e => Error e
  | Ok bytes => Ok (hex_EncodeToString bytes)
  end.

(** The allowance for clock drift. *)
Definition drift (cfg : RedlockConfig) : Dur :=
  wrap64 (to_int64 (fmul (of_int (TTL cfg)) (DriftFactor cfg)) + 2 * Millisecond).

Section Manager.
Context {S : Type} {R : Redis S}.

Definition SetNX (env : Env S) (key val : string) (ttl : Dur) : S -> result bool * S :=
  run_stmt env (fun s => let '(ok, s') := set_nx (dbnow env) key val ttl s in (Ok ok, s')).

(** [releaseScript]: delete the key only when it holds the caller's token. *)
Definition releaseScript (env : Env S) (key val : string) : S -> result Z * S :=
  run_stmt env (fun s =>
    if bool_decide (get_key (dbnow env) key s = Some val)
    then let '(n, s') := del_key (dbnow env) key s in (Ok n, s')
    else (Ok 0, s)).

(** SETNX on every node; [envs i] is the environment of the [i]-th command. *)
Fixpoint set_all (envs : nat -> Env S) (key val : string) (ttl : Dur) (i : nat) (nodes : list S) : Z * list S :=
  match nodes with
  | [] => (0, [])
  | s :: rest =>
      let '(r, s') := SetNX (envs i) key val ttl s in
      let '(n, rest') := set_all envs key val ttl (Datatypes.S i) rest in
      ((match r with Ok true => 1 | _ => 0 end) + n, s' :: rest')
  end.

Fixpoint release_all (envs : nat -> Env S) (key val : string) (i : nat) (nodes : list S) : list error * list S :=
  match nodes with
  | [] => ([], [])
  | s :: rest =>
      let '(r, s') := releaseScript (envs i) key val s in
      let '(errs, rest') := release_all envs key val (Datatypes.S i) rest in
      (match r with Error e => e :: errs | Ok _ => errs end, s' :: rest')
  end.

(** Everything one attempt of Acquire meets: whether the context ends during the
    delay before it, its three readings of the clock, and its commands. *)
Record Attempt := mkAttempt {
  at_done : bool;
  at_start : Time;             (* start := time.Now() *)
  at_set : nat -> Env S;
  at_since : Time;             (* the reading in time.Since(start) *)
  at_now : Time;               (* the reading in Expiry *)
  at_release : nat -> Env S
}.

Definition validity (cfg : RedlockConfig) (a : Attempt) : Dur :=
  wrap64 (wrap64 (TTL cfg - Sub (at_since a) (at_start a)) - drift cfg).

(** One attempt: the lock, or what the nodes are after giving up the partial
    win. *)
Definition attempt_lock (cfg : RedlockConfig) (a : Attempt) (resource value : string) (nodes : list S)
    : option Lock * list S :=
  let '(acquired, nodes1) := set_all (at_set a) resource value (TTL cfg) 0 nodes in
  if (Quorum cfg <=? acquired) && (0 <? validity cfg a)
  then (Some (mkLock resource value (Add (at_now a) (validity cfg a))), nodes1)
  else (None, (release_all (at_release a) resource value 0 nodes1).2).

Definition lock_error : error := ErrText "lock: could not acquire lock".

(** The retry loop from attempt [i] on; attempt 0 does not wait. *)
Fixpoint acquire_loop (cfg : RedlockConfig) (fuel i : nat) (attempts : nat -> Attempt)
    (resource value : string) (nodes : list S) : result Lock * list S :=
  match fuel with
  | O => (Error lock_error, nodes)
  | Datatypes.S fuel' =>
      if (0 <? i)%nat && at_done (attempts i) then (Error ErrCanceled, nodes)
      else match attempt_lock cfg (attempts i) resource value nodes with
      | (Some l, nodes1) => (Ok l, nodes1)
      | (None, nodes1) => acquire_loop cfg fuel' (Datatypes.S i) attempts resource value nodes1
      end
  end.

Definition Acquire (cfg : RedlockConfig) (rnd : option (list Z)) (attempts : nat -> Attempt) (resource : string)
    (nodes : list S) : result Lock * list S :=
  match generateToken rnd with
  | Error e => (Error (Wrapf "lock: generate token: " e), nodes)
  | Ok value => acquire_loop cfg (Z.to_nat (RetryCount cfg)) 0 attempts resource value nodes
  end.

(** The errors Release joins; none is nil. *)
Definition Release (envs : nat -> Env S) (l : Lock) (nodes : list S) : list error * list S :=
  release_all envs (Resource l) (Value l) 0 nodes.

End Manager.
Arguments Attempt S : clear implicits.

(** ** A key that is held *)

Section Exclusion.
Context {S : Type} {R : Redis S} {L : RedisLaws S}.
Variables (key v : string) (from until : Time).

(** The node keeps the key for [v] throughout. *)
Definition guard (s : S) : Prop := forall t, from <= t < until -> get_key t key s = Some v.

(** The command runs in that time, and the clients around it leave the key
    alone: they set it only when it is free and delete it only with their own
    token. *)
Definition respects (env : Env S) : Prop :=
  from <= dbnow env < until /\ forall s, guard s -> guard (intf env s).

Lemma SetNX_guarded env val ttl s :
  respects env -> guard s -> (SetNX env key val ttl s).1 <> Ok true /\ guard (SetNX env key val ttl s).2.
Proof.
  intros [Ht Hi] Hg. specialize (Hi s Hg). unfold SetNX, run_stmt.
  rewrite (set_nx_taken (dbnow env) key val ttl (intf env s) v) by (by apply Hi). by destruct (fault env).
Qed.

Lemma releaseScript_guarded env val s :
  respects env -> val <> v -> guard s -> guard (releaseScript env key val s).2.
Proof.
  intros [Ht Hi] Hv Hg. specialize (Hi s Hg). unfold releaseScript, run_stmt.
  rewrite (Hi (dbnow env)) by done. rewrite bool_decide_eq_false_2 by congruence. by destruct (fault env).
Qed.

(** Some nodes, marked in [bs], are known to guard the key. *)
Definition guarded (bs : list bool) (nodes : list S) : Prop := Forall2 (fun (b : bool) s => b -> guard s) bs nodes.

Definition tally (bs : list bool) : Z := foldr (fun (b : bool) n => (if b then 1 else 0) + n) 0 bs.

Lemma tally_cons b bs : tally (b :: bs) = (if b then 1 else 0) + tally bs.
Proof. done. Qed.

Lemma set_all_guarded envs val ttl i bs nodes :
  (forall j, respects (envs j)) -> guarded bs nodes ->
  (set_all envs key val ttl i nodes).1 + tally bs <= Z.of_nat (length nodes) /\
  guarded bs (set_all envs key val ttl i nodes).2.
Proof.
  intros He Hg. revert i. induction Hg as [|b s bs nodes Hb Hg IH]; intros i; [split; [cbn; lia|constructor]|].
  cbn [set_all]. destruct (SetNX (envs i) key val ttl s) as [r s'] eqn:E.
  specialize (IH (Datatypes.S i)). destruct (set_all envs key val ttl (Datatypes.S i) nodes) as [n rest].
  cbn [fst snd length] in *. destruct IH as [IH1 IH2]. rewrite tally_cons.
  destruct b.
  - pose proof (SetNX_guarded (envs i) val ttl s (He i) (Hb I)) as [Hr Hs]. rewrite E in Hr, Hs. cbn in Hr, Hs.
    split; [|by constructor]. destruct r as [[]|]; [done| |]; lia.
  - split; [|by constructor]. destruct r as [[]|]; lia.
Qed.

Lemma release_all_guarded envs val i bs nodes :
  (forall j, respects (envs j)) -> val <> v -> guarded bs nodes -> guarded bs (release_all envs key val i nodes).2.
Proof.
  intros He Hv Hg. revert i. induction Hg as [|b s bs nodes Hb Hg IH]; intros i; [by constructor|].
  cbn [release_all]. destruct (releaseScript (envs i) key val s) as [r s'] eqn:E.
  specialize (IH (Datatypes.S i)). destruct (release_all envs key val (Datatypes.S i) nodes) as [errs rest].
  constructor; [|done]. intros Hbt. pose proof (releaseScript_guarded (envs i) val s (He i) Hv (Hb Hbt)) as H.
  by rewrite E in H.
Qed.

(** Another token cannot gather its quorum from the nodes that are left. *)
Lemma acquire_loop_refused cfg fuel i attempts val bs nodes :
  (forall k j, respects (at_set (attempts k) j) /\ respects (at_release (attempts k) j)) ->
  val <> v -> guarded bs nodes -> Z.of_nat (length nodes) - tally bs < Quorum cfg ->
  exists e nodes', acquire_loop cfg fuel i attempts key val nodes = (Error e, nodes').
Proof.
  intros He Hv. revert i nodes. induction fuel as [|fuel IH]; intros i nodes Hg Hq; cbn [acquire_loop]; [eauto|].
  destruct (_ && _); [eauto|]. unfold attempt_lock.
  pose proof (set_all_guarded (at_set (attempts i)) val (TTL cfg) 0 bs nodes (fun j => proj1 (He i j)) Hg) as [Ha Hg1].
  destruct (set_all _ key val (TTL cfg) 0 nodes) as [acq nodes1] eqn:E. cbn in Ha, Hg1.
  rewrite (proj2 (Z.leb_gt _ _)) by lia. cbn [andb].
  assert (Hg2 := release_all_guarded (at_release (attempts i)) val 0 bs nodes1 (fun j => proj2 (He i j)) Hv Hg1).
  apply IH; [done|]. apply Forall2_length in Hg, Hg2. lia.
Qed.

End Exclusion.

(** ** Winning *)

Section Winning.
Context {S : Type} {R : Redis S} {L : RedisLaws S}.

(** Every node that answered the SETNX guards the key from the end of the round
    until the TTL after its start. *)
Lemma set_all_wins envs key val ttl i nodes start since :
  (forall j, start <= dbnow (envs j) <= since) ->
  exists bs, guarded key val since (start + ttl) bs (set_all envs key val ttl i nodes).2 /\
             tally bs = (set_all envs key val ttl i nodes).1.
Proof.
  intros Ht. revert i. induction nodes as [|s nodes IH]; intros i; cbn [set_all].
  { exists []. split; [constructor|done]. }
  destruct (SetNX (envs i) key val ttl s) as [r s'] eqn:E.
  destruct (IH (Datatypes.S i)) as (bs & Hg & Hm).
  destruct (set_all envs key val ttl (Datatypes.S i) nodes) as [n rest]. cbn [fst snd] in *.
  assert (Hdec : r = Ok true \/ (match r with Ok true => 1 | _ => 0 end = 0)) by (destruct r as [[]|]; auto).
  destruct Hdec as [->|Hr].
  - exists (true :: bs). split; [|by rewrite tally_cons, Hm]. constructor; [|done]. intros _ t Hrange.
    unfold SetNX, run_stmt in E. destruct (fault (envs i)) eqn:Ef; [|done|done].
    destruct (set_nx (dbnow (envs i)) key val ttl (intf (envs i) s)) as [ok s1] eqn:Es. injection E as -> ->.
    destruct (get_key (dbnow (envs i)) key (intf (envs i) s)) as [w|] eqn:Eg.
    { rewrite (set_nx_taken _ _ _ _ _ w Eg) in Es. done. }
    destruct (set_nx_free (dbnow (envs i)) key val ttl _ Eg) as [_ Hlive]. rewrite Es in Hlive. apply Hlive.
    specialize (Ht i). lia.
  - exists (false :: bs). rewrite tally_cons, Hm, Hr. split; [by constructor|done].
Qed.

(** Sizes at which the arithmetic on durations does not wrap. *)
Definition sane (cfg : RedlockConfig) : Prop := 0 < TTL cfg <= 2 ^ 60 /\ 0 <= drift cfg <= 2 ^ 60.

(** The clock of an attempt: the commands run between its first two readings,
    and the pause before the third is within the drift allowance. *)
Definition clocked (cfg : RedlockConfig) (a : Attempt S) : Prop :=
  (forall j, at_start a <= dbnow (at_set a j) <= at_since a) /\
  at_since a - at_start a <= 2 ^ 60 /\ at_since a <= at_now a <= at_since a + drift cfg.

Lemma acquire_loop_wins cfg fuel i attempts key val nodes l nodes' :
  sane cfg -> (forall k, clocked cfg (attempts k)) ->
  acquire_loop cfg fuel i attempts key val nodes = (Ok l, nodes') ->
  Value l = val /\ exists k bs, guarded key val (at_since (attempts k)) (Expiry l) bs nodes' /\ Quorum cfg <= tally bs.
Proof.
  intros [HT Hd] Hc. revert i nodes. induction fuel as [|fuel IH]; intros i nodes; cbn [acquire_loop]; [done|].
  destruct (_ && _); [done|]. unfold attempt_lock.
  destruct (Hc i) as (Hset & Hlen & Hnow).
  destruct (set_all_wins (at_set (attempts i)) key val (TTL cfg) 0 nodes _ _ Hset) as (bs & Hg & Hm).
  destruct (set_all _ key val (TTL cfg) 0 nodes) as [acq nodes1]. cbn in Hg, Hm.
  destruct ((Quorum cfg <=? acq) && (0 <? validity cfg (attempts i))) eqn:E; [|by intros ?%IH].
  intros [= <- <-]. zbool. split; [done|]. exists i, bs. split; [|lia].
  assert (Hv : validity cfg (attempts i) = TTL cfg - (at_since (attempts i) - at_start (attempts i)) - drift cfg).
  { specialize (Hset 0%nat). unfold validity, Sub. unfold int64_min, int64_max in *.
    rewrite Z.min_r, Z.max_r by (cbn; lia).
    rewrite (wrap64_id (TTL cfg - _)) by (unfold int64_min, int64_max; lia).
    rewrite wrap64_id by (unfold int64_min, int64_max; lia). done. }
  cbn [Expiry]. unfold Add. rewrite Hv. eapply Forall2_impl; [exact Hg|].
  intros b s Hb Hbt t Ht. apply (Hb Hbt). lia.
Qed.

End Winning.

(** C23. While a lock is valid nobody else gets it: after a Manager's Acquire
    succeeded, an Acquire with another token that runs before the lock's Expiry
    fails, on any number of nodes, whichever commands fail or lose their replies,
    as long as the others respect the protocol and the pause before Expiry was
    computed is within the drift allowance.  Both managers use the default
    quorum, a majority. *)
Theorem redlock_excludes {S} {R : Redis S} {L : RedisLaws S} c1 c2 key rnd1 att1 rnd2 att2 nodes l nodes1 nodes2 :
  let n := length nodes1 in
  let cfg1 := NewManager n c1 in
  let cfg2 := NewManager n c2 in
  Quorum c1 <= 0 -> Quorum c2 <= 0 -> sane cfg1 -> (forall k, clocked cfg1 (att1 k)) ->
  Acquire cfg1 rnd1 att1 key nodes = (Ok l, nodes1) ->
  (forall from, Forall2 (fun s s2 => guard key (Value l) from (Expiry l) s -> guard key (Value l) from (Expiry l) s2) nodes1 nodes2) ->
  (forall k k' j, respects key (Value l) (at_since (att1 k)) (Expiry l) (at_set (att2 k') j) /\
                  respects key (Value l) (at_since (att1 k)) (Expiry l) (at_release (att2 k') j)) ->
  generateToken rnd2 <> Ok (Value l) ->
  exists e nodes3, Acquire cfg2 rnd2 att2 key nodes2 = (Error e, nodes3).
Proof.
  intros n cfg1 cfg2 Hq1 Hq2 Hsane Hclk Hacq Hthen Hresp Htok. unfold Acquire in *.
  destruct (generateToken rnd1) as [v|]; [|done].
  apply acquire_loop_wins in Hacq as (Hv & k & bs & Hg & Hq); [|done|done].
  destruct (generateToken rnd2) as [v2|] eqn:E2; [|eauto].
  assert (Hg2 : guarded key (Value l) (at_since (att1 k)) (Expiry l) bs nodes2).
  { rewrite <- Hv in Hg. clear -Hg Hthen. specialize (Hthen (at_since (att1 k))).
    revert nodes2 Hthen. induction Hg as [|b s bs nodes Hb Hg IH]; intros nodes2 Ht.
    - apply Forall2_nil_inv_l in Ht as ->. constructor.
    - apply Forall2_cons_inv_l in Ht as (s2 & rest & Hs & Hr & ->). constructor; [auto|by apply IH]. }
  eapply acquire_loop_refused; [apply (Hresp k)|congruence|exact Hg2|].
  pose proof (Forall2_length _ _ _ (Hthen 0)) as Hlen. apply Forall2_length in Hg.
  unfold cfg1, cfg2, NewManager in *. cbn [Quorum] in *.
  rewrite (proj2 (Z.leb_le _ _)) in Hq by done. rewrite (proj2 (Z.leb_le _ _)) by done.
  rewrite <- Hlen. fold n. pose proof (Z.div_mod (Z.of_nat n) 2). pose proof (Z.mod_pos_bound (Z.of_nat n) 2). lia.
Qed.

(** ** A node *)

(** A Redis node: keys with a value and an expiry. *)
Abbreviation RedisMap := (gmap string (string * Z)).

Definition map_get (t : Time) (key : string) (m : RedisMap) : option string :=
  match m !! key with Some (v, e) => if t <? e then Some v else None | None => None end.

#[export] Instance RedisMap_node : Redis RedisMap := {|
  set_nx now key val ttl m :=
    match map_get now key m with Some _ => (false, m) | None => (true, <[key := (val, now + ttl)]> m) end;
  get_key := map_get;
  del_key now key m := (match map_get now key m with Some _ => 1 | None => 0 end, delete key m)
|}.

#[export] Instance RedisMap_laws : RedisLaws RedisMap.
Proof.
  split.
  - intros now key val ttl m Hm. change (map_get now key m = None) in Hm. unfold set_nx, get_key, RedisMap_node.
    rewrite Hm. split; [done|]. intros t Ht. cbn [snd]. unfold map_get.
    rewrite lookup_insert_eq. by rewrite (proj2 (Z.ltb_lt _ _)) by lia.
  - intros now key val ttl m v Hm. change (map_get now key m = Some v) in Hm. unfold set_nx, RedisMap_node.
    by rewrite Hm.
Qed.

(** The settings of the server, and two instances asking for one resource. *)
Definition server_redlock : RedlockConfig := mkRedlockConfig 0 (30 * Second) 3 (100 * Millisecond) one_percent.

Definition calm_attempt (now : Time) : Attempt RedisMap :=
  mkAttempt false now (fun _ => calm now [] []) now now (fun _ => calm now [] []).

Definition three_nodes : list RedisMap := [∅; ∅; ∅].

Definition first_lock : result Lock * list RedisMap :=
  Acquire (NewManager 3 server_redlock) (Some (repeat 7 16)) (fun _ => calm_attempt Second) "job:exec:1" three_nodes.

Definition the_lock : Lock := match first_lock.1 with Ok l => l | Error _ => mkLock "" "" 0 end.

Lemma redlock_excludes_witness :
  first_lock.1 = Ok the_lock /\ Expiry the_lock = 30698000000 /\
  exists e nodes3,
    Acquire (NewManager 3 server_redlock) (Some (repeat 8 16)) (fun _ => calm_attempt (2 * Second)) "job:exec:1" first_lock.2
    = (Error e, nodes3).
Proof.
  split; [vm_compute; reflexivity|]. split; [vm_compute; reflexivity|].
  apply (redlock_excludes server_redlock server_redlock "job:exec:1" (Some (repeat 7 16)) (fun _ => calm_attempt Second)
           (Some (repeat 8 16)) (fun _ => calm_attempt (2 * Second)) three_nodes the_lock first_lock.2 first_lock.2).
  - cbn. lia.
  - cbn. lia.
  - split; vm_compute; split; discriminate || reflexivity.
  - intros k. split; [intros j; cbn; unfold Second; lia|]. split; vm_compute; [discriminate|split; discriminate].
  - vm_compute. reflexivity.
  - intros from. apply Forall2_same_length_lookup_2; [done|]. intros i s s2 H1 H2 Hg.
    rewrite H1 in H2. by injection H2 as <-.
  - intros k k' j. split; (split; [vm_compute; split; [discriminate|reflexivity]|done]).
  - vm_compute. discriminate.
Defined.
