(* ===== verification/Advisory.v ===== *)
(** * internal/lock/postgres.go: advisory locks

    NoOp and Advisory.  The server keeps, per key, the session that holds it
    and how often it took it; a session's locks go when it ends.  Every process
    has its Advisory with one dedicated session at a time and the set of names
    it holds.  Sessions may end at any time, on either side. *)

From S2P Require Import Prelude Models GoStrings.

(** ** Keys *)

(** FNV-1a of 64 bits, read as a signed integer. *)
Definition fnv_offset : Z := 14695981039346656037.
Definition fnv_prime : Z := 1099511628211.

Fixpoint fnv1a (h : Z) (s : string) : Z :=
  match s with
  | EmptyString => h
  | String c s' => fnv1a (Z.lxor h (byte_of c) * fnv_prime mod 2 ^ 64) s'
  end.

Definition advisoryKey (resource : string) : Z := wrap64 (fnv1a fnv_offset resource).

Example fnv_a : fnv1a fnv_offset "a" = 0xaf63dc4c8601ec8c. Proof. vm_compute. reflexivity. Qed.
Example fnv_foobar : fnv1a fnv_offset "foobar" = 0x85944171f73967e8. Proof. vm_compute. reflexivity. Qed.

(** ** The server *)

Record Server := mkServer {
  locks : gmap Z (nat * nat);    (* key to session and depth *)
  sessions : gset nat;           (* the sessions that are alive *)
  next_session : nat
}.

Definition set_locks (l : gmap Z (nat * nat)) (sv : Server) : Server := mkServer l (sessions sv) (next_session sv).

(** [SELECT pg_try_advisory_lock(k)] on a session: re-entrant. *)
Definition pg_try_advisory_lock (sid : nat) (k : Z) (sv : Server) : bool * Server :=
  match locks sv !! k with
  | None => (true, set_locks (<[k := (sid, 1%nat)]> (locks sv)) sv)
  | Some (owner, depth) =>
      if bool_decide (owner = sid) then (true, set_locks (<[k := (sid, S depth)]> (locks sv)) sv) else (false, sv)
  end.

(** [SELECT pg_advisory_unlock(k)]. *)
Definition pg_advisory_unlock (sid : nat) (k : Z) (sv : Server) : bool * Server :=
  match locks sv !! k with
  | Some (owner, depth) =>
      if negb (bool_decide (owner = sid)) then (false, sv)
      else if (depth <=? 1)%nat then (true, set_locks (delete k (locks sv)) sv)
      else (true, set_locks (<[k := (sid, Nat.pred depth)]> (locks sv)) sv)
  | None => (false, sv)
  end.

(** A session ends: its locks are released. *)
Definition end_session (sid : nat) (sv : Server) : Server :=
  mkServer (filter (fun '(_, (owner, _)) => owner <> sid) (locks sv)) (sessions sv ∖ {[sid]}) (next_session sv).

(** A new connection of the pool. *)
Definition open_session (sv : Server) : nat * Server :=
  (next_session sv, mkServer (locks sv) ({[next_session sv]} ∪ sessions sv) (S (next_session sv))).

(** ** The process *)

Record Advisory := mkAdvisory {
  conn : option nat;
  held : gset string
}.

Definition NewAdvisory : Advisory := mkAdvisory None ∅.

(** What a call meets: the pool's refusal of a connection, the fate of its
    query. *)
Record CallEnv := mkCallEnv {
  ce_pool : option error;
  ce_query : Fault
}.

Definition quiet_call : CallEnv := mkCallEnv None NoFault.

Definition session (env : CallEnv) (a : Advisory) (sv : Server) : result nat * Advisory * Server :=
  match conn a with
  | Some sid => (Ok sid, a, sv)
  | None =>
      match ce_pool env with
      | Some e => (Error (Wrapf "lock: acquire advisory lock session: " e), a, sv)
      | None => let '(sid, sv') := open_session sv in (Ok sid, mkAdvisory (Some sid) (held a), sv')
      end
  end.

(** The connection is hijacked and closed off the mutex, so the server learns
    later ([end_session]); this side forgets it at once. *)
Definition discard (a : Advisory) : Advisory :=
  match conn a with None => a | Some _ => mkAdvisory None ∅ end.

(** A query on the session: it fails if the session is gone or the connection
    faults. *)
Definition query {A} (env : CallEnv) (sid : nat) (stmt : Server -> A * Server) (sv : Server) : result A * Server :=
  if negb (bool_decide (sid ∈ sessions sv)) then (Error (ErrText "conn closed"), sv)
  else match ce_query env with
  | NoFault => let '(x, sv') := stmt sv in (Ok x, sv')
  | FaultBefore e => (Error e, sv)
  | FaultAfter e => (Error e, (stmt sv).2)
  end.

Definition Acquire (env : CallEnv) (resource : string) (a : Advisory) (sv : Server)
    : option error * Advisory * Server :=
  if bool_decide (resource ∈ held a) then
    (Some (ErrText ("lock: " +:+ resource +:+ " is already held by this process")), a, sv)
  else match session env a sv with
  | (Error e, a1, sv1) => (Some e, a1, sv1)
  | (Ok sid, a1, sv1) =>
      match query env sid (pg_try_advisory_lock sid (advisoryKey resource)) sv1 with
      | (Error e, sv2) => (Some (Wrapf ("lock: try advisory lock on " +:+ resource +:+ ": ") e), discard a1, sv2)
      | (Ok false, sv2) => (Some (ErrText ("lock: " +:+ resource +:+ " is held by another instance")), a1, sv2)
      | (Ok true, sv2) => (None, mkAdvisory (conn a1) ({[resource]} ∪ held a1), sv2)
      end
  end.

Definition Release (env : CallEnv) (resource : string) (a : Advisory) (sv : Server)
    : option error * Advisory * Server :=
  if negb (bool_decide (resource ∈ held a)) then (None, a, sv)
  else
    let a := mkAdvisory (conn a) (held a ∖ {[resource]}) in
    match session env a sv with
    | (Error e, a1, sv1) => (Some e, a1, sv1)
    | (Ok sid, a1, sv1) =>
        match query env sid (pg_advisory_unlock sid (advisoryKey resource)) sv1 with
        | (Error e, sv2) => (Some (Wrapf ("lock: release advisory lock on " +:+ resource +:+ ": ") e), discard a1, sv2)
        | (Ok _, sv2) => (None, a1, sv2)
        end
    end.

Definition Close (a : Advisory) : Advisory := discard a.

(** NoOp grants everything and releases nothing. *)
Definition NoOp_Acquire (resource : string) : option error := None.
Definition NoOp_Release (resource : string) : option error := None.

(** ** Processes sharing a server *)

Record Cluster := mkCluster {
  procs : gmap nat Advisory;
  server : Server
}.

Inductive cluster_step : Cluster -> Cluster -> Prop :=
  | do_acquire ps sv i a env r e a' sv' :
      ps !! i = Some a -> Acquire env r a sv = (e, a', sv') ->
      cluster_step (mkCluster ps sv) (mkCluster (<[i := a']> ps) sv')
  | do_release ps sv i a env r e a' sv' :
      ps !! i = Some a -> Release env r a sv = (e, a', sv') ->
      cluster_step (mkCluster ps sv) (mkCluster (<[i := a']> ps) sv')
  | do_close ps sv i a :
      ps !! i = Some a -> cluster_step (mkCluster ps sv) (mkCluster (<[i := Close a]> ps) sv)
  | session_ends ps sv sid : cluster_step (mkCluster ps sv) (mkCluster ps (end_session sid sv)).

(** How many of the names hash to the key. *)
Definition names_at (k : Z) (h : gset string) : nat := size (filter (fun r => advisoryKey r = k) h).

(** What a process believes of a live session is true on the server: it owns
    the key of every name it holds, at least as deep as it has names there. *)
Definition backed (a : Advisory) (sv : Server) : Prop :=
  match conn a with
  | None => held a = ∅
  | Some sid =>
      (sid < next_session sv)%nat /\
      (sid ∈ sessions sv ->
       forall k, (0 < names_at k (held a))%nat ->
       exists depth, locks sv !! k = Some (sid, depth) /\ (names_at k (held a) <= depth)%nat)
  end.

(** The processes have sessions of their own. *)
Definition disjoint_conns (ps : gmap nat Advisory) : Prop :=
  forall i j a b sid, ps !! i = Some a -> ps !! j = Some b -> conn a = Some sid -> conn b = Some sid -> i = j.

Definition server_ok (sv : Server) : Prop :=
  (forall sid, sid ∈ sessions sv -> (sid < next_session sv)%nat) /\
  (forall k sid d, locks sv !! k = Some (sid, d) -> (sid < next_session sv)%nat).

Definition cluster_ok (c : Cluster) : Prop :=
  server_ok (server c) /\ disjoint_conns (procs c) /\ forall i a, procs c !! i = Some a -> backed a (server c).

(** ** Names and depths *)

Lemma names_at_add k r h :
  r ∉ h -> names_at k ({[r]} ∪ h) = ((if decide (advisoryKey r = k) then 1 else 0) + names_at k h)%nat.
Proof.
  intros Hr. unfold names_at. destruct (decide (advisoryKey r = k)) as [Hk|Hk].
  - replace (filter _ ({[r]} ∪ h)) with ({[r]} ∪ filter (fun r => advisoryKey r = k) h) by set_solver.
    rewrite size_union by set_solver. by rewrite size_singleton.
  - by replace (filter _ ({[r]} ∪ h)) with (filter (fun r => advisoryKey r = k) h) by set_solver.
Qed.

Lemma names_at_remove k r h :
  r ∈ h -> names_at k h = ((if decide (advisoryKey r = k) then 1 else 0) + names_at k (h ∖ {[r]}))%nat.
Proof.
  intros Hr. rewrite <- names_at_add by set_solver. f_equal. by apply union_difference_singleton_L.
Qed.

Lemma names_at_pos r h : r ∈ h -> (0 < names_at (advisoryKey r) h)%nat.
Proof. intros Hr. rewrite (names_at_remove _ r) by done. rewrite decide_True by done. lia. Qed.

(** ** What one process does to the server *)

(** The locks of session [sid] are as they were. *)
Definition same_for (sid : nat) (sv sv' : Server) : Prop :=
  (next_session sv <= next_session sv')%nat /\ (sid ∈ sessions sv' -> sid ∈ sessions sv) /\
  forall k d, locks sv !! k = Some (sid, d) -> locks sv' !! k = Some (sid, d).

Lemma same_for_refl sid sv : same_for sid sv sv.
Proof. split; [lia|]. auto. Qed.

Lemma same_for_trans sid sv1 sv2 sv3 : same_for sid sv1 sv2 -> same_for sid sv2 sv3 -> same_for sid sv1 sv3.
Proof. intros (? & ? & ?) (? & ? & ?). split; [lia|]. split; eauto. Qed.

Lemma backed_same sid a sv sv' : conn a = Some sid -> backed a sv -> same_for sid sv sv' -> backed a sv'.
Proof.
  unfold backed. intros -> [Hlt Hb] (Hn & Hs & Hl). split; [lia|]. intros Hin k Hk.
  destruct (Hb (Hs Hin) k Hk) as (d & Hd & Hle). eauto.
Qed.

Lemma try_lock_effect sid k sv b sv' :
  server_ok sv -> (sid < next_session sv)%nat -> pg_try_advisory_lock sid k sv = (b, sv') ->
  server_ok sv' /\ sessions sv' = sessions sv /\ next_session sv' = next_session sv /\
  (forall sid', sid' <> sid -> same_for sid' sv sv') /\
  (b = false -> sv' = sv) /\
  (b = true -> exists d, locks sv' !! k = Some (sid, S d) /\
     (forall d', locks sv !! k = Some (sid, d') -> d' = d) /\
     forall k', k' <> k -> locks sv' !! k' = locks sv !! k').
Proof.
  intros [Hs Hl] Hlt. unfold pg_try_advisory_lock. destruct (locks sv !! k) as [[owner depth]|] eqn:E.
  - case_bool_decide as Ho; intros [= <- <-].
    + subst owner. split; [split; [done|]|].
      { intros k' sid' d'. cbn. rewrite lookup_insert_Some. naive_solver. }
      do 2 (split; [done|]). split; [|split; [done|]].
      * intros sid' Hne. split; [done|]. split; [done|]. intros k' d' Hk'. cbn. rewrite lookup_insert_ne; [done|].
        intros ->. congruence.
      * intros _. exists depth. cbn. rewrite lookup_insert_eq. split; [done|]. split; [congruence|].
        intros k' Hk'. by rewrite lookup_insert_ne.
    + split; [by split|]. do 2 (split; [done|]). split; [by intros; apply same_for_refl|]. done.
  - intros [= <- <-]. split; [split; [done|]|].
    { intros k' sid' d'. cbn. rewrite lookup_insert_Some. naive_solver. }
    do 2 (split; [done|]). split; [|split; [done|]].
    + intros sid' Hne. split; [done|]. split; [done|]. intros k' d' Hk'. cbn. rewrite lookup_insert_ne; [done|].
      intros ->. congruence.
    + intros _. exists 0%nat. cbn. rewrite lookup_insert_eq. split; [done|]. split; [congruence|].
      intros k' Hk'. by rewrite lookup_insert_ne.
Qed.

Lemma unlock_effect sid k sv b sv' :
  server_ok sv -> (sid < next_session sv)%nat -> pg_advisory_unlock sid k sv = (b, sv') ->
  server_ok sv' /\ sessions sv' = sessions sv /\ next_session sv' = next_session sv /\
  (forall sid', sid' <> sid -> same_for sid' sv sv') /\
  (forall k', k' <> k -> locks sv' !! k' = locks sv !! k') /\
  (forall d, locks sv !! k = Some (sid, d) -> (2 <= d)%nat -> locks sv' !! k = Some (sid, Nat.pred d)).
Proof.
  intros [Hs Hl] Hlt. unfold pg_advisory_unlock. destruct (locks sv !! k) as [[owner depth]|] eqn:E.
  - case_bool_decide as Ho; cbn [negb].
    + subst owner. destruct (depth <=? 1)%nat eqn:Ed; intros [= <- <-].
      * apply Nat.leb_le in Ed. split; [split; [done|]|].
        { intros k' sid' d'. cbn. rewrite lookup_delete_Some. naive_solver. }
        do 2 (split; [done|]). split; [|split].
        -- intros sid' Hne. split; [done|]. split; [done|]. intros k' d' Hk'. cbn. rewrite lookup_delete_ne; [done|].
           intros ->. congruence.
        -- intros k' Hk'. cbn. by rewrite lookup_delete_ne.
        -- intros d [= <-]. lia.
      * split; [split; [done|]|].
        { intros k' sid' d'. cbn. rewrite lookup_insert_Some. naive_solver. }
        do 2 (split; [done|]). split; [|split].
        -- intros sid' Hne. split; [done|]. split; [done|]. intros k' d' Hk'. cbn. rewrite lookup_insert_ne; [done|].
           intros ->. congruence.
        -- intros k' Hk'. cbn. by rewrite lookup_insert_ne.
        -- intros d [= <-] _. cbn. by rewrite lookup_insert_eq.
    + intros [= <- <-]. split; [by split|]. do 2 (split; [done|]).
      split; [by intros; apply same_for_refl|]. split; [done|]. intros d [= -> ->]. done.
  - intros [= <- <-]. split; [by split|]. do 2 (split; [done|]).
    split; [by intros; apply same_for_refl|]. done.
Qed.

Lemma session_effect env a sv r a1 sv1 :
  server_ok sv -> backed a sv -> session env a sv = (r, a1, sv1) ->
  server_ok sv1 /\ backed a1 sv1 /\ held a1 = held a /\
  (forall sid, (sid < next_session sv)%nat -> same_for sid sv sv1) /\
  match r with
  | Ok sid => conn a1 = Some sid /\ (sid < next_session sv1)%nat /\ (conn a = Some sid \/ (conn a = None /\ sid = next_session sv))
  | Error _ => conn a1 = conn a
  end.
Proof.
  intros [Hs Hl] Hb. pose proof Hb as Hb'. unfold session, backed in Hb |- *. destruct (conn a) as [sid|] eqn:Ec.
  - intros [= <- <- <-]. rewrite Ec. split; [by split|]. split; [done|]. split; [done|].
    split; [intros; apply same_for_refl|]. destruct Hb. auto.
  - destruct (ce_pool env).
    + intros [= <- <- <-]. rewrite Ec. split; [by split|]. split; [done|]. split; [done|].
      split; [intros; apply same_for_refl|done].
    + intros [= <- <- <-]. cbn. split; [split; cbn|].
      { intros sid. rewrite elem_of_union, elem_of_singleton. intros [->|Hin]; [lia|]. apply Hs in Hin. lia. }
      { intros k sid d Hk. apply Hl in Hk. lia. }
      split; [split; [lia|]|].
      { intros _ k. rewrite Hb. change (names_at k ∅) with 0%nat. lia. }
      split; [done|]. split; [|split; [done|split; [lia|auto]]].
      intros sid Hsid. split; [cbn; lia|]. split; [|done]. cbn.
      rewrite elem_of_union, elem_of_singleton. intros [->|]; [lia|done].
Qed.

Lemma query_cases {A} env sid (stmt : Server -> A * Server) sv r sv' :
  query env sid stmt sv = (r, sv') ->
  (exists e, r = Error e /\ (sv' = sv \/ sv' = (stmt sv).2)) \/
  (exists x, r = Ok x /\ stmt sv = (x, sv') /\ sid ∈ sessions sv).
Proof.
  unfold query. case_bool_decide as Hs; cbn [negb]; [|intros [= <- <-]; left; eauto].
  destruct (ce_query env).
  - destruct (stmt sv) as [x s] eqn:E. intros [= <- <-]. right. eauto.
  - intros [= <- <-]. left. eauto.
  - intros [= <- <-]. left. eauto.
Qed.

(** The effect of a call of the process: its belief is backed again, the other
    sessions are untouched, and its session is its old one or a new one. *)
Definition own_effect (a : Advisory) (sv : Server) (a' : Advisory) (sv' : Server) : Prop :=
  server_ok sv' /\ backed a' sv' /\
  (forall sid, conn a <> Some sid -> (sid < next_session sv)%nat -> same_for sid sv sv') /\
  (forall sid, conn a' = Some sid -> conn a = Some sid \/ (next_session sv <= sid)%nat).

Lemma discard_effect a sv a1 sv1 :
  server_ok sv1 -> (forall sid, conn a <> Some sid -> (sid < next_session sv)%nat -> same_for sid sv sv1) ->
  conn a1 <> None -> own_effect a sv (discard a1) sv1.
Proof.
  intros Hok Hsame Hc. unfold discard. destruct (conn a1); [|done]. split; [done|]. split; [done|]. split; [done|].
  intros sid. done.
Qed.

Section Calls.
Variables (env : CallEnv) (r : string) (a : Advisory) (sv : Server).
Hypotheses (Hsv : server_ok sv) (Hback : backed a sv).

Lemma Acquire_effect e a' sv' : Acquire env r a sv = (e, a', sv') -> own_effect a sv a' sv'.
Proof.
  unfold Acquire. case_bool_decide as Hheld.
  { intros [= <- <- <-]. split; [done|]. split; [done|]. split; [intros; apply same_for_refl|auto]. }
  destruct (session env a sv) as [[rs a1] sv1] eqn:Es.
  apply session_effect in Es as (Hsv1 & Hb1 & Hh1 & Hsame1 & Hrs); [|done|done].
  destruct rs as [sid|err].
  2:{ intros [= <- <- <-]. split; [done|]. split; [done|]. split; [auto|]. intros sid Hc. left. congruence. }
  destruct Hrs as (Hc1 & Hlt & Hc).
  assert (Hother : forall sv2, (forall sid', sid' <> sid -> same_for sid' sv1 sv2) ->
            forall sid', conn a <> Some sid' -> (sid' < next_session sv)%nat -> same_for sid' sv sv2).
  { intros sv2 H2 sid' Hn Hl. eapply same_for_trans; [by apply Hsame1|]. apply H2. intros ->.
    destruct Hc as [?|[_ ->]]; [done|lia]. }
  destruct (query env sid _ sv1) as [q sv2] eqn:Eq. apply query_cases in Eq.
  destruct (pg_try_advisory_lock sid (advisoryKey r) sv1) as [b svt] eqn:Et.
  pose proof (try_lock_effect _ _ _ _ _ Hsv1 Hlt Et) as (Hsvt & Hst & Hnt & Ht1 & Ht2 & Ht3).
  destruct Eq as [(err & -> & Hsv2)|(x & -> & Hx & Halive)].
  - intros [= <- <- <-]. apply discard_effect; [|apply Hother|congruence].
    + destruct Hsv2 as [->| ->]; [done|]. done.
    + destruct Hsv2 as [->| ->]; [intros; apply same_for_refl|done].
  - injection Hx as <- <-. destruct b; intros [= <- <- <-].
    + split; [done|]. split; [|split; [by apply Hother|]].
      * unfold backed in Hb1 |- *. cbn [conn held]. rewrite Hc1 in *. destruct Hb1 as [_ Hb1].
        rewrite Hnt, Hst. split; [done|]. intros _ k Hk. rewrite names_at_add in * by congruence.
        destruct (Ht3 eq_refl) as (d & Hd & Hold & Hrest). destruct (decide (advisoryKey r = k)) as [<-|Hne].
        -- exists (S d). split; [done|].
           destruct (decide (0 < names_at (advisoryKey r) (held a1))%nat) as [Hp|Hp]; [|lia].
           destruct (Hb1 Halive _ Hp) as (d' & Hd' & Hle). rewrite (Hold d' Hd') in Hle. lia.
        -- rewrite Hrest by congruence. apply Hb1; [done|lia].
      * cbn [conn]. rewrite Hc1. intros sid' [= <-]. destruct Hc as [?|[_ ->]]; auto.
    + rewrite (Ht2 eq_refl). split; [done|]. split; [done|].
      split; [apply Hother; intros; apply same_for_refl|].
      rewrite Hc1. intros sid' [= <-]. destruct Hc as [?|[_ ->]]; auto.
Qed.

Lemma Release_effect e a' sv' : Release env r a sv = (e, a', sv') -> own_effect a sv a' sv'.
Proof.
  unfold Release. case_bool_decide as Hheld; cbn [negb].
  2:{ intros [= <- <- <-]. split; [done|]. split; [done|]. split; [intros; apply same_for_refl|auto]. }
  destruct (conn a) as [sid|] eqn:Ec.
  2:{ unfold backed in Hback. rewrite Ec in Hback. set_solver. }
  unfold session. cbn [conn]. pose proof Hback as Hb. unfold backed in Hb. rewrite Ec in Hb. destruct Hb as [Hlt Hb].
  destruct (query env sid _ sv) as [q sv2] eqn:Eq. apply query_cases in Eq.
  destruct (pg_advisory_unlock sid (advisoryKey r) sv) as [b svt] eqn:Et.
  pose proof (unlock_effect _ _ _ _ _ Hsv Hlt Et) as (Hsvt & Hst & Hnt & Ht1 & Ht2 & Ht3).
  assert (Hother : forall sid', conn a <> Some sid' -> (sid' < next_session sv)%nat -> same_for sid' sv svt)
    by (intros sid' Hn _; apply Ht1; congruence).
  destruct Eq as [(err & -> & Hsv2)|(x & -> & Hx & Halive)].
  - intros [= <- <- <-]. apply discard_effect; [| |done].
    + by destruct Hsv2 as [->| ->].
    + destruct Hsv2 as [->| ->]; [intros; apply same_for_refl|done].
  - injection Hx as <- <-. intros [= <- <- <-]. split; [done|]. split; [|split; [done|]].
    + unfold backed. cbn [conn held]. rewrite Hnt, Hst. split; [done|]. intros _ k Hk.
      pose proof (names_at_remove k r (held a) Hheld) as Hrm.
      destruct (decide (advisoryKey r = k)) as [<-|Hne].
      * destruct (Hb Halive (advisoryKey r)) as (d & Hd & Hle); [lia|].
        exists (Nat.pred d). split; [apply Ht3; [done|lia]|lia].
      * destruct (Hb Halive k) as (d & Hd & Hle); [lia|]. exists d. rewrite Ht2 by congruence. split; [done|lia].
    + cbn [conn]. intros sid' [= <-]. by left.
Qed.

End Calls.

(** ** The cluster *)

Lemma own_effect_cluster ps sv i a a' sv' :
  cluster_ok (mkCluster ps sv) -> ps !! i = Some a -> own_effect a sv a' sv' -> cluster_ok (mkCluster (<[i := a']> ps) sv').
Proof.
  intros (Hsv & Hdis & Hb) Hi (Hsv' & Hb' & Hsame & Hconn). cbn [procs server] in *.
  assert (Hnew : forall j b sid, j <> i -> ps !! j = Some b -> conn b = Some sid -> conn a' <> Some sid).
  { intros j b sid Hne Hj Hcb Hca. destruct (Hconn sid Hca) as [Hca0|Hge].
    - apply Hne. symmetry. by eapply (Hdis i j).
    - specialize (Hb j b Hj). unfold backed in Hb. rewrite Hcb in Hb. lia. }
  split; [done|]. split.
  - intros j1 j2 b1 b2 sid. cbn. rewrite !lookup_insert_Some.
    intros [[<- <-]|[H1 Hj1]] [[<- <-]|[H2 Hj2]] Hc1 Hc2; [done| | |by eapply Hdis].
    + exfalso. eapply (Hnew j2); eauto.
    + exfalso. eapply (Hnew j1); eauto.
  - intros j b. cbn. rewrite lookup_insert_Some. intros [[<- <-]|[Hne Hj]]; [done|].
    pose proof (Hb j b Hj) as Hbj. destruct (conn b) as [sid|] eqn:Ecb.
    + eapply backed_same; [done|done|]. apply Hsame.
      * intros Hca. apply Hne. by eapply (Hdis i j).
      * unfold backed in Hbj. rewrite Ecb in Hbj. lia.
    + unfold backed in *. by rewrite Ecb in *.
Qed.

Lemma end_session_ok ps sv sid : cluster_ok (mkCluster ps sv) -> cluster_ok (mkCluster ps (end_session sid sv)).
Proof.
  intros ([Hs Hl] & Hdis & Hb). cbn [procs server] in *. split; [split; cbn|split; [done|]].
  - intros s Hin. apply Hs. set_solver.
  - intros k s d. rewrite map_lookup_filter_Some. intros [Hk _]. by eapply Hl.
  - intros i a Hi. specialize (Hb i a Hi). unfold backed in *. cbn. destruct (conn a) as [s|]; [|done].
    destruct Hb as [Hlt Hb]. split; [done|]. intros Hin k Hk.
    destruct (Hb ltac:(set_solver) k Hk) as (d & Hd & Hle). exists d. split; [|done].
    apply map_lookup_filter_Some. split; [done|]. set_solver.
Qed.

Lemma cluster_step_ok c c' : cluster_step c c' -> cluster_ok c -> cluster_ok c'.
Proof.
  intros Hs Hc. destruct Hs as [ps sv i a env r e a' sv' Hi He|ps sv i a env r e a' sv' Hi He|ps sv i a Hi|ps sv sid].
  - eapply own_effect_cluster; [done..|]. destruct Hc as (? & _ & Hb). eapply Acquire_effect; eauto.
  - eapply own_effect_cluster; [done..|]. destruct Hc as (? & _ & Hb). eapply Release_effect; eauto.
  - eapply own_effect_cluster; [done..|]. pose proof Hc as (Hsv & _ & Hb). specialize (Hb i a Hi). cbn in *.
    unfold Close, discard. destruct (conn a) eqn:Ec.
    + split; [done|]. split; [done|]. split; [intros; apply same_for_refl|done].
    + split; [done|]. split; [done|]. split; [intros; apply same_for_refl|]. rewrite Ec. done.
  - by apply end_session_ok.
Qed.

Definition new_server : Server := mkServer ∅ ∅ 0.
Definition new_cluster (ids : gset nat) : Cluster := mkCluster (gset_to_gmap NewAdvisory ids) new_server.

Lemma new_cluster_ok ids : cluster_ok (new_cluster ids).
Proof.
  split; [split; cbn; [set_solver|intros k sid d; by rewrite lookup_empty]|]. split.
  - intros i j a b sid. cbn. rewrite !lookup_gset_to_gmap_Some. intros [_ <-]. done.
  - intros i a. cbn. rewrite lookup_gset_to_gmap_Some. by intros [_ <-].
Qed.

(** C24. Advisory locks exclude: whatever calls, lost replies and ended sessions
    lie before, two processes whose sessions are alive never both hold the same
    name - not even when names collide in the hash - and a process refuses a name
    it holds itself. *)
Theorem advisory_excludes ids c i j a b s1 s2 r :
  rtc cluster_step (new_cluster ids) c -> i <> j -> procs c !! i = Some a -> procs c !! j = Some b ->
  conn a = Some s1 -> conn b = Some s2 -> s1 ∈ sessions (server c) -> s2 ∈ sessions (server c) ->
  r ∈ held a -> (r ∉ held b) /\ (forall env sv, exists e, Acquire env r a sv = (Some e, a, sv)).
Proof.
  intros Hr Hne Hi Hj Ha Hb H1 H2 Hra.
  assert (Hok : cluster_ok c).
  { pose proof (new_cluster_ok ids) as H0. clear -Hr H0. induction Hr; eauto using cluster_step_ok. }
  destruct Hok as (_ & Hdis & Hback). split.
  - intros Hrb. pose proof (Hback i a Hi) as Hba. pose proof (Hback j b Hj) as Hbb. unfold backed in Hba, Hbb.
    rewrite Ha in Hba. rewrite Hb in Hbb.
    destruct (proj2 Hba H1 _ (names_at_pos r _ Hra)) as (d1 & Hd1 & _).
    destruct (proj2 Hbb H2 _ (names_at_pos r _ Hrb)) as (d2 & Hd2 & _).
    rewrite Hd1 in Hd2. injection Hd2 as -> _. apply Hne. by eapply Hdis.
  - intros env sv. unfold Acquire. rewrite bool_decide_eq_true_2 by done. eauto.
Qed.

Lemma advisory_excludes_witness :
  exists c a b, rtc cluster_step (new_cluster ({[1%nat; 2%nat]})) c /\ procs c !! 1%nat = Some a /\ procs c !! 2%nat = Some b /\
    conn b = Some 1%nat /\ "job:exec:1" ∈ held a /\ "job:exec:1" ∉ held b.
Proof.
  set (c1 := mkCluster (<[1%nat := mkAdvisory (Some 0%nat) {["job:exec:1"]}]> (procs (new_cluster {[1%nat; 2%nat]})))
               (mkServer {[advisoryKey "job:exec:1" := (0%nat, 1%nat)]} {[0%nat]} 1)).
  set (c2 := mkCluster (<[2%nat := mkAdvisory (Some 1%nat) ∅]> (procs c1))
               (mkServer (locks (server c1)) {[0%nat; 1%nat]} 2)).
  assert (Hr : rtc cluster_step (new_cluster {[1%nat; 2%nat]}) c2).
  { apply (rtc_l _ _ c1).
    { eapply (do_acquire _ _ 1 NewAdvisory quiet_call "job:exec:1" None); [reflexivity|]. vm_compute. reflexivity. }
    apply (rtc_l _ _ c2); [|apply rtc_refl].
    eapply (do_acquire _ _ 2 NewAdvisory quiet_call "job:exec:1"); [reflexivity|]. vm_compute. reflexivity. }
  exists c2, (mkAdvisory (Some 0%nat) {["job:exec:1"]}), (mkAdvisory (Some 1%nat) ∅).
  split; [exact Hr|]. split; [reflexivity|]. split; [reflexivity|]. split; [reflexivity|]. split; [cbn; set_solver|].
  apply (advisory_excludes {[1%nat; 2%nat]} c2 1 2 (mkAdvisory (Some 0%nat) {["job:exec:1"]})
           (mkAdvisory (Some 1%nat) ∅) 0 1 "job:exec:1"); try reflexivity; [exact Hr|done|cbn; set_solver..].
Defined.
