(* ===== verification/Webhook.v ===== *)
(** * internal/webhook/executor.go: the webhook executor

    The checks a target URL passes before it is called, here and after every
    redirect, the request with its JSON body, and what the reply means for the
    job.  Parsing of URLs and addresses, name resolution, what the client makes
    of a request on a redirect and the server at the other end are the fields of
    [Net]; the predicates of package net/netip on an address are written out,
    on the 32 or 128 bits of the address. *)

From S2P Require Import Prelude Models GoStrings GoText Retry GoJson JsonText JsonGrammar JsonObject JsonStruct JsonFields JobJson.

(** ** Addresses: net/netip *)

(** [netip.Addr]: its zero value, an IPv4 address, an IPv6 address with a
    zone. *)
Inductive Addr := AddrZero | IP4 (a : Z) | IP6 (a : Z) (zone : string).

#[global] Instance Addr_eq_dec : EqDecision Addr.
Proof. solve_decision. Defined.

(** Byte [i] of an IPv4 address, 16-bit group [i] and byte [i] of an IPv6 one. *)
Definition v4 (a : Z) (i : Z) : Z := Z.land (Z.shiftr a (24 - 8 * i)) 255.
Definition v6u16 (a : Z) (i : Z) : Z := Z.land (Z.shiftr a (112 - 16 * i)) 65535.
Definition v6 (a : Z) (i : Z) : Z := Z.land (Z.shiftr a (120 - 8 * i)) 255.

Definition Is4In6 (ip : Addr) : bool :=
  match ip with IP6 a _ => Z.shiftr a 32 =? 65535 | _ => false end.

Definition Unmap (ip : Addr) : Addr :=
  if Is4In6 ip then match ip with IP6 a _ => IP4 (Z.land a (2 ^ 32 - 1)) | _ => ip end else ip.

Definition IsLoopback (ip : Addr) : bool :=
  match Unmap ip with
  | IP4 a => v4 a 0 =? 127
  | IP6 a _ => a =? 1
  | AddrZero => false
  end.

Definition IsPrivate (ip : Addr) : bool :=
  match Unmap ip with
  | IP4 a => (v4 a 0 =? 10) || ((v4 a 0 =? 172) && (Z.land (v4 a 1) 240 =? 16)) || ((v4 a 0 =? 192) && (v4 a 1 =? 168))
  | IP6 a _ => Z.land (v6 a 0) 254 =? 252
  | AddrZero => false
  end.

Definition IsLinkLocalUnicast (ip : Addr) : bool :=
  match Unmap ip with
  | IP4 a => (v4 a 0 =? 169) && (v4 a 1 =? 254)
  | IP6 a _ => Z.land (v6u16 a 0) 65472 =? 65152
  | AddrZero => false
  end.

Definition IsLinkLocalMulticast (ip : Addr) : bool :=
  match Unmap ip with
  | IP4 a => (v4 a 0 =? 224) && (v4 a 1 =? 0) && (v4 a 2 =? 0)
  | IP6 a _ => Z.land (v6u16 a 0) 65295 =? 65282
  | AddrZero => false
  end.

Definition IsMulticast (ip : Addr) : bool :=
  match Unmap ip with
  | IP4 a => Z.land (v4 a 0) 240 =? 224
  | IP6 a _ => v6 a 0 =? 255
  | AddrZero => false
  end.

(** Compares with the two unspecified addresses, without unmapping. *)
Definition IsUnspecified (ip : Addr) : bool := bool_decide (ip = IP4 0 \/ ip = IP6 0 "").

(** ** The executor *)

Record URL := mkURL {
  Scheme : string;
  User : bool;                 (* the URL has user information *)
  Hostname : string
}.

(** [http.Request]: its headers in the order they were set. *)
Record Request := mkRequest {
  Request_Method : string;
  Request_URL : string;
  Request_Header : list (string * string);
  Request_Body : string
}.

(** What the executor's environment is made of.  A call of the resolver or the
    client is numbered, so that answers may change over time. *)
Class Net := mkNet {
  url_Parse : string -> result URL;
  ParseAddr : string -> result Addr;
  resolver : nat -> string -> result (list Addr);
  (* the reply to a request: an error of the transport, or a status, the body
     and the target of a redirect, already resolved against the request's URL *)
  transport : nat -> Request -> result (Z * string * option string);
  (* method, headers and body of the request that follows a redirect's status *)
  redirected : Z -> Request -> string * list (string * string) * string
}.

Record Executor := mkExecutor {
  allowPrivateNetworks : bool;
  maxRedirects : Z
}.

Definition validateAddr (e : Executor) (addr : Addr) : option error :=
  if allowPrivateNetworks e then None
  else if IsLoopback addr || IsPrivate addr || IsLinkLocalUnicast addr || IsLinkLocalMulticast addr
          || IsMulticast addr || IsUnspecified addr
  then Some (ErrText "address is not public") else None.

(** The first refusal, if any. *)
Fixpoint validateAddrs (e : Executor) (addrs : list Addr) : option error :=
  match addrs with
  | [] => None
  | a :: rest => match validateAddr e a with Some err => Some err | None => validateAddrs e rest end
  end.

Section Executor.
Context {U : Unicode} {N : Net}.

(** [n] numbers the call of the resolver.  [EqualFold_ascii] is
    strings.EqualFold against an ASCII text, the long s and the Kelvin sign included. *)
Definition validateURL (e : Executor) (n : nat) (u : URL) : option error :=
  if negb (bool_decide (Scheme u = "http" \/ Scheme u = "https")) then Some (ErrText "url scheme must be http or https")
  else if User u then Some (ErrText "url userinfo is not allowed")
  else if bool_decide (Hostname u = "") then Some (ErrText "url host is required")
  else if EqualFold_ascii (Hostname u) "localhost" then Some (ErrText "localhost is not allowed")
  else match ParseAddr (Hostname u) with
  | Ok addr => validateAddr e addr
  | Error _ =>
      match resolver n (Hostname u) with
      | Error err => Some (Wrapf ("resolve host " +:+ Hostname u +:+ ": ") err)
      | Ok [] => Some (ErrText ("host " +:+ Hostname u +:+ " resolved to no addresses"))
      | Ok addrs => validateAddrs e addrs
      end
  end.

(** The redirect statuses of http.Client. *)
Definition redirects (status : Z) : bool :=
  (status =? 301) || (status =? 302) || (status =? 303) || (status =? 307) || (status =? 308).

(** [client.Do]: requests are sent one after the other, each redirect after
    CheckRedirect let it pass: it stops at [len(via) >= maxRedirects], where
    [via] are the requests so far, of which this is number [n + 1].  The result
    is the last reply or an error, with the requests that were sent. *)
Fixpoint client_Do (fuel : nat) (e : Executor) (n : nat) (req : Request)
    : result (Z * string) * list Request :=
  match transport n req with
  | Error err => (Error err, [req])
  | Ok (status, body, location) =>
      if negb (redirects status) then (Ok (status, body), [req])
      else match location with
      | None => (Ok (status, body), [req])
      | Some target =>
          match url_Parse target with
          | Error err => (Error err, [req])
          | Ok u =>
              if maxRedirects e <=? Z.of_nat (S n) then (Ok (status, body), [req])   (* http.ErrUseLastResponse *)
              else match validateURL e (S n) u with
              | Some err => (Error err, [req])
              | None =>
                  let '(method, header, content) := redirected status req in
                  match fuel with
                  | O => (Ok (status, body), [req])
                  | S fuel' => let '(r, sent) := client_Do fuel' e (S n) (mkRequest method target header content) in (r, req :: sent)
                  end
              end
          end
      end
  end.

Definition metadataURLKey : string := "url".
Definition metadataMethodKey : string := "method".

(** A nil map reads as empty. *)
Definition meta (m : StrMap) (key : string) : string :=
  match m with Some m => default "" (m !! key) | None => "" end.

Definition retryable (status : Z) : bool := (status =? 408) || (status =? 429) || (500 <=? status).

(** The error a reply becomes; [None] is success. *)
Definition status_error (status : Z) (body : string) : option error :=
  if (200 <=? status) && (status <? 300) then None
  else
    let message := "webhook: status " +:+ Itoa status +:+ ": " +:+ TrimSpace (String.substring 0 4096 body) in
    if retryable status then Some (ErrText message)
    else Some (Wrapf (message +:+ ": ") ErrNoRetry).

Definition target_url (job : Job) : string := TrimSpace (meta (Task_Metadata (Job_Task job)) metadataURLKey).

Definition request_method (job : Job) : string :=
  let method := ToUpper (TrimSpace (meta (Task_Metadata (Job_Task job)) metadataMethodKey)) in
  if bool_decide (method = "") then "POST" else method.

(** The body, marshalled by its tags. *)
Record requestBody := mkRequestBody {
  Body_JobID : string;
  Body_TaskID : string;
  Body_TaskName : string;
  Body_Attempt : Z;
  Body_Payload : Payload;
  Body_Metadata : StrMap
}.

Definition requestBody_fields : list (field requestBody) :=
  [ string_field "job_id" Body_JobID (fun x r => match r with mkRequestBody _ b c d e f => mkRequestBody x b c d e f end);
    string_omit "task_id" Body_TaskID (fun x r => match r with mkRequestBody a _ c d e f => mkRequestBody a x c d e f end);
    string_field "task_name" Body_TaskName (fun x r => match r with mkRequestBody a b _ d e f => mkRequestBody a b x d e f end);
    int_field "attempt" Body_Attempt (fun x r => match r with mkRequestBody a b c _ e f => mkRequestBody a b c x e f end);
    payload_omit "payload" Body_Payload (fun x r => match r with mkRequestBody a b c d _ f => mkRequestBody a b c d x f end);
    map_omit 1 "metadata" Body_Metadata (fun x r => match r with mkRequestBody a b c d e _ => mkRequestBody a b c d e x end) ].

Definition request_body (job : Job) : requestBody :=
  mkRequestBody (Job_ID job) (Task_ID (Job_Task job)) (Task_Name (Job_Task job)) (Job_Attempt job)
    (Task_Payload (Job_Task job)) (Job_Metadata job).

Definition request_header (job : Job) : list (string * string) :=
  [("Content-Type", "application/json"); ("User-Agent", "Conduit webhook executor");
   ("X-Conduit-Job-ID", Job_ID job); ("X-Conduit-Attempt", Itoa (Job_Attempt job))].

(** Handler: the error it returns and the requests it sent.  [build] is the
    error of [http.NewRequestWithContext], if any. *)
Definition Handler (e : Executor) (build : option error) (job : Job) : option error * list Request :=
  let targetURL := target_url job in
  if bool_decide (targetURL = "") then
    (Some (Wrapf "webhook: task.metadata.url is required: " ErrNoRetry), [])
  else match url_Parse targetURL with
  | Error err => (Some (Wrapf2 "webhook: invalid url: " err ErrNoRetry), [])
  | Ok u =>
      match validateURL e 0 u with
      | Some err => (Some (Wrapf2 "webhook: unsafe url: " err ErrNoRetry), [])
      | None =>
          let method := request_method job in
          if negb (bool_decide (method = "POST" \/ method = "PUT" \/ method = "PATCH")) then
            (Some (Wrapf "webhook: unsupported method: " ErrNoRetry), [])
          else match marshal_struct requestBody_fields (request_body job) with
          | Error err => (Some (Wrapf "webhook: marshal request body: " err), [])
          | Ok body =>
              match build with
              | Some err => (Some (Wrapf "webhook: create request: " err), [])
              | None =>
                  match client_Do (Z.to_nat (maxRedirects e)) e 0 (mkRequest method targetURL (request_header job) body) with
                  | (Error err, sent) => (Some (Wrapf "webhook: request failed: " err), sent)
                  | (Ok (status, reply), sent) => (status_error status reply, sent)
                  end
              end
          end
      end
  end.

End Executor.

Definition NewExecutorWithConfig (redirects : Z) (private : bool) : Executor := mkExecutor private redirects.

(** ** Which addresses pass *)

(** The ranges of RFC 1918, 4193, 3927, 4291 and the like that validateAddr is
    there to refuse, as intervals of addresses. *)
Definition v4_special : list (Z * Z) :=
  [(0x7f000000, 0x7fffffff);      (* 127.0.0.0/8 *)
   (0x0a000000, 0x0affffff);      (* 10.0.0.0/8 *)
   (0xac100000, 0xac1fffff);      (* 172.16.0.0/12 *)
   (0xc0a80000, 0xc0a8ffff);      (* 192.168.0.0/16 *)
   (0xa9fe0000, 0xa9feffff);      (* 169.254.0.0/16 *)
   (0xe0000000, 0xefffffff)].     (* 224.0.0.0/4 *)

Definition v6_special : list (Z * Z) :=
  [(1, 1);                                                   (* ::1 *)
   (0xfc * 2 ^ 120, 0xfe * 2 ^ 120 - 1);                     (* fc00::/7 *)
   (0xfe80 * 2 ^ 112, 0xfec0 * 2 ^ 112 - 1);                 (* fe80::/10 *)
   (0xff * 2 ^ 120, 2 ^ 128 - 1)].                           (* ff00::/8 *)

Definition in_ranges (l : list (Z * Z)) (a : Z) : bool := existsb (fun '(lo, hi) => in_range lo hi a) l.

(** A value of the type: 32 or 128 bits. *)
Definition addr_ok (ip : Addr) : Prop :=
  match ip with AddrZero => True | IP4 a => 0 <= a < 2 ^ 32 | IP6 a _ => 0 <= a < 2 ^ 128 end.

(** The address, or the IPv4 address it maps, is in a special range or is
    unspecified; the mapped form of 0.0.0.0 is not counted. *)
Definition not_public (ip : Addr) : bool :=
  match Unmap ip with
  | AddrZero => false
  | IP4 a => in_ranges v4_special a
  | IP6 a _ => in_ranges v6_special a
  end || bool_decide (ip = IP4 0 \/ ip = IP6 0 "").

Lemma all_below (n : nat) (P : Z -> bool) :
  forallb P (map Z.of_nat (seq 0 n)) = true -> forall b, 0 <= b < Z.of_nat n -> P b = true.
Proof.
  intros H b Hb. rewrite forallb_forall in H. apply H. apply in_map_iff. exists (Z.to_nat b).
  split; [lia|]. apply in_seq. lia.
Qed.

Lemma land_ones_mod x n : 0 <= n -> Z.land x (2 ^ n - 1) = x mod 2 ^ n.
Proof. intros Hn. rewrite <- Z.land_ones by done. by rewrite Z.ones_equiv, Z.sub_1_r. Qed.

Lemma byte_at x n : 0 <= n -> Z.land (Z.shiftr x n) 255 = x / 2 ^ n mod 256.
Proof. intros Hn. change 255 with (2 ^ 8 - 1). rewrite land_ones_mod, Z.shiftr_div_pow2 by lia. done. Qed.

(** An IPv4 address by its first two bytes. *)
Lemma v4_split a : 0 <= a < 2 ^ 32 ->
  exists q m s, a = q * 2 ^ 24 + m * 2 ^ 16 + s /\ 0 <= q < 256 /\ 0 <= m < 256 /\ 0 <= s < 2 ^ 16 /\
                v4 a 0 = q /\ v4 a 1 = m.
Proof.
  intros Ha. unfold v4. rewrite !byte_at by lia. change (24 - 8 * 0) with 24. change (24 - 8 * 1) with 16.
  assert (Hd : a / 2 ^ 24 = a / 2 ^ 16 / 256) by (rewrite Z.div_div by lia; done).
  pose proof (Z.div_mod a (2 ^ 16) ltac:(lia)). pose proof (Z.mod_pos_bound a (2 ^ 16) ltac:(lia)).
  set (g := a / 2 ^ 16) in *. assert (Hg : 0 <= g < 65536).
  { split; [apply Z.div_pos; lia|apply Z.div_lt_upper_bound; lia]. }
  pose proof (Z.div_mod g 256 ltac:(lia)). pose proof (Z.mod_pos_bound g 256 ltac:(lia)).
  assert (0 <= g / 256 < 256) by (split; [apply Z.div_pos; lia|apply Z.div_lt_upper_bound; lia]).
  exists (g / 256), (g mod 256), (a mod 2 ^ 16). rewrite Hd. rewrite (Z.mod_small (g / 256)) by lia.
  repeat split; lia.
Qed.

(** An IPv6 address by its first two bytes. *)
Lemma v6_split a : 0 <= a < 2 ^ 128 ->
  exists q m s, a = (q * 256 + m) * 2 ^ 112 + s /\ 0 <= q < 256 /\ 0 <= m < 256 /\ 0 <= s < 2 ^ 112 /\
                v6 a 0 = q /\ v6u16 a 0 = q * 256 + m.
Proof.
  intros Ha. unfold v6, v6u16. rewrite byte_at by lia. change (120 - 8 * 0) with 120. change (112 - 16 * 0) with 112.
  change 65535 with (2 ^ 16 - 1). rewrite land_ones_mod, Z.shiftr_div_pow2 by lia. change (2 ^ 16) with 65536.
  assert (Hd : a / 2 ^ 120 = a / 2 ^ 112 / 256) by (rewrite Z.div_div by lia; done).
  pose proof (Z.div_mod a (2 ^ 112) ltac:(lia)). pose proof (Z.mod_pos_bound a (2 ^ 112) ltac:(lia)).
  set (g := a / 2 ^ 112) in *. assert (Hg : 0 <= g < 65536).
  { split; [apply Z.div_pos; lia|apply Z.div_lt_upper_bound; lia]. }
  pose proof (Z.div_mod g 256 ltac:(lia)). pose proof (Z.mod_pos_bound g 256 ltac:(lia)).
  assert (0 <= g / 256 < 256) by (split; [apply Z.div_pos; lia|apply Z.div_lt_upper_bound; lia]).
  exists (g / 256), (g mod 256), (a mod 2 ^ 112). rewrite Hd.
  rewrite (Z.mod_small (g / 256)), (Z.mod_small g 65536) by lia. repeat split; lia.
Qed.

Lemma mask_16 b : 0 <= b < 256 -> (Z.land b 240 =? 16) = in_range 16 31 b.
Proof. intros Hb. apply eqb_prop. revert b Hb. apply (all_below 256). vm_compute. reflexivity. Qed.

Lemma mask_224 b : 0 <= b < 256 -> (Z.land b 240 =? 224) = in_range 224 239 b.
Proof. intros Hb. apply eqb_prop. revert b Hb. apply (all_below 256). vm_compute. reflexivity. Qed.

Lemma mask_fc b : 0 <= b < 256 -> (Z.land b 254 =? 252) = in_range 252 253 b.
Proof. intros Hb. apply eqb_prop. revert b Hb. apply (all_below 256). vm_compute. reflexivity. Qed.

Lemma all_groups (P : Z -> bool) :
  forallb (fun q => forallb (fun m => P (q * 256 + m)) (map Z.of_nat (seq 0 256))) (map Z.of_nat (seq 0 256)) = true ->
  forall q m, 0 <= q < 256 -> 0 <= m < 256 -> P (q * 256 + m) = true.
Proof.
  intros H q m Hq Hm. pose proof (all_below 256 _ H q Hq) as H1. exact (all_below 256 _ H1 m Hm).
Qed.

Lemma mask_fe80 q m : 0 <= q < 256 -> 0 <= m < 256 ->
  (Z.land (q * 256 + m) 65472 =? 65152) = in_range 65152 65215 (q * 256 + m).
Proof.
  intros Hq Hm. apply eqb_prop. revert q m Hq Hm.
  apply (all_groups (fun x => Bool.eqb (Z.land x 65472 =? 65152) (in_range 65152 65215 x))). vm_compute. reflexivity.
Qed.

Lemma mask_ff02 q m : 0 <= q < 256 -> 0 <= m < 256 ->
  implb (Z.land (q * 256 + m) 65295 =? 65282) ((q * 256 + m) / 256 =? 255) = true.
Proof.
  revert q m. apply (all_groups (fun x => implb (Z.land x 65295 =? 65282) (x / 256 =? 255))). vm_compute. reflexivity.
Qed.

Ltac range_eq :=
  apply eq_true_iff_eq; unfold in_range; rewrite ?andb_true_iff, ?Z.eqb_eq, ?Z.leb_le; lia.

(** A test that another one implies adds nothing to a disjunction. *)
Lemma orb_absorb b c : implb b c = true -> forall r, r || b || c = r || c.
Proof. by destruct b, c; intros ? []. Qed.

Lemma v4_filter a : 0 <= a < 2 ^ 32 ->
  let ip := IP4 a in
  IsLoopback ip || IsPrivate ip || IsLinkLocalUnicast ip || IsLinkLocalMulticast ip || IsMulticast ip
  = in_ranges v4_special a.
Proof.
  intros Ha. cbn zeta. unfold IsLoopback, IsPrivate, IsLinkLocalUnicast, IsLinkLocalMulticast, IsMulticast, Unmap, Is4In6.
  destruct (v4_split a Ha) as (q & m & s & Ea & Hq & Hm & Hs & -> & ->).
  rewrite mask_16, mask_224 by done. rewrite orb_absorb.
  2:{ destruct (q =? 224) eqn:E; [|done]. zbool. subst q. cbn [andb]. by destruct (_ && _). }
  assert (E0 : (q =? 127) = in_range 0x7f000000 0x7fffffff a) by range_eq.
  assert (E1 : (q =? 10) = in_range 0x0a000000 0x0affffff a) by range_eq.
  assert (E2 : ((q =? 172) && in_range 16 31 m) = in_range 0xac100000 0xac1fffff a) by range_eq.
  assert (E3 : ((q =? 192) && (m =? 168)) = in_range 0xc0a80000 0xc0a8ffff a) by range_eq.
  assert (E4 : ((q =? 169) && (m =? 254)) = in_range 0xa9fe0000 0xa9feffff a) by range_eq.
  assert (E5 : in_range 224 239 q = in_range 0xe0000000 0xefffffff a) by range_eq.
  rewrite E0, E1, E2, E3, E4, E5. cbn [in_ranges v4_special existsb]. by rewrite orb_false_r, !orb_assoc.
Qed.

Lemma v6_filter a zone : 0 <= a < 2 ^ 128 -> Is4In6 (IP6 a zone) = false ->
  let ip := IP6 a zone in
  IsLoopback ip || IsPrivate ip || IsLinkLocalUnicast ip || IsLinkLocalMulticast ip || IsMulticast ip
  = in_ranges v6_special a.
Proof.
  intros Ha Hm. cbn zeta. unfold IsLoopback, IsPrivate, IsLinkLocalUnicast, IsLinkLocalMulticast, IsMulticast, Unmap.
  rewrite Hm. destruct (v6_split a Ha) as (q & m & s & Ea & Hq & Hm' & Hs & -> & ->).
  rewrite mask_fc, mask_fe80 by lia. rewrite orb_absorb.
  2:{ pose proof (mask_ff02 q m Hq Hm') as E. by rewrite Z.div_add_l, (Z.div_small m), Z.add_0_r in E by lia. }
  assert (E0 : (a =? 1) = in_range 1 1 a) by range_eq.
  assert (E1 : in_range 252 253 q = in_range (0xfc * 2 ^ 120) (0xfe * 2 ^ 120 - 1) a) by range_eq.
  assert (E2 : in_range 65152 65215 (q * 256 + m) = in_range (0xfe80 * 2 ^ 112) (0xfec0 * 2 ^ 112 - 1) a) by range_eq.
  assert (E3 : (q =? 255) = in_range (0xff * 2 ^ 120) (2 ^ 128 - 1) a) by range_eq.
  rewrite E0, E1, E2, E3. cbn [in_ranges v6_special existsb]. by rewrite orb_false_r, !orb_assoc.
Qed.

(** C34. The address filter is exactly the table of special ranges: an address is
    refused iff it, or the IPv4 address it maps, lies in one of them or it is
    unspecified - where the mapped form of 0.0.0.0 is neither, and passes. *)
Theorem addr_filter_exact ip :
  addr_ok ip ->
  (validateAddr (mkExecutor false 0) ip = None <-> not_public ip = false) /\
  validateAddr (mkExecutor false 0) (IP6 0xffff00000000 "") = None.
Proof.
  intros Hok. split; [|vm_compute; reflexivity]. unfold validateAddr, not_public, IsUnspecified.
  cbn [allowPrivateNetworks].
  assert (E : (IsLoopback ip || IsPrivate ip || IsLinkLocalUnicast ip || IsLinkLocalMulticast ip || IsMulticast ip)
              = match Unmap ip with
                | AddrZero => false | IP4 a => in_ranges v4_special a | IP6 a _ => in_ranges v6_special a
                end).
  { destruct ip as [|a|a zone]; [done|by apply v4_filter|].
    destruct (Is4In6 (IP6 a zone)) eqn:E4.
    - assert (Hu : Unmap (IP6 a zone) = IP4 (Z.land a (2 ^ 32 - 1))) by (unfold Unmap; by rewrite E4).
      assert (Hr : 0 <= Z.land a (2 ^ 32 - 1) < 2 ^ 32) by (rewrite land_ones_mod by lia; apply Z.mod_pos_bound; lia).
      rewrite Hu, <- v4_filter by done.
      unfold IsLoopback, IsPrivate, IsLinkLocalUnicast, IsLinkLocalMulticast, IsMulticast. by rewrite Hu.
    - assert (Hu : Unmap (IP6 a zone) = IP6 a zone) by (unfold Unmap; by rewrite E4).
      rewrite Hu. by apply v6_filter. }
  rewrite E. clear E. generalize (match Unmap ip with AddrZero => false | IP4 a => in_ranges v4_special a | IP6 a _ => in_ranges v6_special a end).
  intros b. by destruct b, (bool_decide _).
Qed.

Lemma addr_filter_exact_witness :
  validateAddr (mkExecutor false 0) (IP4 0xa9fea9fe) <> None /\
  validateAddr (mkExecutor false 0) (IP4 0x5db8d822) = None.
Proof.
  split; [|apply (proj1 (addr_filter_exact (IP4 0x5db8d822) ltac:(cbn; lia))); vm_compute; reflexivity].
  intros H. apply (proj1 (addr_filter_exact (IP4 0xa9fea9fe) ltac:(cbn; lia))) in H. vm_compute in H. discriminate.
Defined.

Section Confined.
Context {U : Unicode} {N : Net}.

(** The checks a URL has passed, with the answer the resolver gave then. *)
Definition vetted (e : Executor) (url : string) : Prop :=
  exists u n, url_Parse url = Ok u /\ (Scheme u = "http" \/ Scheme u = "https") /\ User u = false /\
  EqualFold_ascii (Hostname u) "localhost" = false /\
  match ParseAddr (Hostname u) with
  | Ok a => validateAddr e a = None
  | Error _ => exists addrs, resolver n (Hostname u) = Ok addrs /\ addrs <> [] /\
                 Forall (fun a => validateAddr e a = None) addrs
  end.

Lemma validateAddrs_None e addrs : validateAddrs e addrs = None -> Forall (fun a => validateAddr e a = None) addrs.
Proof.
  induction addrs as [|a rest IH]; cbn; [constructor|]. destruct (validateAddr e a) eqn:E; [done|].
  intros H. constructor; auto.
Qed.

Lemma validateURL_vetted e n url u : url_Parse url = Ok u -> validateURL e n u = None -> vetted e url.
Proof.
  intros Hp. unfold validateURL. case_bool_decide as Hs; cbn [negb]; [|done].
  destruct (User u) eqn:Eu; [done|]. case_bool_decide as Hh; [done|].
  destruct (EqualFold_ascii _ _) eqn:Ef; [done|]. intros H. exists u, n. do 4 (split; [done|]).
  destruct (ParseAddr (Hostname u)); [done|]. destruct (resolver n (Hostname u)) as [[|a l]|]; [done| |done].
  exists (a :: l). split; [done|]. split; [done|]. by apply validateAddrs_None.
Qed.

Lemma client_Do_vetted fuel e n req :
  vetted e (Request_URL req) ->
  Forall (vetted e) (Request_URL <$> (client_Do fuel e n req).2) /\
  Z.of_nat (length (client_Do fuel e n req).2) <= Z.max 1 (maxRedirects e - Z.of_nat n).
Proof.
  revert n req. induction fuel as [|fuel IH]; intros n req Hv; cbn [client_Do];
    (destruct (transport n req) as [[[status body] loc]|]; [|by split; [repeat constructor|cbn; lia]]);
    (destruct (redirects status); [|by split; [repeat constructor|cbn; lia]]); cbn [negb];
    (destruct loc as [target|]; [|by split; [repeat constructor|cbn; lia]]);
    (destruct (url_Parse target) as [u|] eqn:Ep; [|by split; [repeat constructor|cbn; lia]]);
    (destruct (maxRedirects e <=? Z.of_nat (S n)) eqn:Em; [by split; [repeat constructor|cbn; lia]|]);
    (destruct (validateURL e (S n) u) eqn:Ev; [by split; [repeat constructor|cbn; lia]|]);
    destruct (redirected status req) as [[m h] c].
  - by split; [repeat constructor|cbn; lia].
  - specialize (IH (S n) (mkRequest m target h c) (validateURL_vetted _ _ _ _ Ep Ev)).
    destruct (client_Do fuel e (S n) _) as [r sent]. cbn [snd length] in *. destruct IH as [IH1 IH2].
    zbool. split; [rewrite fmap_cons; by constructor|]. lia.
Qed.

(** The first request is the one that was asked for. *)
Lemma client_Do_first fuel e n req : exists sent, (client_Do fuel e n req).2 = req :: sent.
Proof. destruct fuel; cbn [client_Do]; repeat (case_goal; cbn [snd]; eauto). Qed.

(** Marshalling the body does not fail. *)
Lemma request_body_text job : exists s, marshal_struct requestBody_fields (request_body job) = Ok s.
Proof.
  unfold marshal_struct. assert (He : exists ms, emit requestBody_fields (request_body job) = Ok ms); [|destruct He as [ms ->]; eauto].
  unfold requestBody_fields. apply emit_total. repeat (apply Forall_cons_2; [|]); try apply Forall_nil_2; unfold string_omit, payload_omit, map_omit, omitempty; cbn [f_get string_field int_field method_field].
  all: repeat case_goal; eauto.
Qed.

(** C33. The executor calls only vetted URLs: every request of a Handler, the
    redirected ones included, goes to an http or https URL without user
    information whose host is not localhost and is - as a literal, or in every
    address its name resolved to when it was checked - one validateAddr accepts;
    and there are at most [maxRedirects] requests, or one. *)
Theorem webhook_confined e build job r sent :
  Handler e build job = (r, sent) ->
  Forall (vetted e) (Request_URL <$> sent) /\ Z.of_nat (length sent) <= Z.max 1 (maxRedirects e).
Proof.
  unfold Handler. set (target := target_url job). case_bool_decide; [intros [= _ <-]; split; [constructor|cbn; lia]|].
  destruct (url_Parse target) as [u|] eqn:Ep; [|intros [= _ <-]; split; [constructor|cbn; lia]].
  destruct (validateURL e 0 u) eqn:Ev; [intros [= _ <-]; split; [constructor|cbn; lia]|].
  destruct (negb _); [intros [= _ <-]; split; [constructor|cbn; lia]|].
  destruct (request_body_text job) as [body ->]. destruct build; [intros [= _ <-]; split; [constructor|cbn; lia]|].
  set (req := mkRequest _ _ _ _).
  pose proof (client_Do_vetted (Z.to_nat (maxRedirects e)) e 0 req (validateURL_vetted _ _ _ _ Ep Ev)) as [H1 H2].
  destruct (client_Do _ e 0 req) as [[[status reply]|] sent']; intros [= _ <-]; cbn in H1, H2; split; done || lia.
Qed.

(** What a Handler's error means for the retry: nothing was sent when the
    job is at fault - no URL, a URL that does not parse or is refused, a method
    that is not allowed - and such an error is permanent; a transport error is
    transient; and a reply is success exactly when its status is 2xx, transient
    when it is 408, 429 or at least 500, permanent otherwise. *)
Theorem webhook_classifies e build job :
  match Handler e build job with
  | (Some err, []) => errors_Is err ErrNoRetry = true \/ build <> None
  | (None, []) => False
  | (r, req :: _) =>
      match (client_Do (Z.to_nat (maxRedirects e)) e 0 req).1 with
      | Error terr => exists err, r = Some err /\ errors_Is err ErrNoRetry = errors_Is terr ErrNoRetry
      | Ok (status, _) =>
          if (200 <=? status) && (status <? 300) then r = None
          else exists err, r = Some err /\ errors_Is err ErrNoRetry = negb (retryable status)
      end
  end.
Proof.
  unfold Handler. set (target := target_url job). case_bool_decide; [by left|].
  destruct (url_Parse target) as [u|]; [|left; cbn; by rewrite orb_true_r].
  destruct (validateURL e 0 u); [left; cbn; by rewrite orb_true_r|].
  destruct (negb _); [by left|]. destruct (request_body_text job) as [body ->].
  destruct build as [b|]; [by right|]. set (req := mkRequest _ _ _ _).
  destruct (client_Do_first (Z.to_nat (maxRedirects e)) e 0 req) as [sent Hs].
  destruct (client_Do _ e 0 req) as [[[status reply]|terr] l] eqn:E; cbn [snd] in Hs; subst l; rewrite E; cbn [fst]; [|eauto].
  unfold status_error. destruct (_ && _); [done|]. destruct (retryable status); eauto.
Qed.

(** What a reader of the body's tags finds in it. *)
Definition request_body_wire (job : Job) : requestBody :=
  mkRequestBody (utf8 (Job_ID job)) (utf8 (Task_ID (Job_Task job))) (utf8 (Task_Name (Job_Task job))) (Job_Attempt job)
    (wire_payload (Task_Payload (Job_Task job))) (wire_map (Job_Metadata job)).

(** What is sent says which job it is for: a Handler that sends anything first
    sends the target of the job the allowed method its metadata names, headers
    with the job's id and attempt, and a body that is valid JSON and reads back
    as the job's id, task, attempt, payload and metadata. *)
Theorem webhook_request e build job r req sent :
  Handler e build job = (r, req :: sent) ->
  int64_ok (Job_Attempt job) = true -> payload_fits 1 (Task_Payload (Job_Task job)) = true ->
  Request_URL req = target_url job /\ Request_Method req = request_method job /\
  List.In (Request_Method req) ["POST"; "PUT"; "PATCH"] /\ Request_Header req = request_header job /\
  json_Valid (Request_Body req) = true /\
  unmarshal_struct requestBody_fields (Request_Body req) (mkRequestBody "" "" "" 0 None None) = Ok (request_body_wire job).
Proof.
  intros H Ha Hp. destruct (unmarshal_marshal_struct requestBody_fields requestBody_fields (request_body job)
    (mkRequestBody "" "" "" 0 None None) (request_body_wire job)) as (s & Hs & Hv & Hu).
  { split; [apply (bool_decide_unpack _); vm_compute; exact I|by repeat constructor]. }
  { emits_all. }
  { applies_all. }
  { by repeat constructor. }
  revert H. unfold Handler. rewrite Hs. case_bool_decide; [done|]. destruct (url_Parse (target_url job)) as [u|]; [|done].
  destruct (validateURL e 0 u); [done|]. case_bool_decide as Hm; [|done]. destruct build; [done|]. cbn [negb].
  set (q := mkRequest _ _ _ _). destruct (client_Do_first (Z.to_nat (maxRedirects e)) e 0 q) as [l Hl].
  destruct (client_Do _ e 0 q) as [[[status reply]|terr] l'] eqn:E; cbn [snd] in Hl; subst l'; intros [= _ <- _];
    (split_and!; [done|done| |done..]); cbn; intuition.
Qed.

(** A name that cannot be resolved just now fails the job for good: the refusal
    of validateURL is permanent whatever its cause. *)
Lemma resolver_failure_is_permanent e build job u err :
  url_Parse (target_url job) = Ok u -> target_url job <> "" ->
  Scheme u = "https" -> User u = false -> Hostname u <> "" -> EqualFold_ascii (Hostname u) "localhost" = false ->
  is_Ok (ParseAddr (Hostname u)) = false -> resolver 0 (Hostname u) = Error err ->
  exists err', Handler e build job = (Some err', []) /\ errors_Is err' ErrNoRetry = true.
Proof.
  intros Hp Ht Hs Hu Hh Hl Ha Hr. unfold Handler. rewrite bool_decide_eq_false_2 by done. rewrite Hp.
  unfold validateURL. rewrite bool_decide_eq_true_2 by auto. cbn [negb]. rewrite Hu, bool_decide_eq_false_2, Hl by done.
  destruct (ParseAddr (Hostname u)); [done|]. rewrite Hr. eexists. split; [done|]. cbn. by rewrite orb_true_r.
Qed.

End Confined.

(** ** A network *)

(** One public host that redirects to the metadata service of a cloud. *)
Definition one_host : Net := mkNet
  (fun s => if bool_decide (s = "https://example.com/hook") then Ok (mkURL "https" false "example.com")
            else if bool_decide (s = "http://169.254.169.254/") then Ok (mkURL "http" false "169.254.169.254")
            else Error (ErrText "invalid URI"))
  (fun h => if bool_decide (h = "169.254.169.254") then Ok (IP4 0xa9fea9fe) else Error (ErrText "unable to parse IP"))
  (fun _ _ => Ok [IP4 0x5db8d822])
  (fun _ _ => Ok (302, "", Some "http://169.254.169.254/"))
  (fun _ req => ("GET", Request_Header req, "")).

Definition hook_job : Job :=
  mkJob "1" "default" "" (mkTask "" "webhook" None 0 0 0 "" "" (Some {["url" := "https://example.com/hook"]}) 0)
    JobStateRunning 1 None None None "t" None "" None 0 0.

Lemma webhook_confined_witness :
  Request_URL <$> (@Handler latin1 one_host (mkExecutor false 5) None hook_job).2 = ["https://example.com/hook"] /\
  Forall (@vetted one_host (mkExecutor false 5)) (Request_URL <$> (@Handler latin1 one_host (mkExecutor false 5) None hook_job).2).
Proof.
  split; [vm_compute; reflexivity|].
  apply (@webhook_confined latin1 one_host (mkExecutor false 5) None hook_job
           (@Handler latin1 one_host (mkExecutor false 5) None hook_job).1). vm_compute. reflexivity.
Defined.

Lemma webhook_request_witness :
  exists req, (@Handler latin1 one_host (mkExecutor false 5) None hook_job).2 = [req] /\ Request_Method req = "POST" /\
    unmarshal_struct requestBody_fields (Request_Body req) (mkRequestBody "" "" "" 0 None None) = Ok (mkRequestBody "1" "" "webhook" 1 None None).
Proof.
  destruct (@Handler latin1 one_host (mkExecutor false 5) None hook_job) as [r [|req [|]]] eqn:E; try (vm_compute in E; discriminate).
  exists req. split; [reflexivity|].
  destruct (@webhook_request latin1 one_host (mkExecutor false 5) None hook_job r req [] E eq_refl eq_refl) as (_ & Hm & _ & _ & _ & Hu).
  split; [rewrite Hm; vm_compute; reflexivity|exact Hu].
Defined.
