(* ===== verification/Etl.v ===== *)
(** * internal/etl/executor.go: the SQL pipeline executor

    The pipeline spec and its JSON, the identifiers it may name, the scanner
    that looks for forbidden words outside strings and comments, and the
    statement built from it all.  Quoting of identifiers is pgx's and is the
    interface [Pgx]; Unicode classes beyond Latin-1 are [Unicode]. *)

From S2P Require Import Prelude Models GoStrings GoText Retry GoDuration GoJson.

(** ** The spec *)

Record PipelineSpec := mkSpec {
  ExtractSQL : string;
  TargetTable : string;
  TargetColumns : list string;
  WriteMode : string;
  ConflictColumns : list string;
  UpdateColumns : list string
}.

Definition zeroSpec : PipelineSpec := mkSpec "" "" [] "" [] [].

(** The fields by their JSON names; a key matches exactly or up to case. *)
Inductive field := FExtract | FTable | FColumns | FMode | FConflict | FUpdate.

Definition field_name (f : field) : string :=
  match f with
  | FExtract => "extract_sql" | FTable => "target_table" | FColumns => "target_columns"
  | FMode => "write_mode" | FConflict => "conflict_columns" | FUpdate => "update_columns"
  end.

Definition all_fields : list field := [FExtract; FTable; FColumns; FMode; FConflict; FUpdate].

Definition find_field (key : string) : option field :=
  match list_find (fun f => field_name f = key) all_fields with
  | Some (_, f) => Some f
  | None =>
      match list_find (fun f => EqualFold_ascii key (field_name f) = true) all_fields with
      | Some (_, f) => Some f
      | None => None
      end
  end.

Definition type_error : error := ErrText "json: cannot unmarshal".

(** Decode into a string or a list of strings that has a value already; [None]
    is a type error, after which decoding goes on with the old value. *)
Definition decode_string (old : string) (v : json) : option string :=
  match v with JString s => Some s | JNull => Some old | _ => None end.

Fixpoint decode_elems (old : list string) (l : list json) : option (list string) :=
  match l with
  | [] => Some []
  | v :: l' =>
      let cur := match old with x :: _ => x | [] => "" end in
      match decode_string cur v, decode_elems (match old with _ :: o => o | [] => [] end) l' with
      | Some s, Some r => Some (s :: r)
      | _, _ => None
      end
  end.

Definition decode_strings (old : list string) (v : json) : option (list string) :=
  match v with JArray l => decode_elems old l | JNull => Some [] | _ => None end.

Definition set_field (f : field) (v : json) (s : PipelineSpec) : option PipelineSpec :=
  match s with
  | mkSpec e t c m k u =>
      match f with
      | FExtract => option_map (fun x => mkSpec x t c m k u) (decode_string e v)
      | FTable => option_map (fun x => mkSpec e x c m k u) (decode_string t v)
      | FColumns => option_map (fun x => mkSpec e t x m k u) (decode_strings c v)
      | FMode => option_map (fun x => mkSpec e t c x k u) (decode_string m v)
      | FConflict => option_map (fun x => mkSpec e t c m x u) (decode_strings k v)
      | FUpdate => option_map (fun x => mkSpec e t c m k x) (decode_strings u v)
      end
  end.

(** The members in order; unknown keys are skipped, any type error is the
    result. *)
Fixpoint decode_members (ms : list (string * json)) (s : PipelineSpec) : result PipelineSpec :=
  match ms with
  | [] => Ok s
  | (key, v) :: ms' =>
      match find_field key with
      | None => decode_members ms' s
      | Some f => match set_field f v s with Some s' => decode_members ms' s' | None => Error type_error end
      end
  end.

(** [json.Unmarshal(payload, &spec)]. *)
Definition unmarshal_spec (payload : string) : result PipelineSpec :=
  match json_parse payload with
  | None => Error (ErrText "invalid JSON")
  | Some JNull => Ok zeroSpec
  | Some (JObject ms) => decode_members ms zeroSpec
  | Some _ => Error type_error
  end.

(** [pgx.Identifier.Sanitize]: an identifier of several parts, quoted for
    SQL. *)
Class Pgx := mkPgx { Sanitize : list string -> string }.

(** ** Identifiers *)

Section Etl.
Context {U : Unicode}.

Definition ident_start (r : Z) : bool := (r =? 95) || IsLetter r.
Definition ident_rest (r : Z) : bool := (r =? 95) || IsLetter r || IsDigit r.

Definition validIdentifierPart (value : string) : bool :=
  match runes value with
  | [] => false
  | r :: rest => ident_start r && forallb ident_rest rest
  end.

Definition parseIdentifier (value : string) : result (list string) :=
  let parts := Split value dot in
  if (length parts =? 0)%nat || (3 <? length parts)%nat then Error (ErrText "must have one to three parts")
  else if forallb validIdentifierPart parts then Ok parts
  else Error (ErrText "invalid identifier").

(** ** The scanner *)

(** What the scanner is inside of: the four flags of the code, of which at most
    one is set. *)
Inductive mode := InCode | InSingleQuote | InDoubleQuote | InLineComment | InBlockComment.

(** [unicode.IsLetter(rune(ch)) || unicode.IsDigit(rune(ch)) || ch == '_'] of a
    byte, which is in Latin-1. *)
Definition word_byte (b : Z) : bool := latin1_letter b || latin1_digit b || (b =? 95).

Definition flush_token (b : string) (tokens : list string) : list string :=
  if str_nonempty b then ToLower b :: tokens else tokens.

Definition next_byte (s : string) : Z := match s with String c _ => byte_of c | EmptyString => 0 end.
Definition skip1 (s : string) : string := match s with String _ s' => s' | EmptyString => "" end.

Fixpoint scan (m : mode) (b : string) (s : string) : list string :=
  match s with
  | EmptyString => flush_token b []
  | String c s1 =>
      let ch := byte_of c in
      let next := next_byte s1 in
      let twice m' tok := match s1 with String _ s2 => scan m' tok s2 | EmptyString => scan m' tok s1 end in
      match m with
      | InLineComment => scan (if ch =? 10 then InCode else InLineComment) b s1
      | InBlockComment => if (ch =? 42) && (next =? 47) then twice InCode b else scan InBlockComment b s1
      | InSingleQuote =>
          if ch =? 39 then (if next =? 39 then twice InSingleQuote b else scan InCode b s1)
          else scan InSingleQuote b s1
      | InDoubleQuote =>
          if ch =? 34 then (if next =? 34 then twice InDoubleQuote b else scan InCode b s1)
          else scan InDoubleQuote b s1
      | InCode =>
          if (ch =? 45) && (next =? 45) then flush_token b (twice InLineComment "")
          else if (ch =? 47) && (next =? 42) then flush_token b (twice InBlockComment "")
          else if ch =? 39 then flush_token b (scan InSingleQuote "" s1)
          else if ch =? 34 then flush_token b (scan InDoubleQuote "" s1)
          else if word_byte ch then scan InCode (b +:+ String c "") s1
          else flush_token b (scan InCode "" s1)
      end
  end.

Definition sqlTokens (sql : string) : list string := scan InCode "" sql.

Definition forbidden_words : list string :=
  ["insert"; "update"; "delete"; "merge"; "create"; "alter"; "drop"; "truncate"; "copy"; "grant"; "revoke"; "call";
   "do"; "vacuum"; "analyze"].

Definition forbiddenSQLToken (token : string) : bool := bool_decide (token ∈ forbidden_words).

Definition normalizeExtractSQL (sql : string) : result string :=
  let sql := TrimSpace (TrimSuffix (TrimSpace sql) (ascii_of_N 59)) in
  let lowerSQL := ToLower sql in
  if negb (HasPrefix lowerSQL "select ") && negb (HasPrefix lowerSQL "with ")
  then Error (ErrText "must start with SELECT or WITH")
  else match sqlTokens sql with
  | [] => Error (ErrText "empty SQL")
  | (t :: _) as tokens =>
      if negb (bool_decide (t = "select" \/ t = "with")) then Error (ErrText "must start with SELECT or WITH")
      else match list_find (fun t => forbiddenSQLToken t = true) tokens with
      | Some (_, t) => Error (ErrText ("forbidden token " +:+ t))
      | None => Ok sql
      end
  end.

(** ** The statement *)

Context {P : Pgx}.

Fixpoint sanitizeUnqualifiedIdentifiers (columns : list string) : result (list string) :=
  match columns with
  | [] => Ok []
  | column :: rest =>
      match parseIdentifier column with
      | Error e => Error (Wrapf (column +:+ ": ") e)
      | Ok identifier =>
          if negb (length identifier =? 1)%nat then Error (ErrText (column +:+ ": column must be unqualified"))
          else match sanitizeUnqualifiedIdentifiers rest with
          | Error e => Error e
          | Ok r => Ok (Sanitize identifier :: r)
          end
      end
  end.

(** The loop over the target columns. *)
Fixpoint target_columns (columns : list string) : result (list string) :=
  match columns with
  | [] => Ok []
  | column :: rest =>
      match parseIdentifier column with
      | Error e => Error (Wrapf ("target_columns: " +:+ column +:+ ": ") e)
      | Ok identifier =>
          if negb (length identifier =? 1)%nat then Error (ErrText "target column must be unqualified")
          else match target_columns rest with
          | Error e => Error e
          | Ok r => Ok (Sanitize identifier :: r)
          end
      end
  end.

Definition nonConflictColumns (targetColumns conflictColumns : list string) : list string :=
  filter (fun c => c ∉ conflictColumns) targetColumns.

Definition wrap_result {A} (msg : string) (r : result A) : result A :=
  match r with Ok a => Ok a | Error e => Error (Wrapf msg e) end.

Notation "'let*' x ':=' r 'in' k" := (match r with Ok x => k | Error e => Error e end)
  (at level 10, x name, r at level 100, k at level 200).

Definition newline : string := String (char 10) "".

Definition ParseSpec (payload : option string) : result PipelineSpec :=
  let payload := default "" payload in
  if bool_decide (payload = "") then Error (ErrText "task.payload is required")
  else
  let* spec := unmarshal_spec payload in
  let spec := mkSpec (TrimSpace (ExtractSQL spec)) (TrimSpace (TargetTable spec)) (map TrimSpace (TargetColumns spec))
                (TrimSpace (ToLower (WriteMode spec))) (map TrimSpace (ConflictColumns spec))
                (map TrimSpace (UpdateColumns spec)) in
  if bool_decide (ExtractSQL spec = "") then Error (ErrText "extract_sql is required")
  else if bool_decide (TargetTable spec = "") then Error (ErrText "target_table is required")
  else if bool_decide (TargetColumns spec = []) then Error (ErrText "target_columns is required")
  else
  let spec := mkSpec (ExtractSQL spec) (TargetTable spec) (TargetColumns spec)
                (if bool_decide (WriteMode spec = "") then "append" else WriteMode spec)
                (ConflictColumns spec) (UpdateColumns spec) in
  if negb (bool_decide (WriteMode spec = "append" \/ WriteMode spec = "upsert"))
  then Error (ErrText "write_mode must be append or upsert")
  else if bool_decide (WriteMode spec = "upsert" /\ ConflictColumns spec = [])
  then Error (ErrText "conflict_columns is required for upsert")
  else Ok spec.

Definition BuildInsertSQL (spec : PipelineSpec) : result string :=
  let writeMode := TrimSpace (ToLower (WriteMode spec)) in
  let writeMode := if bool_decide (writeMode = "") then "append" else writeMode in
  if negb (bool_decide (writeMode = "append" \/ writeMode = "upsert"))
  then Error (ErrText "write_mode must be append or upsert")
  else if bool_decide (writeMode = "upsert" /\ ConflictColumns spec = [])
  then Error (ErrText "conflict_columns is required for upsert")
  else
  let* targetTable := wrap_result "target_table: " (parseIdentifier (TargetTable spec)) in
  let* targetColumns := target_columns (TargetColumns spec) in
  let* conflictColumns := wrap_result "conflict_columns: " (sanitizeUnqualifiedIdentifiers (ConflictColumns spec)) in
  let updateColumns :=
    if bool_decide (writeMode = "upsert" /\ UpdateColumns spec = [])
    then nonConflictColumns (TargetColumns spec) (ConflictColumns spec) else UpdateColumns spec in
  let* sanitizedUpdateColumns := wrap_result "update_columns: " (sanitizeUnqualifiedIdentifiers updateColumns) in
  if bool_decide (writeMode = "upsert" /\ sanitizedUpdateColumns = [])
  then Error (ErrText "upsert requires at least one update column")
  else
  let* extractSQL := wrap_result "extract_sql: " (normalizeExtractSQL (ExtractSQL spec)) in
  let statement :=
    "INSERT INTO " +:+ Sanitize targetTable +:+ " (" +:+ Join targetColumns ", " +:+ ")" +:+ newline +:+ extractSQL in
  if bool_decide (writeMode = "upsert") then
    let assignments := map (fun c => c +:+ " = EXCLUDED." +:+ c) sanitizedUpdateColumns in
    Ok (statement +:+ newline +:+ "ON CONFLICT (" +:+ Join conflictColumns ", " +:+ ") DO UPDATE SET "
        +:+ Join assignments ", ")
  else Ok statement.

(** Handler: [pool] is whether the executor has one, [exec] what executing the
    statement answers.  The second component is the statement sent. *)
Definition Handler (pool : bool) (exec : option error) (job : Job) : option error * option string :=
  match ParseSpec (Task_Payload (Job_Task job)) with
  | Error e => (Some (Wrapf2 "etl: invalid pipeline spec: " e ErrNoRetry), None)
  | Ok spec =>
      match BuildInsertSQL spec with
      | Error e => (Some (Wrapf2 "etl: invalid pipeline spec: " e ErrNoRetry), None)
      | Ok statement =>
          if negb pool then (Some (ErrText "etl: postgres pool is required"), None)
          else match exec with
          | Some e => (Some (Wrapf "etl: execute pipeline: " e), Some statement)
          | None => (None, Some statement)
          end
      end
  end.

End Etl.

(** ** The scanner against a reference *)

Definition space : ascii := ascii_of_N 32.

(** The text outside strings and comments; where one starts there is a space. *)
Fixpoint strip (m : mode) (s : string) : string :=
  match s with
  | EmptyString => ""
  | String c s1 =>
      let ch := byte_of c in
      let next := next_byte s1 in
      let twice m' := match s1 with String _ s2 => strip m' s2 | EmptyString => "" end in
      match m with
      | InLineComment => strip (if ch =? 10 then InCode else InLineComment) s1
      | InBlockComment => if (ch =? 42) && (next =? 47) then twice InCode else strip InBlockComment s1
      | InSingleQuote =>
          if ch =? 39 then (if next =? 39 then twice InSingleQuote else strip InCode s1) else strip InSingleQuote s1
      | InDoubleQuote =>
          if ch =? 34 then (if next =? 34 then twice InDoubleQuote else strip InCode s1) else strip InDoubleQuote s1
      | InCode =>
          if (ch =? 45) && (next =? 45) then String space (twice InLineComment)
          else if (ch =? 47) && (next =? 42) then String space (twice InBlockComment)
          else if ch =? 39 then String space (strip InSingleQuote s1)
          else if ch =? 34 then String space (strip InDoubleQuote s1)
          else String c (strip InCode s1)
      end
  end.

(** The maximal runs of word bytes; [b] is the run being read. *)
Fixpoint words (b : string) (s : string) : list string :=
  match s with
  | EmptyString => if str_nonempty b then [b] else []
  | String c s' =>
      if word_byte (byte_of c) then words (b +:+ String c "") s'
      else (if str_nonempty b then [b] else []) ++ words "" s'
  end.

(** The words of a query: those of its text outside strings and comments. *)
Definition sql_words (sql : string) : list string := words "" (strip InCode sql).

Section Scanner.
Context {U : Unicode}.

Lemma flush_words b s l : l = map ToLower (words "" s) ->
  flush_token b l = map ToLower (words b (String space s)).
Proof.
  intros ->. unfold flush_token. cbn [words]. change (word_byte (byte_of space)) with false. cbn iota.
  rewrite map_app. by destruct (str_nonempty b).
Qed.

Lemma scan_words n m b s :
  (String.length s <= n)%nat -> (m = InCode \/ b = "") -> scan m b s = map ToLower (words b (strip m s)).
Proof.
  revert m b s. induction n as [|n IH]; intros m b s Hn Hb.
  { destruct s; [|cbn in Hn; lia]. cbn [scan strip words flush_token]. unfold flush_token. by destruct (str_nonempty b). }
  destruct s as [|c s1]; [cbn [scan strip words]; unfold flush_token; by destruct (str_nonempty b)|].
  cbn [String.length] in Hn. assert (H1 : forall m b, m = InCode \/ b = "" -> scan m b s1 = map ToLower (words b (strip m s1)))
    by (intros; apply IH; [lia|done]).
  assert (H2 : forall m b, m = InCode \/ b = "" ->
    match s1 with String _ s2 => scan m b s2 | EmptyString => scan m b s1 end
    = map ToLower (words b (match s1 with String _ s2 => strip m s2 | EmptyString => "" end))).
  { intros m' b' Hb'. destruct s1 as [|c2 s2]; [by apply (IH m' b' ""); [cbn; lia|]|].
    apply IH; [cbn [String.length] in Hn; lia|done]. }
  cbn [scan strip]. destruct m.
  - repeat match goal with |- context [if ?x then _ else _] => destruct x eqn:? end;
      try (apply flush_words; auto; fail).
    + cbn [words]. rewrite Heqb4. by apply H1; left.
    + unfold flush_token. rewrite H1 by auto. cbn [words]. rewrite Heqb4, map_app. by destruct (str_nonempty b).
  - destruct Hb as [|Hb]; [done|]. repeat case_goal; eauto.
  - destruct Hb as [|Hb]; [done|]. repeat case_goal; eauto.
  - destruct Hb as [|Hb]; [done|]. apply H1. by right.
  - destruct Hb as [|Hb]; [done|]. repeat case_goal; eauto.
Qed.

(** The one-pass scanner computes its reference: the tokens of a query are
    the words of its text outside single and double quotes, line comments and
    block comments, in lower case. *)
Theorem scanner_is_words sql : sqlTokens sql = map ToLower (sql_words sql).
Proof. apply (scan_words (String.length sql)); [done|by left]. Qed.

(** What the filter has checked of a query it accepts. *)
Lemma normalize_spec sql out :
  normalizeExtractSQL sql = Ok out ->
  out = TrimSpace (TrimSuffix (TrimSpace sql) (ascii_of_N 59)) /\
  Forall (fun w => ToLower w ∉ forbidden_words) (sql_words out) /\
  exists w rest, sql_words out = w :: rest /\ (ToLower w = "select" \/ ToLower w = "with").
Proof.
  unfold normalizeExtractSQL. set (q := TrimSpace (TrimSuffix _ _)). destruct (_ && _); [done|].
  assert (E : sqlTokens q = map ToLower (sql_words q)) by (apply (scan_words (String.length q)); [done|by left]).
  rewrite E. destruct (sql_words q) as [|w rest] eqn:Ew; [done|]. cbn [map].
  case_bool_decide as Hw; cbn [negb]; [|done].
  destruct (list_find _ _) as [[i t]|] eqn:Ef; [done|]. intros [= <-]. split; [done|].
  rewrite Ew. split; [|by exists w, rest]. apply list_find_None in Ef.
  change (ToLower w :: map ToLower rest) with (map ToLower (w :: rest)) in Ef. rewrite Forall_map in Ef.
  eapply Forall_impl; [exact Ef|]. cbn. intros x Hx Hin. apply Hx. unfold forbiddenSQLToken.
  by apply bool_decide_eq_true.
Qed.

(** C35. An extract query that is accepted begins with SELECT or WITH and has
    none of the forbidden words outside strings and comments, in any case - as
    the scanner reads strings: a string of Postgres's own syntax, E'\'' or
    $$'$$, hides the rest of the query from it, and a second statement with
    it. *)
Theorem extract_filter sql out :
  normalizeExtractSQL sql = Ok out ->
  Forall (fun w => ToLower w ∉ forbidden_words) (sql_words out) /\
  (exists w rest, sql_words out = w :: rest /\ (ToLower w = "select" \/ ToLower w = "with")) /\
  normalizeExtractSQL "select E'\''; drop table jobs" = Ok "select E'\''; drop table jobs" /\
  normalizeExtractSQL "select $$'$$; drop table jobs --'" = Ok "select $$'$$; drop table jobs --'".
Proof.
  intros H. apply normalize_spec in H as (_ & Hf & Hw). do 2 (split; [done|]).
  split; vm_compute; reflexivity.
Qed.

End Scanner.

Lemma extract_filter_witness :
  Forall (fun w => @ToLower latin1 w ∉ forbidden_words) (sql_words "SELECT id FROM orders -- drop nothing").
Proof.
  apply (@extract_filter latin1 "SELECT id FROM orders -- drop nothing;"). vm_compute. reflexivity.
Defined.

(** ** Identifiers in the statement *)

(** An identifier in double quotes. *)
Definition dq (p : string) : string := String quote (p +:+ String quote "").

Definition nul : ascii := ascii_of_N 0.

(** What pgx documents of Sanitize, where nothing needs escaping. *)
Class PgxLaws {P : Pgx} := mkPgxLaws {
  sanitize_plain : forall parts,
    Forall (fun p => Contains p quote = false /\ Contains p nul = false) parts ->
    Sanitize parts = Join (map dq parts) "."
}.

Lemma cont_ge b : is_cont b = true -> 128 <= b.
Proof. unfold is_cont, in_range. intros H. zbool. lia. Qed.

Lemma second_ge b0 b1 : second_ok b0 b1 = true -> 128 <= b1.
Proof. unfold second_ok, is_cont, in_range. repeat case_goal; intros; zbool; lia. Qed.

(** Decoding never swallows an ASCII byte: it is its own rune. *)
Lemma decode_keeps c c0 s0 r n :
  byte_of c < 128 -> decode_rune (String c0 s0) = (r, n) -> Contains (String c0 s0) c = true ->
  r = byte_of c \/ Contains (drop_bytes n (String c0 s0)) c = true.
Proof.
  intros Hc Hd Hin. cbn [Contains] in Hin. unfold decode_rune in Hd.
  assert (Hne : forall d s, 128 <= byte_of d -> Ascii.eqb d c || Contains s c = Contains s c).
  { intros d s Hd'. replace (Ascii.eqb d c) with false; [done|]. symmetry. apply Ascii.eqb_neq. intros ->. lia. }
  destruct (byte_of c0 <? 128) eqn:E0; zbool.
  { injection Hd as <- <-. cbn [drop_bytes]. apply orb_true_iff in Hin as [He|]; [left|by right].
    apply Ascii.eqb_eq in He. by subst. }
  rewrite Hne in Hin by done. right.
  destruct s0 as [|c1 s1]; [done|]. destruct (in_range 194 223 (byte_of c0)).
  { destruct (is_cont (byte_of c1)) eqn:E1; injection Hd as <- <-; [|done]. cbn [Contains] in Hin.
    rewrite Hne in Hin by (by apply cont_ge). done. }
  destruct (in_range 224 244 (byte_of c0) && second_ok (byte_of c0) (byte_of c1)) eqn:E1; cbn [negb] in Hd;
    [|by injection Hd as <- <-].
  apply andb_true_iff in E1 as [_ E1%second_ge].
  destruct s1 as [|c2 s2]; [by injection Hd as <- <-|].
  destruct (is_cont (byte_of c2)) eqn:E2; cbn [negb] in Hd; [|by injection Hd as <- <-]. apply cont_ge in E2.
  destruct (byte_of c0 <? 240).
  { injection Hd as <- <-. cbn [Contains] in Hin. by rewrite !Hne in Hin by done. }
  destruct s2 as [|c3 s3]; [by injection Hd as <- <-|].
  destruct (is_cont (byte_of c3)) eqn:E3; cbn [negb] in Hd; injection Hd as <- <-; [|done]. apply cont_ge in E3.
  cbn [Contains] in Hin. by rewrite !Hne in Hin by done.
Qed.

Lemma runes_contains s c : byte_of c < 128 -> Contains s c = true -> byte_of c ∈ runes s.
Proof.
  intros Hc. unfold runes.
  assert (H : forall fuel s, (String.length s <= fuel)%nat -> Contains s c = true -> byte_of c ∈ runes_loop fuel s);
    [|by apply H].
  clear s. induction fuel as [|fuel IH]; intros s Hf Hin; [destruct s; [done|cbn in Hf; lia]|].
  destruct s as [|c0 s0]; [done|]. cbn [runes_loop]. destruct (decode_rune (String c0 s0)) as [r n] eqn:E.
  destruct (decode_keeps c c0 s0 r n Hc E Hin) as [->|Hrest]; [apply elem_of_cons; by left|].
  apply elem_of_cons. right. apply IH; [|done].
  assert (Hn : (1 <= n)%nat).
  { unfold decode_rune in E. repeat (case_in E; try (injection E as _ <-; lia)). }
  destruct n as [|n]; [lia|]. cbn [drop_bytes String.length] in *.
  assert (Hl : forall n s, (String.length (drop_bytes n s) <= String.length s)%nat).
  { clear. induction n as [|n IH]; intros [|c s]; cbn; try lia. specialize (IH s). lia. }
  specialize (Hl n s0). lia.
Qed.

Section Identifiers.
Context {U : Unicode}.

(** A valid part has neither quote nor NUL nor any other ASCII byte that is not
    a letter, a digit or an underscore. *)
Lemma valid_part_no c p :
  byte_of c < 128 -> ident_rest (byte_of c) = false -> validIdentifierPart p = true -> Contains p c = false.
Proof.
  intros Hc Hr Hv. destruct (Contains p c) eqn:E; [|done]. apply (runes_contains p c Hc) in E.
  unfold validIdentifierPart in Hv. destruct (runes p) as [|r rest]; [done|].
  apply andb_true_iff in Hv as [Hs Hrest]. apply elem_of_cons in E as [Eq|E].
  - rewrite <- Eq in Hs. unfold ident_start, ident_rest in *. apply orb_false_iff in Hr as [Hr _]. congruence.
  - rewrite forallb_forall in Hrest. apply list_elem_of_In, Hrest in E. congruence.
Qed.

Lemma valid_part_plain p :
  validIdentifierPart p = true -> Contains p quote = false /\ Contains p nul = false.
Proof. intros Hp. split; apply valid_part_no; done. Qed.

Lemma split_loop_nonempty sep cur s : split_loop sep cur s <> [].
Proof. revert cur. induction s as [|c s IH]; intros cur; cbn; [done|]. by destruct (Ascii.eqb c sep). Qed.

Lemma split_one sep s x : Split s sep = [x] -> x = s.
Proof.
  unfold Split. assert (H : forall s cur, split_loop sep cur s = [x] -> x = cur +:+ s); [|apply H].
  clear s. induction s as [|c s IH]; intros cur; cbn [split_loop].
  - intros [= <-]. by rewrite string_app_nil.
  - destruct (Ascii.eqb c sep); [|intros H%IH; by rewrite string_app_assoc in H].
    intros [= _ H]. by apply split_loop_nonempty in H.
Qed.

Lemma parse_valid v parts :
  parseIdentifier v = Ok parts ->
  (1 <= length parts <= 3)%nat /\ Forall (fun p => validIdentifierPart p = true) parts /\ parts = Split v dot.
Proof.
  unfold parseIdentifier. destruct (_ || _) eqn:El; [done|]. destruct (forallb _ _) eqn:Ef; [|done].
  intros [= <-]. apply orb_false_iff in El as [E1 E2]. apply Nat.eqb_neq in E1. apply Nat.ltb_ge in E2.
  split; [lia|]. split; [|done]. apply Forall_forall. rewrite forallb_forall in Ef.
  intros x Hx. apply Ef. by apply list_elem_of_In.
Qed.

Context {P : Pgx} {PL : PgxLaws}.

Lemma sanitize_valid parts :
  Forall (fun p => validIdentifierPart p = true) parts -> Sanitize parts = Join (map dq parts) ".".
Proof. intros H. apply sanitize_plain. eapply Forall_impl; [exact H|]. apply valid_part_plain. Qed.

(** One column: its name, quoted. *)
Lemma column_quoted column identifier :
  parseIdentifier column = Ok identifier -> (length identifier =? 1)%nat = true ->
  validIdentifierPart column = true /\ Sanitize identifier = dq column.
Proof.
  intros H Hl. apply parse_valid in H as (_ & Hv & Hs). apply Nat.eqb_eq in Hl.
  destruct identifier as [|x [|]]; try done. symmetry in Hs. apply split_one in Hs as Hx. subst x.
  rewrite sanitize_valid by done. apply Forall_cons in Hv as [Hv _]. by split.
Qed.

Lemma sanitize_columns columns r :
  sanitizeUnqualifiedIdentifiers columns = Ok r ->
  r = map dq columns /\ Forall (fun p => validIdentifierPart p = true) columns.
Proof.
  revert r. induction columns as [|column rest IH]; intros r; cbn; [by intros [= <-]|].
  destruct (parseIdentifier column) as [identifier|] eqn:Ep; [|done].
  destruct (length identifier =? 1)%nat eqn:El; cbn [negb]; [|done].
  destruct (sanitizeUnqualifiedIdentifiers rest) as [r'|]; [|done]. intros [= <-].
  destruct (IH r' eq_refl) as [-> Hrest]. destruct (column_quoted _ _ Ep El) as [Hv ->]. auto.
Qed.

Lemma target_columns_quoted columns r :
  target_columns columns = Ok r -> r = map dq columns /\ Forall (fun p => validIdentifierPart p = true) columns.
Proof.
  revert r. induction columns as [|column rest IH]; intros r; cbn; [by intros [= <-]|].
  destruct (parseIdentifier column) as [identifier|] eqn:Ep; [|done].
  destruct (length identifier =? 1)%nat eqn:El; cbn [negb]; [|done].
  destruct (target_columns rest) as [r'|]; [|done]. intros [= <-].
  destruct (IH r' eq_refl) as [-> Hrest]. destruct (column_quoted _ _ Ep El) as [Hv ->]. auto.
Qed.

(** The clause an upsert ends with. *)
Definition upsert_clause (conflict update : list string) : string :=
  newline +:+ "ON CONFLICT (" +:+ Join (map dq conflict) ", " +:+ ") DO UPDATE SET "
  +:+ Join (map (fun c => c +:+ " = EXCLUDED." +:+ c) (map dq update)) ", ".

(** A statement that is built is an INSERT into the table and the columns
    the spec names, each name in double quotes and made of letters, digits and
    underscores only, followed by an extract query the filter accepted, and for
    an upsert by a conflict clause over valid quoted names. *)
Theorem statement_shape spec stmt :
  BuildInsertSQL spec = Ok stmt ->
  exists table out tail,
    Forall (fun p => validIdentifierPart p = true) (table ++ TargetColumns spec) /\ (1 <= length table <= 3)%nat /\
    stmt = "INSERT INTO " +:+ Join (map dq table) "." +:+ " (" +:+ Join (map dq (TargetColumns spec)) ", " +:+ ")"
           +:+ newline +:+ out +:+ tail /\
    normalizeExtractSQL (ExtractSQL spec) = Ok out /\
    (tail = "" \/ exists conflict update, conflict <> [] /\ update <> [] /\ tail = upsert_clause conflict update /\
       Forall (fun p => validIdentifierPart p = true) (conflict ++ update)).
Proof.
  unfold BuildInsertSQL. set (mode := if _ : bool then "append" else _). destruct (negb _); [done|].
  case_bool_decide as Hconf; [done|]. unfold wrap_result.
  destruct (parseIdentifier (TargetTable spec)) as [table|] eqn:Et; [|done]. apply parse_valid in Et as (Hlen & Hvt & _).
  destruct (target_columns _) as [cols|] eqn:Ec; [|done]. apply target_columns_quoted in Ec as [-> Hvc].
  destruct (sanitizeUnqualifiedIdentifiers (ConflictColumns spec)) as [conf|] eqn:Ef; [|done].
  apply sanitize_columns in Ef as [-> Hvf]. set (upd := if _ : bool then nonConflictColumns _ _ else _).
  destruct (sanitizeUnqualifiedIdentifiers upd) as [upds|] eqn:Eu; [|done]. apply sanitize_columns in Eu as [-> Hvu].
  case_bool_decide as Hupd; [done|].
  destruct (normalizeExtractSQL (ExtractSQL spec)) as [out|]; [|done].
  rewrite sanitize_valid by done. intros Hst.
  exists table, out, (if bool_decide (mode = "upsert") then upsert_clause (ConflictColumns spec) upd else "").
  split; [by apply Forall_app|]. split; [done|]. case_bool_decide as Hm; injection Hst as <-.
  - split; [unfold upsert_clause; by rewrite !string_app_assoc|]. split; [done|]. right.
    exists (ConflictColumns spec), upd. split; [naive_solver|]. split; [intros ->; naive_solver|]. split; [done|].
    by apply Forall_app.
  - split; [by rewrite string_app_nil|]. split; [done|]. by left.
Qed.

(** What the executor sends and what its errors mean: a bad spec is a
    permanent error and nothing is sent; otherwise exactly the statement built
    from the spec is sent, and the job succeeds iff executing it does, an error
    of the database being left to the retry policy. *)
Theorem etl_handler pool exec job :
  match Handler pool exec job with
  | (Some e, None) => errors_Is e ErrNoRetry = true \/ pool = false
  | (None, None) => False
  | (r, Some stmt) =>
      (exists spec, ParseSpec (Task_Payload (Job_Task job)) = Ok spec /\ BuildInsertSQL spec = Ok stmt) /\
      match exec with
      | None => r = None
      | Some e => exists err, r = Some err /\ errors_Is err ErrNoRetry = errors_Is e ErrNoRetry
      end
  end.
Proof.
  unfold Handler. destruct (ParseSpec _) as [spec|] eqn:Ep; [|left; cbn; by rewrite orb_true_r].
  destruct (BuildInsertSQL spec) as [stmt|] eqn:Eb; [|left; cbn; by rewrite orb_true_r].
  destruct pool; cbn [negb]; [|by right]. destruct exec; cbn; split; eauto.
Qed.

End Identifiers.

(** pgx's quoting on parts that need no escape. *)
Definition plain_pgx : Pgx := mkPgx (fun parts => Join (map dq parts) ".").

Lemma plain_pgx_laws : @PgxLaws plain_pgx.
Proof. by split. Qed.

Definition orders_spec : PipelineSpec :=
  mkSpec "SELECT id, total FROM orders" "analytics.orders" ["id"; "total"] "upsert" ["id"] [].

Lemma statement_shape_witness :
  exists stmt table out tail, @BuildInsertSQL latin1 plain_pgx orders_spec = Ok stmt /\
    stmt = "INSERT INTO " +:+ Join (map dq table) "." +:+ " (" +:+ Join (map dq ["id"; "total"]) ", " +:+ ")"
           +:+ newline +:+ out +:+ tail.
Proof.
  destruct (@BuildInsertSQL latin1 plain_pgx orders_spec) as [stmt|] eqn:E; [|vm_compute in E; discriminate].
  destruct (@statement_shape latin1 plain_pgx plain_pgx_laws orders_spec stmt E) as (table & out & tail & _ & _ & H & _).
  exists stmt, table, out, tail. split; [reflexivity|exact H].
Defined.
