(* ===== verification/Migrate.v ===== *)
(** * internal/store/migrate.go: the schema migrations

    The listing of the migration files with the parts of path/filepath it
    uses, the ledger [schema_migrations], one transaction per file, and the
    instances that start at once and meet at the advisory lock.  What a
    migration's SQL does to the schema is Postgres's and is the interface
    [SqlExec]; the shipped files do not touch the ledger. *)

From S2P Require Import Prelude Models GoStrings GoText.

(** ** path/filepath *)

Definition slash : ascii := ascii_of_N 47.

Definition HasSuffix (s suffix : string) : bool :=
  (String.length suffix <=? String.length s)%nat
  && bool_decide (drop_bytes (String.length s - String.length suffix) s = suffix).

(** One path element on the stack of kept ones, the innermost first. *)
Definition clean_step (rooted : bool) (stack : list string) (elem : string) : list string :=
  if bool_decide (elem = "" \/ elem = ".") then stack
  else if bool_decide (elem = "..") then
    match stack with
    | top :: rest => if bool_decide (top = "..") then elem :: stack else rest
    | [] => if rooted then [] else [elem]
    end
  else elem :: stack.

Definition is_rooted (path : string) : bool := HasPrefix path "/".

Definition Clean (path : string) : string :=
  let rooted := is_rooted path in
  let stack := foldl (clean_step rooted) [] (Split path slash) in
  let out := (if rooted then "/" else "") +:+ Join (reverse stack) "/" in
  if bool_decide (out = "") then "." else out.

(** [filepath.Join(dir, name)] for a name that is not empty. *)
Definition filepath_Join (dir name : string) : string :=
  if bool_decide (dir = "") then Clean name else Clean (dir +:+ String slash name).

Definition filepath_Base (path : string) : string :=
  if bool_decide (path = "") then "."
  else match last (filter (fun e => e <> "") (Split path slash)) with
       | None => "/"
       | Some e => e
       end.

(** ** The files *)

Record DirEntry := mkDirEntry { entry_name : string; entry_isdir : bool }.

Record Disk := mkDisk {
  ReadDir : string -> result (list DirEntry);
  ReadFile : string -> result string
}.

Definition is_migration (e : DirEntry) : bool := negb (entry_isdir e) && HasSuffix (entry_name e) ".sql".

Definition migrationFiles (disk : Disk) (dir : string) : result (list string) :=
  match ReadDir disk dir with
  | Error e => Error (Wrapf ("store: read migrations directory " +:+ dir) e)
  | Ok entries =>
      match map (fun e => filepath_Join dir (entry_name e)) (filter (fun e => is_migration e = true) entries) with
      | [] => Error (ErrText ("store: no .sql files in " +:+ dir))
      | files => Ok (merge_sort String.le files)
      end
  end.

(** ** The database *)

Class SqlExec (S : Type) := exec_sql : string -> S -> result S.

(** [ledger] is None until the table exists. *)
Record DB (S : Type) := mkDB { schema : S; ledger : option (gset string) }.
Arguments mkDB {S}.
Arguments schema {S}.
Arguments ledger {S}.

Definition recorded {S} (db : DB S) : gset string := default ∅ (ledger db).

(** What happens to the round trips of one file's transaction. *)
Record FileEnv := mkFileEnv {
  begin_err : option error;
  exec_err : option error;
  insert_err : option error;
  commit_fault : Fault
}.

(** And to those of a whole run. *)
Record RunEnv := mkRunEnv {
  acquire_err : option error;
  lock_err : option error;
  create_fault : Fault;
  query_err : option error;
  scan_err : option error;
  rows_err : option error;
  file_env : string -> FileEnv
}.

Definition quiet_file : FileEnv := mkFileEnv None None None NoFault.
Definition quiet_run : RunEnv := mkRunEnv None None NoFault None None None (fun _ => quiet_file).

Definition create_table {S} (db : DB S) : DB S := mkDB (schema db) (Some (recorded db)).

(** A statement that may fail on either side of its effect. *)
Definition with_fault {A} (f : Fault) (msg : string) (before after : A) : option error * A :=
  match f with
  | NoFault => (None, after)
  | FaultBefore e => (Some (Wrapf msg e), before)
  | FaultAfter e => (Some (Wrapf msg e), after)
  end.

(** Reading the ledger: the query, the rows, the end of the rows. *)
Definition ledger_err (env : RunEnv) : option error :=
  match query_err env, scan_err env, rows_err env with
  | Some e, _, _ => Some (Wrapf "store: read schema_migrations" e)
  | _, Some e, _ => Some (Wrapf "store: scan schema_migrations" e)
  | _, _, Some e => Some (Wrapf "store: read schema_migrations" e)
  | None, None, None => None
  end.

(** The INSERT of the version, under the ledger's primary key. *)
Definition insert_version {S} (version : string) (db : DB S) (s : S) : result (DB S) :=
  match ledger db with
  | None => Error (PgError "42P01" "")
  | Some l =>
      if bool_decide (version ∈ l) then Error (PgError "23505" "schema_migrations_pkey")
      else Ok (mkDB s (Some ({[version]} ∪ l)))
  end.

Definition or_err {A} (e : option error) (r : result A) : result A :=
  match e with Some e => Error e | None => r end.

(** The body of the loop for a file that is not applied: the text, then one
    transaction; an error before Commit rolls it back. *)
Definition migrate_one {S} `{SqlExec S} (env : FileEnv) (version : string) (text : result string)
    (db : DB S) : option error * DB S :=
  match text with
  | Error e => (Some (Wrapf ("store: read migration " +:+ version) e), db)
  | Ok sqlText =>
      match begin_err env with
      | Some e => (Some (Wrapf ("store: begin migration " +:+ version) e), db)
      | None =>
          match or_err (exec_err env) (exec_sql sqlText (schema db)) with
          | Error e => (Some (Wrapf ("store: apply migration " +:+ version) e), db)
          | Ok s =>
              match or_err (insert_err env) (insert_version version db s) with
              | Error e => (Some (Wrapf ("store: record migration " +:+ version) e), db)
              | Ok db' => with_fault (commit_fault env) ("store: commit migration " +:+ version) db db'
              end
          end
      end
  end.

(** The loop over the files; the result counts the applied ones. *)
Fixpoint migrate_files {S} `{SqlExec S} (disk : Disk) (env : string -> FileEnv) (applied : gset string)
    (files : list string) (ran : nat) (db : DB S) : result nat * DB S :=
  match files with
  | [] => (Ok ran, db)
  | file :: rest =>
      let version := filepath_Base file in
      if bool_decide (version ∈ applied) then migrate_files disk env applied rest ran db
      else match migrate_one (env version) version (ReadFile disk file) db with
           | (Some e, db') => (Error e, db')
           | (None, db') => migrate_files disk env applied rest (ran + 1) db'
           end
  end.

Definition Migrate {S} `{SqlExec S} (disk : Disk) (env : RunEnv) (dir : string) (db : DB S) : result nat * DB S :=
  match migrationFiles disk dir with
  | Error e => (Error e, db)
  | Ok files =>
      match acquire_err env, lock_err env with
      | Some e, _ => (Error (Wrapf "store: acquire connection for migrations" e), db)
      | _, Some e => (Error (Wrapf "store: take migration lock" e), db)
      | None, None =>
          match with_fault (create_fault env) "store: create schema_migrations" db (create_table db) with
          | (Some e, db') => (Error e, db')
          | (None, db1) =>
              match ledger_err env with
              | Some e => (Error e, db1)
              | None => migrate_files disk (file_env env) (recorded db1) files 0 db1
              end
          end
      end
  end.

(** ** What a run may do to the database *)

(** The files of the list that the database does not have yet. *)
Definition pending {S} (files : list string) (db : DB S) : list string :=
  filter (fun f => filepath_Base f ∉ recorded db) files.

(** The files applied one after the other, each recorded as it is applied,
    none twice. *)
Inductive applies {S} `{SqlExec S} (disk : Disk) : list string -> DB S -> DB S -> Prop :=
  | applies_nil db : applies disk [] db db
  | applies_cons file rest text s db db' :
      ReadFile disk file = Ok text -> exec_sql text (schema db) = Ok s ->
      filepath_Base file ∉ recorded db ->
      applies disk rest (mkDB s (Some ({[filepath_Base file]} ∪ recorded db))) db' ->
      applies disk (file :: rest) db db'.

Section Run.
Context {S : Type} `{SqlExec S} (disk : Disk).

Lemma applies_app l1 l2 (db1 db2 db3 : DB S) :
  applies disk l1 db1 db2 -> applies disk l2 db2 db3 -> applies disk (l1 ++ l2) db1 db3.
Proof. induction 1; intros; cbn; [done|]. by econstructor; eauto. Qed.

Lemma applies_recorded l (db db' : DB S) :
  applies disk l db db' -> recorded db' = list_to_set (map filepath_Base l) ∪ recorded db.
Proof. induction 1 as [|????? ? _ _ _ _ IH]; cbn; [set_solver|]. rewrite IH. cbn. set_solver. Qed.

Lemma applies_ledger l (db db' : DB S) : applies disk l db db' ->
  is_Some (ledger db) \/ l <> [] -> is_Some (ledger db').
Proof. induction 1; intros [?|?]; try done; apply IHapplies; left; by eexists. Qed.

(** One file is applied and recorded, or nothing happened; no error means it
    was. *)
Lemma migrate_one_atomic env file (db : DB S) e db' : is_Some (ledger db) ->
  migrate_one env (filepath_Base file) (ReadFile disk file) db = (e, db') ->
  (e <> None /\ db' = db) \/ (applies disk [file] db db' /\ is_Some (ledger db')).
Proof.
  intros [l Hl]. unfold migrate_one, insert_version. rewrite Hl.
  destruct (ReadFile disk file) as [text|] eqn:Hf; [|by intros [= <- <-]; left].
  destruct (begin_err env); [by intros [= <- <-]; left|].
  destruct (exec_err env); cbn; [by intros [= <- <-]; left|].
  destruct (exec_sql text (schema db)) as [s|] eqn:Hs; [|by intros [= <- <-]; left].
  destruct (insert_err env); cbn; [by intros [= <- <-]; left|].
  case_bool_decide as Hin; [by intros [= <- <-]; left|].
  assert (Hap : applies disk [file] db (mkDB s (Some ({[filepath_Base file]} ∪ l)))).
  { replace l with (recorded db) by (unfold recorded; by rewrite Hl).
    econstructor; [done| done | unfold recorded; by rewrite Hl | constructor]. }
  unfold with_fault. destruct (commit_fault env); intros [= <- <-]; eauto.
Qed.

(** The loop applies a prefix of the files it still has to apply, and all of
    them when it reports success. *)
Lemma migrate_files_prefix env applied files ran (db : DB S) r db' : is_Some (ledger db) ->
  migrate_files disk env applied files ran db = (r, db') ->
  exists k, applies disk (take k (filter (fun f => filepath_Base f ∉ applied) files)) db db' /\
    (forall n, r = Ok n ->
      (length (filter (fun f => filepath_Base f ∉ applied) files) <= k)%nat /\
      n = (ran + length (filter (fun f => filepath_Base f ∉ applied) files))%nat).
Proof.
  revert ran db. induction files as [|f fs IH]; intros ran db Hl.
  { cbn [migrate_files]. intros [= <- <-]. exists 0%nat. split; [constructor|].
    intros ? [= <-]. rewrite filter_nil. cbn. lia. }
  cbn [migrate_files]. case_bool_decide as Hin.
  { rewrite filter_cons_False by tauto. by apply IH. }
  rewrite filter_cons_True by done.
  destruct (migrate_one _ _ _ _) as [[e|] db1] eqn:Hone;
    destruct (migrate_one_atomic _ _ _ _ _ Hl Hone) as [[? ->]|[Hap Hl1]]; try done.
  - intros [= <- <-]. exists 0%nat. split; [constructor|done].
  - intros [= <- <-]. exists 1%nat. split; [done|done].
  - intros Hrest. destruct (IH _ _ Hl1 Hrest) as (k & Hk & Hok). exists (Datatypes.S k). split.
    + cbn. exact (applies_app [f] _ _ _ _ Hap Hk).
    + intros n Hn. destruct (Hok n Hn). cbn. lia.
Qed.

Lemma create_recorded (db : DB S) : recorded (create_table db) = recorded db /\ is_Some (ledger (create_table db)).
Proof. split; [done|eexists; done]. Qed.

End Run.

(** ** Paths of directory entries *)

Section Paths.

Lemma split_loop_app sep s t cur :
  split_loop sep cur (s +:+ String sep t) = split_loop sep cur s ++ split_loop sep "" t.
Proof.
  revert cur. induction s as [|c s IH]; intros cur; rewrite ?append_cons; cbn [split_loop].
  - change ("" +:+ String sep t) with (String sep t). cbn [split_loop]. by rewrite Ascii.eqb_refl.
  - case_match; [by rewrite IH|apply IH].
Qed.

Lemma split_loop_none sep t cur : Contains t sep = false -> split_loop sep cur t = [cur +:+ t].
Proof.
  revert cur. induction t as [|c t IH]; intros cur; cbn [split_loop Contains].
  - by rewrite string_app_nil.
  - intros [Hc Ht]%orb_false_iff. rewrite Hc, IH by done. by rewrite string_app_assoc.
Qed.

Lemma Join_snoc l x sep : l <> [] -> Join (l ++ [x]) sep = Join l sep +:+ sep +:+ x.
Proof.
  induction l as [|a [|b l] IH]; intros Hl; [done|done|].
  change (Join ((a :: b :: l) ++ [x]) sep) with (a +:+ sep +:+ Join ((b :: l) ++ [x]) sep).
  rewrite IH by done. cbn [Join]. by rewrite !string_app_assoc.
Qed.

(** A name a directory can list and a migration can have. *)
Definition plain_name (n : string) : Prop := Contains n slash = false /\ n <> "" /\ n <> "." /\ n <> "..".

Lemma clean_step_plain rooted stack n : plain_name n -> clean_step rooted stack n = n :: stack.
Proof. intros (_ & ? & ? & ?). unfold clean_step. by rewrite !bool_decide_false by tauto. Qed.

(** What precedes the name in its path; it ends at an element boundary. *)
Definition dir_prefix (dir : string) : string :=
  let rooted := is_rooted dir in
  let stack := foldl (clean_step rooted) [] (Split dir slash) in
  (if rooted then "/" else "")
  +:+ match stack with [] => "" | _ => Join (reverse stack) "/" +:+ "/" end.

Lemma rooted_app dir n : dir <> "" -> is_rooted (dir +:+ String slash n) = is_rooted dir.
Proof. destruct dir as [|c d]; [done|]. intros _. rewrite append_cons. by destruct d. Qed.

Lemma HasPrefix_slash n : HasPrefix n "/" = true -> Contains n slash = true.
Proof.
  destruct n as [|c n]; [done|]. cbn [HasPrefix Contains].
  intros [Hc _]%andb_true_iff. apply orb_true_iff. left. exact Hc.
Qed.

Lemma append_nonempty (p n : string) : n <> "" -> p +:+ n <> "".
Proof. destruct p; [done|]. by rewrite append_cons. Qed.

Lemma Join_prefix dir n : plain_name n -> filepath_Join dir n = dir_prefix dir +:+ n.
Proof.
  intros Hn. pose proof Hn as (Hs & Hne & _). unfold filepath_Join.
  case_bool_decide as Hd.
  - subst dir. unfold Clean.
    assert (is_rooted n = false) as ->.
    { apply not_true_is_false. intros ?%HasPrefix_slash. congruence. }
    unfold Split. rewrite split_loop_none by done. change ("" +:+ n) with n.
    cbn [foldl]. rewrite clean_step_plain by done. cbn [reverse Join].
    change (reverse [n]) with [n]. cbn [Join]. change ("" +:+ n) with n. by rewrite bool_decide_false.
  - unfold Clean, dir_prefix. rewrite rooted_app by done. unfold Split.
    rewrite split_loop_app, (split_loop_none _ n) by done. change ("" +:+ n) with n.
    rewrite foldl_app. cbn [foldl]. rewrite clean_step_plain by done.
    set (st := foldl _ _ _). rewrite reverse_cons.
    destruct st as [|t st].
    + change (reverse [] ++ [n]) with [n]. cbn [Join]. rewrite string_app_nil.
      rewrite bool_decide_false by (by apply append_nonempty). done.
    + rewrite Join_snoc by (intros E; by apply (f_equal length) in E; rewrite length_reverse in E).
      rewrite <- !string_app_assoc. rewrite bool_decide_false by (by apply append_nonempty). done.
Qed.

Lemma Base_app p n : plain_name n -> filepath_Base (p +:+ String slash n) = n.
Proof.
  intros (Hs & Hne & _). unfold filepath_Base, Split.
  rewrite bool_decide_false by (by apply append_nonempty).
  rewrite split_loop_app, (split_loop_none _ n) by done. change ("" +:+ n) with n.
  rewrite filter_app, filter_cons_True, filter_nil by done. by rewrite last_snoc.
Qed.

(** The version of a file is the name it has in the directory. *)
Lemma Base_Join dir n : plain_name n -> filepath_Base (filepath_Join dir n) = n.
Proof.
  intros Hn. rewrite Join_prefix by done. pose proof Hn as (Hs & Hne & _).
  assert (Hp : dir_prefix dir = "" \/ exists p, dir_prefix dir = p +:+ String slash "").
  { unfold dir_prefix. destruct (foldl _ _ _) as [|t st].
    - destruct (is_rooted dir); [right; by exists ""|by left].
    - right. eexists. rewrite <- string_app_assoc. reflexivity. }
  destruct Hp as [->|[p ->]].
  - change ("" +:+ n) with n. unfold filepath_Base, Split. rewrite bool_decide_false by done.
    rewrite split_loop_none by done. change ("" +:+ n) with n.
    by rewrite filter_cons_True, filter_nil by done.
  - rewrite string_app_assoc. by apply Base_app.
Qed.

Lemma le_prefix (p a b : string) : String.le (p +:+ a) (p +:+ b) <-> String.le a b.
Proof.
  induction p as [|c p IH]; [done|]. rewrite !append_cons, <- IH. unfold String.le, String.leb. cbn.
  assert (Ascii.compare c c = Eq) as -> by apply N.compare_refl. done.
Qed.

Lemma sql_name_plain n : Contains n slash = false -> HasSuffix n ".sql" = true -> plain_name n.
Proof.
  intros Hs Hn. split; [done|]. split_and!; intros ->; vm_compute in Hn; discriminate.
Qed.

End Paths.

(** ** Instances that start together

    Every instance runs Migrate on its own connection; the advisory lock is
    the database's, so at most one of them is past it.  A step of the cluster
    is one round trip of one instance; an instance, or its connection, may die
    between any two of them, which ends its session and frees the lock. *)

Inductive Phase :=
  | Waiting
  | Locked                                                (* holds the lock *)
  | Created                                               (* and the ledger exists *)
  | Applying (applied : gset string) (rest : list string) (ran : nat)  (* and has been read *)
  | Ended (r : result nat).

Record Cluster (S : Type) := mkCluster {
  cluster_db : DB S;
  holder : option nat;
  phases : nat -> Phase
}.
Arguments mkCluster {S}.
Arguments cluster_db {S}.
Arguments holder {S}.
Arguments phases {S}.

Definition set_phase (ph : nat -> Phase) (i : nat) (p : Phase) : nat -> Phase :=
  fun j => if bool_decide (j = i) then p else ph j.

(** The session of [i] is over. *)
Definition leave {S} (i : nat) (r : result nat) (c : Cluster S) (db : DB S) : Cluster S :=
  mkCluster db (if bool_decide (holder c = Some i) then None else holder c) (set_phase (phases c) i (Ended r)).

Definition advance {S} (i : nat) (p : Phase) (c : Cluster S) (db : DB S) : Cluster S :=
  mkCluster db (holder c) (set_phase (phases c) i p).

Inductive move :=
  | Go (i : nat) (env : RunEnv)    (* the next round trip of an instance *)
  | Die (i : nat) (e : error).     (* its connection is gone *)

(** An instance that asks for a held lock waits: its step changes nothing. *)
Definition cluster_move {S} `{SqlExec S} (disk : Disk) (files : list string) (m : move) (c : Cluster S) : Cluster S :=
  let db := cluster_db c in
  match m with
  | Die i e => match phases c i with Ended _ => c | _ => leave i (Error e) c db end
  | Go i env =>
      match phases c i with
      | Waiting =>
          match holder c with
          | Some _ => c
          | None => mkCluster db (Some i) (set_phase (phases c) i Locked)
          end
      | Locked =>
          match with_fault (create_fault env) "store: create schema_migrations" db (create_table db) with
          | (Some e, db') => leave i (Error e) c db'
          | (None, db') => advance i Created c db'
          end
      | Created =>
          match ledger_err env with
          | Some e => leave i (Error e) c db
          | None => advance i (Applying (recorded db) files 0) c db
          end
      | Applying applied [] ran => leave i (Ok ran) c db
      | Applying applied (file :: rest) ran =>
          let version := filepath_Base file in
          if bool_decide (version ∈ applied) then advance i (Applying applied rest ran) c db
          else match migrate_one (file_env env version) version (ReadFile disk file) db with
               | (Some e, db') => leave i (Error e) c db'
               | (None, db') => advance i (Applying applied rest (ran + 1)) c db'
               end
      | Ended _ => c
      end
  end.

Definition cluster_run {S} `{SqlExec S} (disk : Disk) (files : list string) (ms : list move) (c : Cluster S) : Cluster S :=
  foldl (fun c m => cluster_move disk files m c) c ms.

Definition cluster_start {S} (db : DB S) : Cluster S := mkCluster db None (fun _ => Waiting).

Section Race.
Context {S : Type} `{SqlExec S} (disk : Disk) (files : list string) (db0 : DB S).
Context (Hdup : NoDup (map filepath_Base files)).

(** Inside the lock there is only its holder, and what it has left to apply is
    what the database has left to get. *)
Definition in_lock (p : Phase) : bool :=
  match p with Locked | Created | Applying _ _ _ => true | Waiting | Ended _ => false end.

Definition phase_ok (db : DB S) (p : Phase) : Prop :=
  match p with
  | Waiting | Locked | Ended (Error _) => True
  | Ended (Ok _) => pending files db = []
  | Created => is_Some (ledger db)
  | Applying applied rest _ =>
      is_Some (ledger db) /\ rest `suffix_of` files /\
      pending files db = filter (fun f => filepath_Base f ∉ applied) rest
  end.

(** The first files of those pending at the start have been applied, in order,
    and the others not. *)
Definition progressed (db : DB S) : Prop :=
  exists k db1, (db1 = db0 \/ db1 = create_table db0) /\
    applies disk (take k (pending files db0)) db1 db /\
    pending files db = drop k (pending files db0).

Record cluster_ok (c : Cluster S) : Prop := {
  one_inside : forall i, in_lock (phases c i) = true -> holder c = Some i;
  holder_phase : forall i, phase_ok (cluster_db c) (phases c i);
  progress : progressed (cluster_db c)
}.

Lemma pending_recorded (db db' : DB S) : recorded db = recorded db' -> pending files db = pending files db'.
Proof. intros E. unfold pending. by rewrite E. Qed.

Lemma filter_keeps {A} (P : A -> Prop) `{!forall x, Decision (P x)} (l : list A) :
  (forall x, x ∈ l -> P x) -> filter P l = l.
Proof.
  induction l as [|x l IH]; intros HP; [done|]. rewrite filter_cons_True by (apply HP; left).
  f_equal. apply IH. intros. apply HP. by right.
Qed.

(** Recording the first pending file leaves the others pending. *)
Lemma pending_after f l (db db' : DB S) : pending files db = f :: l ->
  recorded db' = {[filepath_Base f]} ∪ recorded db -> pending files db' = l.
Proof.
  unfold pending. intros E Hr.
  assert (Hf : filter (fun g => filepath_Base g ∉ recorded db') files
    = filter (fun g => filepath_Base g <> filepath_Base f) (filter (fun g => filepath_Base g ∉ recorded db) files)).
  { rewrite list_filter_filter. apply list_filter_iff. intros x. rewrite Hr. set_solver. }
  rewrite Hf, E, filter_cons_False by tauto.
  assert (Hd : NoDup (map filepath_Base (f :: l))).
  { rewrite <- E. eapply sublist_NoDup; [exact Hdup|]. apply (fmap_sublist filepath_Base), sublist_filter. }
  cbn in Hd. apply NoDup_cons in Hd as [Hnin _].
  apply filter_keeps. intros g Hg Heq. apply Hnin.
  rewrite <- Heq. by apply (list_elem_of_fmap_2 filepath_Base).
Qed.

Lemma progressed_create (db : DB S) : progressed db -> progressed (create_table db).
Proof.
  intros (k & db1 & Hdb1 & Hap & Hpe).
  assert (Hcases : db = create_table db \/ db = db1 /\ take k (pending files db0) = []).
  { destruct (take k (pending files db0)) as [|x t]; [right; by inversion Hap|left].
    destruct (applies_ledger disk _ _ _ Hap (or_intror (fun E => nil_cons (eq_sym E)))) as [l Hl].
    destruct db; cbn in Hl; by subst. }
  destruct Hcases as [<-|[-> Htk]]; [by exists k, db1|].
  exists k, (create_table db0). split; [by right|]. split.
  - rewrite Htk. destruct Hdb1 as [-> | ->]; constructor.
  - by rewrite <- Hpe.
Qed.

Lemma progressed_apply f l (db db' : DB S) : progressed db -> pending files db = f :: l ->
  applies disk [f] db db' -> progressed db'.
Proof.
  intros (k & db1 & Hdb1 & Hap & Hpe) Hf Hone. exists (Datatypes.S k), db1. split; [done|].
  rewrite Hpe in Hf.
  assert (Hk : pending files db0 !! k = Some f).
  { rewrite <- (Nat.add_0_r k), <- lookup_drop, Hf. done. }
  split.
  - rewrite (take_S_r _ _ _ Hk). by eapply applies_app.
  - assert (drop (Datatypes.S k) (pending files db0) = l) as ->.
    { rewrite (drop_S _ _ _ Hk) in Hf. by injection Hf. }
    eapply pending_after; [by rewrite Hpe|]. rewrite (applies_recorded _ _ _ _ Hone). cbn. set_solver.
Qed.

Lemma inside_ok c i p db' h' : cluster_ok c -> in_lock (phases c i) = true ->
  phase_ok db' p -> progressed db' -> (in_lock p = true -> h' = Some i) ->
  (pending files (cluster_db c) = [] -> pending files db' = []) ->
  cluster_ok (mkCluster db' h' (set_phase (phases c) i p)).
Proof.
  intros Hok Hin Hp Hpr Hh Hend. pose proof (one_inside _ Hok _ Hin) as Hi.
  assert (Hout : forall j, j <> i -> in_lock (phases c j) = false).
  { intros j Hj. apply not_true_is_false. intros ?%(one_inside _ Hok). congruence. }
  split; cbn; unfold set_phase; [| |done]; intros j; case_bool_decide as Hj; try (by subst; auto).
  - intros E. by rewrite Hout in E.
  - specialize (Hout _ Hj). pose proof (holder_phase _ Hok j) as Hpj.
    destruct (phases c j) as [| | | |[]]; try done. by apply Hend.
Qed.

Lemma start_ok : cluster_ok (cluster_start db0).
Proof.
  split; cbn; [done|done|]. exists 0%nat, db0. split; [by left|]. split; [constructor|done].
Qed.

Lemma leave_ok c i r db' : cluster_ok c -> in_lock (phases c i) = true -> progressed db' ->
  (forall n, r = Ok n -> pending files db' = []) ->
  (pending files (cluster_db c) = [] -> pending files db' = []) -> cluster_ok (leave i r c db').
Proof. intros ??? Hr ?. apply inside_ok; [done|done| |done..]. destruct r as [n|]; [exact (Hr n eq_refl)|done]. Qed.

Lemma advance_ok c i p db' : cluster_ok c -> in_lock (phases c i) = true -> phase_ok db' p -> progressed db' ->
  (pending files (cluster_db c) = [] -> pending files db' = []) -> cluster_ok (advance i p c db').
Proof. intros Hok Hin ???. apply inside_ok; [done..| |done]. intros _. by apply one_inside. Qed.

(** An instance at the loop of the files. *)
Lemma applying_ok env c i applied rest ran : cluster_ok c -> phases c i = Applying applied rest ran ->
  cluster_ok (cluster_move disk files (Go i env) c).
Proof.
  intros Hok Hp. pose proof (holder_phase _ Hok i) as Hph. cbn. rewrite Hp in *.
  assert (Hin : in_lock (phases c i) = true) by (by rewrite Hp). destruct Hph as (Hl & Hsuf & Hpe).
  pose proof (progress _ Hok) as Hpr.
  destruct rest as [|f rest]; [by apply leave_ok; [..|intros; rewrite Hpe|]|].
  assert (Hsuf' : rest `suffix_of` files) by (by eapply suffix_cons_l).
  case_bool_decide as Hap.
  { rewrite filter_cons_False in Hpe by tauto. by apply advance_ok. }
  rewrite filter_cons_True in Hpe by done.
  destruct (migrate_one _ _ _ _) as [[e|] db'] eqn:Hone;
    destruct (migrate_one_atomic disk _ _ _ _ _ Hl Hone) as [[? ->]|[Hone' Hl']]; try done.
  - by apply leave_ok.
  - apply leave_ok; [done..| |done|by rewrite Hpe]. by eapply progressed_apply.
  - apply advance_ok; [done..| |by eapply progressed_apply|by rewrite Hpe].
    split_and!; [done..|]. eapply pending_after; [exact Hpe|].
    rewrite (applies_recorded _ _ _ _ Hone'). cbn. set_solver.
Qed.

Lemma move_ok m c : cluster_ok c -> cluster_ok (cluster_move disk files m c).
Proof.
  intros Hok. pose proof (progress _ Hok) as Hpr. destruct m as [i env|i e].
  2: { cbn. destruct (phases c i) eqn:Hp; try done; try (apply leave_ok; [done|by rewrite Hp|done..]).
       split; cbn; unfold set_phase; [| |done]; intros j; case_bool_decide as Hj; try done.
       - intros Hin%(one_inside _ Hok). rewrite bool_decide_false; congruence.
       - by apply holder_phase. }
  destruct (phases c i) eqn:Hp; [| | |by eapply applying_ok|cbn; by rewrite Hp]; cbn; rewrite Hp.
  - destruct (holder c) as [j|] eqn:Hh; [done|].
    assert (Hout : forall j, in_lock (phases c j) = false).
    { intros j. apply not_true_is_false. intros ?%(one_inside _ Hok). congruence. }
    split; cbn; unfold set_phase; [| |done]; intros j; case_bool_decide; subst; try done.
    + by rewrite Hout.
    + by apply holder_phase.
  - assert (Hin : in_lock (phases c i) = true) by (by rewrite Hp).
    pose proof (progressed_create _ Hpr). destruct (create_recorded (cluster_db c)) as [_ Hl].
    unfold with_fault. destruct (create_fault env); [by apply advance_ok|by apply leave_ok..].
  - assert (Hin : in_lock (phases c i) = true) by (by rewrite Hp).
    destruct (ledger_err env); [by apply leave_ok|]. apply advance_ok; [done..| |done|done].
    pose proof (holder_phase _ Hok i) as Hl. rewrite Hp in Hl. by split_and!.
Qed.

Lemma cluster_run_ok ms c : cluster_ok c -> cluster_ok (cluster_run disk files ms c).
Proof. revert c. induction ms as [|m ms IH]; intros c Hok; [done|]. apply IH. by apply move_ok. Qed.

End Race.

(** ** The properties *)

(** What a directory lists: each name once, no separator in it. *)
Definition listing (entries : list DirEntry) : Prop :=
  NoDup (map entry_name entries) /\ Forall (fun e => Contains (entry_name e) slash = false) entries.

Definition migration_names (entries : list DirEntry) : list string :=
  map entry_name (filter (fun e => is_migration e = true) entries).

Lemma StronglySorted_map {A B} (R : relation A) (R' : relation B) (g : A -> B) l :
  (forall a b, a ∈ l -> b ∈ l -> R a b -> R' (g a) (g b)) -> StronglySorted R l -> StronglySorted R' (map g l).
Proof.
  intros HR Hs. induction Hs as [|x l Hs IH Hx]; cbn; [constructor|]. constructor.
  - apply IH. intros. apply HR; [by right..|done].
  - apply Forall_forall. intros y (z & -> & Hz)%list_elem_of_fmap.
    rewrite Forall_forall in Hx. apply HR; [by left|by right|by apply Hx].
Qed.

(** The files are the directory's migrations, in the order of their names. *)
Lemma files_in_order disk dir entries files : ReadDir disk dir = Ok entries -> listing entries ->
  migrationFiles disk dir = Ok files ->
  map filepath_Base files ≡ₚ migration_names entries /\
  StronglySorted String.le (map filepath_Base files) /\ NoDup (map filepath_Base files).
Proof.
  intros Hdir [Hdup Hsl]. unfold migrationFiles. rewrite Hdir.
  set (ms := filter _ entries).
  assert (Hplain : Forall (fun e => plain_name (entry_name e)) ms).
  { apply Forall_forall. intros e [He Hin]%list_elem_of_filter.
    apply andb_true_iff in He as [_ He]. rewrite Forall_forall in Hsl. by apply sql_name_plain; [apply Hsl|]. }
  assert (Hmap : map (fun e => filepath_Join dir (entry_name e)) ms
    = map (String.append (dir_prefix dir)) (map entry_name ms)).
  { rewrite map_map. apply map_ext_Forall. eapply Forall_impl; [exact Hplain|]. intros. by apply Join_prefix. }
  assert (Hbase : map filepath_Base (map (fun e => filepath_Join dir (entry_name e)) ms) = map entry_name ms).
  { rewrite map_map. apply map_ext_Forall. eapply Forall_impl; [exact Hplain|]. intros. by apply Base_Join. }
  destruct (map _ ms) as [|f fs] eqn:Hfs; [done|]. rewrite <- Hfs in *. intros [= <-].
  assert (Hperm : map filepath_Base (merge_sort String.le (map (fun e => filepath_Join dir (entry_name e)) ms))
     ≡ₚ map entry_name ms).
  { rewrite <- Hbase. apply Permutation_map, merge_sort_Permutation. }
  split; [exact Hperm|]. split.
  - eapply StronglySorted_map; [|apply StronglySorted_merge_sort; exact _].
    intros a b Ha Hb. rewrite !merge_sort_Permutation in *. revert Ha Hb.
    rewrite !list_elem_of_fmap. intros (ea & -> & Ha) (eb & -> & Hb).
    rewrite Forall_forall in Hplain. rewrite !Join_prefix, le_prefix by auto.
    rewrite <- !Join_prefix, !Base_Join by auto. done.
  - rewrite Hperm. eapply sublist_NoDup; [exact Hdup|]. apply (fmap_sublist entry_name), sublist_filter.
Qed.

(** C39. Any number of instances run Migrate at once, any of them failing or
    dying between any two round trips.  At every moment at most one is past
    the advisory lock; the database is the initial one with the first k of its
    pending files applied and recorded, in filename order, each once, and the
    others not; and once some instance has reported success none is pending. *)
Theorem migrations_serialise {S} `{SqlExec S} disk dir entries files (db0 : DB S) (ms : list move) :
  ReadDir disk dir = Ok entries -> listing entries -> migrationFiles disk dir = Ok files ->
  let c := cluster_run disk files ms (cluster_start db0) in
  (forall i j, in_lock (phases c i) = true -> in_lock (phases c j) = true -> i = j) /\
  (exists k db1, (db1 = db0 \/ db1 = create_table db0) /\
     applies disk (take k (pending files db0)) db1 (cluster_db c) /\
     pending files (cluster_db c) = drop k (pending files db0)) /\
  (forall i n, phases c i = Ended (Ok n) -> pending files (cluster_db c) = []).
Proof.
  intros Hdir Hl Hfiles c. destruct (files_in_order _ _ _ _ Hdir Hl Hfiles) as (_ & _ & Hdup).
  assert (Hok : cluster_ok disk files db0 c) by (apply cluster_run_ok, start_ok; done).
  split_and!; [|by apply Hok|].
  - intros i j Hi%(one_inside _ _ _ _ Hok) Hj%(one_inside _ _ _ _ Hok). congruence.
  - intros i n Hi. pose proof (holder_phase _ _ _ _ Hok i) as Hp. by rewrite Hi in Hp.
Qed.

Lemma migrate_files_nothing {S} `{SqlExec S} disk env applied files ran (db : DB S) :
  filter (fun f => filepath_Base f ∉ applied) files = [] ->
  migrate_files disk env applied files ran db = (Ok ran, db).
Proof.
  induction files as [|f fs IH]; [done|]. cbn [migrate_files]. case_bool_decide as Hin.
  - rewrite filter_cons_False by tauto. done.
  - by rewrite filter_cons_True.
Qed.

(** Nothing pending: a run leaves the database alone, whatever fails, and
    reports no work when nothing does. *)
Lemma migrate_nothing {S} `{SqlExec S} disk env dir files (db : DB S) :
  migrationFiles disk dir = Ok files -> is_Some (ledger db) -> pending files db = [] ->
  (Migrate disk env dir db).2 = db /\ (forall n, (Migrate disk env dir db).1 = Ok n -> n = 0%nat) /\
  Migrate disk quiet_run dir db = (Ok 0%nat, db).
Proof.
  intros Hf [l Hl] Hp.
  assert (Hct : create_table db = db) by (destruct db; cbn in *; by subst).
  assert (Hq : forall env', migrate_files disk env' (recorded db) files 0 db = (Ok 0%nat, db))
    by (intros; by apply migrate_files_nothing).
  unfold Migrate. rewrite Hf. cbn [quiet_run acquire_err lock_err create_fault with_fault].
  rewrite Hct. change (ledger_err quiet_run) with (@None error). rewrite !Hq.
  destruct (acquire_err env); [done|]. destruct (lock_err env); [done|].
  unfold with_fault. destruct (create_fault env); [|done..].
  destruct (ledger_err env); [done|]. rewrite Hq. split_and!; [done| |done]. by intros n [= <-].
Qed.

(** A run of Migrate applies a prefix of the files the ledger lacks, in
    order, each together with its record, wherever it fails, a reply of Commit
    lost included.  When it reports success it applied all of them, it counted
    them, and from then on a run changes nothing, whatever happens to it, and
    reports zero. *)
Theorem migrate_atomic {S} `{SqlExec S} disk env dir (db : DB S) r db' :
  Migrate disk env dir db = (r, db') ->
  (is_Ok r = false /\ db' = db) \/
  exists files k db1, migrationFiles disk dir = Ok files /\ (db1 = db \/ db1 = create_table db) /\
    applies disk (take k (pending files db)) db1 db' /\
    (forall n, r = Ok n ->
       n = length (pending files db) /\ applies disk (pending files db) db1 db' /\
       (forall env', (Migrate disk env' dir db').2 = db') /\
       Migrate disk quiet_run dir db' = (Ok 0%nat, db')).
Proof.
  unfold Migrate at 1. destruct (migrationFiles disk dir) as [files|] eqn:Hf; [|intros [= <- <-]; by left].
  destruct (acquire_err env); [intros [= <- <-]; by left|].
  destruct (lock_err env); [intros [= <- <-]; by left|].
  unfold with_fault. destruct (create_fault env) eqn:Hc; [|intros [= <- <-]; by left|].
  2: { intros [= <- <-]. right. exists files, 0%nat, (create_table db).
       split_and!; [done|by right|constructor|done]. }
  destruct (ledger_err env).
  { intros [= <- <-]. right. exists files, 0%nat, (create_table db).
    split_and!; [done|by right|constructor|done]. }
  intros Hrun. destruct (create_recorded db) as [_ Hl].
  destruct (migrate_files_prefix disk _ _ _ _ _ _ _ Hl Hrun) as (k & Hk & Hok).
  right. exists files, k, (create_table db). split_and!; [done|by right|exact Hk|].
  intros n ->. destruct (Hok n eq_refl) as [Hlen ->]. rewrite take_ge in Hk by done.
  assert (Hnone : pending files db' = []).
  { destruct (pending files db') as [|f l] eqn:Hp; [done|exfalso].
    assert (Hin : f ∈ pending files db') by (rewrite Hp; left).
    apply list_elem_of_filter in Hin as [Hnin Hin]. apply Hnin.
    rewrite (applies_recorded disk _ _ _ Hk). apply elem_of_union.
    destruct (decide (filepath_Base f ∈ recorded db)) as [|Hr]; [by right|left].
    apply elem_of_list_to_set, (list_elem_of_fmap_2 filepath_Base). by apply list_elem_of_filter. }
  pose proof (applies_ledger disk _ _ _ Hk (or_introl Hl)) as Hl'.
  split_and!; [done|exact Hk| |].
  - intros env'. by destruct (migrate_nothing disk env' dir files db' Hf Hl' Hnone).
  - by destruct (migrate_nothing disk env dir files db' Hf Hl' Hnone) as (_ & _ & ?).
Qed.

(** Two migrations and a read-me in a directory, over a schema that remembers
    what it was told and refuses one statement. *)
#[local] Instance remembers : SqlExec (list string) :=
  fun text s => if bool_decide (text = "broken") then Error (PgError "42601" "") else Ok (s ++ [text]).

Definition sample_entries : list DirEntry :=
  [mkDirEntry "010_more.sql" false; mkDirEntry "README.md" false; mkDirEntry "002_jobs.sql" false;
   mkDirEntry "old.sql" true].

Definition sample_disk : Disk :=
  mkDisk (fun _ => Ok sample_entries) (fun f => Ok f).

Definition lost_commit : RunEnv :=
  mkRunEnv None None NoFault None None None
    (fun v => mkFileEnv None None None (if bool_decide (v = "010_more.sql") then FaultAfter (ErrText "eof") else NoFault)).

Lemma migrations_serialise_witness :
  let c := cluster_run sample_disk ["migrations/002_jobs.sql"; "migrations/010_more.sql"]
    [Go 1 quiet_run; Go 0 quiet_run; Go 1 quiet_run; Go 1 quiet_run; Go 1 quiet_run; Die 1 (ErrText "killed");
     Go 0 quiet_run; Go 0 quiet_run; Go 0 quiet_run; Go 0 quiet_run; Go 0 quiet_run; Go 0 quiet_run]
    (cluster_start (mkDB [] None)) in
  schema (cluster_db c) = ["migrations/002_jobs.sql"; "migrations/010_more.sql"] /\
  pending ["migrations/002_jobs.sql"; "migrations/010_more.sql"] (cluster_db c) = [].
Proof.
  split; [by vm_compute|].
  eapply (migrations_serialise sample_disk "./migrations/" sample_entries _ (mkDB [] None) _ eq_refl
    ltac:(split; [apply (bool_decide_unpack _); by vm_compute|repeat constructor]) ltac:(by vm_compute)) with (i := 0%nat).
  by vm_compute.
Defined.

Lemma migrate_atomic_witness :
  exists db', Migrate sample_disk quiet_run "migrations" (mkDB ([] : list string) None) = (Ok 2%nat, db') /\
    schema db' = ["migrations/002_jobs.sql"; "migrations/010_more.sql"] /\
    (Migrate sample_disk lost_commit "migrations" db').2 = db'.
Proof.
  eexists. split; [by vm_compute|]. split; [by vm_compute|].
  edestruct (migrate_atomic sample_disk quiet_run "migrations" (mkDB ([] : list string) None))
    as [[H _]|(files & k & db1 & _ & _ & _ & Hok)]; [by vm_compute|discriminate H|].
  by apply (Hok 2%nat eq_refl).
Defined.
