(* ===== verification/Cron.v ===== *)
(** * Cron expressions: Parse and Next of internal/scheduler/scheduler.go

    The parser of 5-field expressions and the search for the next occurrence,
    with the theorems that a parsed field selects exactly the values its text
    names and that [Next] returns the earliest instant that matches. *)

From S2P Require Import Prelude Calendar GoStrings.

(** ** Parsing *)

Definition comma : ascii := ascii_of_N 44.
Definition star : string := "*".

Definition set_bit (i : Z) (bits : list bool) : list bool := <[Z.to_nat i := true]> bits.

(** [for i := lo; i <= hi; i++ { result[i-min] = true }], [n] rounds. *)
Fixpoint set_range (n : nat) (i : Z) (bits : list bool) : list bool :=
  match n with O => bits | S n' => set_range n' (i + 1) (set_bit i bits) end.

(** [for i := 0; i <= last; i += step { result[i] = true }]; with a positive
    step [last + 1] rounds are enough. *)
Fixpoint set_steps (fuel : nat) (i step last : Z) (bits : list bool) : list bool :=
  match fuel with
  | O => bits
  | S fuel' => if last <? i then bits else set_steps fuel' (i + step) step last (set_bit i bits)
  end.

(** One part of a comma-separated field. *)
Definition parsePart (min max : Z) (part : string) (bits : list bool) : result (list bool) :=
  if bool_decide (part = star) then Ok (replicate (length bits) true)
  else if HasPrefix part "*/" then
    match Atoi (drop_bytes 2 part) with
    | Error _ => Error (ErrText "invalid step")
    | Ok n =>
        if n <=? 0 then Error (ErrText "invalid step")
        else Ok (set_steps (Z.to_nat (max - min + 1)) 0 n (max - min) bits)
    end
  else if Contains part minus then
    match SplitN2 part minus with
    | [b0; b1] =>
        match Atoi b0, Atoi b1 with
        | Ok lo, Ok hi =>
            if (lo <? min) || (max <? hi) || (hi <? lo) then Error (ErrText "invalid range")
            else Ok (set_range (Z.to_nat (hi - lo + 1)) (lo - min) bits)
        | _, _ => Error (ErrText "invalid range")
        end
    | _ => Error (ErrText "invalid range")
    end
  else
    match Atoi part with
    | Error _ => Error (ErrText "invalid value")
    | Ok n =>
        if (n <? min) || (max <? n) then Error (ErrText "invalid value")
        else Ok (set_bit (n - min) bits)
    end.

Fixpoint parseParts (min max : Z) (parts : list string) (bits : list bool) : result (list bool) :=
  match parts with
  | [] => Ok bits
  | part :: parts' =>
      match parsePart min max (TrimSpace part) bits with
      | Error e => Error e
      | Ok bits' => parseParts min max parts' bits'
      end
  end.

Definition parseField (expr : string) (min max : Z) : result (list bool) :=
  parseParts min max (Split expr comma) (replicate (Z.to_nat (max - min + 1)) false).

Record cronSchedule := mkCron {
  minutes : list bool;
  hours : list bool;
  doms : list bool;
  months : list bool;
  dows : list bool
}.

Definition Parse (expr : string) : result cronSchedule :=
  match Fields expr with
  | [f0; f1; f2; f3; f4] =>
      match parseField f0 0 59 with
      | Error e => Error (Wrapf "minute: " e)
      | Ok mi =>
          match parseField f1 0 23 with
          | Error e => Error (Wrapf "hour: " e)
          | Ok ho =>
              match parseField f2 1 31 with
              | Error e => Error (Wrapf "day-of-month: " e)
              | Ok dm =>
                  match parseField f3 1 12 with
                  | Error e => Error (Wrapf "month: " e)
                  | Ok mo =>
                      match parseField f4 0 6 with
                      | Error e => Error (Wrapf "day-of-week: " e)
                      | Ok dw => Ok (mkCron mi ho dm mo dw)
                      end
                  end
              end
          end
      end
  | _ => Error (ErrText "expected 5 fields")
  end.

(** ** Next *)

(** Membership in a field's array. *)
Definition has (bits : list bool) (i : Z) : bool := nth (Z.to_nat i) bits false.

(** One round of the search: the next candidate, or the answer. *)
Definition next_step (c : cronSchedule) (limit t : Time) : Time + Time :=
  if negb (Before t limit) then inr 0
  else if negb (has (months c) (Month t - 1)) then inl (Date (Year t) (Month t + 1) 1 0 0)
  else if (31 <? Day t) || negb (has (doms c) (Day t - 1)) || negb (has (dows c) (Weekday t))
       then inl (Date (Year t) (Month t) (Day t + 1) 0 0)
  else if negb (has (hours c) (Hour_of t)) then inl (Date (Year t) (Month t) (Day t) (Hour_of t + 1) 0)
  else if negb (has (minutes c) (Minute_of t)) then inl (Add t Minute)
  else inr t.

(** The search moves forward by at least a minute each round, so the minutes
    in the search window bound the rounds. *)
Definition next_fuel : positive := 2102402.

Definition search_window : Dur := 4 * 365 * 24 * Hour.

Definition Next (c : cronSchedule) (from : Time) : Time :=
  let t := Truncate (Add from Minute) Minute in
  let limit := Add from search_window in
  match loop next_fuel (next_step c limit) t with
  | inr t' => t'
  | inl _ => 0
  end.

(** ** What a field selects *)

(** The values [min..max] the text of one part names. *)
Definition part_selects (min max : Z) (part : string) (v : Z) : Prop :=
  if bool_decide (part = star) then True
  else if HasPrefix part "*/" then exists n, Atoi (drop_bytes 2 part) = Ok n /\ (v - min) mod n = 0
  else if Contains part minus then
    exists b0 b1 lo hi, SplitN2 part minus = [b0; b1] /\ Atoi b0 = Ok lo /\ Atoi b1 = Ok hi /\ lo <= v <= hi
  else Atoi part = Ok v.

Lemma has_set_bit bits i j :
  0 <= i < Z.of_nat (length bits) -> 0 <= j ->
  has (set_bit i bits) j = (i =? j) || has bits j.
Proof.
  intros Hi Hj. unfold has, set_bit. rewrite !nth_lookup. destruct (i =? j) eqn:E; zbool.
  - subst j. by rewrite list_lookup_insert_eq by lia.
  - by rewrite list_lookup_insert_ne by lia.
Qed.

Lemma length_set_bit i bits : length (set_bit i bits) = length bits.
Proof. apply length_insert. Qed.

Lemma set_range_spec n i bits :
  0 <= i -> i + Z.of_nat n <= Z.of_nat (length bits) ->
  length (set_range n i bits) = length bits /\
  forall j, 0 <= j -> has (set_range n i bits) j = ((i <=? j) && (j <? i + Z.of_nat n)) || has bits j.
Proof.
  revert i bits. induction n as [|n IH]; intros i bits Hi Hn; cbn [set_range].
  - split; [done|]. intros j Hj. destruct (i <=? j) eqn:E1, (j <? i + Z.of_nat 0) eqn:E2; zbool; try done; lia.
  - destruct (IH (i + 1) (set_bit i bits)) as [Hl Hh]; [lia|rewrite length_set_bit; lia|].
    rewrite Hl, length_set_bit. split; [done|]. intros j Hj. rewrite Hh, has_set_bit by lia.
    destruct (i =? j) eqn:E0, (i + 1 <=? j) eqn:E1, (i <=? j) eqn:E2, (j <? i + 1 + Z.of_nat n) eqn:E3,
      (j <? i + Z.of_nat (S n)) eqn:E4; zbool; cbn; try done; lia.
Qed.

Lemma set_steps_spec fuel i step last bits :
  0 < step -> 0 <= i -> last < Z.of_nat (length bits) -> last - i < Z.of_nat fuel ->
  length (set_steps fuel i step last bits) = length bits /\
  forall j, 0 <= j ->
    has (set_steps fuel i step last bits) j =
    ((i <=? j) && (j <=? last) && ((j - i) mod step =? 0)) || has bits j.
Proof.
  intros Hs. revert i bits. induction fuel as [|fuel IH]; intros i bits Hi Hl Hf; cbn [set_steps].
  - split; [done|]. intros j Hj. destruct (i <=? j) eqn:E1, (j <=? last) eqn:E2; zbool; try done. lia.
  - destruct (last <? i) eqn:E; zbool.
    + split; [done|]. intros j Hj. destruct (i <=? j) eqn:E1, (j <=? last) eqn:E2; zbool; try done. lia.
    + destruct (IH (i + step) (set_bit i bits)) as [Hlen Hh]; [lia|rewrite length_set_bit; lia|lia|].
      rewrite Hlen, length_set_bit. split; [done|]. intros j Hj. rewrite Hh, has_set_bit by lia.
      assert (Hmod : (j - (i + step)) mod step = (j - i) mod step).
      { replace (j - (i + step)) with (j - i + (-1) * step) by lia. by rewrite Z.mod_add by lia. }
      rewrite Hmod. destruct (i =? j) eqn:E0; zbool.
      * subst j. rewrite Z.sub_diag, Z.mod_0_l by lia. rewrite (proj2 (Z.leb_le i i)), (proj2 (Z.leb_le i last)) by lia.
        cbn. by rewrite orb_true_r.
      * cbn. destruct (i <=? j) eqn:E1, (i + step <=? j) eqn:E2, (j <=? last) eqn:E3; zbool; try done; try lia.
        cbn. rewrite (Z.mod_small (j - i)) by lia. destruct (j - i =? 0) eqn:E4; zbool; [lia|done].
Qed.

Lemma has_replicate n b j : 0 <= j < Z.of_nat n -> has (replicate n b) j = b.
Proof. intros Hj. unfold has. rewrite nth_lookup, lookup_replicate_2; [done|lia]. Qed.

(** One part adds to the array exactly what it names. *)
Lemma parsePart_spec min max part bits bits' :
  min <= max -> Z.of_nat (length bits) = max - min + 1 ->
  parsePart min max part bits = Ok bits' ->
  length bits' = length bits /\
  forall v, min <= v <= max ->
    has bits' (v - min) = true <-> part_selects min max part v \/ has bits (v - min) = true.
Proof.
  intros Hmm Hlen. unfold parsePart, part_selects. destruct (bool_decide _); [|destruct (HasPrefix _ _);
    [|destruct (Contains _ _)]].
  - intros [= <-]. rewrite length_replicate. split; [done|]. intros v Hv.
    rewrite has_replicate by lia. split; [by left|done].
  - destruct (Atoi _) as [n|]; [|done]. destruct (n <=? 0) eqn:E; [done|]. zbool. intros [= <-].
    destruct (set_steps_spec (Z.to_nat (max - min + 1)) 0 n (max - min) bits) as [Hl Hh]; [lia..|].
    split; [done|]. intros v Hv. rewrite Hh, orb_true_iff by lia. rewrite Z.sub_0_r.
    rewrite (proj2 (Z.leb_le 0 (v - min))), (proj2 (Z.leb_le (v - min) (max - min))) by lia. cbn.
    rewrite Z.eqb_eq. naive_solver.
  - destruct (SplitN2 part minus) as [|b0 [|b1 [|]]]; try done.
    destruct (Atoi b0) as [lo|] eqn:E0; [|done]. destruct (Atoi b1) as [hi|] eqn:E1; [|done].
    destruct (_ || _) eqn:E; [done|]. zbool. intros [= <-].
    destruct (set_range_spec (Z.to_nat (hi - lo + 1)) (lo - min) bits) as [Hl Hh]; [lia..|].
    split; [done|]. intros v Hv. rewrite Hh, orb_true_iff, andb_true_iff by lia.
    rewrite Z.leb_le, Z.ltb_lt. split.
    + intros [?|?]; [left|by right]. exists b0, b1, lo, hi. repeat split; try done; lia.
    + intros [(c0 & c1 & lo' & hi' & Hs & Hlo & Hhi & Hv')|?]; [left|by right].
      injection Hs as <- <-. rewrite E0 in Hlo. rewrite E1 in Hhi. injection Hlo as ->. injection Hhi as ->. lia.
  - destruct (Atoi part) as [n|]; [|done]. destruct (_ || _) eqn:E; [done|]. zbool. intros [= <-].
    split; [apply length_set_bit|]. intros v Hv. rewrite has_set_bit, orb_true_iff, Z.eqb_eq by lia.
    split; (intros [Heq|?]; [left|by right]); [f_equal; lia|injection Heq as ->; lia].
Qed.

Lemma parseParts_spec min max parts bits bits' :
  min <= max -> Z.of_nat (length bits) = max - min + 1 ->
  parseParts min max parts bits = Ok bits' ->
  length bits' = length bits /\
  forall v, min <= v <= max ->
    has bits' (v - min) = true <->
    (exists part, part ∈ parts /\ part_selects min max (TrimSpace part) v) \/ has bits (v - min) = true.
Proof.
  intros Hmm. revert bits. induction parts as [|part parts IH]; intros bits Hlen; cbn [parseParts].
  - intros [= <-]. split; [done|]. intros v Hv. split; [by right|].
    intros [(? & Hin & _)|?]; [by apply not_elem_of_nil in Hin|done].
  - destruct (parsePart _ _ _ _) as [bits1|] eqn:E; [|done]. intros Hp.
    apply parsePart_spec in E as [Hl1 Hs1]; [|done..].
    apply IH in Hp as [Hl Hs]; [|lia]. split; [lia|]. intros v Hv. rewrite Hs, Hs1 by done.
    setoid_rewrite elem_of_cons. naive_solver.
Qed.

(** A cron field parses to exactly what it says: the array has one entry
    per value of the field's range, and a value is set when some part of the
    comma-separated text names it, as "*", a step, a range or a number. *)
Theorem parse_field_selects (expr : string) (min max : Z) (bits : list bool) :
  min <= max -> parseField expr min max = Ok bits ->
  Z.of_nat (length bits) = max - min + 1 /\
  forall v, min <= v <= max ->
    has bits (v - min) = true <->
    exists part, part ∈ Split expr comma /\ part_selects min max (TrimSpace part) v.
Proof.
  intros Hmm Hp. apply parseParts_spec in Hp as [Hl Hs];
    [|done|rewrite length_replicate; lia]. rewrite length_replicate in Hl. split; [lia|].
  intros v Hv. rewrite Hs by done. rewrite has_replicate by lia. naive_solver.
Qed.

Lemma parse_field_selects_witness :
  exists bits, parseField "0,15-17,*/20" 0 59 = Ok bits /\ has bits 16 = true /\ has bits 18 = false /\
    Z.of_nat (length bits) = 60.
Proof.
  destruct (parseField "0,15-17,*/20" 0 59) as [bits|] eqn:E; [|vm_compute in E; discriminate].
  exists bits. split; [reflexivity|].
  destruct (parse_field_selects "0,15-17,*/20" 0 59 bits ltac:(lia) E) as [Hl _].
  vm_compute in E. injection E as <-. split; [reflexivity|]. split; [reflexivity|]. exact Hl.
Defined.

(** ** Next finds the earliest match *)

(** An instant matches when it is a whole minute and every field is set. *)
Definition matches (c : cronSchedule) (t : Time) : Prop :=
  t mod Minute = 0 /\ has (months c) (Month t - 1) = true /\ has (doms c) (Day t - 1) = true /\
  has (dows c) (Weekday t) = true /\ has (hours c) (Hour_of t) = true /\ has (minutes c) (Minute_of t) = true.


(** What is known of a candidate: a whole minute after [from], and nothing
    before it matched. *)
Definition candidate (c : cronSchedule) (from t : Time) : Prop :=
  0 <= from < t /\ t mod Minute = 0 /\ forall u, from < u < t -> ~ matches c u.

Lemma candidate_move c from t t' :
  candidate c from t -> t' mod Minute = 0 -> t < t' -> (forall u, t <= u < t' -> ~ matches c u) ->
  candidate c from t' /\ t + Minute <= t'.
Proof.
  intros (Hf & Hm & Hno) Hm' Hlt Hskip. split; [|by apply whole_minutes].
  split; [lia|]. split; [done|]. intros u Hu. destruct (Z.lt_ge_cases u t); [apply Hno|apply Hskip]; lia.
Qed.

Lemma next_step_spec c from limit t :
  candidate c from t ->
  match next_step c limit t with
  | inl t' => t < limit /\ candidate c from t' /\ t + Minute <= t'
  | inr r => (r = 0 /\ limit <= t) \/ (r = t /\ t < limit /\ matches c t)
  end.
Proof.
  intros Hc. pose proof Hc as (Hf & Hm & _). assert (Ht : 0 <= t) by lia.
  unfold next_step, Before. destruct (t <? limit) eqn:El; zbool; cbn [negb]; [|by left].
  destruct (has (months c) _) eqn:Emo; cbn [negb].
  2:{ split; [done|]. apply (candidate_move c from t); auto using Date_whole_minute, next_month_after.
      intros u Hu (_ & Hmo & _). rewrite (same_month t u) in Hmo by done. congruence. }
  rewrite (proj2 (Z.ltb_ge 31 (Day t))) by (pose proof (Day_bounds t (day_of_nonneg t Ht)); lia).
  cbn [orb]. destruct (has (doms c) (Day t - 1) && has (dows c) (Weekday t)) eqn:Ed.
  2:{ replace (negb _ || negb _) with true
        by (destruct (has (doms c) (Day t - 1)), (has (dows c) (Weekday t)); done).
      split; [done|]. apply (candidate_move c from t); auto using Date_whole_minute, next_day_after.
      intros u Hu (_ & _ & Hd & Hw & _). destruct (same_day t u Hu) as [Hd' Hw']. rewrite Hd' in Hd.
      rewrite Hw' in Hw. rewrite Hd, Hw in Ed. done. }
  apply andb_true_iff in Ed as [Edm Edw]. rewrite Edm, Edw. cbn [negb orb].
  destruct (has (hours c) _) eqn:Eh; cbn [negb].
  2:{ split; [done|]. apply (candidate_move c from t); auto using Date_whole_minute, next_hour_after.
      intros u Hu (_ & _ & _ & _ & Hh & _). rewrite (same_hour t u) in Hh by done. congruence. }
  destruct (has (minutes c) _) eqn:Emi; cbn [negb]; [right; by repeat split|].
  split; [done|]. apply (candidate_move c from t); [done| |unfold Add, Minute, Second; lia|].
  - unfold Add. rewrite <- (Z.mul_1_l Minute) at 1. by rewrite Z.mod_add.
  - intros u Hu Hmt. pose proof Hmt as (Hum & _). assert (u = t) as ->; [|by destruct Hmt as (_ & _ & _ & _ & _ & ?); congruence].
    destruct (Z.eq_dec u t); [done|]. pose proof (whole_minutes t u Hm Hum). unfold Add in *. lia.
Qed.

Lemma candidate_start c from : 0 <= from -> candidate c from (Truncate (Add from Minute) Minute).
Proof.
  intros Hf. unfold Truncate, Add. pose proof (Z.mod_pos_bound (from + Minute) Minute ltac:(done)) as Hb.
  split; [lia|]. split; [by rewrite Zminus_mod_idemp_r, Z.sub_diag|].
  intros u Hu (Hum & _). pose proof (Z.div_mod u Minute). pose proof (Z.div_mod (from + Minute) Minute).
  unfold Minute, Second in *. lia.
Qed.

(** The search always ends within its fuel. *)
Lemma Next_ends c from :
  0 <= from ->
  exists r t, loop next_fuel (next_step c (Add from search_window)) (Truncate (Add from Minute) Minute) = inr r /\
    candidate c from t /\
    ((r = 0 /\ from + search_window <= t) \/ (r = t /\ t < from + search_window /\ matches c t)).
Proof.
  intros Hf. set (limit := Add from search_window).
  destruct (loop_variant (next_step c limit) (candidate c from)
    (fun t => Z.max 0 ((limit - t) / Minute + 1))
    (fun r => exists t, candidate c from t /\ ((r = 0 /\ limit <= t) \/ (r = t /\ t < limit /\ matches c t))))
    with (p := next_fuel) (a := Truncate (Add from Minute) Minute) as (r & Hr & t & Ht & HQ).
  - intros a Ha. pose proof (next_step_spec c from limit a Ha) as Hs.
    destruct (next_step c limit a) as [a1|r]; [|by exists a]. destruct Hs as (Hl & Hc & Hle). split; [done|].
    assert (Hd : (limit - a1) / Minute <= (limit - a) / Minute - 1).
    { replace ((limit - a) / Minute - 1) with ((limit - a + (-1) * Minute) / Minute)
        by (rewrite Z.div_add by done; lia). apply Z.div_le_mono; [done|lia]. }
    assert (0 <= (limit - a) / Minute) by (apply Z.div_pos; [lia|done]). lia.
  - by apply candidate_start.
  - destruct (candidate_start c from Hf) as ([_ Hlt] & _).
    assert ((limit - Truncate (Add from Minute) Minute) / Minute <= 2102400).
    { apply Z.div_le_upper_bound; [done|]. unfold limit, Add, search_window, Hour, Minute, Second in *. lia. }
    unfold next_fuel. lia.
  - exists r, t. done.
Qed.

Lemma next_is_first (c : cronSchedule) (from : Time) :
  0 <= from ->
  (Next c from = 0 /\ forall u, from < u < from + search_window -> ~ matches c u) \/
  (from < Next c from < from + search_window /\ matches c (Next c from) /\
   forall u, from < u < Next c from -> ~ matches c u).
Proof.
  intros Hf. destruct (Next_ends c from Hf) as (r & t & Hr & (Hc1 & Hc2 & Hno) & HQ).
  unfold Next. rewrite Hr. destruct HQ as [[-> Hle]|(-> & Hlt & Hm)]; [left|right].
  - split; [done|]. intros u Hu. apply Hno. lia.
  - split; [lia|]. split; [done|]. exact Hno.
Qed.

(** C27. Next terminates and returns the earliest match: the first whole
    minute strictly after the given instant whose month, day of month, day of
    week, hour and minute are all in the schedule, or the zero time when
    there is none in the four times 365 days after it. *)
Theorem next_is_earliest (c : cronSchedule) (from : Time) :
  0 <= from ->
  (Next c from = 0 /\ forall u, from < u < from + search_window -> ~ matches c u) \/
  (from < Next c from < from + search_window /\ matches c (Next c from) /\
   forall u, from < u < Next c from -> ~ matches c u).
Proof. apply next_is_first. Qed.

Definition cron_of (expr : string) : cronSchedule :=
  match Parse expr with Ok c => c | Error _ => mkCron [] [] [] [] [] end.

Lemma next_is_earliest_witness :
  Next (cron_of "30 9 * * 1-5") (Date 2024 3 1 9 30) = Date 2024 3 4 9 30 /\
  matches (cron_of "30 9 * * 1-5") (Date 2024 3 4 9 30).
Proof.
  assert (E : Next (cron_of "30 9 * * 1-5") (Date 2024 3 1 9 30) = Date 2024 3 4 9 30)
    by (vm_compute; reflexivity).
  split; [exact E|].
  destruct (next_is_earliest (cron_of "30 9 * * 1-5") (Date 2024 3 1 9 30)) as [[H _]|(_ & H & _)].
  - vm_compute. discriminate.
  - exfalso. rewrite E in H. vm_compute in H. discriminate.
  - rewrite <- E. exact H.
Defined.

(** A leap-day schedule dies after its first run: the search window is
    four times 365 days, one day short of four years, so from a February 29
    the search stops before the next one and reports no occurrence, although
    the instant four years later matches. *)
Theorem leap_day_schedule_dies :
  Next (cron_of "0 0 29 2 *") (Date 2027 3 1 0 0) = Date 2028 2 29 0 0 /\
  Next (cron_of "0 0 29 2 *") (Date 2028 2 29 0 0) = 0 /\
  matches (cron_of "0 0 29 2 *") (Date 2032 2 29 0 0).
Proof.
  split; [vm_compute; reflexivity|]. split; [vm_compute; reflexivity|].
  repeat split; vm_compute; reflexivity.
Qed.

(** ** nextAfter *)

(** One round of [for !next.IsZero() && !next.After(now)]. *)
Definition after_step (c : cronSchedule) (now : Time) (st : Time * Z) : (Time * Z) + (Time * Z) :=
  let '(next, skipped) := st in
  if negb (IsZero next) && negb (After next now) then inl (Next c next, skipped + 1)
  else inr (next, skipped).

(** Each round moves [next] forward by at least a minute. *)
Definition after_fuel (from now : Time) : positive := Z.to_pos ((now - from) / Minute + 3).

Definition nextAfter (c : cronSchedule) (from now : Time) : Time * Z :=
  match loop (after_fuel from now) (after_step c now) (Next c from, 0) with
  | inr r => r
  | inl r => r
  end.

(** Reached from [from] by matches, none of them skipped over. *)
Definition chained (c : cronSchedule) (from now : Time) (next : Time) : Prop :=
  exists p, from <= p /\ (p = from \/ (matches c p /\ p <= now)) /\
    ((next = 0 /\ forall u, p < u < p + search_window -> ~ matches c u) \/
     (p < next /\ matches c next /\ forall u, p < u < next -> ~ matches c u)).

Lemma chained_next c from now p :
  0 <= from <= p -> p = from \/ (matches c p /\ p <= now) -> chained c from now (Next c p).
Proof.
  intros Hp Hor. exists p. split; [lia|]. split; [done|].
  destruct (next_is_first c p) as [?|(? & ? & ?)]; [lia|by left|right]. split; [lia|done].
Qed.

Lemma next_after_first (c : cronSchedule) (from now : Time) :
  0 <= from ->
  let next := (nextAfter c from now).1 in
  chained c from now next /\
  (next <> 0 -> Z.max from now < next /\ matches c next /\
     forall u, Z.max from now < u < next -> ~ matches c u).
Proof.
  intros Hf next.
  destruct (loop_variant (after_step c now)
    (fun st => chained c from now st.1)
    (fun st => if st.1 =? 0 then 0 else Z.max 0 ((now - st.1) / Minute + 1))
    (fun st => chained c from now st.1 /\ (st.1 = 0 \/ now < st.1)))
    with (p := after_fuel from now) (a := (Next c from, 0)) as (r & Hr & Hch & Hend).
  - intros [n k] Hch. cbn [fst] in *. unfold after_step, IsZero, After.
    destruct (n =? 0) eqn:E0; cbn [negb andb fst]; zbool; [by auto|].
    destruct (now <? n) eqn:E1; cbn [negb fst]; zbool; [by auto|].
    destruct Hch as (p & Hp & Hor & [[? _]|(Hpn & Hmn & _)]); [done|].
    split; [apply chained_next; [lia|by right]|].
    assert (0 <= (now - n) / Minute) by (apply Z.div_pos; [lia|done]).
    destruct (next_is_first c n) as [[-> _]|(Hlt & Hm & _)]; [lia|cbn; lia|].
    destruct (Next c n =? 0); [lia|].
    assert (n + Minute <= Next c n) by (apply whole_minutes; [apply Hmn|apply Hm|lia]).
    assert ((now - Next c n) / Minute <= (now - n) / Minute - 1).
    { replace ((now - n) / Minute - 1) with ((now - n + (-1) * Minute) / Minute)
        by (rewrite Z.div_add by done; lia). apply Z.div_le_mono; [done|lia]. }
    lia.
  - cbn [fst]. apply chained_next; [lia|by left].
  - cbn [fst]. unfold after_fuel. destruct (Next c from =? 0) eqn:E0; [lia|]. zbool.
    destruct (next_is_first c from Hf) as [[? _]|(Hlt & _)]; [done|].
    assert ((now - Next c from) / Minute <= (now - from) / Minute) by (apply Z.div_le_mono; [done|lia]). lia.
  - assert (Hn : next = r.1) by (unfold next, nextAfter; by rewrite Hr). rewrite Hn. split; [done|].
    intros Hne. destruct Hend as [?|Hlt]; [done|].
    destruct Hch as (p & Hp & Hor & [[? _]|(Hpn & Hmn & Hno)]); [done|]. split; [lia|]. split; [done|].
    intros u Hu. apply Hno. destruct Hor as [->|[_ ?]]; lia.
Qed.

(** nextAfter terminates, and when it finds an occurrence it is the
    first one strictly after now: occurrences missed while the schedule was
    behind are stepped over, none is replayed and none after now is lost. *)
Theorem next_after_now (c : cronSchedule) (from now : Time) :
  0 <= from ->
  let next := (nextAfter c from now).1 in
  chained c from now next /\
  (next <> 0 -> Z.max from now < next /\ matches c next /\
     forall u, Z.max from now < u < next -> ~ matches c u).
Proof. apply next_after_first. Qed.

Lemma next_after_now_witness :
  (nextAfter (cron_of "0 * * * *") (Date 2024 1 1 0 0) (Date 2024 1 1 5 30)).1 = Date 2024 1 1 6 0 /\
  forall u, Date 2024 1 1 5 30 < u < Date 2024 1 1 6 0 -> ~ matches (cron_of "0 * * * *") u.
Proof.
  assert (E : (nextAfter (cron_of "0 * * * *") (Date 2024 1 1 0 0) (Date 2024 1 1 5 30)).1 = Date 2024 1 1 6 0)
    by (vm_compute; reflexivity).
  split; [exact E|].
  destruct (next_after_now (cron_of "0 * * * *") (Date 2024 1 1 0 0) (Date 2024 1 1 5 30)) as [_ H].
  - vm_compute. discriminate.
  - rewrite E in H. destruct H as (_ & _ & H); [vm_compute; discriminate|]. exact H.
Defined.
