(* ===== verification/ScheduleStore.v ===== *)
(** * internal/store/schedules.go: the schedules table

    CRUD, the due query, and the compare-and-set advance that settles the race
    between replicas. *)

From S2P Require Import Prelude Models JobStore JobFacts Service.

(** One row of the [schedules] table. *)
Record SchedRow := mkSchedRow {
  s_id : string;
  s_name : string;
  s_cron_expr : string;
  s_task_name : string;
  s_task_queue : string;
  s_task_payload : option string;
  s_task_max_retries : Z;
  s_task_timeout_ns : Z;
  s_task_metadata : option Jsonb;
  s_enabled : bool;
  s_next_run_at : Time;
  s_last_run_at : option Time;
  s_last_job_id : option string;
  s_created_at : Time;
  s_updated_at : Time;
  s_tenant_id : string;
  s_task_priority : Z
}.

#[global] Instance SchedRow_eq_dec : EqDecision SchedRow.
Proof. solve_decision. Defined.

Abbreviation Scheds := (gmap string SchedRow).

Definition scanSchedule (r : SchedRow) : Schedule :=
  mkSchedule (s_id r) (s_tenant_id r) (s_name r) (s_cron_expr r)
    (mkTask "" (s_task_name r) (s_task_payload r) 0 (s_task_max_retries r) (s_task_timeout_ns r) ""
       (s_task_queue r) (unmarshal_map (s_task_metadata r)) (s_task_priority r))
    (s_enabled r) (s_next_run_at r) (s_last_run_at r) (stringOrEmpty (s_last_job_id r))
    (s_created_at r) (s_updated_at r).

Definition isUniqueViolation (e : error) : bool :=
  match errors_As_pg e with Some (code, _) => bool_decide (code = "23505") | None => false end.

Definition newID (rnd : option (list Z)) : result string :=
  match rand_Read 16 rnd with
  | Error e => Error e
  | Ok b => Ok (uuid_v4 b)
  end.

(** The columns CreateSchedule writes; the rest take their defaults. *)
Definition sched_row (s : Schedule) : SchedRow :=
  let task := Schedule_Task s in
  mkSchedRow (Schedule_ID s) (Schedule_Name s) (Schedule_Cron s) (Task_Name task) (Task_Queue task)
    (Task_Payload task) (Task_MaxRetries task) (Task_Timeout task)
    (Some (marshal_map (Task_Metadata task))) (Schedule_Enabled s) (pg_ts (Schedule_NextRunAt s))
    None None (pg_ts (Schedule_CreatedAt s)) (pg_ts (Schedule_UpdatedAt s)) (Schedule_TenantID s)
    (Task_Priority task).

(** [schedules_tenant_name_idx]. *)
Definition same_name (r r' : SchedRow) : Prop :=
  s_tenant_id r' = s_tenant_id r /\ s_name r' = s_name r.

#[global] Instance same_name_dec r r' : Decision (same_name r r').
Proof. unfold same_name. apply _. Defined.

Definition insert_sched (r : SchedRow) (t : Scheds) : result unit * Scheds :=
  if negb (int4_ok (s_task_max_retries r) && int4_ok (s_task_priority r))
  then (Error (PgError "22003" ""), t)
  else match t !! s_id r with
  | Some _ => (Error (PgError "23505" "schedules_pkey"), t)
  | None =>
      if bool_decide (map_Exists (fun _ r' => same_name r r') t)
      then (Error (PgError "23505" "schedules_tenant_name_idx"), t)
      else (Ok tt, <[s_id r := r]> t)
  end.

(** The defaults CreateSchedule fills in. *)
Definition stamp_sched (now : Time) (id : string) (s : Schedule) : Schedule :=
  let task := Schedule_Task s in
  mkSchedule id
    (if bool_decide (Schedule_TenantID s = "") then DefaultTenant else Schedule_TenantID s)
    (Schedule_Name s) (Schedule_Cron s)
    (mkTask (Task_ID task) (Task_Name task) (Task_Payload task) (Task_RetryCount task)
       (Task_MaxRetries task) (Task_Timeout task) (Task_CronExpression task)
       (if bool_decide (Task_Queue task = "") then DefaultQueue else Task_Queue task)
       (Task_Metadata task) (Task_Priority task))
    (Schedule_Enabled s) (Schedule_NextRunAt s) (Schedule_LastRunAt s) (Schedule_LastJobID s)
    (if IsZero (Schedule_CreatedAt s) then now else Schedule_CreatedAt s) now.

Definition CreateSchedule (env : Env Scheds) (s : Schedule) (t : Scheds) : result Schedule * Scheds :=
  match (if bool_decide (Schedule_ID s = "") then newID (rand env) else Ok (Schedule_ID s)) with
  | Error e => (Error (Wrapf "store: generate schedule id: " e), t)
  | Ok id =>
      let s := stamp_sched (gonow env) id s in
      match run_stmt env (insert_sched (sched_row s)) t with
      | (Error e, t1) => (Error (if isUniqueViolation e then Sentinel ErrDuplicateSchedule else e), t1)
      | (Ok _, t1) => (Ok s, t1)
      end
  end.

(** [ORDER BY name ASC] follows the database's collation, a parameter. *)
Definition by_name (name_le : relation string) (r1 r2 : SchedRow) : Prop := name_le (s_name r1) (s_name r2).

#[global] Instance by_name_dec name_le `{!RelDecision name_le} : RelDecision (by_name name_le).
Proof. intros r1 r2. unfold by_name. apply _. Defined.

Definition ListSchedules (name_le : relation string) `{!RelDecision name_le} (env : Env Scheds)
    (tenant : string) (t : Scheds) : result (list Schedule) * Scheds :=
  run_stmt env (fun t =>
    (Ok (scanSchedule <$> merge_sort (by_name name_le)
       (List.filter (fun r => bool_decide (s_tenant_id r = tenant)) (all_rows (scan env) t))), t)) t.

Definition DeleteSchedule (env : Env Scheds) (tenant key : string) (t : Scheds) : result unit * Scheds :=
  let stmt t :=
    match t !! key with
    | Some r => if bool_decide (s_tenant_id r = tenant) then (Ok 1, delete key t) else (Ok 0, t)
    | None => (Ok 0, t)
    end in
  match run_stmt env stmt t with
  | (Error e, t1) => (Error e, t1)
  | (Ok n, t1) => (if n =? 0 then Error ErrScheduleNotFound else Ok tt, t1)
  end.

Definition due (now : Time) (r : SchedRow) : bool := s_enabled r && (s_next_run_at r <=? now).

Definition next_run_le (r1 r2 : SchedRow) : Prop := s_next_run_at r1 <= s_next_run_at r2.
#[global] Instance next_run_le_dec : RelDecision next_run_le.
Proof. intros r1 r2. unfold next_run_le. apply _. Defined.

Definition DueSchedules (env : Env Scheds) (now : Time) (limit : Z) (t : Scheds)
    : result (list Schedule) * Scheds :=
  if limit <=? 0 then (Ok [], t)
  else run_stmt env (fun t =>
    (Ok (scanSchedule <$> take (Z.to_nat limit)
       (merge_sort next_run_le (List.filter (due (pg_ts now)) (all_rows (scan env) t)))), t)) t.

Definition advance_row (next now : Time) (lastJob : option string) (r : SchedRow) : SchedRow :=
  mkSchedRow (s_id r) (s_name r) (s_cron_expr r) (s_task_name r) (s_task_queue r) (s_task_payload r)
    (s_task_max_retries r) (s_task_timeout_ns r) (s_task_metadata r) (s_enabled r)
    next (Some now) lastJob (s_created_at r) now (s_tenant_id r) (s_task_priority r).

Definition AdvanceSchedule (env : Env Scheds) (key : string) (observedNext next : Time)
    (lastJobID : string) (t : Scheds) : result bool * Scheds :=
  let stmt t :=
    match t !! key with
    | Some r =>
        if bool_decide (s_next_run_at r = pg_ts observedNext)
        then (Ok 1, <[key := advance_row (pg_ts next) (NOW env) (nullableString lastJobID) r]> t)
        else (Ok 0, t)
    | None => (Ok 0, t)
    end in
  match run_stmt env stmt t with
  | (Error e, t1) => (Error e, t1)
  | (Ok n, t1) => (Ok (n =? 1), t1)
  end.

(** ** The system of schedule calls *)

Inductive SOp :=
  | SCreate (env : Env Scheds) (s : Schedule)
  | SDelete (env : Env Scheds) (tenant key : string)
  | SDue (env : Env Scheds) (now : Time) (limit : Z)
  | SAdvance (env : Env Scheds) (key : string) (observed next : Time) (job : string).

Definition sexec (op : SOp) (t : Scheds) : Scheds :=
  match op with
  | SCreate env s => (CreateSchedule env s t).2
  | SDelete env tenant key => (DeleteSchedule env tenant key t).2
  | SDue env now limit => (DueSchedules env now limit t).2
  | SAdvance env key observed next job => (AdvanceSchedule env key observed next job t).2
  end.

Definition sop_env (op : SOp) : Env Scheds :=
  match op with SCreate e _ | SDelete e _ _ | SDue e _ _ | SAdvance e _ _ _ _ => e end.

(** What the scheduler guarantees: it only ever moves a schedule forward; and
    ids are not reused. *)
Definition forward (key : string) (op : SOp) : Prop :=
  match op with
  | SAdvance _ _ observed next _ => pg_ts observed < pg_ts next
  | SCreate env s =>
      (if bool_decide (Schedule_ID s = "") then newID (rand env) else Ok (Schedule_ID s)) <> Ok key
  | _ => True
  end.

Definition past (key : string) (observed : Time) (t : Scheds) : Prop :=
  forall r, t !! key = Some r -> pg_ts observed < s_next_run_at r.

Lemma run_stmt_case {S A} (P : S -> Prop) (env : Env S) (stmt : S -> result A * S) s :
  P (intf env s) -> P (stmt (intf env s)).2 -> P (run_stmt env stmt s).2.
Proof. intros H1 H2. unfold run_stmt. by destruct (fault env). Qed.

Lemma insert_sched_lookup r t k r' :
  (insert_sched r t).2 !! k = Some r' -> t !! k = Some r' \/ k = s_id r.
Proof.
  unfold insert_sched. repeat case_goal; try (by left). cbn. rewrite lookup_insert_Some.
  intros [[<- _]|[_ ?]]; auto.
Qed.

Lemma sexec_past key observed op t :
  forward key op -> (forall t, past key observed t -> past key observed (intf (sop_env op) t)) ->
  past key observed t -> past key observed (sexec op t).
Proof.
  intros Hfw Hk Ht. pose proof (Hk t Ht) as Ht1. destruct op as [env s|env tn k|env now n|env k ob nx j];
    cbn [sexec forward sop_env] in *.
  - unfold CreateSchedule. destruct (if bool_decide _ then _ else _) as [i|]; [|done].
    match goal with |- context [run_stmt env ?st t] =>
      assert (HP : past key observed (run_stmt env st t).2);
        [|by destruct (run_stmt env st t) as [[?|?] ?]] end.
    apply run_stmt_case; [done|]. intros r [Hr|Heq]%insert_sched_lookup; [by apply Ht1|]. cbn in Heq. congruence.
  - unfold DeleteSchedule.
    match goal with |- context [run_stmt env ?st t] =>
      assert (HP : past key observed (run_stmt env st t).2);
        [|by destruct (run_stmt env st t) as [[?|?] ?]] end.
    apply run_stmt_case; [done|]. repeat case_goal; try done. cbn.
    intros r0. rewrite lookup_delete_Some. intros [_ Hr]. by apply Ht1.
  - unfold DueSchedules. destruct (_ <=? _); [done|]. by apply run_stmt_case.
  - unfold AdvanceSchedule.
    match goal with |- context [run_stmt env ?st t] =>
      assert (HP : past key observed (run_stmt env st t).2);
        [|by destruct (run_stmt env st t) as [[?|?] ?]] end.
    apply run_stmt_case; [done|]. destruct (intf env t !! k) as [r|] eqn:E; [|done].
    case_bool_decide as Heq; [|done]. cbn. intros r0. rewrite lookup_insert_Some.
    intros [[<- <-]|[_ Hr]]; [|by apply Ht1]. cbn. specialize (Ht1 r E). lia.
Qed.

Fixpoint srun (ops : list SOp) (t : Scheds) : Scheds :=
  match ops with [] => t | op :: ops' => srun ops' (sexec op t) end.

(** Each instant of a schedule is won once.  Of all the replicas that saw
    a schedule due, the one whose advance succeeds is the only one: whatever
    the others do afterwards, in any order, an advance from the same observed
    instant reports that it lost and changes nothing. *)
Theorem advance_won_once (env env' : Env Scheds) (key job job' : string) (observed next next' : Time)
    (ops : list SOp) (t t1 : Scheds) :
  AdvanceSchedule env key observed next job t = (Ok true, t1) ->
  pg_ts observed < pg_ts next -> Forall (forward key) ops ->
  Forall (fun op => forall t, past key observed t -> past key observed (intf (sop_env op) t)) ops ->
  (forall t, past key observed t -> past key observed (intf env' t)) -> fault env' = NoFault ->
  AdvanceSchedule env' key observed next' job' (srun ops t1) = (Ok false, intf env' (srun ops t1)).
Proof.
  intros Hwin Hlt Hfw Henv Hk' Hf'.
  assert (H1 : past key observed t1).
  { revert Hwin. unfold AdvanceSchedule, run_stmt. destruct (fault env); [|done|done].
    destruct (intf env t !! key) as [r|] eqn:E; [|done]. case_bool_decide; [|done].
    intros [= <-] r0. rewrite lookup_insert_eq. by intros [= <-]. }
  assert (H2 : past key observed (srun ops t1)).
  { clear Hwin. revert t1 H1. induction Hfw as [|op ops Hop Hfw IH]; intros t1 H1; [done|].
    apply Forall_cons in Henv as [He Henv]. cbn. apply IH; [done|]. by apply sexec_past. }
  apply Hk' in H2. unfold AdvanceSchedule, run_stmt. rewrite Hf'.
  destruct (intf env' (srun ops t1) !! key) as [r|] eqn:E; [|done].
  specialize (H2 r E). rewrite bool_decide_false by lia. done.
Qed.

(** ** Witness *)

Definition demo_sched : Schedule :=
  mkSchedule "s1" "acme" "nightly" "0 0 * * *" zeroTask true (ofUnix 1700000000) None "" 0 0.

Definition calm_s (now : Time) : Env Scheds := calm now [] [1].

Definition demo_scheds : Scheds := (CreateSchedule (calm_s (ofUnix 1690000000)) demo_sched ∅).2.

Lemma advance_won_once_witness :
  let t1 := (AdvanceSchedule (calm_s (ofUnix 1700000005)) "s1" (ofUnix 1700000000) (ofUnix 1700086400) "j" demo_scheds).2 in
  (AdvanceSchedule (calm_s (ofUnix 1700000006)) "s1" (ofUnix 1700000000) (ofUnix 1700086400) "j" t1).1 = Ok false.
Proof.
  cbn zeta.
  destruct (AdvanceSchedule (calm_s (ofUnix 1700000005)) "s1" (ofUnix 1700000000) (ofUnix 1700086400) "j" demo_scheds)
    as [r t1] eqn:E. cbn [snd].
  assert (Hr : r = Ok true) by (vm_compute in E; injection E as <- _; reflexivity). rewrite Hr in E.
  change t1 with (srun [] t1).
  rewrite (advance_won_once (calm_s (ofUnix 1700000005)) (calm_s (ofUnix 1700000006)) "s1" "j" "j"
    (ofUnix 1700000000) (ofUnix 1700086400) (ofUnix 1700086400) [] demo_scheds t1 E).
  - reflexivity.
  - vm_compute. reflexivity.
  - constructor.
  - constructor.
  - intros t Ht. exact Ht.
  - reflexivity.
Defined.

(** ** Due schedules and names *)

#[global] Instance next_run_le_total : Total next_run_le.
Proof. intros r1 r2. unfold next_run_le. lia. Qed.
#[global] Instance next_run_le_trans : Transitive next_run_le.
Proof. intros r1 r2 r3. unfold next_run_le. lia. Qed.
