(* ===== verification/Scheduler.v ===== *)
(** * The firing loop of internal/scheduler/scheduler.go

    A tick reads the due schedules and fires each: enqueue a job under a key
    made of the schedule and the instant, then advance the schedule if its
    instant is still the one read.  The scheduler is written against two
    interfaces, [Enqueuer] and [ScheduleStore]; its theorems are about any
    number of replicas firing the same instant. *)

From S2P Require Import Prelude Models JobStore JobFacts JobSystem JobSpec JobProps Retry Service Calendar GoStrings Cron ScheduleStore.

(** ** Interfaces *)

Class Enqueuer (J EE : Type) := enq_Enqueue : EE -> Job -> J -> result string * J.

Class ScheduleStore (T : Type) := {
  ss_DueSchedules : Env T -> Time -> Z -> T -> result (list Schedule) * T;
  ss_AdvanceSchedule : Env T -> string -> Time -> Time -> string -> T -> result bool * T
}.

#[global] Instance PostgresScheduleStore : ScheduleStore Scheds := {
  ss_DueSchedules := DueSchedules;
  ss_AdvanceSchedule := AdvanceSchedule
}.

(** [*service.JobService]; what it publishes is a nudge for the workers and
    not part of the result. *)
Definition ServiceEnqueuer (svc : JobService) : Enqueuer Jobs (EnqueueEnv Jobs) :=
  fun ee job s => let '(r, _, s') := Enqueue svc ee job s in (r, s').

(** ** The scheduler *)

Definition IdempotencyPrefix : string := "sched:".

Record Config := mkConfig { TickInterval : Dur; FireBudget : Z }.

Record Scheduler := mkScheduler { sch_cfg : Config; sch_ports : bool (* neither port is nil *) }.

Definition New (cfg : Config) (ports : bool) : Scheduler :=
  mkScheduler (mkConfig (if TickInterval cfg <=? 0 then 30 * Second else TickInterval cfg)
                        (if FireBudget cfg <=? 0 then 5 else FireBudget cfg)) ports.

Definition colon : ascii := ascii_of_N 58.

(** [fmt.Sprintf("%s%s:%d", IdempotencyPrefix, sched.ID, fireAt.Unix())]. *)
Definition fire_key (id : string) (fireAt : Time) : string :=
  IdempotencyPrefix +:+ (id +:+ String colon (Itoa (Unix fireAt))).

Definition fire_job (sched : Schedule) : Job :=
  let fireAt := Schedule_NextRunAt sched in
  mkJob "" (Schedule_TenantID sched) (fire_key (Schedule_ID sched) fireAt) (Schedule_Task sched)
    JobStateUnset 0 (Some fireAt) None None "" None ""
    (Some (<["conduit.schedule_id" := Schedule_ID sched]> (<["conduit.schedule" := Schedule_Name sched]> ∅)))
    0 0.

(** How one firing ended, as its log line tells. *)
Inductive fire_outcome :=
  | BadCron (e : error)
  | NoNext
  | EnqueueFailed (e : error)
  | AdvanceFailed (e : error)
  | LostAdvance
  | Fired (jobID : string) (next : Time) (skipped : Z).

Record FireEnv (T EE : Type) := mkFireEnv { fe_enqueue : EE; fe_advance : Env T }.
Arguments mkFireEnv {T EE}.
Arguments fe_enqueue {T EE}.
Arguments fe_advance {T EE}.

Definition fire {J EE T} `{Enqueuer J EE} `{ScheduleStore T} (fe : FireEnv T EE) (sched : Schedule)
    (now : Time) (w : J * T) : fire_outcome * (J * T) :=
  match Parse (Schedule_Cron sched) with
  | Error e => (BadCron e, w)
  | Ok cron =>
      let fireAt := Schedule_NextRunAt sched in
      let '(next, skipped) := nextAfter cron fireAt now in
      if IsZero next then (NoNext, w)
      else
        match enq_Enqueue (fe_enqueue fe) (fire_job sched) w.1 with
        | (Error e, j1) => (EnqueueFailed e, (j1, w.2))
        | (Ok jobID, j1) =>
            match ss_AdvanceSchedule (fe_advance fe) (Schedule_ID sched) (Schedule_NextRunAt sched) next jobID w.2 with
            | (Error e, t1) => (AdvanceFailed e, (j1, t1))
            | (Ok advanced, t1) =>
                ((if advanced : bool then Fired jobID next skipped else LostAdvance), (j1, t1))
            end
        end
  end.

(** The environment of a tick: the due query, then for the [i]th schedule
    whether the context is cancelled before it, and its round trips. *)
Record TickEnv (T EE : Type) := mkTickEnv { te_due : Env T; te_fires : nat -> bool * FireEnv T EE }.
Arguments mkTickEnv {T EE}.
Arguments te_due {T EE}.
Arguments te_fires {T EE}.

Fixpoint fire_all {J EE T} `{Enqueuer J EE} `{ScheduleStore T} (fires : nat -> bool * FireEnv T EE)
    (i : nat) (due : list Schedule) (now : Time) (w : J * T) {struct due} : list fire_outcome * (J * T) :=
  match due with
  | [] => ([], w)
  | sched :: due' =>
      if (fires i).1 then ([], w)
      else
        let '(o, w1) := fire (fires i).2 sched now w in
        let '(os, w2) := fire_all fires (S i) due' now w1 in (o :: os, w2)
  end.

Definition dispatch {J EE T} `{Enqueuer J EE} `{ScheduleStore T} (s : Scheduler) (te : TickEnv T EE)
    (now : Time) (w : J * T) : list fire_outcome * (J * T) :=
  if negb (sch_ports s) then ([], w)
  else match ss_DueSchedules (te_due te) now (FireBudget (sch_cfg s)) w.2 with
  | (Error _, t1) => ([], (w.1, t1))
  | (Ok due, t1) => fire_all (te_fires te) 0 due now (w.1, t1)
  end.

(** ** Keys *)

(** The last separator splits a string in one way. *)
Lemma last_sep_inj c (a a' b b' : string) :
  Contains b c = false -> Contains b' c = false ->
  a +:+ String c b = a' +:+ String c b' -> a = a' /\ b = b'.
Proof.
  intros Hb Hb'. revert a'. induction a as [|x a IH]; intros [|x' a'] Heq.
  - by injection Heq as ->.
  - rewrite append_cons in Heq. injection Heq as <- Heq.
    exfalso. rewrite Heq, Contains_app in Hb. cbn [Contains] in Hb.
    rewrite Ascii.eqb_refl, orb_true_r in Hb. done.
  - rewrite append_cons in Heq. injection Heq as -> Heq.
    exfalso. rewrite <- Heq, Contains_app in Hb'. cbn [Contains] in Hb'.
    rewrite Ascii.eqb_refl, orb_true_r in Hb'. done.
  - rewrite !append_cons in Heq. injection Heq as -> Heq. apply IH in Heq as [-> ->]. done.
Qed.

Lemma app_inj_l (p s1 s2 : string) : p +:+ s1 = p +:+ s2 -> s1 = s2.
Proof. induction p as [|c p IH]; [done|]. rewrite !append_cons. intros [= Heq]. by apply IH. Qed.

Lemma Itoa_no_colon n : Contains (Itoa n) colon = false.
Proof. apply Itoa_no_sep; [by right|done]. Qed.

(** The key of a scheduled run names its schedule and its instant and
    nothing else: two runs share a key only if they are the same second of
    the same schedule. *)
Theorem fire_key_injective (id id' : string) (at_ at' : Time) :
  int64_min <= Unix at_ <= int64_max -> int64_min <= Unix at' <= int64_max ->
  fire_key id at_ = fire_key id' at' -> id = id' /\ Unix at_ = Unix at'.
Proof.
  intros H1 H2 Heq. unfold fire_key in Heq. apply app_inj_l in Heq.
  apply last_sep_inj in Heq as [-> Hn]; [|apply Itoa_no_colon..]. split; [done|].
  apply (f_equal ParseInt) in Hn. rewrite !ParseInt_Itoa in Hn by done. by injection Hn.
Qed.

Lemma fire_key_injective_witness : "s1" = "s1" /\ Unix demo_now = Unix demo_now.
Proof.
  apply (fire_key_injective "s1" "s1" demo_now demo_now); [vm_compute; split; discriminate..|reflexivity].
Defined.

(** ** Firing *)

Section Fire.
Variable svc : JobService.

#[local] Instance enqueuer : Enqueuer Jobs (EnqueueEnv Jobs) := ServiceEnqueuer svc.

Lemma fire_job_submission sched : submission (fire_job sched).
Proof. by repeat split; auto. Qed.

Lemma fire_key_nonempty id at_ : fire_key id at_ <> "".
Proof. done. Qed.

(** The schedule of the fired instant, moved on. *)
Lemma advance_true env key observed next job t t' :
  AdvanceSchedule env key observed next job t = (Ok true, t') ->
  exists r, intf env t !! key = Some r /\ s_next_run_at r = pg_ts observed /\
    t' = <[key := advance_row (pg_ts next) (NOW env) (nullableString job) r]> (intf env t).
Proof.
  unfold AdvanceSchedule, run_stmt. destruct (fault env); [|done|done].
  destruct (intf env t !! key) as [r|] eqn:E; [|done]. case_bool_decide; [|done].
  intros [= <-]. by exists r.
Qed.

Lemma fire_Fired fe sched now w id next k w' :
  0 <= Schedule_NextRunAt sched ->
  fire fe sched now w = (Fired id next k, w') ->
  Z.max (Schedule_NextRunAt sched) now < next /\ next mod Minute = 0 /\
  enq_Enqueue (fe_enqueue fe) (fire_job sched) w.1 = (Ok id, w'.1) /\
  AdvanceSchedule (fe_advance fe) (Schedule_ID sched) (Schedule_NextRunAt sched) next id w.2 = (Ok true, w'.2).
Proof.
  intros H0. unfold fire. destruct (Parse _) as [c|]; [|done].
  destruct (next_after_first c (Schedule_NextRunAt sched) now H0) as [_ Hn].
  destruct (nextAfter _ _ _) as [next0 k0]. cbn [fst] in Hn. destruct (IsZero next0) eqn:Ez; [done|].
  unfold IsZero in Ez. zbool. destruct (Hn Ez) as (Hlt & (Hmin & _) & _).
  destruct (enq_Enqueue _ _ _) as [[id0|e] j1]; [|done]. cbn [ss_AdvanceSchedule PostgresScheduleStore].
  destruct (AdvanceSchedule _ _ _ _ _ _) as [[[]|e] t1] eqn:E; try done.
  intros [= <- <- <- <-]. done.
Qed.

Lemma fire_holds fe sched now w w' id next k :
  0 <= Schedule_NextRunAt sched -> enqueue_keeps (fe_enqueue fe) -> table_ok w.1 ->
  fire fe sched now w = (Fired id next k, w') ->
  table_ok w'.1 /\
  row_holds (Job_TenantID (set_tenant (fire_job sched)))
    (fire_key (Schedule_ID sched) (Schedule_NextRunAt sched)) id w'.1.
Proof.
  intros H0 (Hk1 & Hk2 & Hk3) Hok Hf. apply fire_Fired in Hf as (_ & _ & He & _); [|done].
  unfold enq_Enqueue, enqueuer, ServiceEnqueuer in He.
  destruct (Enqueue svc (fe_enqueue fe) (fire_job sched) w.1) as [[r0 pub] j1] eqn:E. injection He as -> ->.
  split.
  - pose proof (enqueue_ok (H0 := PostgresLaws) svc (fe_enqueue fe) (fire_job sched) w.1 (fire_job_submission sched) Hk1 Hk2 Hk3 Hok) as H.
    by rewrite E in H.
  - apply (enqueue_holds (H0 := PostgresLaws) svc (fe_enqueue fe) (fire_job sched) w.1 w'.1 id pub);
      auto using fire_job_submission.
Qed.

(** C17. A schedule that fires leaves a job and moves on: when a firing
    succeeds, the job it reports holds the key of that instant in the
    schedule's tenant, the schedule records that job, and its next instant is
    a whole minute strictly after now. *)
Theorem fire_leaves_job_and_advances (fe : FireEnv Scheds (EnqueueEnv Jobs)) (sched : Schedule) (now : Time)
    (w w' : Jobs * Scheds) (id : string) (next : Time) (k : Z) :
  0 <= Schedule_NextRunAt sched -> enqueue_keeps (fe_enqueue fe) -> table_ok w.1 ->
  fire fe sched now w = (Fired id next k, w') ->
  table_ok w'.1 /\
  row_holds (Job_TenantID (set_tenant (fire_job sched)))
    (fire_key (Schedule_ID sched) (Schedule_NextRunAt sched)) id w'.1 /\
  now < next /\ next mod Minute = 0 /\
  exists r, w'.2 !! Schedule_ID sched = Some r /\ s_next_run_at r = pg_ts next /\
    s_last_job_id r = nullableString id.
Proof.
  intros H0 Hk Hok Hf. destruct (fire_holds fe sched now w w' id next k H0 Hk Hok Hf) as [Hok' Hh].
  apply fire_Fired in Hf as (Hlt & Hmin & _ & Ha); [|done].
  split; [done|]. split; [done|]. split; [lia|]. split; [done|].
  apply advance_true in Ha as (r & _ & _ & ->). eexists. rewrite lookup_insert_eq. done.
Qed.

Lemma pg_ts_minute t : t mod Minute = 0 -> pg_ts t = t.
Proof.
  intros Hm. unfold pg_ts, Minute, Second, Microsecond in *. pose proof (Z.div_mod t (60 * 1000000000)).
  replace (t mod 1000) with 0; [lia|]. symmetry. apply Z.mod_divide; [lia|].
  exists (60000000 * (t / (60 * 1000000000))). lia.
Qed.

(** C16. One run per instant, however many replicas.  When one replica has
    fired an instant of a schedule, any replica that read the same due
    schedule and fires it afterwards, at whatever time, creates no second job
    and changes neither table: it finds the run already enqueued and loses
    the advance. *)
Theorem second_replica_is_noop (fe fe' : FireEnv Scheds (EnqueueEnv Jobs)) (sched : Schedule)
    (now now' : Time) (w w' : Jobs * Scheds) (id : string) (next : Time) (k : Z) :
  0 <= Schedule_NextRunAt sched -> enqueue_keeps (fe_enqueue fe) -> table_ok w.1 ->
  fire fe sched now w = (Fired id next k, w') ->
  quiet (ee_lookup (fe_enqueue fe')) -> quiet (fe_advance fe') ->
  (fire fe' sched now' w' = (LostAdvance, w') \/ fire fe' sched now' w' = (NoNext, w')).
Proof.
  intros H0 Hk Hok Hf [Hq Hqf] [Hqa Hqaf].
  destruct (fire_holds fe sched now w w' id next k H0 Hk Hok Hf) as [Hok' Hh].
  apply fire_Fired in Hf as Hf'; [|done]. destruct Hf' as (Hlt & Hmin & _ & Ha).
  apply advance_true in Ha as (r & _ & _ & Hw2).
  unfold fire in Hf |- *. destruct (Parse _) as [c|]; [|done].
  destruct (nextAfter c (Schedule_NextRunAt sched) now') as [next' k'].
  destruct (IsZero next'); [by right|left].
  assert (He : enq_Enqueue (fe_enqueue fe') (fire_job sched) w'.1 = (Ok id, w'.1)).
  { unfold enq_Enqueue, enqueuer, ServiceEnqueuer.
    rewrite (enqueue_hit (H0 := PostgresLaws) svc (fe_enqueue fe') (fire_job sched) w'.1 id); rewrite ?Hq; done. }
  rewrite He. cbn [ss_AdvanceSchedule PostgresScheduleStore].
  assert (Hl : w'.2 !! Schedule_ID sched =
    Some (advance_row (pg_ts next) (NOW (fe_advance fe)) (nullableString id) r))
    by (rewrite Hw2; apply lookup_insert_eq).
  unfold AdvanceSchedule, run_stmt. rewrite Hqaf, Hqa, Hl. cbn [s_next_run_at advance_row].
  rewrite (pg_ts_minute next Hmin). pose proof (pg_ts_bounds (Schedule_NextRunAt sched)).
  rewrite bool_decide_false by lia. by destruct w'.
Qed.
End Fire.

(** ** Witnesses *)

Definition demo_world : Jobs * Scheds := (∅, demo_scheds).
Definition demo_fire (b : Z) : FireEnv Scheds (EnqueueEnv Jobs) :=
  mkFireEnv (demo_enqueue b) (calm_s (ofUnix 1700000030)).
Definition demo_read : Schedule := scanSchedule (default (sched_row demo_sched) (demo_scheds !! "s1")).

#[local] Instance demo_enqueuer : Enqueuer Jobs (EnqueueEnv Jobs) := ServiceEnqueuer demo_service.

Lemma demo_enqueue_keeps b : enqueue_keeps (demo_enqueue b).
Proof. split; [apply keeps_calm|split; apply keeps_calm]. Qed.

Definition demo_run_id : string := uuid_v4 (1 :: replicate 15 0).
Definition demo_fired : Jobs * Scheds := (fire (demo_fire 1) demo_read (ofUnix 1700000030) demo_world).2.

Lemma demo_fire_fired :
  fire (demo_fire 1) demo_read (ofUnix 1700000030) demo_world
    = (Fired demo_run_id (ofUnix 1700006400) 0, demo_fired).
Proof.
  rewrite (surjective_pairing (fire _ _ _ _)). unfold demo_fired. by f_equal.
Qed.

Lemma fire_leaves_job_and_advances_witness :
  row_holds "acme" (fire_key "s1" (ofUnix 1700000000)) demo_run_id demo_fired.1.
Proof.
  destruct (fire_leaves_job_and_advances demo_service (demo_fire 1) demo_read (ofUnix 1700000030) demo_world
    demo_fired demo_run_id (ofUnix 1700006400) 0) as (_ & H & _).
  - vm_compute. discriminate.
  - apply demo_enqueue_keeps.
  - apply table_ok_empty.
  - apply demo_fire_fired.
  - exact H.
Defined.

Lemma second_replica_is_noop_witness :
  fire (demo_fire 2) demo_read (ofUnix 1700000031) demo_fired = (LostAdvance, demo_fired) \/
  fire (demo_fire 2) demo_read (ofUnix 1700000031) demo_fired = (NoNext, demo_fired).
Proof.
  apply (second_replica_is_noop demo_service (demo_fire 1) (demo_fire 2) demo_read (ofUnix 1700000030)
    (ofUnix 1700000031) demo_world demo_fired demo_run_id (ofUnix 1700006400) 0).
  - vm_compute. discriminate.
  - apply demo_enqueue_keeps.
  - apply table_ok_empty.
  - apply demo_fire_fired.
  - split; [intros s|]; reflexivity.
  - split; [intros s|]; reflexivity.
Defined.

(** ** A schedule that cannot fire stays in the way *)

(** The schedule cannot fire: its expression does not parse or has no next
    occurrence. *)
Definition stuck (now : Time) (r : SchedRow) : Prop :=
  match Parse (s_cron_expr r) with
  | Error _ => True
  | Ok c => (nextAfter c (s_next_run_at r) now).1 = 0
  end.

Section Starve.
Context {J EE : Type} `{Enqueuer J EE}.

Lemma fire_stuck (fe : FireEnv Scheds EE) r now (w : J * Scheds) :
  stuck now r -> (fire fe (scanSchedule r) now w).2 = w.
Proof.
  unfold stuck, fire. cbn. destruct (Parse _) as [c|]; [|done].
  destruct (nextAfter _ _ _) as [n k]. cbn. intros ->. done.
Qed.

Lemma fire_all_stuck (fires : nat -> bool * FireEnv Scheds EE) i rs now (w : J * Scheds) :
  Forall (stuck now) rs -> (fire_all fires i (scanSchedule <$> rs) now w).2 = w.
Proof.
  intros Hs. revert i w. induction Hs as [|r rs Hr Hs IH]; intros i w; [done|]. cbn.
  destruct (fires i) as [[] fe]; [done|]. cbn.
  pose proof (fire_stuck fe r now w Hr) as Hw. destruct (fire fe _ now w) as [o w1]. cbn in Hw. subst w1.
  pose proof (IH (S i) w) as Hw. by destruct (fire_all _ _ _ _).
Qed.

(** If at least [n] of the candidates come strictly before all others, the
    first [n] are among them. *)
Lemma first_n_bad (n : nat) (cands sel bad : list SchedRow) :
  first_n next_run_le n cands sel -> NoDup bad -> (n <= length bad)%nat ->
  (forall b, b ∈ bad -> b ∈ cands) ->
  (forall b g, b ∈ bad -> g ∈ cands -> g ∉ bad -> s_next_run_at b < s_next_run_at g) ->
  forall r, r ∈ sel -> r ∈ bad.
Proof.
  intros Hfn Hnd Hlen Hin Hlt r Hr. destruct (decide (r ∈ bad)) as [|Hnb]; [done|]. exfalso.
  assert (Hall : forall x, x ∈ r :: bad -> x ∈ sel).
  { intros x [->|Hx]%elem_of_cons; [done|]. destruct (decide (x ∈ sel)) as [|Hns]; [done|].
    pose proof (fn_best _ _ _ _ Hfn r x Hr (Hin x Hx) Hns) as Hle. unfold next_run_le in Hle.
    pose proof (Hlt x r Hx (fn_sub _ _ _ _ Hfn r Hr) Hnb). lia. }
  assert (Hsub : r :: bad ⊆+ sel) by (apply NoDup_submseteq; [by apply NoDup_cons|exact Hall]).
  apply submseteq_length in Hsub. rewrite (fn_len _ _ _ _ Hfn) in Hsub. cbn in Hsub. lia.
Qed.

(** Schedules that cannot fire are neither disabled nor advanced, so they
    stay at the head of the due list: once as many of them as the fire budget
    are due before every other schedule, each later tick fires nothing and
    changes nothing. *)
Theorem stuck_schedules_starve_the_rest (s : Scheduler) (te : TickEnv Scheds EE) (now : Time)
    (bad : list SchedRow) (w : J * Scheds) :
  quiet (te_due te) -> 0 < FireBudget (sch_cfg s) <= Z.of_nat (length bad) -> NoDup bad ->
  (forall b, b ∈ bad -> (exists k, w.2 !! k = Some b) /\ due (pg_ts now) b = true /\ stuck now b) ->
  (forall b k g, b ∈ bad -> w.2 !! k = Some g -> g ∉ bad -> s_next_run_at b < s_next_run_at g) ->
  (dispatch s te now w).2 = w.
Proof.
  intros [Hq Hqf] Hb Hnd Hbad Hlt. unfold dispatch. destruct (negb _); [done|].
  cbn [ss_DueSchedules PostgresScheduleStore]. unfold DueSchedules.
  rewrite (proj2 (Z.leb_gt _ _)) by lia. unfold run_stmt. rewrite Hqf, Hq.
  set (cands := List.filter _ _).
  pose proof (first_n_take next_run_le (Z.to_nat (FireBudget (sch_cfg s))) cands) as Hfn.
  assert (Hsel : forall r, r ∈ take (Z.to_nat (FireBudget (sch_cfg s))) (merge_sort next_run_le cands) -> r ∈ bad).
  { apply (first_n_bad _ _ _ _ Hfn Hnd); [lia| |].
    - intros b Hx. destruct (Hbad b Hx) as (Hex & Hdue & _). apply elem_of_Lfilter. split; [|done].
      by apply elem_of_all_rows.
    - intros b g Hx Hg Hng. apply elem_of_Lfilter in Hg as [Hg _]. apply elem_of_all_rows in Hg as [k Hk].
      by apply (Hlt b k g). }
  destruct w as [j t]. cbn [fst snd] in *. rewrite fire_all_stuck; [done|].
  apply Forall_forall. intros r Hr. by apply Hbad, Hsel.
Qed.
End Starve.

Definition bad_row : SchedRow :=
  mkSchedRow "b1" "broken" "61 * * * *" "t" DefaultQueue None 3 0 None true (ofUnix 1600000000) None None 0 0 "acme" 0.

Lemma stuck_schedules_starve_the_rest_witness :
  (dispatch (New (mkConfig 0 1) true) (mkTickEnv (calm_s (ofUnix 1700000030)) (fun _ => (false, demo_fire 1)))
     (ofUnix 1700000030) ((∅ : Jobs), <["b1" := bad_row]> demo_scheds)).2
    = (∅, <["b1" := bad_row]> demo_scheds).
Proof.
  apply (stuck_schedules_starve_the_rest (New (mkConfig 0 1) true)
    (mkTickEnv (calm_s (ofUnix 1700000030)) (fun _ => (false, demo_fire 1))) (ofUnix 1700000030) [bad_row]
    (∅, <["b1" := bad_row]> demo_scheds)).
  - split; [intros t|]; reflexivity.
  - vm_compute. split; [reflexivity|discriminate].
  - apply NoDup_singleton.
  - intros b Hb. apply list_elem_of_singleton in Hb as ->. split; [exists "b1"; reflexivity|].
    split; [reflexivity|exact I].
  - intros b k g Hb Hg Hn. apply list_elem_of_singleton in Hb as ->. cbn [snd] in Hg.
    rewrite lookup_insert_Some in Hg. destruct Hg as [[_ <-]|[_ Hg]]; [destruct Hn; left|].
    destruct (decide (k = "s1")) as [->|Hk].
    + vm_compute in Hg. injection Hg as <-. vm_compute. reflexivity.
    + exfalso. assert (Hd : demo_scheds = {["s1" := default bad_row (demo_scheds !! "s1")]})
        by (vm_compute; reflexivity).
      rewrite Hd, lookup_singleton_ne in Hg by congruence. discriminate.
Defined.
