(* ===== verification/Reconciler.v ===== *)
(** * internal/reconciler/reconciler.go: the loop that keeps the table moving

    A pass requeues expired leases, claims due jobs into the worker pool up to
    a batch, then does its throttled housekeeping.  The pass is a function of
    the environment of its round trips; what it did comes back as a trace. *)

From S2P Require Import Prelude Models JobStore JobFacts JobSystem JobSpec JobProps.

Record RetentionConfig := mkRetention {
  Completed : Dur;
  Dead : Dur;
  Retention_Interval : Dur;
  Retention_BatchSize : Z
}.

Record Config := mkConfig {
  Interval : Dur;
  IdleInterval : Dur;
  BatchSize : Z;
  RunningLease : Dur;
  Queues : list string;
  Retention : RetentionConfig;
  BacklogInterval : Dur;
  Metrics : bool     (* a registry is attached *)
}.

Definition maxSweepBatches : nat := 20.

(** The fields the goroutine keeps, and the one-slot wake channel. *)
Record Reconciler := mkReconciler {
  rec_cfg : Config;
  lastSweep : Time;
  lastBacklog : Time;
  wake : bool
}.

Definition positive_or (d v : Z) : Z := if v <=? 0 then d else v.

Definition New (cfg : Config) : Reconciler :=
  let interval := positive_or Minute (Interval cfg) in
  let idle := positive_or interval (IdleInterval cfg) in
  let idle := if idle <? interval then interval else idle in
  let ret := Retention cfg in
  mkReconciler
    (mkConfig interval idle (positive_or 100 (BatchSize cfg)) (positive_or (5 * Minute) (RunningLease cfg))
       (Queues cfg)
       (mkRetention (Completed ret) (Dead ret) (positive_or Hour (Retention_Interval ret))
          (positive_or 1000 (Retention_BatchSize ret)))
       (if BacklogInterval cfg =? 0 then 10 * Second else BacklogInterval cfg) (Metrics cfg))
    0 0 false.

(** A non-blocking send on the one-slot channel. *)
Definition Wake (r : Reconciler) : Reconciler :=
  mkReconciler (rec_cfg r) (lastSweep r) (lastBacklog r) true.

(** The loop's receive. *)
Definition take_wake (r : Reconciler) : Reconciler :=
  mkReconciler (rec_cfg r) (lastSweep r) (lastBacklog r) false.

Definition nextInterval (r : Reconciler) (hadWork : bool) : Dur :=
  if hadWork then Interval (rec_cfg r) else IdleInterval (rec_cfg r).

(** ** One pass *)

(** What a pass did, in order. *)
Inductive event :=
  | ReapFailed (e : error)
  | Reaped (n : Z)
  | ClaimFailed (e : error)
  | Submitted (job : Job)
  | Rejected (job : Job) (released : result unit)
  | Pruned (st : JobState) (n : Z)
  | PruneFailed (st : JobState) (e : error)
  | Backlog (st : JobState) (n : Z).

(** One round of the claim loop: whether the context is done, the claim, the
    pool's answer, and the release if it refused. *)
Record ClaimEnv := mkClaimEnv {
  ce_done : bool;
  ce_claim : Env Jobs;
  ce_submit : bool;
  ce_release : Env Jobs
}.

(** How the claim loop ended: it returns from the pass, or falls through. *)
Inductive claim_end := Return (hadWork : bool) | Continue.

(** [for claimed < BatchSize], [n] rounds left; round [i] runs in [envs i]. *)
Fixpoint claim_loop (cfg : Config) (hadWork : bool) (n : nat) (i : nat) (envs : nat -> ClaimEnv) (t : Jobs)
    : claim_end * list event * Jobs :=
  match n with
  | O => (Continue, [], t)
  | S n' =>
      let ce := envs i in
      if ce_done ce then (Return hadWork, [], t)
      else
        match ClaimNextJob (ce_claim ce) (RunningLease cfg) (mkClaimFilter "" (Queues cfg) []) t with
        | (Error e, t1) =>
            if errors_Is e ErrJobNotFound then (Continue, [], t1) else (Return true, [ClaimFailed e], t1)
        | (Ok job, t1) =>
            if negb (ce_submit ce) then
              let '(r, t2) := ReleaseClaim (ce_release ce) job "worker pool rejected claimed job"
                                (Interval cfg) t1 in
              (Return true, [Rejected job r], t2)
            else
              let '(e, evs, t2) := claim_loop cfg hadWork n' (S i) envs t1 in
              (e, Submitted job :: evs, t2)
        end
  end.

(** The batches of one retention target; round [i] runs in [envs i], with
    whether the context is done before it. *)
Fixpoint sweep_batches (cfg : Config) (st : JobState) (before : Time) (n i : nat)
    (envs : nat -> bool * Env Jobs) (t : Jobs) : bool * list event * Jobs :=
  match n with
  | O => (false, [], t)
  | S n' =>
      if (envs i).1 then (true, [], t)
      else
        match DeleteFinished (envs i).2 st before (Retention_BatchSize (Retention cfg)) t with
        | (Error e, t1) => (false, [PruneFailed st e], t1)
        | (Ok k, t1) =>
            if k <? Retention_BatchSize (Retention cfg) then (false, [Pruned st k], t1)
            else let '(b, evs, t2) := sweep_batches cfg st before n' (S i) envs t1 in (b, Pruned st k :: evs, t2)
        end
  end.

Definition sweep_target (cfg : Config) (now : Time) (st : JobState) (age : Dur)
    (envs : nat -> bool * Env Jobs) (t : Jobs) : bool * list event * Jobs :=
  if age <=? 0 then (false, [], t)
  else sweep_batches cfg st (Add now (- age)) maxSweepBatches 0 envs t.

Definition sweepRetention (r : Reconciler) (now : Time) (envs1 envs2 : nat -> bool * Env Jobs) (t : Jobs)
    : list event * Reconciler * Jobs :=
  let cfg := rec_cfg r in
  if (Completed (Retention cfg) <=? 0) && (Dead (Retention cfg) <=? 0) then ([], r, t)
  else if negb (IsZero (lastSweep r)) && (Sub now (lastSweep r) <? Retention_Interval (Retention cfg))
  then ([], r, t)
  else
    let r' := mkReconciler cfg now (lastBacklog r) (wake r) in
    let '(done1, evs1, t1) := sweep_target cfg now JobStateCompleted (Completed (Retention cfg)) envs1 t in
    if done1 : bool then (evs1, r', t1)
    else
      let '(_, evs2, t2) := sweep_target cfg now JobStateDead (Dead (Retention cfg)) envs2 t1 in
      (evs1 ++ evs2, r', t2).

Definition sampleBacklog (r : Reconciler) (now : Time) (env : Env Jobs) (t : Jobs)
    : list event * Reconciler * Jobs :=
  let cfg := rec_cfg r in
  if negb (Metrics cfg) || (BacklogInterval cfg <? 0) then ([], r, t)
  else if negb (IsZero (lastBacklog r)) && (Sub now (lastBacklog r) <? BacklogInterval cfg) then ([], r, t)
  else
    let r' := mkReconciler cfg (lastSweep r) now (wake r) in
    match CountByState env t with
    | (Error _, t1) => ([], r', t1)
    | (Ok counts, t1) => ((fun st => Backlog st (counts st)) <$> BacklogStates, r', t1)
    end.

Record PassEnv := mkPassEnv {
  pe_reap : Env Jobs;
  pe_claims : nat -> ClaimEnv;
  pe_sweep_now : Time;
  pe_sweep1 : nat -> bool * Env Jobs;
  pe_sweep2 : nat -> bool * Env Jobs;
  pe_backlog_now : Time;
  pe_backlog : Env Jobs
}.

Definition is_submitted (ev : event) : bool := match ev with Submitted _ => true | _ => false end.

Definition reconcile (r : Reconciler) (pe : PassEnv) (t : Jobs) : bool * list event * Reconciler * Jobs :=
  let cfg := rec_cfg r in
  let '(reaped, t1) := RequeueExpiredRunning (pe_reap pe) (BatchSize cfg) t in
  let evs0 := match reaped with Error e => [ReapFailed e] | Ok n => if 0 <? n then [Reaped n] else [] end in
  let hadWork := negb (bool_decide (evs0 = [])) in
  match claim_loop cfg hadWork (Z.to_nat (BatchSize cfg)) 0 (pe_claims pe) t1 with
  | (Return w, evs1, t2) => (w, evs0 ++ evs1, r, t2)
  | (Continue, evs1, t2) =>
      let hadWork := hadWork || existsb is_submitted evs1 in
      let '(evs2, r1, t3) := sweepRetention r (pe_sweep_now pe) (pe_sweep1 pe) (pe_sweep2 pe) t2 in
      let '(evs3, r2, t4) := sampleBacklog r1 (pe_backlog_now pe) (pe_backlog pe) t3 in
      (hadWork, evs0 ++ evs1 ++ evs2 ++ evs3, r2, t4)
  end.

(** ** Bounds *)

Definition submitted (evs : list event) : list Job :=
  omap (fun ev => match ev with Submitted job => Some job | _ => None end) evs.

Definition pruned (st : JobState) (evs : list event) : Z :=
  foldr (fun ev n => match ev with Pruned st' k => if bool_decide (st' = st) then k + n else n | _ => n end) 0 evs.

Lemma submitted_app evs1 evs2 : submitted (evs1 ++ evs2) = submitted evs1 ++ submitted evs2.
Proof. apply omap_app. Qed.

Lemma pruned_app st evs1 evs2 : pruned st (evs1 ++ evs2) = pruned st evs1 + pruned st evs2.
Proof.
  unfold pruned. induction evs1 as [|ev evs1 IH]; [done|]. cbn. destruct ev; try done.
  case_bool_decide; rewrite IH; lia.
Qed.

Lemma claim_loop_submits cfg w n i envs t :
  (length (submitted (claim_loop cfg w n i envs t).1.2) <= n)%nat.
Proof.
  revert i t. induction n as [|n IH]; intros i t; cbn; [lia|].
  destruct (ce_done _); [cbn; lia|]. destruct (ClaimNextJob _ _ _ _) as [[job|e] t1].
  - destruct (negb _); [destruct (ReleaseClaim _ _ _ _ _) as [r t2]; cbn; lia|].
    pose proof (IH (S i) t1). destruct (claim_loop _ _ _ _ _ _) as [[e evs] t2]. cbn in *. lia.
  - destruct (errors_Is _ _); cbn; lia.
Qed.

Lemma claim_loop_prunes cfg w n i envs t st : pruned st (claim_loop cfg w n i envs t).1.2 = 0.
Proof.
  revert i t. induction n as [|n IH]; intros i t; cbn; [done|].
  destruct (ce_done _); [done|]. destruct (ClaimNextJob _ _ _ _) as [[job|e] t1].
  - destruct (negb _); [by destruct (ReleaseClaim _ _ _ _ _) as [r t2]|].
    pose proof (IH (S i) t1). by destruct (claim_loop _ _ _ _ _ _) as [[e evs] t2].
  - by destruct (errors_Is _ _).
Qed.

(** One DELETE removes at most its limit. *)
Lemma DeleteFinished_le env st before limit t k t' :
  0 <= limit -> DeleteFinished env st before limit t = (Ok k, t') -> 0 <= k <= limit.
Proof.
  intros Hl. unfold DeleteFinished, run_stmt, prune_stmt. destruct (_ && _); [done|].
  destruct (_ <=? _) eqn:E; [intros [= <- _]; lia|]. destruct (fault env); [|done|done].
  intros [= <- _]. rewrite length_take. lia.
Qed.

Lemma RequeueExpiredRunning_le env limit t n t' :
  0 <= limit -> RequeueExpiredRunning env limit t = (Ok n, t') -> 0 <= n <= limit.
Proof.
  intros Hl. unfold RequeueExpiredRunning, run_stmt, reap_stmt.
  destruct (_ <=? _) eqn:E; [intros [= <- _]; lia|]. destruct (fault env); [|done|done].
  intros [= <- _]. rewrite length_take. lia.
Qed.

Lemma sweep_batches_bound cfg st before n i envs t st' :
  0 <= Retention_BatchSize (Retention cfg) ->
  let evs := (sweep_batches cfg st before n i envs t).1.2 in
  submitted evs = [] /\
  pruned st' evs <= (if bool_decide (st = st') then Z.of_nat n * Retention_BatchSize (Retention cfg) else 0).
Proof.
  intros Hb. revert i t. induction n as [|n IH]; intros i t; cbn [sweep_batches]; [by case_bool_decide|].
  assert (Hn : 0 <= Z.of_nat n * Retention_BatchSize (Retention cfg)) by (apply Z.mul_nonneg_nonneg; lia).
  replace (Z.of_nat (S n)) with (Z.of_nat n + 1) by lia. rewrite Z.mul_add_distr_r, Z.mul_1_l.
  destruct (envs i).1; [split; [done|]; cbn; case_bool_decide; lia|].
  destruct (DeleteFinished _ _ _ _ _) as [[k|e] t1] eqn:E; [|split; [done|]; cbn; case_bool_decide; lia].
  apply DeleteFinished_le in E; [|done]. destruct (k <? _) eqn:Ek; zbool.
  - split; [done|]. cbn. case_bool_decide; lia.
  - destruct (IH (S i) t1) as [Hs Hp]. destruct (sweep_batches _ _ _ _ _ _ _) as [[b evs] t2].
    cbn in *. split; [done|]. case_bool_decide; lia.
Qed.

Lemma sweep_target_bound cfg now st age envs t st' :
  0 <= Retention_BatchSize (Retention cfg) ->
  let evs := (sweep_target cfg now st age envs t).1.2 in
  submitted evs = [] /\
  pruned st' evs <= (if bool_decide (st = st') then 20 * Retention_BatchSize (Retention cfg) else 0).
Proof.
  intros Hb. unfold sweep_target. destruct (_ <=? _); [|by apply sweep_batches_bound].
  split; [done|]. cbn. case_bool_decide; lia.
Qed.

Lemma sweepRetention_bound r now envs1 envs2 t st :
  0 <= Retention_BatchSize (Retention (rec_cfg r)) ->
  let evs := (sweepRetention r now envs1 envs2 t).1.1 in
  submitted evs = [] /\ pruned st evs <= 20 * Retention_BatchSize (Retention (rec_cfg r)).
Proof.
  intros Hb. unfold sweepRetention. destruct (_ && _); [split; [done|cbn; lia]|].
  destruct (_ && _); [split; [done|cbn; lia]|]. set (cfg := rec_cfg r) in *.
  pose proof (sweep_target_bound cfg now JobStateCompleted (Completed (Retention cfg)) envs1 t st Hb) as [Hs1 Hp1].
  destruct (sweep_target _ _ _ _ envs1 t) as [[d1 evs1] t1]. cbn [fst snd] in *.
  destruct d1; [split; [done|]; cbn [fst snd]; case_bool_decide; lia|].
  pose proof (sweep_target_bound cfg now JobStateDead (Dead (Retention cfg)) envs2 t1 st Hb) as [Hs2 Hp2].
  destruct (sweep_target _ _ _ _ envs2 t1) as [[d2 evs2] t2]. cbn [fst snd] in *.
  rewrite submitted_app, pruned_app, Hs1, Hs2. split; [done|].
  repeat case_bool_decide; subst; try done; lia.
Qed.

Lemma sweepRetention_events r now envs1 envs2 t :
  submitted (sweepRetention r now envs1 envs2 t).1.1 = [].
Proof.
  assert (Hb : forall cfg st before n i envs t, submitted (sweep_batches cfg st before n i envs t).1.2 = []).
  { intros cfg st before n i envs. revert i. induction n as [|n IH]; intros i t0; cbn; [done|].
    destruct (envs i).1; [done|]. destruct (DeleteFinished _ _ _ _ _) as [[k|e] t1]; [|done].
    destruct (_ <? _); [done|]. pose proof (IH (S i) t1).
    by destruct (sweep_batches _ _ _ _ _ _ _) as [[b evs] t2]. }
  assert (Ht : forall cfg now st age envs t, submitted (sweep_target cfg now st age envs t).1.2 = [])
    by (intros; unfold sweep_target; destruct (_ <=? _); done).
  unfold sweepRetention. destruct (_ && _); [done|]. destruct (_ && _); [done|].
  set (cfg := rec_cfg r) in *.
  pose proof (Ht cfg now JobStateCompleted (Completed (Retention cfg)) envs1 t) as H1.
  destruct (sweep_target _ _ _ _ envs1 t) as [[[] evs1] t1]; [done|].
  pose proof (Ht cfg now JobStateDead (Dead (Retention cfg)) envs2 t1) as H2.
  destruct (sweep_target _ _ _ _ envs2 t1) as [[d evs2] t2]. cbn [fst snd] in *.
  by rewrite submitted_app, H1, H2.
Qed.

Lemma sampleBacklog_events r now env t st :
  submitted (sampleBacklog r now env t).1.1 = [] /\ pruned st (sampleBacklog r now env t).1.1 = 0.
Proof.
  unfold sampleBacklog. destruct (_ || _); [done|]. destruct (_ && _); [done|].
  by destruct (CountByState env t) as [[c|e] t1].
Qed.

(** Only the first step of a pass reaps. *)
Lemma claim_loop_reaps cfg w n i envs t k : Reaped k ∉ (claim_loop cfg w n i envs t).1.2.
Proof.
  revert i t. induction n as [|n IH]; intros i t; cbn; [apply not_elem_of_nil|].
  destruct (ce_done _); [apply not_elem_of_nil|]. destruct (ClaimNextJob _ _ _ _) as [[job|e] t1].
  - destruct (negb _).
    + destruct (ReleaseClaim _ _ _ _ _) as [r t2]. cbn. by rewrite list_elem_of_singleton.
    + pose proof (IH (S i) t1). destruct (claim_loop _ _ _ _ _ _) as [[e evs] t2]. cbn in *.
      rewrite elem_of_cons. naive_solver.
  - destruct (errors_Is _ _); cbn; [apply not_elem_of_nil|by rewrite list_elem_of_singleton].
Qed.

Lemma sweep_target_reaps cfg now st age envs t k : Reaped k ∉ (sweep_target cfg now st age envs t).1.2.
Proof.
  unfold sweep_target. destruct (_ <=? _); [apply not_elem_of_nil|].
  generalize maxSweepBatches 0%nat. intros n. revert t. induction n as [|n IH]; intros t i; cbn; [apply not_elem_of_nil|].
  destruct (envs i).1; [apply not_elem_of_nil|].
  destruct (DeleteFinished _ _ _ _ _) as [[j|e] t1]; [|cbn; by rewrite list_elem_of_singleton].
  destruct (_ <? _); [cbn; by rewrite list_elem_of_singleton|].
  pose proof (IH t1 (S i)). destruct (sweep_batches _ _ _ _ _ _ _) as [[b evs] t2]. cbn in *.
  rewrite elem_of_cons. naive_solver.
Qed.

Lemma sweepRetention_reaps r now envs1 envs2 t k : Reaped k ∉ (sweepRetention r now envs1 envs2 t).1.1.
Proof.
  unfold sweepRetention. destruct (_ && _); [apply not_elem_of_nil|]. destruct (_ && _); [apply not_elem_of_nil|].
  pose proof (sweep_target_reaps (rec_cfg r) now JobStateCompleted (Completed (Retention (rec_cfg r))) envs1 t k) as H1.
  destruct (sweep_target _ _ _ _ envs1 t) as [[[] evs1] t1]; [done|].
  pose proof (sweep_target_reaps (rec_cfg r) now JobStateDead (Dead (Retention (rec_cfg r))) envs2 t1 k) as H2.
  destruct (sweep_target _ _ _ _ envs2 t1) as [[d evs2] t2]. cbn in *. rewrite elem_of_app. tauto.
Qed.

Lemma sampleBacklog_reaps r now env t k : Reaped k ∉ (sampleBacklog r now env t).1.1.
Proof.
  unfold sampleBacklog. destruct (_ || _); [apply not_elem_of_nil|]. destruct (_ && _); [apply not_elem_of_nil|].
  destruct (CountByState env t) as [[c|e] t1]; cbn; [|apply not_elem_of_nil].
  rewrite !elem_of_cons. intros [?|[?|[?|H]]]; try done. by apply not_elem_of_nil in H.
Qed.

(** One pass does bounded work: it submits at most a batch of jobs to the
    pool, requeues at most a batch of expired leases, and deletes at most
    twenty retention batches of each terminal state, so the claim loop that
    shares the goroutine is never held up for longer than that. *)
Theorem pass_is_bounded (cfg : Config) (last1 last2 : Time) (wk : bool) (pe : PassEnv) (t : Jobs) (st : JobState) :
  let c := rec_cfg (New cfg) in
  let r := mkReconciler c last1 last2 wk in
  let evs := (reconcile r pe t).1.1.2 in
  Z.of_nat (length (submitted evs)) <= BatchSize c /\
  (forall n, Reaped n ∈ evs -> 0 < n <= BatchSize c) /\
  pruned st evs <= 20 * Retention_BatchSize (Retention c).
Proof.
  intros c r evs. assert (HB : 0 < BatchSize c /\ 0 < Retention_BatchSize (Retention c)).
  { unfold c, New, positive_or. cbn -[Z.leb]. repeat case_goal; zbool; lia. }
  clearbody c. subst evs. unfold reconcile. cbn [rec_cfg r].
  destruct (RequeueExpiredRunning _ _ _) as [reaped t1] eqn:E1.
  set (evs0 := match reaped with Error e => [ReapFailed e] | Ok n => if 0 <? n then [Reaped n] else [] end).
  assert (H0 : submitted evs0 = [] /\ pruned st evs0 = 0 /\ forall n, Reaped n ∈ evs0 -> 0 < n <= BatchSize c).
  { unfold evs0. destruct reaped as [n|e].
    - apply RequeueExpiredRunning_le in E1; [|lia]. destruct (0 <? n) eqn:En; zbool.
      + split; [done|]. split; [done|]. intros m Hm. apply list_elem_of_singleton in Hm as [= ->]. lia.
      + split; [done|]. split; [done|]. intros m Hm. by apply not_elem_of_nil in Hm.
    - split; [done|]. split; [done|]. intros m Hm. by apply list_elem_of_singleton in Hm. }
  destruct H0 as (Hs0 & Hp0 & Hr0). clearbody evs0. set (w := negb _). clearbody w.
  pose proof (claim_loop_submits c w (Z.to_nat (BatchSize c)) 0 (pe_claims pe) t1) as Hs1.
  pose proof (claim_loop_prunes c w (Z.to_nat (BatchSize c)) 0 (pe_claims pe) t1 st) as Hp1.
  pose proof (claim_loop_reaps c w (Z.to_nat (BatchSize c)) 0 (pe_claims pe) t1) as Hr1.
  destruct (claim_loop _ _ _ _ _ _) as [[[hw|] evs1] t2]; cbn [fst snd] in *.
  - rewrite submitted_app, pruned_app, Hs0, Hp0, Hp1. split; [cbn; lia|]. split; [|lia].
    intros n [?|Hn]%elem_of_app; [by apply Hr0|]. by apply Hr1 in Hn.
  - pose proof (sweepRetention_bound r (pe_sweep_now pe) (pe_sweep1 pe) (pe_sweep2 pe) t2 st) as [Hs2 Hp2];
      [cbn; lia|].
    pose proof (sweepRetention_reaps r (pe_sweep_now pe) (pe_sweep1 pe) (pe_sweep2 pe) t2) as Hr2.
    destruct (sweepRetention _ _ _ _ _) as [[evs2 r1] t3]. cbn [fst snd rec_cfg r] in *.
    pose proof (sampleBacklog_events r1 (pe_backlog_now pe) (pe_backlog pe) t3 st) as [Hs3 Hp3].
    pose proof (sampleBacklog_reaps r1 (pe_backlog_now pe) (pe_backlog pe) t3) as Hr3.
    destruct (sampleBacklog _ _ _ _) as [[evs3 r2] t4]. cbn [fst snd] in *.
    rewrite !submitted_app, !pruned_app, Hs0, Hp0, Hp1, Hs2, Hs3, Hp3, !app_nil_r. split; [cbn; lia|].
    split; [|lia]. intros n. rewrite !elem_of_app. naive_solver.
Qed.

Lemma pass_is_bounded_config cfg : 0 < BatchSize (rec_cfg (New cfg)).
Proof. unfold New, positive_or. cbn -[Z.leb]. case_goal; zbool; lia. Qed.

(** ** The pass keeps the table well formed *)

(** Other sessions keep it, around every round trip of the pass. *)
Record pass_keeps (pe : PassEnv) : Prop := {
  pk_reap : keeps table_ok (pe_reap pe);
  pk_claims i : keeps table_ok (ce_claim (pe_claims pe i)) /\ keeps table_ok (ce_release (pe_claims pe i));
  pk_sweep1 i : keeps table_ok (pe_sweep1 pe i).2;
  pk_sweep2 i : keeps table_ok (pe_sweep2 pe i).2;
  pk_backlog : keeps table_ok (pe_backlog pe)
}.

Lemma claim_loop_ok cfg w n i envs t :
  (forall i, keeps table_ok (ce_claim (envs i)) /\ keeps table_ok (ce_release (envs i))) ->
  table_ok t -> table_ok (claim_loop cfg w n i envs t).2.
Proof.
  intros Hk. revert i t. induction n as [|n IH]; intros i t Ht; cbn; [done|].
  destruct (ce_done _); [done|]. destruct (Hk i) as [Hk1 Hk2].
  pose proof (exec_ok (OClaim (ce_claim (envs i)) (RunningLease cfg) (mkClaimFilter "" (Queues cfg) [])) t) as H1.
  cbn [exec op_envs] in H1. destruct (ClaimNextJob _ _ _ _) as [[job|e] t1]; cbn [snd] in H1.
  - destruct (negb _).
    + pose proof (exec_ok (ORelease (ce_release (envs i)) job "worker pool rejected claimed job" (Interval cfg)) t1) as H2.
      cbn [exec op_envs] in H2. destruct (ReleaseClaim _ _ _ _ _) as [r t2]. cbn in *. auto.
    + pose proof (IH (S i) t1) as H2. destruct (claim_loop _ _ _ _ _ _) as [[e evs] t2]. cbn in *. auto.
  - destruct (errors_Is _ _); cbn in *; auto.
Qed.

Lemma sweep_target_ok cfg now st age envs t :
  (forall i, keeps table_ok (envs i).2) -> table_ok t -> table_ok (sweep_target cfg now st age envs t).2.
Proof.
  intros Hk Ht. unfold sweep_target. destruct (_ <=? _); [done|].
  generalize maxSweepBatches 0%nat. intros n. revert t Ht. induction n as [|n IH]; intros t Ht i; cbn; [done|].
  destruct (envs i).1; [done|].
  pose proof (exec_ok (ODelete (envs i).2 st (Add now (- age)) (Retention_BatchSize (Retention cfg))) t) as H1.
  cbn [exec op_envs] in H1. destruct (DeleteFinished _ _ _ _ _) as [[j|e] t1]; cbn in *; [|auto].
  destruct (_ <? _); cbn; [auto|]. pose proof (IH t1 ltac:(auto) (S i)) as H2.
  by destruct (sweep_batches _ _ _ _ _ _ _) as [[b evs] t2].
Qed.

(** A reconciler pass, with whatever other sessions do around its calls,
    leaves the jobs table well formed. *)
Theorem pass_keeps_table (r : Reconciler) (pe : PassEnv) (t : Jobs) :
  pass_keeps pe -> table_ok t -> table_ok (reconcile r pe t).2.
Proof.
  intros [K1 K2 K3 K4 K5] Ht. unfold reconcile.
  pose proof (exec_ok (OReap (pe_reap pe) (BatchSize (rec_cfg r))) t) as H1. cbn [exec op_envs] in H1.
  destruct (RequeueExpiredRunning _ _ _) as [reaped t1]. cbn [snd] in H1.
  set (w := negb _). clearbody w.
  pose proof (claim_loop_ok (rec_cfg r) w (Z.to_nat (BatchSize (rec_cfg r))) 0 (pe_claims pe) t1 K2) as H2.
  destruct (claim_loop _ _ _ _ _ _) as [[[hw|] evs1] t2]; cbn [snd] in *; [apply H2, H1; auto; by constructor|].
  assert (Ht2 : table_ok t2) by (apply H2, H1; auto; by constructor).
  assert (H3 : table_ok (sweepRetention r (pe_sweep_now pe) (pe_sweep1 pe) (pe_sweep2 pe) t2).2).
  { unfold sweepRetention. destruct (_ && _); [done|]. destruct (_ && _); [done|].
    pose proof (sweep_target_ok (rec_cfg r) (pe_sweep_now pe) JobStateCompleted
      (Completed (Retention (rec_cfg r))) (pe_sweep1 pe) t2 K3 Ht2) as Ha.
    destruct (sweep_target _ _ _ _ (pe_sweep1 pe) t2) as [[[] evs2] t3]; [done|]. cbn [snd] in Ha.
    pose proof (sweep_target_ok (rec_cfg r) (pe_sweep_now pe) JobStateDead
      (Dead (Retention (rec_cfg r))) (pe_sweep2 pe) t3 K4 Ha) as Hb.
    by destruct (sweep_target _ _ _ _ (pe_sweep2 pe) t3) as [[d evs3] t4]. }
  destruct (sweepRetention _ _ _ _ _) as [[evs2 r1] t3]. cbn [snd] in H3.
  assert (H4 : table_ok (sampleBacklog r1 (pe_backlog_now pe) (pe_backlog pe) t3).2).
  { unfold sampleBacklog. destruct (_ || _); [done|]. destruct (_ && _); [done|].
    unfold CountByState, run_stmt. destruct (fault _); by apply K5. }
  by destruct (sampleBacklog _ _ _ _) as [[evs3 r2] t4].
Qed.

Definition calm_claims (ids : list string) (i : nat) : ClaimEnv :=
  mkClaimEnv false (demo_env ids (Z.of_nat i)) true (demo_env [] 0).

Definition calm_pass (ids : list string) : PassEnv :=
  mkPassEnv (demo_env ids 0) (calm_claims ids) demo_now (fun _ => (false, demo_env [] 0))
    (fun _ => (false, demo_env [] 0)) demo_now (demo_env [] 0).

Lemma calm_pass_keeps ids : pass_keeps (calm_pass ids).
Proof.
  constructor; [apply keeps_calm|intros i; split; apply keeps_calm|intros i; apply keeps_calm..|apply keeps_calm].
Qed.

Definition demo_reconciler : Reconciler := New (mkConfig 0 0 10 0 [] (mkRetention 0 0 0 0) 0 false).

Lemma pass_keeps_table_witness :
  table_ok (reconcile demo_reconciler (calm_pass ["j1"; "j2"]) demo_table).2.
Proof. apply pass_keeps_table; [apply calm_pass_keeps|apply demo_table_ok]. Defined.

(** ** A pass drains the due jobs *)

(** The jobs a claim with the filter [f] could take at [now]. *)
Definition eligible (now : Time) (f : ClaimFilter) (t : Jobs) : Jobs :=
  filter (fun kv => claimable now f kv.2 = true) t.

(** The round trips of a quiet claim loop at the database time [now]: nothing
    fails, no row is locked, the pool has room. *)
Definition quiet_round (now : Time) (t : Jobs) (ce : ClaimEnv) : Prop :=
  ce_done ce = false /\ ce_submit ce = true /\ (forall t, intf (ce_claim ce) t = t) /\
  fault (ce_claim ce) = NoFault /\ NOW (ce_claim ce) = now /\ rand (ce_claim ce) <> None /\
  forall k, is_Some (t !! k) -> k ∈ scan (ce_claim ce).

(** The row a claim in round [ce] of a pass leaves in place of [row], under
    the token [tok]. *)
Definition claimed_in (cfg : Config) (ce : ClaimEnv) (tok : string) (row : JobRow) : JobRow :=
  claim_row (pg_ts (gonow (ce_claim ce))) (pg_ts (Add (gonow (ce_claim ce)) (RunningLease cfg))) tok row.

(** One quiet claim: the eligible set loses the job claimed. *)
Lemma claim_shrinks cfg ce f t now :
  table_ok t -> quiet_round now t ce ->
  (eligible now f t = ∅ /\ ClaimNextJob (ce_claim ce) (RunningLease cfg) f t = (Error ErrJobNotFound, t)) \/
  exists r tok, let r' := claimed_in cfg ce tok r in
    eligible now f t !! id r = Some r /\ newLeaseToken (rand (ce_claim ce)) = Ok tok /\
    ClaimNextJob (ce_claim ce) (RunningLease cfg) f t = (Ok (scanJob r'), <[id r := r']> t) /\
    eligible now f (<[id r := r']> t) = delete (id r) (eligible now f t).
Proof.
  intros Hok (_ & _ & Hq & Hf & Hnow & Hr & Hscan). set (env := ce_claim ce) in *.
  destruct (rand env) as [bytes|] eqn:Er; [|done]. clear Hr.
  destruct (newLeaseToken (rand env)) as [tok|] eqn:Et; [|by rewrite Er in Et]. subst now.
  destruct (claim_best env (RunningLease cfg) f t tok) as [[Hnil ->]|(r & Hin & _ & Hlk & Hst & _ & _ & ->)];
    rewrite ?Hq; try done.
  - left. split; [|done]. apply map_eq. intros k. rewrite lookup_empty. apply map_lookup_filter_None.
    destruct (t !! k) as [r|] eqn:E; [right|by left]. intros r' [= <-] Hc. cbn in Hc.
    assert (r ∈ claim_candidates env f t); [|rewrite Hq in Hnil; rewrite Hnil in *; by eapply not_elem_of_nil].
    apply elem_of_Lfilter. split; [|done]. apply elem_of_visible. exists k. split; [|done]. apply Hscan. by rewrite E.
  - right. rewrite Hq in *. apply elem_of_Lfilter in Hin as [_ Hc]. exists r, tok.
    split; [by apply map_lookup_filter_Some|]. split; [by rewrite <- Er|]. split; [done|].
    unfold eligible. rewrite map_filter_insert_False; [by rewrite map_filter_delete|].
    cbn. intros Hc'. by apply claimable_pending in Hc'.
Qed.

(** The submitted jobs are the claimed rows: the [j]-th was due in [t], and
    [t'] holds it as the claim of round [i + j] left it. *)
Definition holds_claimed (cfg : Config) (envs : nat -> ClaimEnv) (i : nat) (due t' : Jobs) (jobs : list Job) : Prop :=
  forall j job, jobs !! j = Some job ->
  exists row tok, let row' := claimed_in cfg (envs (i + j)%nat) tok row in
    due !! Job_ID job = Some row /\ newLeaseToken (rand (ce_claim (envs (i + j)%nat))) = Ok tok /\
    job = scanJob row' /\ t' !! Job_ID job = Some row'.

(** What the loop does not find eligible it leaves alone. *)
Lemma claim_loop_drains cfg w n i envs t now :
  let f := mkClaimFilter "" (Queues cfg) [] in
  table_ok t -> (forall j, quiet_round now t (envs j)) -> (size (eligible now f t) < n)%nat ->
  let '(e, evs, t') := claim_loop cfg w n i envs t in
  e = Continue /\ eligible now f t' = ∅ /\ table_ok t' /\
  Job_ID <$> submitted evs ≡ₚ (map_to_list (eligible now f t)).*1 /\
  holds_claimed cfg envs i (eligible now f t) t' (submitted evs) /\
  (forall k, eligible now f t !! k = None -> t' !! k = t !! k).
Proof.
  intros f. revert i t. induction n as [|n IH]; intros i t Hok Hq Hn; [lia|]. cbn [claim_loop].
  destruct (Hq i) as (Hd & Hs & Hi & _). rewrite Hd. fold f.
  destruct (claim_shrinks cfg (envs i) f t now Hok (Hq i)) as [[He ->]|(r & tok & Hel & Htok & Hcl & Hdel)].
  { cbn. rewrite He, map_to_list_empty. do 4 (split; [done|]). split; [by intros j job|done]. }
  rewrite Hcl, Hs. cbn [negb]. set (r' := claimed_in cfg (envs i) tok r) in *.
  assert (Hok' : table_ok (<[id r := r']> t)).
  { pose proof (exec_ok (OClaim (ce_claim (envs i)) (RunningLease cfg) f) t) as H. cbn [exec op_envs] in H.
    rewrite Hcl in H. apply H; [|done..]. constructor; [|constructor]. intros t0 Ht0. by rewrite Hi. }
  assert (Hlk : is_Some (t !! id r)) by (apply map_lookup_filter_Some in Hel as [Hel _]; by rewrite Hel).
  assert (Hsz : (size (eligible now f (<[id r := r']> t)) < n)%nat).
  { rewrite Hdel. rewrite map_size_delete_Some by (by exists r).
    assert (size (eligible now f t) <> 0%nat) by (intros H0%map_size_empty_inv; by rewrite H0 in Hel). lia. }
  specialize (IH (S i) (<[id r := r']> t) Hok'). destruct (claim_loop _ _ _ _ _ _) as [[e evs] t'].
  destruct IH as (-> & He & Ht' & Hp & Hh & Hfr); [|done|].
  { intros j. destruct (Hq j) as (? & ? & ? & ? & ? & ? & Hsc'). repeat split; try done.
    intros k. rewrite lookup_insert_is_Some. intros [<-|[_ ?]]; auto. }
  rewrite Hdel in Hp, Hh, Hfr. split; [done|]. split; [done|]. split; [done|]. split; [|split].
  - cbn. rewrite <- (insert_delete_id _ _ _ Hel), map_to_list_insert by apply lookup_delete_eq.
    cbn. by apply Permutation_skip.
  - intros [|j] job; cbn.
    + intros [= <-]. exists r, tok. rewrite Nat.add_0_r. cbn. fold r'. split; [done|]. split; [done|]. split; [done|].
      rewrite (Hfr (id r)) by apply lookup_delete_eq. apply lookup_insert_eq.
    + intros Hj. destruct (Hh j job Hj) as (row & tok' & Hr & Ht & Hj' & Hl).
      rewrite <- plus_n_Sm in *. exists row, tok'. split; [|done]. apply lookup_delete_Some in Hr. tauto.
  - intros k Hk. assert (id r <> k) by congruence.
    rewrite Hfr by (by apply lookup_delete_None; right). by apply lookup_insert_ne.
Qed.

(** Retention only removes finished rows. *)
Definition only_prunes (t t' : Jobs) : Prop :=
  forall k, t' !! k = t !! k \/
    (t' !! k = None /\ exists r, t !! k = Some r /\ (state r = JobStateCompleted \/ state r = JobStateDead)).

#[export] Instance only_prunes_preorder : PreOrder only_prunes.
Proof.
  split; [by left|]. intros t1 t2 t3 H1 H2 k.
  destruct (H1 k) as [E1|(E1 & r & Hr)], (H2 k) as [E2|(E2 & r' & Hr')]; rewrite ?E1 in *; eauto.
Qed.

Lemma only_prunes_keyed t t' : only_prunes t t' -> keyed t -> keyed t'.
Proof. intros H Hk k r Hr. destruct (H k) as [E|[E _]]; rewrite E in Hr; [by apply Hk|done]. Qed.

Lemma DeleteFinished_prunes env st before limit t :
  (forall t, intf env t = t) -> keyed t -> only_prunes t (DeleteFinished env st before limit t).2.
Proof.
  intros Hq Hk. unfold DeleteFinished. destruct (_ && _) eqn:Est; [done|]. destruct (_ <=? _); [done|].
  destruct (run_stmt_snd env (prune_stmt env st (pg_ts before) limit) t) as [->| ->]; rewrite Hq; [done|].
  intros k. unfold prune_stmt. cbn. rewrite lookup_delete_rows.
  destruct (list_find _ _) as [[i r]|] eqn:E; [right|by left]. split; [done|].
  apply list_find_Some in E as (Hl & <- & _).
  apply list_elem_of_lookup_2, elem_of_take_in, elem_of_merge_sort, elem_of_Lfilter in Hl as [Hr Hp].
  apply elem_of_all_rows in Hr as [k' Hk']. rewrite (Hk _ _ Hk'). exists r. split; [done|].
  unfold prunable in Hp. repeat case_bool_decide; zbool; naive_solver.
Qed.

Lemma sweep_target_prunes cfg now st age envs t :
  (forall i t, intf (envs i).2 t = t) -> keyed t -> only_prunes t (sweep_target cfg now st age envs t).2.
Proof.
  intros Hq. unfold sweep_target. destruct (_ <=? _); [done|].
  generalize maxSweepBatches 0%nat. intros n. revert t. induction n as [|n IH]; intros t i Hk; cbn; [done|].
  destruct (envs i).1; [done|].
  pose proof (DeleteFinished_prunes (envs i).2 st (Add now (- age)) (Retention_BatchSize (Retention cfg)) t (Hq i) Hk) as H1.
  destruct (DeleteFinished _ _ _ _ _) as [[j|e] t1]; cbn in *; [|done].
  destruct (_ <? _); cbn; [done|]. pose proof (IH t1 (S i) (only_prunes_keyed _ _ H1 Hk)) as H2.
  destruct (sweep_batches _ _ _ _ _ _ _) as [[b evs] t2]. cbn in *. by etrans.
Qed.

Lemma sweepRetention_prunes rc now envs1 envs2 t :
  (forall i t, intf (envs1 i).2 t = t) -> (forall i t, intf (envs2 i).2 t = t) -> keyed t ->
  only_prunes t (sweepRetention rc now envs1 envs2 t).2.
Proof.
  intros Hq1 Hq2 Hk. unfold sweepRetention. destruct (_ && _); [done|]. destruct (_ && _); [done|].
  pose proof (sweep_target_prunes (rec_cfg rc) now JobStateCompleted (Completed (Retention (rec_cfg rc))) envs1 t Hq1 Hk) as H1.
  destruct (sweep_target _ _ _ _ envs1 t) as [[[] evs1] t1]; cbn in *; [done|].
  pose proof (sweep_target_prunes (rec_cfg rc) now JobStateDead (Dead (Retention (rec_cfg rc))) envs2 t1 Hq2
    (only_prunes_keyed _ _ H1 Hk)) as H2.
  destruct (sweep_target _ _ _ _ envs2 t1) as [[d evs2] t2]. cbn in *. by etrans.
Qed.

Lemma only_prunes_claimed cfg envs i due t t' jobs :
  only_prunes t t' -> holds_claimed cfg envs i due t jobs -> holds_claimed cfg envs i due t' jobs.
Proof.
  intros Hp Hh j job Hj. destruct (Hh j job Hj) as (row & tok & Hr & Ht & -> & Hl). exists row, tok.
  split; [done|]. split; [done|]. split; [done|].
  destruct (Hp (Job_ID (scanJob (claimed_in cfg (envs (i + j)%nat) tok row)))) as [->|(_ & r' & Hr' & [E|E])];
    [done|rewrite Hl in Hr'; injection Hr' as <-; discriminate E..].
Qed.

Lemma only_prunes_eligible now f t t' : only_prunes t t' -> eligible now f t = ∅ -> eligible now f t' = ∅.
Proof.
  intros Hp He. apply map_eq. intros k. rewrite lookup_empty. apply map_lookup_filter_None.
  destruct (Hp k) as [->|[-> _]]; [|by left].
  apply (f_equal (.!! k)) in He. by apply map_lookup_filter_None in He.
Qed.

Lemma sampleBacklog_snd rc now env t :
  (forall t, intf env t = t) -> (sampleBacklog rc now env t).2 = t.
Proof.
  intros Hq. unfold sampleBacklog. destruct (_ || _); [done|]. destruct (_ && _); [done|].
  unfold CountByState, run_stmt. destruct (fault env); by rewrite Hq.
Qed.

(** Housekeeping in a pass is undisturbed. *)
Definition quiet_housekeeping (pe : PassEnv) : Prop :=
  (forall i t, intf (pe_sweep1 pe i).2 t = t) /\ (forall i t, intf (pe_sweep2 pe i).2 t = t) /\
  (forall t, intf (pe_backlog pe) t = t).

(** C28. Nothing due is left behind.  Take a pass in which nothing fails, no
    other session acts or holds a lock during its claims and its housekeeping,
    and the pool takes what it is given, with the database clock at [now], and
    let the jobs claimable at [now] in its queues once it has reaped be fewer
    than its batch size.  Then the jobs it submits are exactly those, each
    once; the [j]-th is what the claim of its [j]-th round read back, and the
    table still holds that row, RUNNING under the token that round drew, when
    the pass returns; and no job is claimable at [now] any more. *)
Theorem pass_drains_due_jobs (r : Reconciler) (pe : PassEnv) (t : Jobs) (now : Time) :
  let f := mkClaimFilter "" (Queues (rec_cfg r)) [] in
  let t1 := (RequeueExpiredRunning (pe_reap pe) (BatchSize (rec_cfg r)) t).2 in
  let due := eligible now f t1 in
  table_ok t1 -> (forall j, quiet_round now t1 (pe_claims pe j)) -> quiet_housekeeping pe ->
  Z.of_nat (size due) < BatchSize (rec_cfg r) ->
  let '(_, evs, _, t') := reconcile r pe t in
  Job_ID <$> submitted evs ≡ₚ (map_to_list due).*1 /\
  holds_claimed (rec_cfg r) (pe_claims pe) 0 due t' (submitted evs) /\
  eligible now f t' = ∅.
Proof.
  intros f t1 due Hok Hq (Hq1 & Hq2 & Hq3) Hn. unfold reconcile.
  destruct (RequeueExpiredRunning _ _ _) as [reaped t1'] eqn:E1. cbn [snd] in t1. subst t1.
  assert (Hn' : (size due < Z.to_nat (BatchSize (rec_cfg r)))%nat) by lia.
  set (evs0 := match reaped with Error e => _ | Ok n => _ end).
  assert (H0 : submitted evs0 = []) by (unfold evs0; repeat case_goal; done). clearbody evs0.
  set (w := negb _). clearbody w.
  pose proof (claim_loop_drains (rec_cfg r) w (Z.to_nat (BatchSize (rec_cfg r))) 0 (pe_claims pe) t1' now
    Hok Hq Hn') as Hd.
  destruct (claim_loop _ _ _ _ _ _) as [[e evs1] t2]. destruct Hd as (-> & He & Ht2 & Hp & Hh & _). cbv iota beta.
  pose proof (sweepRetention_events r (pe_sweep_now pe) (pe_sweep1 pe) (pe_sweep2 pe) t2) as Hs2.
  pose proof (sweepRetention_prunes r (pe_sweep_now pe) (pe_sweep1 pe) (pe_sweep2 pe) t2 Hq1 Hq2 (ok_keyed _ Ht2)) as Hpr.
  destruct (sweepRetention _ _ _ _ _) as [[evs2 r1] t3]. cbn [fst snd] in *.
  pose proof (sampleBacklog_events r1 (pe_backlog_now pe) (pe_backlog pe) t3 JobStateDead) as [Hs3 _].
  pose proof (sampleBacklog_snd r1 (pe_backlog_now pe) (pe_backlog pe) t3 Hq3) as H4.
  destruct (sampleBacklog _ _ _ _) as [[evs3 r2] t4]. cbn [fst snd] in *. subst t4.
  rewrite !submitted_app, H0, Hs2, Hs3, !app_nil_r. split; [done|].
  split; [by eapply only_prunes_claimed|by eapply only_prunes_eligible].
Qed.

Lemma pass_drains_due_jobs_witness :
  let '(_, evs, _, t') := reconcile demo_reconciler (calm_pass ["j1"; "j2"]) demo_table in
  Job_ID <$> submitted evs ≡ₚ ["j1"; "j2"] /\ eligible demo_now (demo_filter AnyTenant) t' = ∅.
Proof.
  pose proof (pass_drains_due_jobs demo_reconciler (calm_pass ["j1"; "j2"]) demo_table demo_now) as H.
  destruct (reconcile _ _ _) as [[[w evs] r] t'].
  destruct H as (Hp & _ & He); [| | |vm_compute; reflexivity|split; [|exact He]].
  - pose proof (exec_ok (OReap (demo_env ["j1"; "j2"] 0) 10) demo_table) as H. cbn [exec op_envs] in H.
    apply H; [calm_envs|exact I|apply demo_table_ok].
  - intros j. repeat split; try done. intros k Hk.
    assert (Hd : (RequeueExpiredRunning (pe_reap (calm_pass ["j1"; "j2"]))
      (BatchSize (rec_cfg demo_reconciler)) demo_table).2 = demo_table) by (vm_compute; reflexivity).
    rewrite Hd in Hk. clear Hd.
    destruct (decide (k = "j1")) as [->|N1]; [left|]. destruct (decide (k = "j2")) as [->|N2]; [right; left|].
    exfalso. assert (Hd : demo_table = <["j2" := default (job_row zeroJob) (demo_table !! "j2")]>
      {["j1" := default (job_row zeroJob) (demo_table !! "j1")]}) by (vm_compute; reflexivity).
    rewrite Hd, lookup_insert_ne, lookup_singleton_ne in Hk by congruence. clear Hd.
    destruct Hk as [x Hk]. discriminate Hk.
  - repeat split; done.
  - rewrite Hp. match goal with |- ?l ≡ₚ _ => assert (Hl : l = ["j1"; "j2"]) by (vm_compute; reflexivity) end.
    by rewrite Hl.
Defined.

(** ** Shutdown *)

(** A claim the pool refuses is not given back.  The pool refuses only
    when the context is cancelled, and the release that follows runs on that
    same context, so it fails before reaching the database: the pass ends with
    the job still RUNNING under the lease of this instance, and no other
    instance can have it until that lease expires. *)
Theorem refused_claim_keeps_its_lease (r : Reconciler) (pe : PassEnv) (t t1 t2 : Jobs)
    (reaped : result Z) (job : Job) :
  let ce := pe_claims pe 0 in
  0 < BatchSize (rec_cfg r) ->
  RequeueExpiredRunning (pe_reap pe) (BatchSize (rec_cfg r)) t = (reaped, t1) ->
  ce_done ce = false -> keyed (intf (ce_claim ce) t1) ->
  ClaimNextJob (ce_claim ce) (RunningLease (rec_cfg r)) (mkClaimFilter "" (Queues (rec_cfg r)) []) t1 = (Ok job, t2) ->
  ce_submit ce = false -> fault (ce_release ce) = FaultBefore ErrCanceled ->
  (forall t, intf (ce_release ce) t = t) ->
  (reconcile r pe t).2 = t2 /\
  exists row, t2 !! Job_ID job = Some row /\ holds_lease (Job_LeaseToken job) row = true /\
    lease_expires_at row = Some (pg_ts (gonow (ce_claim ce) + RunningLease (rec_cfg r))) /\
    forall now f, claimable now f row = false.
Proof.
  intros ce HB Hreap Hd Hk Hcl Hsub Hf Hq. split.
  - unfold reconcile. rewrite Hreap. destruct (Z.to_nat (BatchSize (rec_cfg r))) as [|n] eqn:En; [lia|].
    cbn [claim_loop]. fold ce. rewrite Hd, Hcl, Hsub. cbn [negb].
    unfold ReleaseClaim, exec_update, run_stmt. by rewrite Hf, Hq.
  - apply ClaimNextJob_Ok in Hcl as (r0 & tok & _ & _ & -> & ->); [|done]. eexists.
    cbn [Job_ID scanJob id claim_row set_row]. rewrite lookup_insert_eq. split; [done|].
    split; [by apply holds_lease_spec|]. split; [done|]. intros now f. unfold claimable. by rewrite bool_decide_false.
Qed.

Definition shutdown_claims (i : nat) : ClaimEnv :=
  mkClaimEnv false (demo_env ["j1"] 3) false
    (mkEnv (fun t => t) (FaultBefore ErrCanceled) demo_now demo_now [] None).

Definition shutdown_pass : PassEnv :=
  mkPassEnv (demo_env ["j1"] 0) shutdown_claims demo_now (fun _ => (true, demo_env [] 0))
    (fun _ => (true, demo_env [] 0)) demo_now (demo_env [] 0).

Lemma refused_claim_keeps_its_lease_witness :
  exists row, (reconcile demo_reconciler shutdown_pass demo_table).2 !! "j1" = Some row /\
    holds_lease (demo_token 3) row = true.
Proof.
  destruct (RequeueExpiredRunning (pe_reap shutdown_pass) (BatchSize (rec_cfg demo_reconciler)) demo_table)
    as [reaped t1] eqn:E1.
  assert (Ht1 : t1 = demo_table) by (vm_compute in E1; injection E1 as _ <-; vm_compute; reflexivity).
  destruct (ClaimNextJob (demo_env ["j1"] 3) (RunningLease (rec_cfg demo_reconciler)) (mkClaimFilter "" [] []) t1)
    as [[job|e] t2] eqn:E2.
  - assert (Hj : Job_ID job = "j1" /\ Job_LeaseToken job = demo_token 3)
      by (rewrite Ht1 in E2; vm_compute in E2; injection E2 as <- _; split; reflexivity).
    destruct Hj as [<- <-].
    destruct (refused_claim_keeps_its_lease demo_reconciler shutdown_pass demo_table t1 t2 reaped job)
      as (-> & row & H1 & H2 & _).
    + reflexivity.
    + exact E1.
    + reflexivity.
    + rewrite Ht1. apply ok_keyed, demo_table_ok.
    + exact E2.
    + reflexivity.
    + reflexivity.
    + intros t. reflexivity.
    + exists row. split; [exact H1|exact H2].
  - exfalso. rewrite Ht1 in E2. vm_compute in E2. discriminate.
Defined.
