(* ===== verification/Loops.v ===== *)
(** * Start and Stop of the reconciler and of the scheduler

    internal/reconciler/reconciler.go and internal/scheduler/scheduler.go run
    their passes on a goroutine of their own, ended through a child context;
    Stop cancels it and waits for the wait group.  Start makes the context
    under the mutex, and only after releasing it adds to the wait group and
    starts the goroutine: these are three steps, and a Stop may come between
    any two.  The two loops differ in that the reconciler passes before it first
    waits and has a wake slot.  A step is one critical section or one statement
    of a caller, or one move of a goroutine; all interleavings are runs. *)

From S2P Require Import Prelude.

(** Which of the two loops. *)
Inductive Kind := KReconciler | KScheduler.

Inductive GoPhase :=
  | Unlocked                       (* Start is between its Unlock and wg.Add *)
  | Added                          (* between wg.Add and the go statement *)
  | Passing
  | Selecting.

#[global] Instance GoPhase_eq_dec : EqDecision GoPhase.
Proof. solve_decision. Defined.

(** A child context with the Start that made it, later the goroutine that has
    it: whether the context is done, and where they are. *)
Record Goroutine := mkGo { ctx_done : bool; go_phase : GoPhase }.

Record Loop := mkLoop {
  kind : Kind;
  cancel_fn : option nat;          (* nil, or cancels this child context *)
  gos : gmap nat Goroutine;
  next_go : nat;
  slot : bool;                     (* the wake channel, of capacity one *)
  parent_done : bool
}.

Definition New (k : Kind) : Loop := mkLoop k None ∅ 0 false false.

Definition set_gos (g : gmap nat Goroutine) (l : Loop) : Loop :=
  mkLoop (kind l) (cancel_fn l) g (next_go l) (slot l) (parent_done l).

(** Start's critical section. *)
Definition Start (l : Loop) : Loop :=
  match cancel_fn l with
  | Some _ => l
  | None =>
      mkLoop (kind l) (Some (next_go l)) (<[next_go l := mkGo (parent_done l) Unlocked]> (gos l))
        (next_go l + 1) (slot l) (parent_done l)
  end.

Definition in_phase (p : GoPhase) (i : nat) (l : Loop) : bool :=
  match gos l !! i with Some g => bool_decide (go_phase g = p) | None => false end.

Definition set_phase (p : GoPhase) (i : nat) (l : Loop) : Loop :=
  set_gos (alter (fun g => mkGo (ctx_done g) p) i (gos l)) l.

(** What follows it: [wg.Add(1)], then the go statement. *)
Definition add_wg (i : nat) (l : Loop) : Loop := if in_phase Unlocked i l then set_phase Added i l else l.

Definition spawn_go (i : nat) (l : Loop) : Loop :=
  if in_phase Added i l
  then set_phase (match kind l with KReconciler => Passing | KScheduler => Selecting end) i l else l.

(** A Start nobody interferes with. *)
Definition start_alone (l : Loop) : Loop := spawn_go (next_go l) (add_wg (next_go l) (Start l)).

Definition finish_ctx (g : Goroutine) : Goroutine := mkGo true (go_phase g).

(** Stop up to its Wait. *)
Definition Stop (l : Loop) : Loop :=
  match cancel_fn l with
  | None => l
  | Some i => mkLoop (kind l) None (alter finish_ctx i (gos l)) (next_go l) (slot l) (parent_done l)
  end.

(** The wait group's count: from wg.Add to the end of the goroutine. *)
Definition counted (g : Goroutine) : bool := negb (bool_decide (go_phase g = Unlocked)).

(** Its Wait returns once that is zero. *)
Definition wait_returns (l : Loop) : bool := bool_decide (map_Forall (fun _ g => counted g = false) (gos l)).

(** Some Start has made its context and not reached wg.Add. *)
Definition starting (l : Loop) : bool := negb (bool_decide (map_Forall (fun _ g => counted g = true) (gos l))).

Definition Poke (l : Loop) : Loop := mkLoop (kind l) (cancel_fn l) (gos l) (next_go l) true (parent_done l).

Definition cancel_parent (l : Loop) : Loop :=
  mkLoop (kind l) (cancel_fn l) (finish_ctx <$> gos l) (next_go l) (slot l) true.

(** Moves of a goroutine: the end of its pass; the timer; the slot; Done. *)
Definition pass_end (i : nat) (l : Loop) : Loop := if in_phase Passing i l then set_phase Selecting i l else l.

Definition timer (i : nat) (l : Loop) : Loop := if in_phase Selecting i l then set_phase Passing i l else l.

Definition take_slot (i : nat) (l : Loop) : Loop :=
  match kind l with
  | KScheduler => l
  | KReconciler =>
      if in_phase Selecting i l && slot l
      then set_phase Passing i (mkLoop (kind l) (cancel_fn l) (gos l) (next_go l) false (parent_done l))
      else l
  end.

Definition see_ctx_done (i : nat) (l : Loop) : Loop :=
  match gos l !! i with
  | Some (mkGo true Selecting) => set_gos (delete i (gos l)) l
  | _ => l
  end.

Inductive loop_event :=
  | EvStart | EvAdd (i : nat) | EvGo (i : nat) | EvStop | EvPoke | EvParent
  | EvPassEnd (i : nat) | EvTimer (i : nat) | EvSlot (i : nat) | EvDone (i : nat).

#[global] Instance loop_event_eq_dec : EqDecision loop_event.
Proof. solve_decision. Defined.

Definition loop_step (l : Loop) (e : loop_event) : Loop :=
  match e with
  | EvStart => Start l
  | EvAdd i => add_wg i l
  | EvGo i => spawn_go i l
  | EvStop => Stop l
  | EvPoke => Poke l
  | EvParent => cancel_parent l
  | EvPassEnd i => pass_end i l
  | EvTimer i => timer i l
  | EvSlot i => take_slot i l
  | EvDone i => see_ctx_done i l
  end.

Definition loop_run (es : list loop_event) (l : Loop) : Loop := foldl loop_step l es.

(** ** The invariant *)

Definition live_go (l : Loop) (i : nat) : Prop := exists g, gos l !! i = Some g /\ ctx_done g = false.

Record loop_ok (l : Loop) : Prop := {
  go_old : forall i g, gos l !! i = Some g -> (i < next_go l)%nat;
  go_live : forall i, live_go l i -> cancel_fn l = Some i
}.

(** A change that keeps which goroutines there are and revives none. *)
Lemma same_gos_ok l l' : loop_ok l -> cancel_fn l' = cancel_fn l -> next_go l' = next_go l ->
  (forall i g', gos l' !! i = Some g' -> exists g, gos l !! i = Some g /\ (ctx_done g = true -> ctx_done g' = true)) ->
  loop_ok l'.
Proof.
  intros [Hold Hlive] Hc Hn Hg. split.
  - intros i g' Hi. destruct (Hg i g' Hi) as (g & ? & _). rewrite Hn. by eapply Hold.
  - intros i (g' & Hi & Hd). destruct (Hg i g' Hi) as (g & Hgi & Himp). rewrite Hc. apply Hlive. exists g.
    split; [done|]. destruct (ctx_done g); [|done]. by rewrite Himp in Hd.
Qed.

Lemma alter_gos (f : Goroutine -> Goroutine) i j (m : gmap nat Goroutine) g' :
  (forall g, ctx_done g = true -> ctx_done (f g) = true) -> alter f i m !! j = Some g' ->
  exists g, m !! j = Some g /\ (ctx_done g = true -> ctx_done g' = true).
Proof.
  intros Hf. rewrite lookup_alter_Some. intros [(-> & g & Hg & ->)|[_ Hg]]; eauto.
Qed.

Lemma set_phase_ok p i l : loop_ok l -> loop_ok (set_phase p i l).
Proof. intros Hok. eapply same_gos_ok; [done..|]. intros j g'. by apply alter_gos. Qed.

Lemma Start_ok l : loop_ok l -> loop_ok (Start l).
Proof.
  intros [Hold Hlive]. unfold Start. destruct (cancel_fn l) as [i|] eqn:Hc; [by split; rewrite ?Hc|].
  assert (Hdead : forall i g, gos l !! i = Some g -> ctx_done g = true).
  { intros i g Hi. destruct (ctx_done g) eqn:E; [done|]. assert (Hli : live_go l i) by (by exists g).
    specialize (Hlive i Hli). congruence. }
  split; cbn.
  - intros i g. rewrite lookup_insert_Some. intros [[<- _]|[_ Hi]]; [lia|]. specialize (Hold i g Hi). lia.
  - intros i (g & Hi & Hd). cbn in Hi. apply lookup_insert_Some in Hi as [[<- _]|[_ Hi]]; [done|]. by rewrite (Hdead i g Hi) in Hd.
Qed.

Lemma Stop_ok l : loop_ok l -> cancel_fn (Stop l) = None /\ loop_ok (Stop l).
Proof.
  intros [Hold Hlive]. unfold Stop. destruct (cancel_fn l) as [i|] eqn:Hc; [|by split; [|split; rewrite ?Hc]].
  split; [done|]. split; cbn.
  - intros j g Hj. apply alter_gos in Hj as (g0 & Hj & _); [by eapply Hold|done].
  - intros j (g & Hj & Hd). cbn in Hj. apply lookup_alter_Some in Hj as [(-> & g0 & _ & ->)|[Hne Hj]]; [done|].
    assert (Hlj : live_go l j) by (by exists g). specialize (Hlive j Hlj). congruence.
Qed.

Lemma loop_step_ok l e : loop_ok l -> loop_ok (loop_step l e).
Proof.
  intros Hok. pose proof (fun p i => set_phase_ok p i l Hok) as Hph.
  destruct e as [|i|i| | | |i|i|i|i]; cbn.
  - by apply Start_ok.
  - unfold add_wg. by case_match.
  - unfold spawn_go. by case_match.
  - by apply Stop_ok.
  - eapply same_gos_ok; eauto.
  - eapply same_gos_ok; [done..|]. intros j g'. cbn. rewrite lookup_fmap, fmap_Some. intros (g & ? & ->). eauto.
  - unfold pass_end. by case_match.
  - unfold timer. by case_match.
  - unfold take_slot. destruct (kind l); [|done]. destruct (_ && _); [|done].
    apply set_phase_ok. eapply same_gos_ok; eauto.
  - unfold see_ctx_done. destruct (gos l !! i) as [[[] []]|]; try done.
    eapply same_gos_ok; [done..|]. intros j g'. cbn. rewrite lookup_delete_Some. intros [_ ?]. eauto.
Qed.

Lemma loop_run_ok es l : loop_ok l -> loop_ok (loop_run es l).
Proof. revert l. induction es as [|e es IH]; intros l Hok; [done|]. apply IH. by apply loop_step_ok. Qed.

Lemma New_loop_ok k : loop_ok (New k).
Proof. split; cbn; [intros; set_solver|]. intros i (g & Hg & _). set_solver. Qed.

(** Without a Start a stopped loop stays stopped, and no context appears. *)
Lemma stopped_step l e : e <> EvStart -> cancel_fn l = None ->
  cancel_fn (loop_step l e) = None /\ dom (gos (loop_step l e)) ⊆ dom (gos l).
Proof.
  intros He Hc. assert (Hph : forall (b : bool) p i, let l' := if b then set_phase p i l else l in
    cancel_fn l' = None /\ dom (gos l') ⊆ dom (gos l)) by (intros [] p i; cbn; rewrite ?dom_alter_L; done).
  destruct e; try done; cbn; try apply Hph.
  - unfold Stop. rewrite Hc. done.
  - rewrite dom_fmap_L. done.
  - unfold take_slot. destruct (kind l); [|done]. destruct (_ && _); cbn; rewrite ?dom_alter_L; done.
  - unfold see_ctx_done. destruct (gos l !! i) as [[[] []]|]; cbn; rewrite ?dom_delete_L; set_solver.
Qed.

Lemma stopped_run es l : EvStart ∉ es -> cancel_fn l = None ->
  cancel_fn (loop_run es l) = None /\ dom (gos (loop_run es l)) ⊆ dom (gos l).
Proof.
  revert l. induction es as [|e es IH]; intros l He Hc; [done|]. cbn.
  destruct (stopped_step l e) as [Hc' Hd]; [set_solver|done|].
  destruct (IH (loop_step l e)) as [? ?]; [set_solver|done|]. split; [done|set_solver].
Qed.

(** A Start that has reached wg.Add does not go back. *)
Lemma starting_spec l : starting l = false <-> forall i g, gos l !! i = Some g -> counted g = true.
Proof. unfold starting. rewrite negb_false_iff, bool_decide_eq_true. done. Qed.

Lemma starting_step l e : e <> EvStart -> starting l = false -> starting (loop_step l e) = false.
Proof.
  rewrite !starting_spec. intros He Hs.
  assert (Halt : forall f (l' : Loop) i, gos l' = alter f i (gos l) -> (forall g, counted g = true -> counted (f g) = true) ->
    forall j g, gos l' !! j = Some g -> counted g = true).
  { intros f l' i -> Hf j g. rewrite lookup_alter_Some. intros [(-> & g0 & Hg & ->)|[_ Hg]]; eauto. }
  assert (Hph : forall p i, p <> Unlocked -> forall j g, gos (set_phase p i l) !! j = Some g -> counted g = true).
  { intros p i Hp. eapply (Halt _ (set_phase p i l) i eq_refl). intros g _. by destruct p. }
  destruct e as [|i|i| | | |i|i|i|i]; cbn; try done.
  - unfold add_wg. case_match; [by apply Hph|done].
  - unfold spawn_go. case_match; [|done]. by destruct (kind l); apply Hph.
  - unfold Stop. destruct (cancel_fn l) as [c|]; [|done]. by eapply Halt.
  - intros j g. cbn. rewrite lookup_fmap, fmap_Some. intros (g0 & Hg & ->). by apply (Hs j g0).
  - unfold pass_end. case_match; [by apply Hph|done].
  - unfold timer. case_match; [by apply Hph|done].
  - unfold take_slot. destruct (kind l); [|done]. destruct (_ && _); [by apply (Hph Passing i)|done].
  - unfold see_ctx_done. destruct (gos l !! i) as [[[] []]|]; try done.
    intros j g. cbn. rewrite lookup_delete_Some. intros [_ ?]. eauto.
Qed.

Lemma starting_run es l : EvStart ∉ es -> starting l = false -> starting (loop_run es l) = false.
Proof.
  revert l. induction es as [|e es IH]; intros l He Hs; [done|]. cbn. apply IH; [set_solver|].
  apply starting_step; [set_solver|done].
Qed.

Lemma counted_none l : starting l = false -> wait_returns l = true -> gos l = ∅.
Proof.
  rewrite starting_spec. unfold wait_returns. rewrite bool_decide_eq_true. intros Hs Hw. apply map_empty. intros i.
  destruct (gos l !! i) as [g|] eqn:E; [|done]. specialize (Hs i g E). specialize (Hw i g E). cbn in Hw. congruence.
Qed.

Lemma done_selecting_leaves l i : gos l !! i = Some (mkGo true Selecting) -> gos (see_ctx_done i l) = delete i (gos l).
Proof. intros Hi. unfold see_ctx_done. by rewrite Hi. Qed.

Lemma set_phase_lookup p i l d q : gos l !! i = Some (mkGo d q) -> gos (set_phase p i l) !! i = Some (mkGo d p).
Proof. intros Hi. unfold set_phase. cbn. by rewrite lookup_alter_eq, Hi. Qed.

Lemma set_phase_delete p i l : delete i (gos (set_phase p i l)) = delete i (gos l).
Proof. cbn. apply map_eq. intros j. destruct (decide (i = j)) as [->|Hne]; [by rewrite !lookup_delete_eq|].
  rewrite !lookup_delete_ne by done. by rewrite lookup_alter_ne. Qed.

(** A goroutine whose context is done leaves as soon as it has started, its pass
    is over and the select sees it. *)
Lemma done_goroutine_leaves l i g : gos l !! i = Some g -> ctx_done g = true ->
  gos (loop_run [EvAdd i; EvGo i; EvPassEnd i; EvDone i] l) = delete i (gos l).
Proof.
  destruct g as [d p]. intros Hi Hd. cbn in Hd. subst d. cbn [loop_run foldl loop_step].
  set (l1 := add_wg i l). set (l2 := spawn_go i l1). set (l3 := pass_end i l2).
  assert (H1 : exists q, gos l1 !! i = Some (mkGo true q) /\ q <> Unlocked /\ delete i (gos l1) = delete i (gos l)).
  { unfold l1, add_wg, in_phase. rewrite Hi. cbn. case_bool_decide as E; [|by exists p].
    exists Added. split; [by eapply set_phase_lookup|]. split; [done|apply set_phase_delete]. }
  destruct H1 as (q1 & Hi1 & Hq1 & Hd1).
  assert (H2 : exists q, gos l2 !! i = Some (mkGo true q) /\ (q = Passing \/ q = Selecting) /\ delete i (gos l2) = delete i (gos l)).
  { unfold l2, spawn_go, in_phase. rewrite Hi1. cbn. case_bool_decide as E; [|by exists q1; destruct q1; auto].
    eexists. split; [by eapply set_phase_lookup|]. split; [by destruct (kind l1); auto|by rewrite set_phase_delete]. }
  destruct H2 as (q2 & Hi2 & Hq2 & Hd2).
  assert (H3 : gos l3 !! i = Some (mkGo true Selecting) /\ delete i (gos l3) = delete i (gos l)).
  { unfold l3, pass_end, in_phase. rewrite Hi2. cbn. case_bool_decide as E.
    - split; [by eapply set_phase_lookup|by rewrite set_phase_delete].
    - destruct Hq2 as [->| ->]; [done|]. done. }
  destruct H3 as [Hi3 Hd3]. by rewrite done_selecting_leaves.
Qed.

(** C36. However Start, Stop, Wake, the parent's cancellation and the goroutines
    interleave, at most one child context of a loop is not done.  From a Stop
    until the next Start no context appears and none is left that is not done;
    whoever still has one is gone as soon as it has started, ended its pass and
    seen that in its select.  If no Start was between its critical section and
    wg.Add when Stop was called - as in run, which calls both from one goroutine
    - then once Stop's Wait returns no goroutine is left and none comes back.
    If one was, Stop can return first, and the reconciler then still makes a
    pass. *)
Theorem one_live_loop (k : Kind) (es es' : list loop_event) :
  let l := loop_run es (New k) in
  (forall i j, live_go l i -> live_go l j -> i = j) /\
  (EvStart ∉ es' ->
   let l' := loop_run es' (Stop l) in
   (forall i, ~ live_go l' i) /\
   dom (gos l') ⊆ dom (gos l) /\
   (forall i, i ∈ dom (gos l') -> gos (loop_run [EvAdd i; EvGo i; EvPassEnd i; EvDone i] l') = delete i (gos l')) /\
   (starting l = false -> wait_returns l' = true ->
      forall es'', EvStart ∉ es'' -> gos (loop_run es'' l') = ∅)) /\
  (let l := loop_run [EvStart; EvStop] (New KReconciler) in
   wait_returns l = true /\ in_phase Passing 0 (loop_run [EvAdd 0; EvGo 0] l) = true).
Proof.
  intros l. assert (Hok : loop_ok l) by apply loop_run_ok, New_loop_ok.
  split; [intros i j Hi%(go_live _ Hok) Hj%(go_live _ Hok); congruence|]. split; [|by split; vm_compute].
  intros He l'. destruct (Stop_ok l Hok) as [Hc Hok1]. destruct (stopped_run es' (Stop l) He Hc) as [Hc' Hdom].
  fold l' in Hc', Hdom. assert (Hok' : loop_ok l') by (by apply loop_run_ok).
  assert (Hdead : forall i, ~ live_go l' i) by (intros i ?%(go_live _ Hok'); congruence).
  assert (Hsame : dom (gos (Stop l)) ⊆ dom (gos l)).
  { unfold Stop. destruct (cancel_fn l); cbn; [by rewrite dom_alter_L|done]. }
  split_and!; [done|set_solver| |].
  - intros i [g Hg]%elem_of_dom. eapply done_goroutine_leaves; [done|].
    destruct (ctx_done g) eqn:E; [done|]. destruct (Hdead i). by exists g.
  - intros Hs Hw es'' He''. assert (Hs' : starting l' = false).
    { apply starting_run; [done|]. by apply (starting_step l EvStop). }
    destruct (stopped_run es'' l' He'' Hc') as [_ Hd]. apply dom_empty_inv_L.
    rewrite (counted_none l' Hs' Hw), dom_empty_L in Hd. set_solver.
Qed.

Lemma one_live_loop_witness :
  let l := loop_run [EvStart; EvAdd 0; EvGo 0; EvPoke; EvStart; EvPassEnd 0; EvSlot 0; EvStop; EvStart; EvAdd 1; EvGo 1; EvPassEnd 0; EvDone 0]
             (New KReconciler) in
  live_go l 1 /\ starting l = false /\ wait_returns (loop_run [EvPassEnd 1; EvDone 1] (Stop l)) = true /\
  gos (loop_run [EvTimer 1] (loop_run [EvPassEnd 1; EvDone 1] (Stop l))) = ∅.
Proof.
  split_and!.
  - exists (mkGo false Passing). split; vm_compute; reflexivity.
  - vm_compute. reflexivity.
  - vm_compute. reflexivity.
  - apply (one_live_loop KReconciler
      [EvStart; EvAdd 0; EvGo 0; EvPoke; EvStart; EvPassEnd 0; EvSlot 0; EvStop; EvStart; EvAdd 1; EvGo 1; EvPassEnd 0; EvDone 0]
      [EvPassEnd 1; EvDone 1]).
    + apply (bool_decide_unpack _). vm_compute. exact I.
    + vm_compute. reflexivity.
    + vm_compute. reflexivity.
    + apply (bool_decide_unpack _). vm_compute. exact I.
Defined.
