(* ===== verification/Pages.v ===== *)
(** * ListJobs of internal/store/store.go: keyset pagination

    The cursor is base64 (RawURLEncoding) of "micros|id".  A page is the rows
    strictly after the cursor in (created_at DESC, id DESC), one more than
    asked for to know whether there is a next page.  Following the cursors
    lists every matching row exactly once, in order. *)

From S2P Require Import Prelude Models JobStore JobFacts JobSystem JobSpec JobProps GoStrings.

(** ** base64.RawURLEncoding *)

Definition b64_char (n : Z) : ascii :=
  ascii_of_N (Z.to_N (if n <? 26 then 65 + n else if n <? 52 then 71 + n else if n <? 62 then n - 4
                      else if n =? 62 then 45 else 95)).

Definition b64_val (c : ascii) : option Z :=
  let b := byte_of c in
  if (65 <=? b) && (b <=? 90) then Some (b - 65)
  else if (97 <=? b) && (b <=? 122) then Some (b - 71)
  else if (48 <=? b) && (b <=? 57) then Some (b + 4)
  else if b =? 45 then Some 62 else if b =? 95 then Some 63 else None.

Definition chr (b : Z) : ascii := ascii_of_N (Z.to_N b).

(** [EncodeToString]: three bytes to four digits, a tail of one or two bytes
    to two or three, no padding. *)
Fixpoint b64_encode (s : string) : string :=
  match s with
  | String c0 (String c1 (String c2 rest)) =>
      let v := byte_of c0 * 65536 + byte_of c1 * 256 + byte_of c2 in
      String (b64_char (v / 262144)) (String (b64_char (v / 4096 mod 64))
        (String (b64_char (v / 64 mod 64)) (String (b64_char (v mod 64)) (b64_encode rest))))
  | String c0 (String c1 EmptyString) =>
      let v := byte_of c0 * 1024 + byte_of c1 * 4 in
      String (b64_char (v / 4096)) (String (b64_char (v / 64 mod 64)) (String (b64_char (v mod 64)) ""))
  | String c0 EmptyString =>
      let v := byte_of c0 * 16 in String (b64_char (v / 64)) (String (b64_char (v mod 64)) "")
  | EmptyString => ""
  end.

Definition b64_error : error := ErrText "illegal base64 data".

(** The decoder skips line breaks wherever they stand. *)
Fixpoint strip_newlines (s : string) : string :=
  match s with
  | EmptyString => ""
  | String c s' =>
      if (byte_of c =? 10) || (byte_of c =? 13) then strip_newlines s' else String c (strip_newlines s')
  end.

Fixpoint b64_decode_digits (s : string) : result string :=
  match s with
  | EmptyString => Ok ""
  | String c0 (String c1 (String c2 (String c3 rest))) =>
      match b64_val c0, b64_val c1, b64_val c2, b64_val c3 with
      | Some d0, Some d1, Some d2, Some d3 =>
          let v := d0 * 262144 + d1 * 4096 + d2 * 64 + d3 in
          match b64_decode_digits rest with
          | Ok t => Ok (String (chr (v / 65536)) (String (chr (v / 256 mod 256)) (String (chr (v mod 256)) t)))
          | Error e => Error e
          end
      | _, _, _, _ => Error b64_error
      end
  | String c0 (String c1 (String c2 EmptyString)) =>
      match b64_val c0, b64_val c1, b64_val c2 with
      | Some d0, Some d1, Some d2 =>
          let v := d0 * 4096 + d1 * 64 + d2 in Ok (String (chr (v / 1024)) (String (chr (v / 4 mod 256)) ""))
      | _, _, _ => Error b64_error
      end
  | String c0 (String c1 EmptyString) =>
      match b64_val c0, b64_val c1 with
      | Some d0, Some d1 => Ok (String (chr ((d0 * 64 + d1) / 16)) "")
      | _, _ => Error b64_error
      end
  | String _ EmptyString => Error b64_error
  end.

Definition b64_decode (s : string) : result string := b64_decode_digits (strip_newlines s).

(** ** Cursors *)

Definition bar : ascii := ascii_of_N 124.

Definition encodeCursor (t : Time) (id : string) : string :=
  b64_encode (Itoa (UnixMicro t) +:+ String bar id).

Definition decodeCursor (c : string) : result (Time * string) :=
  match b64_decode c with
  | Error e => Error e
  | Ok raw =>
      match SplitN2 raw bar with
      | [p0; p1] =>
          match ParseInt p0 with
          | Error e => Error e
          | Ok micros => Ok (ofUnixMicro micros, p1)
          end
      | _ => Error (ErrText "malformed cursor")
      end
  end.

(** ** Round trips *)

Lemma chr_byte_of c : chr (byte_of c) = c.
Proof. unfold chr, byte_of. rewrite N2Z.id. apply Ascii.ascii_N_embedding. Qed.

Lemma byte_of_chr b : 0 <= b < 256 -> byte_of (chr b) = b.
Proof. intros Hb. unfold chr, byte_of. rewrite Ascii.N_ascii_embedding by lia. lia. Qed.

Lemma b64_byte n : 0 <= n < 64 ->
  byte_of (b64_char n) = if n <? 26 then 65 + n else if n <? 52 then 71 + n else if n <? 62 then n - 4
                         else if n =? 62 then 45 else 95.
Proof. intros Hn. unfold b64_char. apply byte_of_chr. repeat case_goal; zbool; lia. Qed.

Lemma b64_val_char n : 0 <= n < 64 -> b64_val (b64_char n) = Some n.
Proof.
  intros Hn. unfold b64_val. rewrite b64_byte by done.
  destruct (n <? 26) eqn:E1; [|destruct (n <? 52) eqn:E2; [|destruct (n <? 62) eqn:E3; [|destruct (n =? 62) eqn:E4]]];
    zbool; repeat match goal with |- context [(?a <=? ?b) && (?c <=? ?d)] =>
      destruct (a <=? b) eqn:?, (c <=? d) eqn:?; zbool; cbn [andb]; try lia end; try (f_equal; lia).
Qed.

Lemma b64_char_no_newline n : 0 <= n < 64 ->
  (byte_of (b64_char n) =? 10) || (byte_of (b64_char n) =? 13) = false.
Proof.
  intros Hn. rewrite b64_byte by done. apply orb_false_iff. rewrite !Z.eqb_neq.
  repeat case_goal; zbool; lia.
Qed.

(** Induction three bytes at a time. *)
Lemma string_ind3 (P : string -> Prop) :
  P "" -> (forall a, P (String a "")) -> (forall a b, P (String a (String b ""))) ->
  (forall a b c s, P s -> P (String a (String b (String c s)))) -> forall s, P s.
Proof.
  intros H0 H1 H2 H3. fix IH 1. intros [|a [|b [|c s]]]; [done|apply H1|apply H2|apply H3, IH].
Qed.

Lemma strip_b64 s : strip_newlines (b64_encode s) = b64_encode s.
Proof.
  induction s as [|a|a b|a b c s IH] using string_ind3; [done|..]; cbn [b64_encode strip_newlines].
  - pose proof (byte_of_range a).
    rewrite !b64_char_no_newline; [done|Z.div_mod_to_equations; lia..].
  - pose proof (byte_of_range a). pose proof (byte_of_range b).
    rewrite !b64_char_no_newline; [done|Z.div_mod_to_equations; lia..].
  - pose proof (byte_of_range a). pose proof (byte_of_range b). pose proof (byte_of_range c).
    rewrite !b64_char_no_newline; [by rewrite IH|Z.div_mod_to_equations; lia..].
Qed.

Lemma b64_decode_encode s : b64_decode (b64_encode s) = Ok s.
Proof.
  unfold b64_decode. rewrite strip_b64.
  induction s as [|a|a b|a b c s IH] using string_ind3; [done|..]; cbn [b64_encode b64_decode_digits].
  - pose proof (byte_of_range a) as Ha. rewrite !b64_val_char by (Z.div_mod_to_equations; lia).
    set (v := byte_of a * 16). replace ((v / 64 * 64 + v mod 64) / 16) with (byte_of a);
      [by rewrite chr_byte_of|]. unfold v. Z.div_mod_to_equations. lia.
  - pose proof (byte_of_range a) as Ha. pose proof (byte_of_range b) as Hb.
    rewrite !b64_val_char by (Z.div_mod_to_equations; lia).
    set (v := byte_of a * 1024 + byte_of b * 4).
    replace (v / 4096 * 4096 + v / 64 mod 64 * 64 + v mod 64) with v by (Z.div_mod_to_equations; lia).
    replace (v / 1024) with (byte_of a) by (unfold v; Z.div_mod_to_equations; lia).
    replace (v / 4 mod 256) with (byte_of b) by (unfold v; Z.div_mod_to_equations; lia).
    by rewrite !chr_byte_of.
  - pose proof (byte_of_range a) as Ha. pose proof (byte_of_range b) as Hb. pose proof (byte_of_range c) as Hc.
    rewrite !b64_val_char by (Z.div_mod_to_equations; lia). rewrite IH.
    set (v := byte_of a * 65536 + byte_of b * 256 + byte_of c).
    replace (v / 262144 * 262144 + v / 4096 mod 64 * 4096 + v / 64 mod 64 * 64 + v mod 64) with v
      by (Z.div_mod_to_equations; lia).
    replace (v / 65536) with (byte_of a) by (unfold v; Z.div_mod_to_equations; lia).
    replace (v / 256 mod 256) with (byte_of b) by (unfold v; Z.div_mod_to_equations; lia).
    replace (v mod 256) with (byte_of c) by (unfold v; Z.div_mod_to_equations; lia).
    by rewrite !chr_byte_of.
Qed.

(** A stored timestamp: whole microseconds, in the range of the column. *)
Definition stored_ts (t : Time) : Prop :=
  t mod Microsecond = 0 /\ int64_min <= UnixMicro t <= int64_max.

Lemma ofUnixMicro_stored t : t mod Microsecond = 0 -> ofUnixMicro (UnixMicro t) = t.
Proof.
  intros Hm. unfold ofUnixMicro, UnixMicro, unixEpoch, Microsecond, Second in *.
  Z.div_mod_to_equations. lia.
Qed.

Lemma decode_encode_cursor t id : stored_ts t -> decodeCursor (encodeCursor t id) = Ok (t, id).
Proof.
  intros [Hm Hr]. unfold decodeCursor, encodeCursor. rewrite b64_decode_encode, SplitN2_app.
  - by rewrite ParseInt_Itoa, ofUnixMicro_stored.
  - apply Itoa_no_sep; [by right|done].
Qed.

(** A cursor names a row and survives the trip: decoding what was
    encoded gives back the row's timestamp and id, whatever bytes the id
    holds, separators included. *)
Theorem cursor_roundtrip (t : Time) (id : string) :
  stored_ts t -> decodeCursor (encodeCursor t id) = Ok (t, id).
Proof. apply decode_encode_cursor. Qed.

Lemma cursor_roundtrip_witness :
  decodeCursor (encodeCursor demo_now "a|b") = Ok (demo_now, "a|b").
Proof. apply (cursor_roundtrip demo_now "a|b"). split; [reflexivity|]. vm_compute. split; discriminate. Defined.

(** ** ListJobs *)

Record ListFilter := mkListFilter {
  Filter_Tenant_ : string;
  Filter_State : JobState;     (* JobStateUnset: any *)
  Filter_Limit : Z;
  Filter_Cursor : string
}.

Definition page_limit (f : ListFilter) : Z :=
  let limit := if Filter_Limit f <=? 0 then 50 else Filter_Limit f in
  if 500 <? limit then 500 else limit.

Section Listings.

(** Ids are compared in the database's collation, some total order. *)
Context (id_le : relation string) `{!RelDecision id_le, !PartialOrder id_le, !Total id_le}.

(** [ORDER BY created_at DESC, id DESC]. *)
Definition list_le (r1 r2 : JobRow) : Prop :=
  created_at r2 < created_at r1 \/ (created_at r1 = created_at r2 /\ id_le (id r2) (id r1)).

#[global] Instance list_le_dec : RelDecision list_le.
Proof. intros r1 r2. unfold list_le. apply _. Defined.

(** [(created_at, id) < ($n, $m)]. *)
Definition after_cursor (c : option (Time * string)) (r : JobRow) : bool :=
  match c with
  | None => true
  | Some (ts, i) =>
      bool_decide (created_at r < ts)
      || (bool_decide (created_at r = ts) && bool_decide (id_le (id r) i) && negb (bool_decide (id r = i)))
  end.

Definition list_matches (f : ListFilter) (r : JobRow) : bool :=
  (bool_decide (Filter_Tenant_ f = "") || bool_decide (tenant_id r = Filter_Tenant_ f))
  && (bool_decide (Filter_State f = JobStateUnset) || bool_decide (state r = Filter_State f)).

Definition list_rows (env : Env Jobs) (f : ListFilter) (c : option (Time * string)) (t : Jobs) : list JobRow :=
  merge_sort list_le (List.filter (fun r => list_matches f r && after_cursor c r) (all_rows (scan env) t)).

Definition ListJobs (env : Env Jobs) (f : ListFilter) (t : Jobs) : result (list Job * string) * Jobs :=
  let limit := page_limit f in
  match (if bool_decide (Filter_Cursor f = "") then Ok None
         else match decodeCursor (Filter_Cursor f) with Ok c => Ok (Some c) | Error e => Error e end) with
  | Error e => (Error (Wrapf "store: invalid cursor: " e), t)
  | Ok c =>
      match run_stmt env (fun t => (Ok (take (Z.to_nat (limit + 1)) (list_rows env f c t)), t)) t with
      | (Error e, t1) => (Error e, t1)
      | (Ok rows, t1) =>
          let jobs := scanJob <$> rows in
          if limit <? Z.of_nat (length jobs) then
            let next := match jobs !! Z.to_nat (limit - 1) with
                        | Some last => encodeCursor (Job_CreatedAt last) (Job_ID last)
                        | None => ""
                        end in
            (Ok (take (Z.to_nat limit) jobs, next), t1)
          else (Ok (jobs, ""), t1)
      end
  end.

(** A client following the cursors, in at most [fuel] requests. *)
Fixpoint all_pages (fuel : nat) (env : Env Jobs) (f : ListFilter) (cursor : string) (t : Jobs)
    : result (list Job) :=
  match fuel with
  | O => Error (ErrText "too many pages")
  | S fuel' =>
      match ListJobs env (mkListFilter (Filter_Tenant_ f) (Filter_State f) (Filter_Limit f) cursor) t with
      | (Error e, _) => Error e
      | (Ok (jobs, next), t1) =>
          if bool_decide (next = "") then Ok jobs
          else match all_pages fuel' env f next t1 with
               | Ok more => Ok (jobs ++ more)
               | Error e => Error e
               end
      end
  end.

(** *** The order *)

#[global] Instance list_le_total : Total list_le.
Proof.
  intros r1 r2. unfold list_le. destruct (Z.lt_trichotomy (created_at r1) (created_at r2)) as [?|[?|?]]; auto.
  destruct (total id_le (id r1) (id r2)); auto.
Qed.

#[global] Instance list_le_trans : Transitive list_le.
Proof.
  intros r1 r2 r3. unfold list_le. intros [?|[? ?]] [?|[? ?]]; try (left; lia). right. split; [lia|]. by etrans.
Qed.

Lemma list_le_antisym r1 r2 : list_le r1 r2 -> list_le r2 r1 -> id r1 = id r2.
Proof.
  unfold list_le. intros [?|[? H1]] [?|[? H2]]; try lia. by apply (anti_symm id_le).
Qed.

Lemma after_cursor_spec r x :
  (id r = id x -> r = x) ->
  after_cursor (Some (created_at x, id x)) r = true <-> list_le x r /\ r <> x.
Proof.
  intros Hid. unfold after_cursor, list_le.
  rewrite orb_true_iff, !andb_true_iff, negb_true_iff, bool_decide_eq_false, !bool_decide_eq_true. split.
  - intros [Hlt|[[He Hle] Hne]]; (split; [by auto|]); intros ->; [lia|done].
  - intros [[Hlt|[He Hle]] Hne]; [by left|right]. split; [done|]. auto.
Qed.

Lemma Lfilter_perm {A} (p : A -> bool) l1 l2 : l1 ≡ₚ l2 -> List.filter p l1 ≡ₚ List.filter p l2.
Proof.
  induction 1; cbn; repeat case_goal; try done; [by constructor|by constructor|by etrans].
Qed.

Lemma Lfilter_and {A} (p q : A -> bool) l :
  List.filter (fun x => p x && q x) l = List.filter q (List.filter p l).
Proof.
  induction l as [|x l IH]; [done|]. cbn. destruct (p x) eqn:Ep; cbn; [|done]. by rewrite IH.
Qed.

Lemma Lfilter_all {A} (p : A -> bool) l : (forall x, x ∈ l -> p x = true) -> List.filter p l = l.
Proof.
  induction l as [|x l IH]; intros H; [done|]. cbn. rewrite H by left. f_equal. apply IH. intros y Hy. apply H. by right.
Qed.

Lemma Lfilter_none {A} (p : A -> bool) l : (forall x, x ∈ l -> p x = false) -> List.filter p l = [].
Proof.
  induction l as [|x l IH]; intros H; [done|]. cbn. rewrite H by left. apply IH. intros y Hy. apply H. by right.
Qed.

(** *** What is after a row of the listing *)

Section Listing.
Variables (env : Env Jobs) (f : ListFilter) (t : Jobs).
Hypothesis t_keyed : keyed t.

(** Everything the client should see, in order. *)
Definition listing : list JobRow := list_rows env f None t.

Lemma listing_sorted : StronglySorted list_le listing.
Proof. apply StronglySorted_merge_sort; apply _. Qed.

Lemma listing_perm :
  listing ≡ₚ List.filter (list_matches f) (all_rows (scan env) t).
Proof.
  unfold listing, list_rows. rewrite merge_sort_Permutation. cbn [after_cursor].
  rewrite Lfilter_and. by rewrite (Lfilter_all (fun _ => true)).
Qed.

Lemma listing_in r : r ∈ listing -> exists k, t !! k = Some r.
Proof.
  rewrite listing_perm, elem_of_Lfilter, elem_of_all_rows. by intros [? _].
Qed.

Lemma listing_id r1 r2 : r1 ∈ listing -> r2 ∈ listing -> id r1 = id r2 -> r1 = r2.
Proof.
  intros [k1 H1]%listing_in [k2 H2]%listing_in Heq.
  rewrite (t_keyed _ _ H1), (t_keyed _ _ H2) in Heq. congruence.
Qed.

Lemma listing_NoDup : NoDup listing.
Proof.
  rewrite listing_perm. apply (NoDup_fmap_1 id). eapply sublist_NoDup; [apply (NoDup_all_ids (scan env) t t_keyed)|].
  induction (all_rows (scan env) t) as [|x l IH]; [constructor|]. cbn.
  destruct (list_matches f x); by constructor.
Qed.

(** After row [x] of the listing come exactly the rows that follow it. *)
Lemma list_rows_after pre x post :
  listing = pre ++ x :: post -> list_rows env f (Some (created_at x, id x)) t = post.
Proof.
  intros HL. pose proof listing_sorted as Hs. pose proof listing_NoDup as Hnd. rewrite HL in Hs, Hnd.
  assert (Hin : forall r, r ∈ pre \/ r = x \/ r ∈ post -> r ∈ listing).
  { intros r Hr. rewrite HL, elem_of_app, elem_of_cons. tauto. }
  assert (Hafter : List.filter (after_cursor (Some (created_at x, id x))) listing = post).
  { rewrite HL, List.filter_app. cbn [List.filter]. apply NoDup_app in Hnd as (Hnd1 & Hdis & Hnd2).
    apply NoDup_cons in Hnd2 as [Hx Hnd2].
    rewrite Lfilter_none.
    2:{ intros r Hr. apply not_true_iff_false. rewrite after_cursor_spec by (intros; apply listing_id; auto).
        intros [Hle Hne]. apply Hne, listing_id; auto.
        apply list_le_antisym; [|done]. eapply StronglySorted_app_1_elem_of; [apply Hs|done|left]. }
    destruct (after_cursor (Some (created_at x, id x)) x) eqn:E.
    { apply after_cursor_spec in E as [_ ?]; done. }
    cbn [app]. apply Lfilter_all. intros r Hr. apply after_cursor_spec; [intros; apply listing_id; auto|].
    split; [|by intros ->]. apply StronglySorted_app_1_r in Hs. apply StronglySorted_cons in Hs as [Hs _].
    rewrite Forall_forall in Hs. by apply Hs. }
  apply (StronglySorted_unique_strong list_le).
  - intros r1 r2 H1 H2 L1 L2. apply listing_id; [|auto|by apply list_le_antisym].
    unfold list_rows in H1. apply elem_of_merge_sort, elem_of_Lfilter in H1 as [H1 Hm].
    apply andb_true_iff in Hm as [Hm _]. rewrite listing_perm. by apply elem_of_Lfilter.
  - apply StronglySorted_merge_sort; apply _.
  - apply StronglySorted_app_1_r in Hs. by apply StronglySorted_cons in Hs as [_ ?].
  - unfold list_rows. rewrite merge_sort_Permutation, Lfilter_and.
    rewrite <- (Lfilter_perm _ _ _ listing_perm), Hafter. done.
Qed.

(** *** Following the cursors *)

Hypothesis env_quiet : (forall t, intf env t = t) /\ fault env = NoFault.
Hypothesis t_stored : forall k r, t !! k = Some r -> stored_ts (created_at r).

(** The cursor stands just before [rest] in the listing. *)
Definition cursor_at (cursor : string) (rest : list JobRow) : Prop :=
  (cursor = "" /\ rest = listing) \/
  exists pre x, listing = pre ++ x :: rest /\ cursor = encodeCursor (created_at x) (id x).

Lemma encodeCursor_nonempty ts i : encodeCursor ts i <> "".
Proof. unfold encodeCursor. destruct (Itoa _) as [|a [|b [|c s]]]; cbn; [by destruct i as [|? []]|by destruct i|done|done]. Qed.

Lemma page_limit_pos : 0 < page_limit f <= 500.
Proof. unfold page_limit. repeat case_goal; zbool; lia. Qed.

(** One request returns the next rows, and the cursor after them if any
    remain. *)
Lemma ListJobs_at cursor rest :
  cursor_at cursor rest ->
  ListJobs env (mkListFilter (Filter_Tenant_ f) (Filter_State f) (Filter_Limit f) cursor) t =
    (Ok (scanJob <$> take (Z.to_nat (page_limit f)) rest,
         if page_limit f <? Z.of_nat (length rest) then
           match rest !! Z.to_nat (page_limit f - 1) with
           | Some x => encodeCursor (created_at x) (id x)
           | None => ""
           end
         else ""), t).
Proof.
  intros Hc. destruct env_quiet as [Hq Hf]. pose proof page_limit_pos as Hl.
  assert (Hrows : exists c, (if bool_decide (cursor = "") then Ok None
      else match decodeCursor cursor with Ok c => Ok (Some c) | Error e => Error e end) = Ok c /\
    list_rows env f c t = rest).
  { destruct Hc as [[-> ->]|(pre & x & HL & ->)].
    - exists None. done.
    - exists (Some (created_at x, id x)). rewrite bool_decide_false by apply encodeCursor_nonempty.
      rewrite decode_encode_cursor; [split; [done|]; by eapply list_rows_after|].
      destruct (listing_in x) as [k Hk]; [rewrite HL; apply elem_of_app; right; left|]. by eapply t_stored. }
  destruct Hrows as (c & Hdec & Hrest). unfold ListJobs. cbn [Filter_Cursor].
  rewrite Hdec. unfold run_stmt. rewrite Hf, Hq.
  change (list_rows env _ c t) with (list_rows env f c t). rewrite Hrest.
  change (page_limit (mkListFilter _ _ _ _)) with (page_limit f).
  rewrite length_fmap, length_take.
  destruct (page_limit f <? Z.of_nat (length rest)) eqn:E; zbool.
  - rewrite (proj2 (Z.ltb_lt _ _)) by lia. rewrite <- fmap_take, take_take, Nat.min_l by lia.
    do 3 f_equal. rewrite list_lookup_fmap, lookup_take_lt by lia. by destruct (rest !! _).
  - rewrite (proj2 (Z.ltb_ge _ _)) by lia. by rewrite !take_ge by lia.
Qed.

Lemma all_pages_at fuel cursor rest :
  cursor_at cursor rest -> (length rest < fuel)%nat ->
  all_pages fuel env f cursor t = Ok (scanJob <$> rest).
Proof.
  pose proof page_limit_pos as Hl. revert cursor rest.
  induction fuel as [|fuel IH]; intros cursor rest Hc Hn; [lia|]. cbn [all_pages].
  rewrite ListJobs_at with (rest := rest) by done.
  destruct (page_limit f <? Z.of_nat (length rest)) eqn:E; zbool.
  2:{ rewrite bool_decide_true by done. by rewrite take_ge by lia. }
  destruct (lookup_lt_is_Some_2 rest (Z.to_nat (page_limit f - 1))) as [x Hx]; [lia|]. rewrite Hx.
  rewrite bool_decide_false by apply encodeCursor_nonempty.
  pose proof (take_drop_middle rest (Z.to_nat (page_limit f - 1)) x Hx) as Hsplit.
  replace (S (Z.to_nat (page_limit f - 1))) with (Z.to_nat (page_limit f)) in Hsplit by lia.
  rewrite (IH _ (drop (Z.to_nat (page_limit f)) rest)).
  - by rewrite <- fmap_app, take_drop.
  - right. destruct Hc as [[_ ->]|(pre & y & HL & _)].
    + by exists (take (Z.to_nat (page_limit f - 1)) listing), x.
    + exists (pre ++ y :: take (Z.to_nat (page_limit f - 1)) rest), x. split; [|done].
      by rewrite <- app_assoc, <- app_comm_cons, Hsplit.
  - rewrite length_drop. lia.
Qed.
End Listing.
End Listings.

(** C29. Pagination is complete: while the table does not change, a client
    that follows the cursors from the first page gets, in at most one request more than there are rows, every
    row that matches its filter, each exactly once, newest first, whatever
    page size it asked for and however the database collates ids. *)
Theorem pages_list_everything (id_le : relation string) `{!RelDecision id_le, !PartialOrder id_le, !Total id_le}
    (env : Env Jobs) (f : ListFilter) (t : Jobs) :
  keyed t -> (forall t, intf env t = t) -> fault env = NoFault ->
  (forall k r, t !! k = Some r -> stored_ts (created_at r)) ->
  exists rows,
    all_pages id_le (S (length rows)) env f "" t = Ok (scanJob <$> rows) /\
    rows ≡ₚ List.filter (list_matches f) (all_rows (scan env) t) /\
    StronglySorted (list_le id_le) rows /\ NoDup rows.
Proof.
  intros Hk Hq Hf Hs. exists (listing id_le env f t). split; [|split; [|split]].
  - apply (all_pages_at id_le env f t Hk (conj Hq Hf) Hs); [by left|lia].
  - apply listing_perm.
  - apply listing_sorted; apply _.
  - by apply listing_NoDup.
Qed.

Lemma pages_list_everything_witness :
  exists rows, all_pages String.le (S (length rows)) (demo_env [] 0) (mkListFilter "" JobStateUnset 1 "") "" demo_table
    = Ok (scanJob <$> rows) /\ length rows = 2%nat.
Proof.
  destruct (pages_list_everything String.le (demo_env [] 0) (mkListFilter "" JobStateUnset 1 "") demo_table)
    as (rows & H & Hp & _).
  - apply ok_keyed, demo_table_ok.
  - intros t. reflexivity.
  - reflexivity.
  - intros k r Hr.
    assert (Hc : map_Forall (fun _ r => created_at r = demo_now) demo_table)
      by (apply (bool_decide_unpack _); vm_compute; exact I).
    rewrite (Hc k r Hr). split; [reflexivity|]. vm_compute. split; discriminate.
  - exists rows. split; [exact H|]. rewrite (Permutation_length Hp). vm_compute. reflexivity.
Defined.
