(* ===== verification/Keys.v ===== *)
(** * internal/store/keys.go: API keys

    A key is shown once, when it is minted; the table holds its SHA-256.  The
    hash is the one of FIPS 180-4, computed on byte lists, so a key's row can
    be evaluated; the theorems are about the life of a key: it acts for its
    tenant from the moment it is minted until it is revoked, and never
    again. *)

From S2P Require Import Prelude Models JobStore JobFacts Service GoStrings ScheduleStore Pages.

(** ** crypto/sha256 *)

Module Sha256.

Definition w32 (x : Z) : Z := x mod 2 ^ 32.

Definition rotr (n x : Z) : Z := Z.lor (Z.shiftr x n) (w32 (Z.shiftl x (32 - n))).

(** *** Constants

    FIPS 180-4 defines its constants from the first primes; so does this. *)

Definition is_prime (n : Z) : bool :=
  forallb (fun d => negb (n mod (Z.of_nat d + 2) =? 0)) (seq 0 (Z.to_nat (n - 2))).

Definition primes : list Z := List.filter is_prime (Z.of_nat <$> seq 2 310).

(** The largest [r] below [hi] with [r ^ 3 <= n], [hi - lo] being at most
    [2 ^ fuel]. *)
Fixpoint cube_root (fuel : nat) (n lo hi : Z) : Z :=
  match fuel with
  | O => lo
  | S fuel' =>
      let mid := (lo + hi) / 2 in
      if mid * mid * mid <=? n then cube_root fuel' n mid hi else cube_root fuel' n lo mid
  end.

(** The first 32 bits of the fractional parts of the cube roots of the first
    64 primes. *)
Definition round_constants : list Z :=
  Eval vm_compute in (fun p => w32 (cube_root 36 (p * 2 ^ 96) 0 (2 ^ 36))) <$> primes.

Record chaining := mkChaining { ha : Z; hb : Z; hc : Z; hd : Z; he : Z; hf : Z; hg : Z; hh : Z }.

(** The first 32 bits of the fractional parts of the square roots of the
    first eight primes. *)
Definition square_fraction (i : nat) : Z := w32 (Z.sqrt (nth i primes 0 * 2 ^ 64)).

Definition initial : chaining := Eval vm_compute in
  mkChaining (square_fraction 0) (square_fraction 1) (square_fraction 2) (square_fraction 3)
    (square_fraction 4) (square_fraction 5) (square_fraction 6) (square_fraction 7).

(** Big-endian bytes of a word of [n] bytes. *)
Fixpoint be_bytes (n : nat) (x : Z) : list Z :=
  match n with O => [] | S n' => be_bytes n' (x / 256) ++ [x mod 256] end.

Definition pad (msg : list Z) : list Z :=
  let n := Z.of_nat (length msg) in
  msg ++ [128] ++ replicate (Z.to_nat ((55 - n) mod 64)) 0 ++ be_bytes 8 (8 * n).

Fixpoint words (bytes : list Z) : list Z :=
  match bytes with
  | a :: b :: c :: d :: rest => (a * 2 ^ 24 + b * 2 ^ 16 + c * 2 ^ 8 + d) :: words rest
  | _ => []
  end.

(** The message schedule, newest word first. *)
Fixpoint expand (n : nat) (w : list Z) : list Z :=
  match n with
  | O => w
  | S n' =>
      let s0 := nth 14 w 0 in
      let s1 := nth 1 w 0 in
      let sig0 := Z.lxor (Z.lxor (rotr 7 s0) (rotr 18 s0)) (Z.shiftr s0 3) in
      let sig1 := Z.lxor (Z.lxor (rotr 17 s1) (rotr 19 s1)) (Z.shiftr s1 10) in
      expand n' (w32 (sig1 + nth 6 w 0 + sig0 + nth 15 w 0) :: w)
  end.

Definition round (s : chaining) (kw : Z * Z) : chaining :=
  let '(mkChaining a b c d e f g h) := s in
  let S1 := Z.lxor (Z.lxor (rotr 6 e) (rotr 11 e)) (rotr 25 e) in
  let ch := Z.lxor (Z.land e f) (Z.land (2 ^ 32 - 1 - e) g) in
  let t1 := w32 (h + S1 + ch + kw.1 + kw.2) in
  let S0 := Z.lxor (Z.lxor (rotr 2 a) (rotr 13 a)) (rotr 22 a) in
  let maj := Z.lxor (Z.lxor (Z.land a b) (Z.land a c)) (Z.land b c) in
  let t2 := w32 (S0 + maj) in
  mkChaining (w32 (t1 + t2)) a b c (w32 (d + t1)) e f g.

Definition compress (s : chaining) (block : list Z) : chaining :=
  let w := rev (expand 48 (rev (words block))) in
  let s' := foldl round s (combine round_constants w) in
  mkChaining (w32 (ha s + ha s')) (w32 (hb s + hb s')) (w32 (hc s + hc s')) (w32 (hd s + hd s'))
    (w32 (he s + he s')) (w32 (hf s + hf s')) (w32 (hg s + hg s')) (w32 (hh s + hh s')).

Fixpoint blocks (n : nat) (bytes : list Z) : list (list Z) :=
  match n with O => [] | S n' => take 64 bytes :: blocks n' (drop 64 bytes) end.

Definition Sum256 (msg : list Z) : list Z :=
  let p := pad msg in
  let s := foldl compress initial (blocks (Z.to_nat (Z.of_nat (length p) / 64)) p) in
  mjoin (be_bytes 4 <$> [ha s; hb s; hc s; hd s; he s; hf s; hg s; hh s]).

End Sha256.

(** The bytes of a Go string, and back. *)
Fixpoint string_bytes (s : string) : list Z :=
  match s with EmptyString => [] | String c s' => byte_of c :: string_bytes s' end.

Definition bytes_string (b : list Z) : string := foldr (fun x s => String (chr x) s) "" b.

Definition hashKey (key : string) : list Z := Sha256.Sum256 (string_bytes key).

Example sha256_rounds : length Sha256.round_constants = 64%nat.
Proof. reflexivity. Qed.

(** The two vectors of FIPS 180-4 that fill one and two blocks. *)
Example sha256_abc : hex_EncodeToString (hashKey "abc")
  = "ba7816bf8f01cfea414140de5dae2223b00361a396177a9cb410ff61f20015ad".
Proof. vm_compute. reflexivity. Qed.

Example sha256_two_blocks :
  hex_EncodeToString (hashKey "abcdbcdecdefdefgefghfghighijhijkijkljklmklmnlmnomnopnopq")
  = "248d6a61d20638b8e5c026930c3e6039a33ce45964ff2167f6ecedd419db06c1".
Proof. vm_compute. reflexivity. Qed.

(** ** The table *)

Record KeyRow := mkKeyRow {
  k_id : string;
  k_tenant_id : string;
  k_name : string;
  k_key_hash : list Z;
  k_created_at : Time;
  k_revoked_at : option Time
}.

#[global] Instance KeyRow_eq_dec : EqDecision KeyRow.
Proof. solve_decision. Defined.

Abbreviation KeyTable := (gmap string KeyRow).

(** A key as listed: everything but the hash. *)
Record APIKey := mkAPIKey {
  APIKey_ID : string;
  APIKey_TenantID : string;
  APIKey_Name : string;
  APIKey_CreatedAt : Time;
  APIKey_RevokedAt : option Time
}.

(** [^[a-z0-9_-]{1,64}$]. *)
Definition tenant_char (b : Z) : bool :=
  ((97 <=? b) && (b <=? 122)) || ((48 <=? b) && (b <=? 57)) || (b =? 95) || (b =? 45).

Definition tenantPattern (s : string) : bool :=
  forallb tenant_char (string_bytes s) && (1 <=? String.length s)%nat && (String.length s <=? 64)%nat.

(** ** Operations *)

Definition insert_key (r : KeyRow) (t : KeyTable) : result unit * KeyTable :=
  match t !! k_id r with
  | Some _ => (Error (PgError "23505" "api_keys_pkey"), t)
  | None =>
      if bool_decide (map_Exists (fun _ r' => k_key_hash r' = k_key_hash r) t)
      then (Error (PgError "23505" "api_keys_key_hash_key"), t)
      else (Ok tt, <[k_id r := r]> t)
  end.

(** The text of a key, from its 32 random bytes. *)
Definition key_text (raw : list Z) : string := "ck_" +:+ b64_encode (bytes_string raw).

(** [rnd] feeds the id and [raw] the key. *)
Definition CreateKey (env : Env KeyTable) (rnd raw : option (list Z)) (tenant name : string)
    (t : KeyTable) : result (string * string) * KeyTable :=
  if negb (tenantPattern tenant) then (Error ErrInvalidTenant, t)
  else match newID rnd with
  | Error e => (Error e, t)
  | Ok id =>
      match rand_Read 32 raw with
      | Error e => (Error e, t)
      | Ok raw =>
          let key := key_text raw in
          match run_stmt env (insert_key (mkKeyRow id tenant name (hashKey key) (NOW env) None)) t with
          | (Error e, t1) => (Error e, t1)
          | (Ok _, t1) => (Ok (id, key), t1)
          end
      end
  end.

Definition scanKey (r : KeyRow) : APIKey :=
  mkAPIKey (k_id r) (k_tenant_id r) (k_name r) (k_created_at r) (k_revoked_at r).

Definition created_le (r1 r2 : KeyRow) : Prop := k_created_at r1 <= k_created_at r2.
#[global] Instance created_le_dec : RelDecision created_le.
Proof. intros r1 r2. unfold created_le. apply _. Defined.

Definition ListKeys (env : Env KeyTable) (t : KeyTable) : result (list APIKey) * KeyTable :=
  run_stmt env (fun t => (Ok (scanKey <$> merge_sort created_le (all_rows (scan env) t)), t)) t.

Definition live (r : KeyRow) : bool := bool_decide (k_revoked_at r = None).

Definition revoke_row (now : Time) (r : KeyRow) : KeyRow :=
  mkKeyRow (k_id r) (k_tenant_id r) (k_name r) (k_key_hash r) (k_created_at r) (Some now).

Definition RevokeKey (env : Env KeyTable) (key : string) (t : KeyTable) : result unit * KeyTable :=
  let stmt t :=
    match t !! key with
    | Some r => if live r then (Ok 1, <[key := revoke_row (NOW env) r]> t) else (Ok 0, t)
    | None => (Ok 0, t)
    end in
  match run_stmt env stmt t with
  | (Error e, t1) => (Error e, t1)
  | (Ok n, t1) => ((if n =? 0 then Error ErrKeyNotFound else Ok tt), t1)
  end.

(** [WHERE key_hash = $1 AND revoked_at IS NULL]. *)
Definition live_with (hash : list Z) (r : KeyRow) : bool := bool_decide (k_key_hash r = hash) && live r.

Definition TenantForKey (env : Env KeyTable) (key : string) (t : KeyTable) : result string * KeyTable :=
  let stmt t :=
    match List.filter (live_with (hashKey key)) (all_rows (scan env) t) with
    | [] => (Error ErrNoRows, t)
    | r :: _ => (Ok (k_tenant_id r), t)
    end in
  match run_stmt env stmt t with
  | (Error e, t1) =>
      (Error (if errors_Is e ErrNoRows then Sentinel ErrKeyNotFound
              else Wrapf "store: look up api key: " e), t1)
  | (Ok tenant, t1) => (Ok tenant, t1)
  end.

Definition HasActiveKeys (env : Env KeyTable) (t : KeyTable) : result bool * KeyTable :=
  run_stmt env (fun t => (Ok (existsb live (all_rows (scan env) t)), t)) t.

(** ** Invariant *)

(** Rows sit at their id, no two share a hash, and every tenant is one the
    pattern admits. *)
Record keys_ok (t : KeyTable) : Prop := {
  keys_keyed : forall k r, t !! k = Some r -> k_id r = k;
  keys_hash : forall k1 k2 r1 r2, t !! k1 = Some r1 -> t !! k2 = Some r2 ->
    k_key_hash r1 = k_key_hash r2 -> k1 = k2;
  keys_tenant : forall k r, t !! k = Some r -> tenantPattern (k_tenant_id r) = true
}.

(** What one session may do to the table. *)
Inductive KOp :=
  | KCreate (env : Env KeyTable) (rnd raw : option (list Z)) (tenant name : string)
  | KRevoke (env : Env KeyTable) (key : string)
  | KList (env : Env KeyTable)
  | KTenant (env : Env KeyTable) (key : string)
  | KActive (env : Env KeyTable).

Definition kexec (op : KOp) (t : KeyTable) : KeyTable :=
  match op with
  | KCreate env rnd raw tenant name => (CreateKey env rnd raw tenant name t).2
  | KRevoke env key => (RevokeKey env key t).2
  | KList env => (ListKeys env t).2
  | KTenant env key => (TenantForKey env key t).2
  | KActive env => (HasActiveKeys env t).2
  end.

Definition kop_env (op : KOp) : Env KeyTable :=
  match op with KCreate env _ _ _ _ | KRevoke env _ | KList env | KTenant env _ | KActive env => env end.

Fixpoint krun (ops : list KOp) (t : KeyTable) : KeyTable :=
  match ops with [] => t | op :: ops => krun ops (kexec op t) end.

(** *** Steps *)

(** What the operations can do to the table: mint a live key under a fresh id
    and a fresh hash, or revoke a live one.  Rows are never deleted. *)
Inductive kstep : KeyTable -> KeyTable -> Prop :=
  | kstep_mint t r :
      t !! k_id r = None -> (forall k r', t !! k = Some r' -> k_key_hash r' <> k_key_hash r) ->
      tenantPattern (k_tenant_id r) = true -> k_revoked_at r = None ->
      kstep t (<[k_id r := r]> t)
  | kstep_revoke t key r now :
      t !! key = Some r -> live r = true -> kstep t (<[key := revoke_row now r]> t).

Abbreviation kreach := (rtc kstep).

(** Other sessions run the same code. *)
Definition honest (env : Env KeyTable) : Prop := forall t, kreach t (intf env t).

Lemma run_stmt_reach {A} (env : Env KeyTable) (stmt : KeyTable -> result A * KeyTable) t :
  honest env -> (forall t, kreach t (stmt t).2) -> kreach t (run_stmt env stmt t).2.
Proof.
  intros He Hs. destruct (run_stmt_snd env stmt t) as [->| ->]; [apply He|]. etrans; [apply He|apply Hs].
Qed.

Lemma insert_key_reach r t :
  tenantPattern (k_tenant_id r) = true -> k_revoked_at r = None -> kreach t (insert_key r t).2.
Proof.
  intros Ht Hr. unfold insert_key. destruct (t !! k_id r) eqn:E; [done|].
  case_bool_decide as H; [done|]. apply rtc_once, kstep_mint; [done| |done|done].
  intros k r' Hk Heq. apply H. by exists k, r'.
Qed.

Lemma CreateKey_reach env rnd raw tenant name t :
  honest env -> t = (CreateKey env rnd raw tenant name t).2 \/ kreach t (CreateKey env rnd raw tenant name t).2.
Proof.
  intros He. unfold CreateKey. destruct (tenantPattern tenant) eqn:E; [|by left]. cbn [negb].
  destruct (newID rnd) as [id|]; [|by left]. destruct (rand_Read 32 raw) as [b|]; [|by left]. right.
  set (r := mkKeyRow _ _ _ _ _ _). pose proof (run_stmt_reach env (insert_key r) t He) as H.
  destruct (run_stmt env _ t) as [[?|?] t1]; apply H; intros; by apply insert_key_reach.
Qed.

Lemma revoke_reach now key t :
  kreach t (match t !! key with
    | Some r => if live r then (Ok 1, <[key := revoke_row now r]> t) else (Ok 0, t)
    | None => (Ok 0, t)
    end : result Z * KeyTable).2.
Proof.
  destruct (t !! key) as [r|] eqn:E; [|done]. destruct (live r) eqn:El; [|done].
  cbn. eapply rtc_once, kstep_revoke; eauto.
Qed.

Lemma kexec_reach op t : honest (kop_env op) -> kreach t (kexec op t).
Proof.
  destruct op as [env rnd raw tenant name|env key|env|env key|env]; cbn [kop_env kexec]; intros He.
  - destruct (CreateKey_reach env rnd raw tenant name t He) as [<-|]; done.
  - unfold RevokeKey. pose proof (run_stmt_reach env _ t He (revoke_reach (NOW env) key)) as H.
    destruct (run_stmt env _ t) as [[n|e] t1]; [|apply H]. apply H.
  - unfold ListKeys. by apply run_stmt_reach.
  - unfold TenantForKey.
    match goal with |- context [run_stmt env ?stmt t] => pose proof (run_stmt_reach env stmt t He) as H end.
    destruct (run_stmt env _ t) as [[n|e] t1]; apply H; intros t2; by case_goal.
  - unfold HasActiveKeys. by apply run_stmt_reach.
Qed.

Lemma krun_reach ops t : Forall (fun op => honest (kop_env op)) ops -> kreach t (krun ops t).
Proof.
  intros Ho. revert t. induction Ho as [|op ops Hop Ho IH]; intros t; [done|]. cbn.
  etrans; [by apply kexec_reach|apply IH].
Qed.

Lemma kstep_ok t t' : keys_ok t -> kstep t t' -> keys_ok t'.
Proof.
  intros Hok Hs. destruct Hs as [t r Hn Hf Hp Hr|t key r now Hr Hl]; destruct Hok as [Hk Hh Ht]; split.
  - intros k r'. rewrite lookup_insert_Some. intros [[<- <-]|[_ H]]; eauto.
  - intros k1 k2 r1 r2. rewrite !lookup_insert_Some. intros [[<- <-]|[_ H1]] [[<- <-]|[_ H2]] Heq; eauto.
    + by destruct (Hf k2 r2 H2).
    + by destruct (Hf k1 r1 H1).
  - intros k r'. rewrite lookup_insert_Some. intros [[<- <-]|[_ H]]; eauto.
  - intros k r'. rewrite lookup_insert_Some. intros [[<- <-]|[_ H]]; eauto. cbn. eauto.
  - intros k1 k2 r1 r2. rewrite !lookup_insert_Some.
    intros [[<- <-]|[_ H1]] [[<- <-]|[_ H2]] Heq; cbn in Heq; eauto.
  - intros k r'. rewrite lookup_insert_Some. intros [[<- <-]|[_ H]]; eauto. cbn. eauto.
Qed.

Lemma kreach_ok t t' : keys_ok t -> kreach t t' -> keys_ok t'.
Proof. intros Hok H. revert Hok. induction H; eauto using kstep_ok. Qed.

(** A row keeps its tenant and hash, and a revoked one stays as it is. *)
Definition follows (r r' : KeyRow) : Prop :=
  k_tenant_id r' = k_tenant_id r /\ k_key_hash r' = k_key_hash r /\ (live r = false -> r' = r).

Lemma kreach_row t t' key r :
  kreach t t' -> t !! key = Some r -> exists r', t' !! key = Some r' /\ follows r r'.
Proof.
  intros H. revert r. induction H as [t|t t1 t' Hs _ IH]; intros r Hr; [by exists r|].
  assert (H1 : exists r1, t1 !! key = Some r1 /\ follows r r1).
  { destruct Hs as [t0 r0 Hn|t0 key0 r0 now H0 Hl].
    - exists r. rewrite lookup_insert_ne by congruence. done.
    - destruct (decide (key0 = key)) as [->|Hne].
      + rewrite lookup_insert_eq. eexists. split; [done|]. replace r with r0 by congruence.
        split; [done|]. split; [done|]. congruence.
      + exists r. by rewrite lookup_insert_ne. }
  destruct H1 as (r1 & H1 & Ha & Hb & Hc). destruct (IH r1 H1) as (r' & H' & Ha' & Hb' & Hc').
  exists r'. split; [done|]. split; [congruence|]. split; [congruence|].
  intros Hl. specialize (Hc Hl) as ->. auto.
Qed.

(** *** Reading a key *)

Lemma TenantForKey_spec env key t :
  fault env = NoFault -> keys_ok (intf env t) ->
  (forall k r, intf env t !! k = Some r -> live_with (hashKey key) r = true ->
     TenantForKey env key t = (Ok (k_tenant_id r), intf env t)) /\
  ((forall k r, intf env t !! k = Some r -> live_with (hashKey key) r = false) ->
     TenantForKey env key t = (Error ErrKeyNotFound, intf env t)).
Proof.
  intros Hf Hok. unfold TenantForKey, run_stmt. rewrite Hf.
  destruct (List.filter _ _) as [|r0 l] eqn:E; split; intros.
  - exfalso. assert (Hin : r ∈ (@nil KeyRow)); [|by apply not_elem_of_nil in Hin].
    rewrite <- E. apply elem_of_Lfilter. split; [|done]. apply elem_of_all_rows. eauto.
  - done.
  - assert (Hin : r0 ∈ r0 :: l) by left. rewrite <- E in Hin. apply elem_of_Lfilter in Hin as [Hin Hl0].
    apply elem_of_all_rows in Hin as [k0 Hk0]. unfold live_with in *. zbool.
    assert (k = k0) by (eapply keys_hash; eauto; congruence). by simplify_eq.
  - exfalso. assert (Hin : r0 ∈ r0 :: l) by left. rewrite <- E in Hin. apply elem_of_Lfilter in Hin as [Hin Hl0].
    apply elem_of_all_rows in Hin as [k0 Hk0]. by rewrite (H k0 r0 Hk0) in Hl0.
Qed.

(** The answer for a key whose row is known. *)
Lemma TenantForKey_row env key t k r :
  fault env = NoFault -> keys_ok (intf env t) -> intf env t !! k = Some r -> k_key_hash r = hashKey key ->
  TenantForKey env key t
    = ((if live r then Ok (k_tenant_id r) else Error ErrKeyNotFound), intf env t).
Proof.
  intros Hf Hok Hr Hh. destruct (TenantForKey_spec env key t Hf Hok) as [Hhit Hmiss].
  destruct (live r) eqn:El.
  - apply (Hhit k r Hr). unfold live_with. by rewrite bool_decide_true, El.
  - apply Hmiss. intros k' r' Hr'. unfold live_with. case_bool_decide as Heq; [|done].
    assert (k' = k) by (eapply keys_hash; eauto; congruence). by simplify_eq.
Qed.

Lemma CreateKey_Ok env rnd raw tenant name t id key t' :
  CreateKey env rnd raw tenant name t = (Ok (id, key), t') ->
  tenantPattern tenant = true /\ intf env t !! id = None /\
  t' = <[id := mkKeyRow id tenant name (hashKey key) (NOW env) None]> (intf env t).
Proof.
  unfold CreateKey. destruct (tenantPattern tenant); [|done]. cbn [negb].
  destruct (newID rnd) as [i|]; [|done]. destruct (rand_Read 32 raw) as [b|]; [|done].
  unfold run_stmt, insert_key. destruct (fault env); [|done|by case_goal].
  cbn [k_id]. destruct (intf env t !! i) eqn:E; [done|]. case_bool_decide; [done|].
  intros [= <- <- <-]. done.
Qed.

Lemma RevokeKey_Ok env key t t' :
  RevokeKey env key t = (Ok tt, t') ->
  exists r, intf env t !! key = Some r /\ live r = true /\ t' = <[key := revoke_row (NOW env) r]> (intf env t).
Proof.
  unfold RevokeKey, run_stmt. destruct (fault env); [|done|by case_goal].
  destruct (intf env t !! key) as [r|] eqn:E; [|done]. destruct (live r) eqn:El; [|done].
  intros [= <-]. by exists r.
Qed.

(** A key acts for exactly its tenant, from the moment it is minted until
    it is revoked: after any further traffic on the table, its row is there
    with its tenant and hash, and looking the key up answers that tenant while
    the row is live and ErrKeyNotFound once it is not. *)
Theorem key_acts_until_revoked (env env' : Env KeyTable) (rnd raw : option (list Z))
    (tenant name id key : string) (t t1 : KeyTable) (ops : list KOp) :
  keys_ok t -> honest env -> honest env' -> fault env' = NoFault ->
  Forall (fun op => honest (kop_env op)) ops ->
  CreateKey env rnd raw tenant name t = (Ok (id, key), t1) ->
  let t2 := intf env' (krun ops t1) in
  exists r, t2 !! id = Some r /\ k_tenant_id r = tenant /\
    TenantForKey env' key (krun ops t1)
      = ((if live r then Ok tenant else Error ErrKeyNotFound), t2).
Proof.
  intros Hok He He' Hf Hops Hc t2.
  assert (Hr1 : kreach t t1).
  { replace t1 with (kexec (KCreate env rnd raw tenant name) t) by (cbn; by rewrite Hc). by apply kexec_reach. }
  assert (Hr2 : kreach t1 t2) by (etrans; [by apply krun_reach|apply He']).
  apply CreateKey_Ok in Hc as (_ & _ & Ht1).
  destruct (kreach_row t1 t2 id (mkKeyRow id tenant name (hashKey key) (NOW env) None) Hr2)
    as (r & Hr & Ha & Hb & _); [subst t1; apply lookup_insert_eq|].
  exists r. split; [done|]. split; [done|]. rewrite <- Ha at 1.
  apply (TenantForKey_row env' key (krun ops t1) id r Hf); [|done|done].
  eapply kreach_ok; [|done]. by eapply kreach_ok.
Qed.

(** Revocation is final: once RevokeKey has returned, the key that row
    was minted for is refused after any further traffic, revocations and new
    keys included; and no other row changed. *)
Theorem revoked_is_refused (env env' : Env KeyTable) (id key : string) (t t1 : KeyTable) (ops : list KOp) :
  keys_ok t -> honest env -> honest env' -> fault env' = NoFault ->
  Forall (fun op => honest (kop_env op)) ops ->
  RevokeKey env id t = (Ok tt, t1) ->
  (k_key_hash <$> t1 !! id) = Some (hashKey key) ->
  (TenantForKey env' key (krun ops t1)).1 = Error ErrKeyNotFound /\
  forall k, k <> id -> t1 !! k = intf env t !! k.
Proof.
  intros Hok He He' Hf Hops Hrv Hh.
  assert (Hr1 : kreach t t1).
  { replace t1 with (kexec (KRevoke env id) t) by (cbn; by rewrite Hrv). by apply kexec_reach. }
  apply RevokeKey_Ok in Hrv as (r0 & Hr0 & _ & ->). rewrite lookup_insert_eq in Hh. injection Hh as Hh.
  set (t1 := <[id := _]> _) in *. split; [|intros k Hk; unfold t1; by rewrite lookup_insert_ne].
  assert (Hr2 : kreach t1 (intf env' (krun ops t1))) by (etrans; [by apply krun_reach|apply He']).
  destruct (kreach_row _ _ id (revoke_row (NOW env) r0) Hr2) as (r & Hr & _ & Hb & Hc);
    [apply lookup_insert_eq|].
  rewrite (Hc eq_refl) in Hr.
  rewrite (TenantForKey_row env' key (krun ops t1) id (revoke_row (NOW env) r0) Hf); [|by eauto using kreach_ok|done|done].
  done.
Qed.

(** *** A key and its life *)

Definition calm_k (now : Time) : Env KeyTable := calm now [] [].

Definition demo_minted : result (string * string) * KeyTable :=
  CreateKey (calm_k (ofUnix 1700000000)) (Some [1]) (Some [2]) "acme" "ci" ∅.

Definition demo_key : string * string := match demo_minted.1 with Ok p => p | Error _ => ("", "") end.

Lemma calm_honest now : honest (calm_k now).
Proof. intros t. done. Qed.

Lemma keys_ok_empty : keys_ok ∅.
Proof. split; intros; exfalso; set_solver. Qed.

Lemma demo_minted_eq : demo_minted = (Ok (demo_key.1, demo_key.2), demo_minted.2).
Proof. vm_compute. reflexivity. Qed.

Lemma key_acts_until_revoked_witness :
  (TenantForKey (calm_k (ofUnix 1700000001)) demo_key.2 (krun [KList (calm_k 0)] demo_minted.2)).1 = Ok "acme".
Proof.
  destruct (key_acts_until_revoked (calm_k (ofUnix 1700000000)) (calm_k (ofUnix 1700000001)) (Some [1]) (Some [2])
    "acme" "ci" demo_key.1 demo_key.2 ∅ demo_minted.2 [KList (calm_k 0)]) as (r & Hr & Ht & Heq).
  - apply keys_ok_empty.
  - apply calm_honest.
  - apply calm_honest.
  - reflexivity.
  - repeat constructor; apply calm_honest.
  - apply demo_minted_eq.
  - rewrite Heq. vm_compute in Hr. injection Hr as <-. vm_compute. reflexivity.
Defined.

Definition demo_revoked : KeyTable := (RevokeKey (calm_k (ofUnix 1700000002)) demo_key.1 demo_minted.2).2.

Lemma demo_minted_ok : keys_ok demo_minted.2.
Proof.
  eapply kreach_ok; [apply keys_ok_empty|].
  apply (kexec_reach (KCreate (calm_k (ofUnix 1700000000)) (Some [1]) (Some [2]) "acme" "ci") ∅), calm_honest.
Qed.

Lemma revoked_is_refused_witness :
  (TenantForKey (calm_k (ofUnix 1700000003)) demo_key.2 (krun [KActive (calm_k 0)] demo_revoked)).1
    = Error ErrKeyNotFound.
Proof.
  apply (revoked_is_refused (calm_k (ofUnix 1700000002)) (calm_k (ofUnix 1700000003)) demo_key.1 demo_key.2
    demo_minted.2 demo_revoked [KActive (calm_k 0)]).
  - apply demo_minted_ok.
  - apply calm_honest.
  - apply calm_honest.
  - reflexivity.
  - repeat constructor; apply calm_honest.
  - vm_compute. reflexivity.
  - vm_compute. reflexivity.
Defined.
