(* ===== verification/Auth.v ===== *)
(** * internal/api: requests, error envelopes, request ids, authentication

    auth.go, errors.go and the request-id middleware.  The HTTP library is
    seen from the handlers' side: a request context with two headers and the
    values the middleware stored, and a response with a status and one of the
    bodies the handlers write.  Authentication is written against the
    [KeyLookup] interface; its theorem is proved from the laws of that
    interface, which the key table of Keys.v satisfies. *)

From S2P Require Import Prelude Models JobStore JobFacts Service GoStrings ScheduleStore Pages Keys.

(** ** Requests and responses *)

Record Ctx := mkCtx {
  ctx_Authorization : string;       (* header *)
  ctx_RequestIdHeader : string;     (* header X-Request-Id *)
  ctx_tenant : option string;       (* set by APIKeyAuth *)
  ctx_request_id : option string    (* set by RequestID *)
}.

Definition set_ctx_tenant (tenant : string) (c : Ctx) : Ctx :=
  mkCtx (ctx_Authorization c) (ctx_RequestIdHeader c) (Some tenant) (ctx_request_id c).

(** The bodies of the responses.  A job is written without its lease token
    (its JSON tag leaves the field out); only [BodyClaim] carries one. *)
Inductive Body :=
  | BodyNone
  | BodyError (code message request_id : string)
  | BodyID (id : string)
  | BodyJob (job : Job)
  | BodyJobs (jobs : list Job) (next_cursor : string)
  | BodyCancelled
  | BodyRequeued
  | BodyClaim (job : Job) (lease_token : string) (lease_expires_at : Time)
  | BodyLease (lease_expires_at : Time)
  | BodyCompleted
  | BodyFailed (st : JobState) (attempt : Z) (scheduled_at : option Time)
  | BodySchedule (s : Schedule)
  | BodySchedules (l : list Schedule).

Record Response := mkResponse { status : Z; body : Body }.

Definition StatusOK : Z := 200.
Definition StatusCreated : Z := 201.
Definition StatusNoContent : Z := 204.
Definition StatusBadRequest : Z := 400.
Definition StatusUnauthorized : Z := 401.
Definition StatusForbidden : Z := 403.
Definition StatusNotFound : Z := 404.
Definition StatusConflict : Z := 409.
Definition StatusInternalServerError : Z := 500.

Definition RequestIDFromContext (c : Ctx) : string := default "" (ctx_request_id c).

Definition RespondError (c : Ctx) (st : Z) (code message : string) : Response :=
  mkResponse st (BodyError code message (RequestIDFromContext c)).

(** ** Request ids *)

Definition digit36 (d : Z) : ascii := ascii_of_N (Z.to_N (if d <? 10 then 48 + d else 87 + d)).

Fixpoint print36 (fuel : nat) (n : Z) (acc : string) : string :=
  match fuel with
  | O => acc
  | S fuel' =>
      let acc := String (digit36 (n mod 36)) acc in
      if n / 36 =? 0 then acc else print36 fuel' (n / 36) acc
  end.

(** [strconv.FormatInt(n, 36)]: an int64 has at most 13 digits. *)
Definition FormatInt36 (n : Z) : string :=
  if n <? 0 then "-" +:+ print36 13 (- n) "" else print36 13 n "".

(** [time.Now().UnixNano()], undefined past the year 2262; here it wraps. *)
Definition UnixNano (t : Time) : Z := wrap64 (t - unixEpoch).

Definition newRequestID (rnd : option (list Z)) (now : Time) : string :=
  match rand_Read 8 rnd with
  | Error _ => "req-" +:+ FormatInt36 (UnixNano now)
  | Ok b => hex_EncodeToString b
  end.

(** The middleware's effect on the context; the id is echoed as a header. *)
Definition RequestID (rnd : option (list Z)) (now : Time) (c : Ctx) : Ctx :=
  let id := if bool_decide (ctx_RequestIdHeader c = "") then newRequestID rnd now
            else ctx_RequestIdHeader c in
  mkCtx (ctx_Authorization c) (ctx_RequestIdHeader c) (ctx_tenant c) (Some id).

(** ** Bearer tokens *)

(** [strings.EqualFold] with ["Bearer "]: none of its letters folds to a
    character outside ASCII, so only ASCII case is ignored. *)
Definition lower (c : ascii) : Z :=
  let b := byte_of c in if (65 <=? b) && (b <=? 90) then b + 32 else b.

Fixpoint EqualFold (s t : string) : bool :=
  match s, t with
  | EmptyString, EmptyString => true
  | String a s', String b t' => (lower a =? lower b) && EqualFold s' t'
  | _, _ => false
  end.

Definition bearerToken (header : string) : string :=
  let prefix := "Bearer " in
  if (String.length header <? String.length prefix)%nat
     || negb (EqualFold (String.substring 0 (String.length prefix) header) prefix)
  then ""
  else TrimSpace (drop_bytes (String.length prefix) header).

(** [subtle.ConstantTimeCompare]: 1 when equal, 0 otherwise. *)
Definition ConstantTimeCompare (x y : string) : Z := if bool_decide (x = y) then 1 else 0.

(** ** The key lookup *)

Class KeyLookup (K : Type) := {
  kl_TenantForKey : Env K -> string -> K -> result string * K;
  kl_HasActiveKeys : Env K -> K -> result bool * K
}.

#[global] Instance KeyStore : KeyLookup KeyTable := {
  kl_TenantForKey := TenantForKey;
  kl_HasActiveKeys := HasActiveKeys
}.

(** The round trips of one authentication. *)
Record AuthEnv (K : Type) := mkAuthEnv { ae_tenant : Env K; ae_active : Env K }.
Arguments mkAuthEnv {K}.
Arguments ae_tenant {K}.
Arguments ae_active {K}.

(** A middleware either lets the request through or answers it. *)
Inductive passage := Proceed (c : Ctx) | Abort (r : Response).

(** [ok |= ...] over every configured key. *)
Definition matches_any (presented : string) (expected : list string) : bool :=
  foldl (fun ok want => Z.lor ok (ConstantTimeCompare presented want)) 0 expected =? 1.

(** The part after the presented token was not recognised. *)
Definition auth_open {K} `{KeyLookup K} (keys : list string) (lookup : bool) (env : Env K)
    (presented : string) (c : Ctx) (s : K) : passage * K :=
  let refuse := Abort (RespondError c StatusUnauthorized "unauthorized"
    (if bool_decide (presented = "") then "missing bearer token" else "invalid bearer token")) in
  let decide_open (open : bool) := if open then Proceed (set_ctx_tenant DefaultTenant c) else refuse in
  if bool_decide (keys = []) && lookup then
    match kl_HasActiveKeys env s with
    | (Error _, s1) =>
        (Abort (RespondError c StatusInternalServerError "internal_error" "failed to check api key"), s1)
    | (Ok active, s1) => (decide_open (negb active), s1)
    end
  else (decide_open (bool_decide (keys = [])), s).

(** [lookup] tells whether a key lookup is attached. *)
Definition APIKeyAuth {K} `{KeyLookup K} (keys : list string) (lookup : bool) (ae : AuthEnv K)
    (c : Ctx) (s : K) : passage * K :=
  let presented := bearerToken (ctx_Authorization c) in
  if str_nonempty presented then
    if matches_any presented keys then (Proceed (set_ctx_tenant DefaultTenant c), s)
    else if lookup then
      match kl_TenantForKey (ae_tenant ae) presented s with
      | (Ok tenant, s1) => (Proceed (set_ctx_tenant tenant c), s1)
      | (Error e, s1) =>
          if negb (errors_Is e ErrKeyNotFound)
          then (Abort (RespondError c StatusInternalServerError "internal_error" "failed to check api key"), s1)
          else auth_open keys lookup (ae_active ae) presented c s1
      end
    else auth_open keys lookup (ae_active ae) presented c s
  else auth_open keys lookup (ae_active ae) presented c s.

Definition tenantOf (c : Ctx) : string :=
  match ctx_tenant c with
  | Some t => if str_nonempty t then t else DefaultTenant
  | None => DefaultTenant
  end.

Definition TokenAuth (token : string) (c : Ctx) : passage :=
  let got := bearerToken (ctx_Authorization c) in
  if str_nonempty token && negb (ConstantTimeCompare got token =? 1)
  then Abort (RespondError c StatusUnauthorized "unauthorized" "invalid bearer token")
  else Proceed c.

Definition etl_TaskName : string := "sql.etl".

(** [None] when allowed, the refusal otherwise. *)
Definition taskAllowed (c : Ctx) (name : string) : option Response :=
  if bool_decide (name = etl_TaskName) && negb (bool_decide (tenantOf c = DefaultTenant))
  then Some (RespondError c StatusForbidden "forbidden" (name +:+ " is only available to the default tenant"))
  else None.

(** ** What authentication relies on *)

Class KeyLookupLaws (K : Type) `{KeyLookup K} := {
  kl_ok : K -> Prop;
  (** [kl_acts key tenant s]: a live key that acts for the tenant. *)
  kl_acts : string -> string -> K -> Prop;
  kl_live : K -> Prop;
  tenant_found env key s tenant s' :
    kl_ok (intf env s) -> kl_TenantForKey env key s = (Ok tenant, s') ->
    s' = intf env s /\ kl_acts key tenant s';
  tenant_hit env key tenant s :
    kl_ok (intf env s) -> fault env = NoFault -> kl_acts key tenant (intf env s) ->
    kl_TenantForKey env key s = (Ok tenant, intf env s);
  tenant_miss env key s :
    kl_ok (intf env s) -> fault env = NoFault -> (forall tenant, ~ kl_acts key tenant (intf env s)) ->
    kl_TenantForKey env key s = (Error ErrKeyNotFound, intf env s);
  active_found env s b s' :
    kl_HasActiveKeys env s = (Ok b, s') -> s' = intf env s /\ (b = true <-> kl_live s');
  active_total env s : fault env = NoFault -> exists b, kl_HasActiveKeys env s = (Ok b, intf env s);
  acts_tenant s key tenant : kl_ok s -> kl_acts key tenant s -> tenant <> ""
}.

(** *** The key table keeps that promise *)

Lemma TenantForKey_Ok env key t tenant t' :
  TenantForKey env key t = (Ok tenant, t') ->
  t' = intf env t /\
  exists k r, intf env t !! k = Some r /\ live_with (hashKey key) r = true /\ k_tenant_id r = tenant.
Proof.
  unfold TenantForKey, run_stmt. destruct (fault env); [|done|by case_goal].
  destruct (List.filter _ _) as [|r l] eqn:E; [done|]. intros [= <- <-]. split; [done|].
  assert (Hin : r ∈ r :: l) by left. rewrite <- E in Hin. apply elem_of_Lfilter in Hin as [Hin Hl].
  apply elem_of_all_rows in Hin as [k Hk]. by exists k, r.
Qed.

Lemma existsb_rows {V} (p : V -> bool) ids (t : gmap string V) :
  existsb p (all_rows ids t) = true <-> exists k r, t !! k = Some r /\ p r = true.
Proof.
  rewrite existsb_exists. split.
  - intros (r & Hin & Hp). apply list_elem_of_In, elem_of_all_rows in Hin as [k Hk]. eauto.
  - intros (k & r & Hk & Hp). exists r. split; [|done]. apply list_elem_of_In, elem_of_all_rows. eauto.
Qed.

#[global] Program Instance KeyStoreLaws : KeyLookupLaws KeyTable := {
  kl_ok := keys_ok;
  kl_acts key tenant t :=
    exists k r, t !! k = Some r /\ live_with (hashKey key) r = true /\ k_tenant_id r = tenant;
  kl_live t := exists k r, t !! k = Some r /\ live r = true
}.
Next Obligation.
  cbn. intros env key s tenant s' _ H. apply TenantForKey_Ok in H as [-> H]. done.
Qed.
Next Obligation.
  cbn. intros env key tenant s Hok Hf (k & r & Hr & Hl & <-).
  by apply (TenantForKey_spec env key s Hf Hok) with (k := k).
Qed.
Next Obligation.
  cbn. intros env key s Hok Hf Hno. apply (TenantForKey_spec env key s Hf Hok).
  intros k r Hr. destruct (live_with _ r) eqn:E; [|done]. destruct (Hno (k_tenant_id r)). eauto.
Qed.
Next Obligation.
  cbn. intros env s b s' H. unfold HasActiveKeys, run_stmt in H. destruct (fault env); [|done|done].
  injection H as <- <-. split; [done|]. apply existsb_rows.
Qed.
Next Obligation.
  cbn. intros env s Hf. unfold HasActiveKeys, run_stmt. rewrite Hf. eauto.
Qed.
Next Obligation.
  cbn. intros s key tenant Hok (k & r & Hr & _ & <-) He. pose proof (keys_tenant s Hok k r Hr) as Hp.
  by rewrite He in Hp.
Qed.

(** ** Authentication is sound and complete *)

Lemma matches_any_iff p l : matches_any p l = true <-> p ∈ l.
Proof.
  unfold matches_any. rewrite Z.eqb_eq.
  assert (H : forall l a, (a = 0 \/ a = 1) ->
    (foldl (fun ok want => Z.lor ok (ConstantTimeCompare p want)) a l = 1 <-> a = 1 \/ p ∈ l)).
  { clear l. induction l as [|w l IH]; intros a Ha; cbn.
    - split; [by left|intros [?|H]; [done|by apply not_elem_of_nil in H]].
    - unfold ConstantTimeCompare at 2. case_bool_decide as E.
      + subst w. rewrite IH by (destruct Ha as [-> | ->]; by right). split; intros _.
        * right. by left.
        * left. by destruct Ha as [-> | ->].
      + rewrite Z.lor_0_r, IH by done. rewrite elem_of_cons. split; [tauto|].
        intros [?|[?|?]]; tauto. }
  rewrite H by by left. split; [intros [?|?]; done|by right].
Qed.

Section Auth.
Context {K : Type} `{KeyLookupLaws K}.
Variables (keys : list string) (lookup : bool).

Lemma auth_open_sound env p c s c' s' :
  auth_open keys lookup env p c s = (Proceed c', s') ->
  c' = set_ctx_tenant DefaultTenant c /\ keys = [] /\ (lookup = true -> ~ kl_live s').
Proof.
  unfold auth_open. destruct (bool_decide (keys = [])) eqn:Ek; cbn [andb]; [|done].
  apply bool_decide_eq_true in Ek. destruct lookup; [|by intros [= <- <-]].
  destruct (kl_HasActiveKeys env s) as [[b|e] s1] eqn:E; [|done].
  apply active_found in E as [-> Hb]. destruct b; [done|]. intros [= <- <-].
  split; [done|]. split; [done|]. intros _ Hl. by apply Hb in Hl.
Qed.

(** C13. No request gets in unearned: whatever fails and whoever else writes
    the key table, a request passes only with a configured key, for the
    default tenant; or with a key live at the lookup, for that key's tenant;
    or, for the default tenant, on an instance with no configured key and, at
    the moment of the check, no live one. *)
Theorem auth_sound (ae : AuthEnv K) (c c' : Ctx) (s s' : K) :
  kl_ok (intf (ae_tenant ae) s) ->
  APIKeyAuth keys lookup ae c s = (Proceed c', s') ->
  let p := bearerToken (ctx_Authorization c) in
  (p <> "" /\ p ∈ keys /\ tenantOf c' = DefaultTenant) \/
  (p <> "" /\ lookup = true /\ kl_acts p (tenantOf c') s') \/
  (keys = [] /\ tenantOf c' = DefaultTenant /\ (lookup = true -> ~ kl_live s')).
Proof.
  intros Hok. unfold APIKeyAuth. cbn zeta. set (p := bearerToken _).
  assert (Ho : forall s, auth_open keys lookup (ae_active ae) p c s = (Proceed c', s') ->
    keys = [] /\ tenantOf c' = DefaultTenant /\ (lookup = true -> ~ kl_live s')).
  { intros s0 Hs. apply auth_open_sound in Hs as (-> & ? & ?). done. }
  unfold str_nonempty. case_bool_decide as Hp; cbn [negb]; [by eauto|].
  destruct (matches_any p keys) eqn:Em.
  { intros [= <- <-]. left. by rewrite <- matches_any_iff. }
  destruct lookup; [|by eauto].
  destruct (kl_TenantForKey _ p s) as [[tn|e] s1] eqn:E.
  - intros [= <- <-]. right; left. apply tenant_found in E as [-> Ha]; [|done]. split; [done|]. split; [done|].
    pose proof (acts_tenant _ _ _ Hok Ha) as Hne. unfold tenantOf. cbn. unfold str_nonempty.
    by rewrite bool_decide_false.
  - destruct (errors_Is e ErrKeyNotFound); [|done]. cbn [negb]. eauto.
Qed.

Lemma auth_unrecognised (ae : AuthEnv K) c s :
  kl_ok s -> (forall s, intf (ae_tenant ae) s = s) -> fault (ae_tenant ae) = NoFault ->
  let p := bearerToken (ctx_Authorization c) in
  (p = "" \/ (~ p ∈ keys /\ (lookup = true -> forall tenant, ~ kl_acts p tenant s))) ->
  APIKeyAuth keys lookup ae c s = auth_open keys lookup (ae_active ae) p c s.
Proof.
  intros Hok Hq Hf p Hno. unfold APIKeyAuth. fold p. unfold str_nonempty.
  case_bool_decide as Hp; cbn [negb]; [done|]. destruct Hno as [?|[Hin Hno]]; [done|].
  destruct (matches_any p keys) eqn:Em; [by apply matches_any_iff in Em|].
  destruct lookup; [|done]. rewrite tenant_miss; rewrite ?Hq; auto.
Qed.

(** Behind a configured key, who presents neither it nor a live one is
    refused, whatever fails. *)
Lemma auth_refuses (ae : AuthEnv K) c s :
  let p := bearerToken (ctx_Authorization c) in
  keys <> [] -> ~ p ∈ keys -> kl_ok (intf (ae_tenant ae) s) ->
  (forall tenant, ~ kl_acts p tenant (intf (ae_tenant ae) s)) ->
  exists r, (APIKeyAuth keys lookup ae c s).1 = Abort r /\
    (status r = StatusUnauthorized \/ status r = StatusInternalServerError).
Proof.
  intros p Hk Hp Hok Hno.
  assert (Ho : forall s, exists r, (auth_open keys lookup (ae_active ae) p c s).1 = Abort r /\
    (status r = StatusUnauthorized \/ status r = StatusInternalServerError)).
  { intros s0. unfold auth_open. rewrite bool_decide_false by done. cbn. eexists. split; [done|by left]. }
  unfold APIKeyAuth. fold p. destruct (str_nonempty p); [|done].
  destruct (matches_any p keys) eqn:Em; [by apply matches_any_iff in Em|]. destruct lookup; [|done].
  destruct (kl_TenantForKey _ p s) as [[tn|e] s1] eqn:E.
  - apply tenant_found in E as [-> Ha]; [|done]. by destruct (Hno tn).
  - destruct (negb _); [|done]. eexists. split; [done|by right].
Qed.

(** When the key table answers, authentication decides by the keys
    alone: a configured key acts for the default tenant, a live issued key
    for its own, and any other request for the default tenant if there are no
    keys at all and is refused with 401 if there are. *)
Theorem auth_complete (ae : AuthEnv K) (c : Ctx) (s : K) :
  kl_ok s -> (forall s, intf (ae_tenant ae) s = s) -> (forall s, intf (ae_active ae) s = s) ->
  fault (ae_tenant ae) = NoFault -> fault (ae_active ae) = NoFault ->
  let p := bearerToken (ctx_Authorization c) in
  let answer := (APIKeyAuth keys lookup ae c s).1 in
  (p <> "" -> p ∈ keys -> answer = Proceed (set_ctx_tenant DefaultTenant c)) /\
  (forall tenant, p <> "" -> p ∉ keys -> lookup = true -> kl_acts p tenant s ->
     answer = Proceed (set_ctx_tenant tenant c)) /\
  ((p = "" \/ (~ p ∈ keys /\ (lookup = true -> forall tenant, ~ kl_acts p tenant s))) ->
     (keys = [] -> (lookup = true -> ~ kl_live s) -> answer = Proceed (set_ctx_tenant DefaultTenant c)) /\
     (keys <> [] \/ (lookup = true /\ kl_live s) ->
      exists r, answer = Abort r /\ status r = StatusUnauthorized)).
Proof.
  intros Hok Hq1 Hq2 Hf1 Hf2 p answer. unfold answer. split; [|split].
  - intros Hp Hin. unfold APIKeyAuth. fold p. unfold str_nonempty. rewrite bool_decide_false by done. cbn [negb].
    by rewrite (proj2 (matches_any_iff _ _)).
  - intros tn Hp Hin Hl Ha. unfold APIKeyAuth. fold p. unfold str_nonempty. rewrite bool_decide_false by done.
    cbn [negb]. destruct (matches_any p keys) eqn:Em; [by apply matches_any_iff in Em|].
    rewrite Hl, (tenant_hit _ p tn) by (rewrite ?Hq1; done). done.
  - intros Hno. rewrite auth_unrecognised by done. fold p. unfold auth_open.
    destruct (active_total (ae_active ae) s Hf2) as [b Hb]. rewrite Hb.
    apply active_found in Hb as [_ Hb]. rewrite Hq2 in Hb.
    case_bool_decide as Hk; cbn [andb].
    + split.
      * intros _ Hl. destruct lookup; [|done]. destruct b; [|done]. by destruct (Hl eq_refl); apply Hb.
      * intros [?|[Hl Hlv]]; [done|]. rewrite Hl. apply Hb in Hlv as ->. eauto.
    + split; [done|]. intros _. eauto.
Qed.
End Auth.

(** *** An instance with one issued key *)

Definition demo_auth_env : AuthEnv KeyTable := mkAuthEnv (calm_k 0) (calm_k 0).
Definition demo_ctx (auth : string) : Ctx := mkCtx auth "" None None.

Lemma auth_sound_witness :
  kl_acts (demo_key.2) "acme" demo_minted.2 /\ ~ demo_key.2 ∈ ["operator"].
Proof.
  destruct (auth_sound ["operator"] true demo_auth_env (demo_ctx ("bearer " +:+ demo_key.2))
    (set_ctx_tenant "acme" (demo_ctx ("bearer " +:+ demo_key.2))) demo_minted.2 demo_minted.2)
    as [(_ & H & _)|[(_ & _ & H)|(H & _)]].
  - apply demo_minted_ok.
  - vm_compute. reflexivity.
  - exfalso. apply list_elem_of_singleton in H. vm_compute in H. discriminate.
  - split.
    + replace demo_key.2 with (bearerToken (ctx_Authorization (demo_ctx ("bearer " +:+ demo_key.2))))
        by (vm_compute; reflexivity). exact H.
    + intros Hin. apply list_elem_of_singleton in Hin. vm_compute in Hin. discriminate.
  - discriminate.
Defined.

Lemma auth_complete_witness :
  exists r, (APIKeyAuth ["operator"] true demo_auth_env (demo_ctx "Bearer guess") demo_minted.2).1 = Abort r /\
    status r = StatusUnauthorized.
Proof.
  apply (auth_complete ["operator"] true demo_auth_env (demo_ctx "Bearer guess") demo_minted.2).
  - apply demo_minted_ok.
  - intros s. reflexivity.
  - intros s. reflexivity.
  - reflexivity.
  - reflexivity.
  - right. split; [intros Hin; apply list_elem_of_singleton in Hin; vm_compute in Hin; discriminate|].
    intros _ tenant (k & r & Hr & Hl & _). revert Hl.
    assert (Hd : map_Forall (fun _ r => live_with (hashKey "guess") r = false) demo_minted.2)
      by (apply (bool_decide_unpack _); vm_compute; exact I).
    change (bearerToken (ctx_Authorization (demo_ctx "Bearer guess"))) with "guess".
    rewrite (Hd k r Hr). discriminate.
  - left. discriminate.
Defined.
