(* ===== verification/Api.v ===== *)
(** * internal/api: the job and worker endpoints

    handler.go and worker.go, one definition per endpoint, over the service
    and the store.  A request body arrives as the JSON library bound it, or as
    the message it refused it with; responses are those of Auth.v.  Counters
    and log lines are left out.  The theorems say that a request can do
    nothing to the jobs table but store calls of its own tenant, or under the
    lease token it presents, and what each outcome means. *)

From S2P Require Import Prelude Models JobStore JobFacts JobSystem JobSpec JobProps Retry Service GoStrings ScheduleStore Pages Keys Auth.

(** ** Requests *)

(** A bound body, or the library's complaint. *)
Inductive Bound (A : Type) := BindOk (a : A) | BindError (msg : string).
Arguments BindOk {A}.
Arguments BindError {A}.

Record EnqueueRequest := mkEnqueueRequest {
  Enq_IdempotencyKey : string;
  Enq_Task : Task;
  Enq_ScheduledAt : option Time;
  Enq_Metadata : StrMap
}.

Record ClaimRequest := mkClaimRequest {
  Claim_Queues : list string;
  Claim_Names : list string;
  Claim_LeaseSeconds : Z;
  Claim_WaitSeconds : Z
}.

Record HeartbeatRequest := mkHeartbeatRequest {
  Heartbeat_LeaseToken : string;
  Heartbeat_LeaseSeconds : Z
}.

Record CompleteRequest := mkCompleteRequest {
  Complete_LeaseToken : string;
  Complete_Metadata : StrMap
}.

Record FailRequest := mkFailRequest {
  Fail_LeaseToken : string;
  Fail_Error : string;
  Fail_Retry : bool
}.

(** The query string of a listing; [""] stands for an absent parameter. *)
Record ListQuery := mkListQuery {
  Query_state : string;
  Query_cursor : string;
  Query_limit : string;
  Query_include : string
}.

(** What the JSON encoder writes of a job: not its lease token. *)
Definition public (job : Job) : Job :=
  mkJob (Job_ID job) (Job_TenantID job) (Job_IdempotencyKey job) (Job_Task job) (Job_State job)
    (Job_Attempt job) (Job_ScheduledAt job) (Job_StartedAt job) (Job_LeaseExpiresAt job) ""
    (Job_CompletedAt job) (Job_LastError job) (Job_Metadata job) (Job_CreatedAt job) (Job_UpdatedAt job).

Definition without_payload (job : Job) : Job :=
  let task := Job_Task job in
  mkJob (Job_ID job) (Job_TenantID job) (Job_IdempotencyKey job)
    (mkTask (Task_ID task) (Task_Name task) None (Task_RetryCount task) (Task_MaxRetries task)
       (Task_Timeout task) (Task_CronExpression task) (Task_Queue task) (Task_Metadata task)
       (Task_Priority task))
    (Job_State job) (Job_Attempt job) (Job_ScheduledAt job) (Job_StartedAt job) (Job_LeaseExpiresAt job)
    (Job_LeaseToken job) (Job_CompletedAt job) (Job_LastError job) (Job_Metadata job)
    (Job_CreatedAt job) (Job_UpdatedAt job).

(** The [switch] of ListJobs on the state parameter. *)
Definition parse_state (s : string) : option JobState :=
  if bool_decide (s = "") then Some JobStateUnset
  else if bool_decide (s = "PENDING") then Some JobStatePending
  else if bool_decide (s = "RUNNING") then Some JobStateRunning
  else if bool_decide (s = "COMPLETED") then Some JobStateCompleted
  else if bool_decide (s = "FAILED") then Some JobStateFailed
  else if bool_decide (s = "DEAD") then Some JobStateDead
  else None.

Definition derefTime (t : option Time) : Time := default 0 t.

(** Go's built-in [min]. *)
Definition min_dur (a b : Dur) : Dur := if b <? a then b else a.

(** ** Shared answers *)

Definition bad_request (c : Ctx) (msg : string) : Response :=
  RespondError c StatusBadRequest "invalid_request" msg.
Definition not_found (c : Ctx) : Response := RespondError c StatusNotFound "not_found" "job not found".
Definition internal (c : Ctx) (msg : string) : Response :=
  RespondError c StatusInternalServerError "internal_error" msg.

Definition respondLeaseLost (c : Ctx) (e : error) : option Response :=
  if errors_Is e ErrLeaseLost
  then Some (RespondError c StatusConflict "lease_lost"
    "the lease on this job is no longer held; stop working on it and claim another")
  else None.

(** ** handler.go *)

Definition request_job (c : Ctx) (req : EnqueueRequest) : Job :=
  mkJob "" (tenantOf c) (Enq_IdempotencyKey req) (Enq_Task req) JobStateUnset 0 (Enq_ScheduledAt req)
    None None "" None "" (Enq_Metadata req) 0 0.

Definition EnqueueJob (svc : JobService) (ee : EnqueueEnv Jobs) (c : Ctx) (b : Bound EnqueueRequest)
    (t : Jobs) : Response * Jobs :=
  match b with
  | BindError msg => (bad_request c msg, t)
  | BindOk req =>
      if bool_decide (Task_Name (Enq_Task req) = "") then (bad_request c "task.name is required", t)
      else match taskAllowed c (Task_Name (Enq_Task req)) with
      | Some refusal => (refusal, t)
      | None =>
          match Enqueue svc ee (request_job c req) t with
          | (Error _, _, t1) => (internal c "failed to enqueue job", t1)
          | (Ok id, _, t1) => (mkResponse StatusCreated (BodyID id), t1)
          end
      end
  end.

(** The answer to a read of one job. *)
Definition respond_job (c : Ctx) (r : result Job) : Response :=
  match r with
  | Error e => if errors_Is e ErrJobNotFound then not_found c else internal c "failed to retrieve job"
  | Ok job => mkResponse StatusOK (BodyJob (public job))
  end.

Definition GetJobStatus (env : Env Jobs) (c : Ctx) (id : string) (t : Jobs) : Response * Jobs :=
  let '(r, t1) := GetJob env (tenantOf c) id t in (respond_job c r, t1).

Definition GetJobByIdempotencyKey_handler (env : Env Jobs) (c : Ctx) (key : string) (t : Jobs)
    : Response * Jobs :=
  if bool_decide (key = "") then (bad_request c "idempotency key is required", t)
  else let '(r, t1) := GetJobByIdempotencyKey env (tenantOf c) key t in (respond_job c r, t1).

(** The limit parameter: [None] when it is refused. *)
Definition parse_limit (v : string) : option Z :=
  if bool_decide (v = "") then Some 0
  else match Atoi v with
  | Error _ => None
  | Ok n => if n <? 0 then None else Some n
  end.

Definition ListJobs_handler (id_le : relation string) `{!RelDecision id_le} (env : Env Jobs) (c : Ctx)
    (q : ListQuery) (t : Jobs) : Response * Jobs :=
  match parse_limit (Query_limit q) with
  | None => (bad_request c "limit must be a non-negative integer", t)
  | Some limit =>
      match parse_state (Query_state q) with
      | None => (bad_request c "state must be one of PENDING, RUNNING, COMPLETED, FAILED, DEAD", t)
      | Some st =>
          match ListJobs id_le env (mkListFilter (tenantOf c) st limit (Query_cursor q)) t with
          | (Error _, t1) => (internal c "failed to list jobs", t1)
          | (Ok (jobs, next), t1) =>
              let jobs := if bool_decide (Query_include q = "payload") then jobs else without_payload <$> jobs in
              (mkResponse StatusOK (BodyJobs (public <$> jobs) next), t1)
          end
      end
  end.

Definition CancelJob_handler (env1 env2 env3 : Env Jobs) (c : Ctx) (id : string) (t : Jobs)
    : Response * Jobs :=
  match GetJob env1 (tenantOf c) id t with
  | (Error e, t1) =>
      ((if errors_Is e ErrJobNotFound then not_found c else internal c "failed to cancel job"), t1)
  | (Ok _, t1) =>
      match Cancel env2 env3 (tenantOf c) id t1 with
      | (Error e, t2) =>
          ((if errors_Is e ErrJobNotFound then not_found c
            else if errors_Is e ErrInvalidTransition
            then RespondError c StatusConflict "invalid_state" "job cannot be cancelled in its current state"
            else internal c "failed to cancel job"), t2)
      | (Ok _, t2) => (mkResponse StatusOK BodyCancelled, t2)
      end
  end.

Definition RequeueJob (env1 env2 : Env Jobs) (c : Ctx) (id : string) (t : Jobs) : Response * Jobs :=
  match RequeueDeadJob env1 env2 (tenantOf c) id t with
  | (Error e, t1) =>
      ((if errors_Is e ErrJobNotFound then not_found c
        else if errors_Is e ErrInvalidTransition
        then RespondError c StatusConflict "invalid_state" "only a DEAD job can be requeued"
        else internal c "failed to requeue job"), t1)
  | (Ok _, t1) => (mkResponse StatusOK BodyRequeued, t1)
  end.

(** ** worker.go *)

(** claimRetryEvery bounds how long one wait of the poll is. *)
Definition claimRetryEvery : Dur := 2 * Second.

(** A select over arms in the order ready ones are tried, each with the delay
    until it is ready, [None] for never: the arm taken and the time that passed;
    [None] if no arm will ever be ready. *)
Fixpoint select {A} (arms : list (A * option Dur)) : option (A * Dur) :=
  match arms with
  | [] => None
  | (_, None) :: rest => select rest
  | (a, Some d) :: rest =>
      match select rest with
      | Some (b, d') => if d' <? Z.max 0 d then Some (b, d') else Some (a, Z.max 0 d)
      | None => Some (a, Z.max 0 d)
      end
  end.

(** One round of the long poll: its claim and the time it takes; then, from
    the moment of the select, when the wake channel closes ([None]: never, as
    when there is no Waker) and when the request's context is done; and
    whether the context is tried first. *)
Record PollEnv := mkPollEnv {
  pl_claim : Env Jobs;
  pl_took : Dur;
  pl_wake : option Dur;
  pl_done : option Dur;
  pl_done_first : bool
}.

Inductive poll_arm := WakeArm | TimerArm | DoneArm.

(** The arms of the select, [left] before the deadline. *)
Definition poll_arms (p : PollEnv) (left : Dur) : list (poll_arm * option Dur) :=
  let arms := [(WakeArm, pl_wake p); (TimerArm, Some (min_dur left claimRetryEvery))] in
  if pl_done_first p then (DoneArm, pl_done p) :: arms else arms ++ [(DoneArm, pl_done p)].

(** How the loop ends.  A client that went away gets nothing. *)
Inductive poll_end :=
  | Claimed (job : Job)
  | Answered (r : Response)
  | ClientGone
  | Stuck               (* a select none of whose arms is ever ready *)
  | StillWaiting.       (* out of fuel *)

(** The loop from the clock [now] on, with the clock when it ends. *)
Fixpoint claim_poll (svc : JobService) (c : Ctx) (f : ClaimFilter) (lease : Dur) (deadline : Time)
    (fuel i : nat) (polls : nat -> PollEnv) (now : Time) (t : Jobs) : poll_end * Time * Jobs :=
  match fuel with
  | O => (StillWaiting, now, t)
  | S fuel' =>
      let p := polls i in
      let now1 := Add now (pl_took p) in
      match Claim svc (pl_claim p) f lease t with
      | (Ok job, t1) => (Claimed job, now1, t1)
      | (Error e, t1) =>
          if negb (errors_Is e ErrJobNotFound) then (Answered (internal c "failed to claim a job"), now1, t1)
          else
            let left := Sub deadline now1 in
            if left <=? 0 then (Answered (mkResponse StatusNoContent BodyNone), now1, t1)
            else match select (poll_arms p left) with
            | None => (Stuck, now1, t1)
            | Some (DoneArm, d) => (ClientGone, Add now1 d, t1)
            | Some (_, d) => claim_poll svc c f lease deadline fuel' (S i) polls (Add now1 d) t1
            end
      end
  end.

(** [fuel] rounds are followed; see [claim_is_answered] for how many it
    takes.  An absent body binds to the zero request. *)
Definition ClaimJob (svc : JobService) (maxWait : Dur) (now : Time) (fuel : nat) (polls : nat -> PollEnv)
    (c : Ctx) (b : option (Bound ClaimRequest)) (t : Jobs) : poll_end * Time * Jobs :=
  match default (BindOk (mkClaimRequest [] [] 0 0)) b with
  | BindError msg => (Answered (bad_request c msg), now, t)
  | BindOk req =>
      if (Claim_LeaseSeconds req <? 0) || (Claim_WaitSeconds req <? 0)
      then (Answered (bad_request c "lease_seconds and wait_seconds must not be negative"), now, t)
      else
        let filter := mkClaimFilter (tenantOf c) (Claim_Queues req) (Claim_Names req) in
        let deadline := Add now (min_dur (mulDur (Claim_WaitSeconds req) Second) maxWait) in
        claim_poll svc c filter (mulDur (Claim_LeaseSeconds req) Second) deadline fuel 0 polls now t
  end.

(** What the caller sees once the loop is over. *)
Definition claim_response (e : poll_end) : option Response :=
  match e with
  | Claimed job =>
      Some (mkResponse StatusOK (BodyClaim (public job) (Job_LeaseToken job) (derefTime (Job_LeaseExpiresAt job))))
  | Answered r => Some r
  | ClientGone | Stuck | StillWaiting => None
  end.

Definition token_required (c : Ctx) : Response := bad_request c "lease_token is required".

Definition HeartbeatJob (svc : JobService) (env : Env Jobs) (now : Time) (c : Ctx) (id : string)
    (b : Bound HeartbeatRequest) (t : Jobs) : Response * Jobs :=
  match b with
  | BindError msg => (bad_request c msg, t)
  | BindOk req =>
      if bool_decide (Heartbeat_LeaseToken req = "") then (token_required c, t)
      else match Heartbeat svc env now id (Heartbeat_LeaseToken req) (mulDur (Heartbeat_LeaseSeconds req) Second) t with
      | (Error e, t1) => (default (internal c "failed to renew lease") (respondLeaseLost c e), t1)
      | (Ok expires, t1) => (mkResponse StatusOK (BodyLease expires), t1)
      end
  end.

Definition CompleteJob (env : Env Jobs) (c : Ctx) (id : string) (b : Bound CompleteRequest) (t : Jobs)
    : Response * Jobs :=
  match b with
  | BindError msg => (bad_request c msg, t)
  | BindOk req =>
      if bool_decide (Complete_LeaseToken req = "") then (token_required c, t)
      else match Complete env id (Complete_LeaseToken req) (Complete_Metadata req) t with
      | (Error e, t1) => (default (internal c "failed to complete job") (respondLeaseLost c e), t1)
      | (Ok _, t1) => (mkResponse StatusOK BodyCompleted, t1)
      end
  end.

Definition fail_message (req : FailRequest) : string :=
  if bool_decide (Fail_Error req = "") then "worker reported failure without a message" else Fail_Error req.

Definition FailJob (svc : JobService) (env1 : Env Jobs) (now : Time) (rnd : float64) (env2 : Env Jobs)
    (c : Ctx) (id : string) (b : Bound FailRequest) (t : Jobs) : Response * Jobs :=
  match b with
  | BindError msg => (bad_request c msg, t)
  | BindOk req =>
      if bool_decide (Fail_LeaseToken req = "") then (token_required c, t)
      else match Fail svc env1 now rnd env2 id (Fail_LeaseToken req) (fail_message req)
                   (negb (Fail_Retry req)) t with
      | (Error e, t1) =>
          (default (if errors_Is e ErrJobNotFound then not_found c
                    else internal c "failed to record job failure") (respondLeaseLost c e), t1)
      | (Ok job, t1) =>
          (mkResponse StatusOK (BodyFailed (Job_State job) (Job_Attempt job) (Job_ScheduledAt job)), t1)
      end
  end.

(** ** The routes *)

Inductive JobRequest :=
  | PostJobs (b : Bound EnqueueRequest)
  | GetJobs (q : ListQuery)
  | GetByKey (key : string)
  | PostClaim (b : option (Bound ClaimRequest))
  | GetOne (id : string)
  | PostCancel (id : string)
  | PostRequeue (id : string)
  | PostHeartbeat (id : string) (b : Bound HeartbeatRequest)
  | PostComplete (id : string) (b : Bound CompleteRequest)
  | PostFail (id : string) (b : Bound FailRequest).

(** Everything outside the program that one request meets: the round trips
    of its enqueue, up to three others, the rounds of a poll and how many are
    followed, the clock and the random draw of the backoff. *)
Record ReqEnv := mkReqEnv {
  rq_enqueue : EnqueueEnv Jobs;
  rq_env1 : Env Jobs;
  rq_env2 : Env Jobs;
  rq_env3 : Env Jobs;
  rq_polls : nat -> PollEnv;
  rq_fuel : nat;
  rq_now : Time;
  rq_rnd : float64
}.

Section Routes.
Context (id_le : relation string) `{!RelDecision id_le}.
Variables (svc : JobService) (maxWait : Dur).

Definition handle (re : ReqEnv) (c : Ctx) (req : JobRequest) (t : Jobs) : option Response * Jobs :=
  let some '(r, t1) := (Some r, t1) in
  match req with
  | PostJobs b => some (EnqueueJob svc (rq_enqueue re) c b t)
  | GetJobs q => some (ListJobs_handler id_le (rq_env1 re) c q t)
  | GetByKey key => some (GetJobByIdempotencyKey_handler (rq_env1 re) c key t)
  | PostClaim b =>
      let '(e, _, t1) := ClaimJob svc maxWait (rq_now re) (rq_fuel re) (rq_polls re) c b t in
      (claim_response e, t1)
  | GetOne id => some (GetJobStatus (rq_env1 re) c id t)
  | PostCancel id => some (CancelJob_handler (rq_env1 re) (rq_env2 re) (rq_env3 re) c id t)
  | PostRequeue id => some (RequeueJob (rq_env1 re) (rq_env2 re) c id t)
  | PostHeartbeat id b => some (HeartbeatJob svc (rq_env1 re) (rq_now re) c id b t)
  | PostComplete id b => some (CompleteJob (rq_env1 re) c id b t)
  | PostFail id b => some (FailJob svc (rq_env1 re) (rq_now re) (rq_rnd re) (rq_env2 re) c id b t)
  end.

(** The group's middleware, then the route: the request id, the key check,
    the handler.  The tables are the jobs and the keys. *)
Definition serve (keys : list string) (ae : AuthEnv KeyTable) (rnd : option (list Z)) (re : ReqEnv) (c : Ctx)
    (req : JobRequest) (w : Jobs * KeyTable) : option Response * (Jobs * KeyTable) :=
  let c := RequestID rnd (rq_now re) c in
  match APIKeyAuth keys true ae c w.2 with
  | (Abort r, k1) => (Some r, (w.1, k1))
  | (Proceed c', k1) => let '(r, t1) := handle re c' req w.1 in (r, (t1, k1))
  end.
End Routes.

(** ** A request is a run of store calls *)

Definition bound_token {A} (tok : A -> string) (b : Bound A) : option string :=
  match b with BindOk a => Some (tok a) | BindError _ => None end.

(** The lease token a request presents. *)
Definition presented_token (req : JobRequest) : option string :=
  match req with
  | PostHeartbeat _ b => bound_token Heartbeat_LeaseToken b
  | PostComplete _ b => bound_token Complete_LeaseToken b
  | PostFail _ b => bound_token Fail_LeaseToken b
  | _ => None
  end.

(** The store calls a request of [tenant] is entitled to: reads, calls scoped
    to the tenant, and reports under the token it presents. *)
Definition entitled (tenant : string) (tok : option string) (op : Op) : Prop :=
  match op with
  | OGet _ _ _ => True
  | OCreate _ job => Job_TenantID job = tenant
  | OCancel _ _ tn _ | ORequeueDead _ _ tn _ => tn = tenant
  | OClaim _ _ f => Filter_Tenant f = tenant
  | ORenew _ job _ => tok = Some (Job_LeaseToken job)
  | OComplete _ _ tk _ | OFail _ _ tk _ _ => tok = Some tk
  | OUpdate _ _ _ | OReap _ _ | ORelease _ _ _ _ | ODelete _ _ _ _ => False
  end.

Definition request_env (re : ReqEnv) (env : Env Jobs) : Prop :=
  env = ee_lookup (rq_enqueue re) \/ env = ee_create (rq_enqueue re) \/ env = ee_again (rq_enqueue re) \/
  env = rq_env1 re \/ env = rq_env2 re \/ env = rq_env3 re \/ exists i, env = pl_claim (rq_polls re i).

(** Between the read and the write of a failure report nobody changes the
    attempt or the budget of a row the token holds. *)
Definition fail_stable (re : ReqEnv) (req : JobRequest) (t : Jobs) : Prop :=
  match req with
  | PostFail id (BindOk q) =>
      forall r2, intf (rq_env2 re) (intf (rq_env1 re) t) !! id = Some r2 ->
      holds_lease (Fail_LeaseToken q) r2 = true ->
      exists r1, intf (rq_env1 re) t !! id = Some r1 /\ attempt r1 = attempt r2 /\
        task_max_retries r1 = task_max_retries r2
  | _ => True
  end.

Lemma ByKey_snd env tenant key t : (GetJobByIdempotencyKey env tenant key t).2 = intf env t.
Proof. exact (lookup_reads (S := Jobs) env tenant key t). Qed.

Lemma request_job_submission c req : submission (request_job c req).
Proof. repeat split. by left. Qed.

Lemma tenantOf_nonempty c : tenantOf c <> "".
Proof.
  unfold tenantOf. destruct (ctx_tenant c) as [t|]; [|done]. destruct (str_nonempty t) eqn:E; [|done].
  by apply str_nonempty_true.
Qed.

Section Traces.
Context (re : ReqEnv).

Lemma enqueue_new_traced svc tenant tok job t :
  submission job -> Job_TenantID job = tenant ->
  traced (request_env re) (entitled tenant tok) t (enqueue_new svc (rq_enqueue re) job t).2.
Proof.
  intros Hs Htn. unfold enqueue_new. destruct (if bool_decide _ then _ else _) as [id|]; [|apply traced_refl].
  set (job' := normalise svc _ id job).
  assert (H1 : traced (request_env re) (entitled tenant tok) t (CreateJob (ee_create (rq_enqueue re)) job' t).2).
  { apply (traced_one _ _ (OCreate (ee_create (rq_enqueue re)) job')); [done|by apply normalise_fresh|done|].
    apply Forall_singleton. unfold request_env. auto. }
  cbn [js_CreateJob PostgresStore] in *.
  destruct (CreateJob _ job' t) as [[u|e] t1]; cbn [snd] in H1; [by case_goal|].
  destruct (_ && _); [|done]. cbn [js_GetJobByIdempotencyKey PostgresStore].
  pose proof (ByKey_snd (ee_again (rq_enqueue re)) (Job_TenantID job') (Job_IdempotencyKey job') t1) as H2.
  eapply traced_trans; [apply H1|].
  assert (H3 : traced (request_env re) (entitled tenant tok) t1 (intf (ee_again (rq_enqueue re)) t1))
    by (apply traced_read; [unfold request_env; auto|done]).
  destruct (GetJobByIdempotencyKey _ _ _ _) as [[ex|e2] t2]; cbn [snd] in H2; by subst t2.
Qed.

Lemma Enqueue_traced svc tok job t :
  submission job ->
  traced (request_env re) (entitled (Job_TenantID (set_tenant job)) tok) t (Enqueue svc (rq_enqueue re) job t).2.
Proof.
  intros Hs. unfold Enqueue. destruct (str_nonempty _); [|by apply enqueue_new_traced].
  cbn [js_GetJobByIdempotencyKey PostgresStore].
  pose proof (ByKey_snd (ee_lookup (rq_enqueue re)) (Job_TenantID (set_tenant job))
    (Job_IdempotencyKey (set_tenant job)) t) as H1.
  assert (H2 : forall tn, traced (request_env re) (entitled tn tok) t (intf (ee_lookup (rq_enqueue re)) t))
    by (intros; apply traced_read; [unfold request_env; auto|done]).
  destruct (GetJobByIdempotencyKey _ _ _ _) as [[ex|e] t1]; cbn [snd] in H1; subst t1; [apply H2|].
  destruct (negb _); [apply H2|]. eapply traced_trans; [apply H2|]. by apply enqueue_new_traced.
Qed.

Lemma claim_poll_traced svc tok c f lease deadline fuel i now t :
  traced (request_env re) (entitled (Filter_Tenant f) tok) t (claim_poll svc c f lease deadline fuel i (rq_polls re) now t).2.
Proof.
  revert i now t. induction fuel as [|fuel IH]; intros i now t; cbn [claim_poll]; [apply traced_refl|].
  assert (H1 : traced (request_env re) (entitled (Filter_Tenant f) tok) t
    (ClaimNextJob (pl_claim (rq_polls re i)) (clampLease svc lease) f t).2).
  { apply (traced_one _ _ (OClaim (pl_claim (rq_polls re i)) (clampLease svc lease) f)); try done.
    apply Forall_singleton. unfold request_env. eauto 10. }
  unfold Claim. cbn [js_ClaimNextJob PostgresStore].
  destruct (ClaimNextJob _ _ f t) as [[job|e] t1]; cbn [snd] in H1; [done|].
  destruct (negb _); [done|]. destruct (_ <=? _); [done|].
  destruct (select _) as [[[] d]|]; try done; (eapply traced_trans; [apply H1|apply IH]).
Qed.

Lemma ListJobs_snd (id_le : relation string) `{!RelDecision id_le} env f t :
  (ListJobs id_le env f t).2 = t \/ (ListJobs id_le env f t).2 = intf env t.
Proof.
  unfold ListJobs. case_goal; [|by left]. right. unfold run_stmt. destruct (fault env); [|done|done].
  by case_goal.
Qed.

Lemma read1_traced tenant tok t : traced (request_env re) (entitled tenant tok) t (intf (rq_env1 re) t).
Proof. apply traced_read; [unfold request_env; auto|done]. Qed.

Lemma EnqueueJob_traced svc tok c b t :
  traced (request_env re) (entitled (tenantOf c) tok) t (EnqueueJob svc (rq_enqueue re) c b t).2.
Proof.
  unfold EnqueueJob. destruct b as [q|]; [|apply traced_refl]. case_bool_decide; [apply traced_refl|].
  destruct (taskAllowed _ _); [apply traced_refl|].
  pose proof (Enqueue_traced svc tok (request_job c q) t (request_job_submission c q)) as H1.
  replace (Job_TenantID (set_tenant (request_job c q))) with (tenantOf c) in H1
    by (cbn; by rewrite bool_decide_false by apply tenantOf_nonempty).
  by destruct (Enqueue _ _ _ _) as [[[?|?] ?] t1].
Qed.

Lemma ListJobs_traced (id_le : relation string) `{!RelDecision id_le} tenant tok c q t :
  traced (request_env re) (entitled tenant tok) t (ListJobs_handler id_le (rq_env1 re) c q t).2.
Proof.
  unfold ListJobs_handler. destruct (parse_limit _); [|apply traced_refl].
  destruct (parse_state _); [|apply traced_refl].
  match goal with |- context [ListJobs id_le ?env ?f t] =>
    destruct (ListJobs_snd id_le env f t) as [Hs|Hs]; destruct (ListJobs id_le env f t) as [[[? ?]|?] t1] end;
    cbn [snd] in Hs; subst t1; auto using traced_refl; apply read1_traced.
Qed.

Lemma ByKey_traced tenant tok c key t :
  traced (request_env re) (entitled tenant tok) t (GetJobByIdempotencyKey_handler (rq_env1 re) c key t).2.
Proof.
  unfold GetJobByIdempotencyKey_handler. case_bool_decide; [apply traced_refl|].
  pose proof (ByKey_snd (rq_env1 re) (tenantOf c) key t) as Hs.
  destruct (GetJobByIdempotencyKey _ _ _ _) as [? t1]. cbn in *. subst t1. apply read1_traced.
Qed.

Lemma ClaimJob_traced svc maxWait now fuel tok c b t :
  traced (request_env re) (entitled (tenantOf c) tok) t (ClaimJob svc maxWait now fuel (rq_polls re) c b t).2.
Proof.
  unfold ClaimJob. destruct (default _ b) as [q|]; [|apply traced_refl].
  destruct (_ || _); [apply traced_refl|].
  match goal with |- context [claim_poll svc c ?f ?l ?d ?n 0 _ _ t] =>
    exact (claim_poll_traced svc tok c f l d n 0 now t) end.
Qed.

Lemma GetJobStatus_traced tenant tok c id t : traced (request_env re) (entitled tenant tok) t (GetJobStatus (rq_env1 re) c id t).2.
Proof.
  unfold GetJobStatus. pose proof (GetJob_snd (rq_env1 re) (tenantOf c) id t) as Hs.
  destruct (GetJob _ _ _ _) as [? t1]. cbn in *. subst t1. apply read1_traced.
Qed.

Lemma CancelJob_traced tok c id t :
  traced (request_env re) (entitled (tenantOf c) tok) t (CancelJob_handler (rq_env1 re) (rq_env2 re) (rq_env3 re) c id t).2.
Proof.
  unfold CancelJob_handler. pose proof (GetJob_snd (rq_env1 re) (tenantOf c) id t) as Hs.
  destruct (GetJob _ _ _ _) as [[j|?] t1]; cbn [snd] in Hs; subst t1; [|apply read1_traced].
  eapply traced_trans; [apply read1_traced|].
  assert (H2 : traced (request_env re) (entitled (tenantOf c) tok) (intf (rq_env1 re) t)
    (CancelJob (rq_env2 re) (rq_env3 re) (tenantOf c) id (intf (rq_env1 re) t)).2).
  { apply (traced_one _ _ (OCancel (rq_env2 re) (rq_env3 re) (tenantOf c) id)); try done.
    repeat (apply Forall_cons; split); [unfold request_env; auto 8..|done]. }
  unfold Cancel. cbn [js_CancelJob PostgresStore]. by destruct (CancelJob _ _ _ _ _) as [[?|?] t2].
Qed.

Lemma RequeueJob_traced tok c id t :
  traced (request_env re) (entitled (tenantOf c) tok) t (RequeueJob (rq_env1 re) (rq_env2 re) c id t).2.
Proof.
  unfold RequeueJob.
  assert (H2 : traced (request_env re) (entitled (tenantOf c) tok) t (RequeueDeadJob (rq_env1 re) (rq_env2 re) (tenantOf c) id t).2).
  { apply (traced_one _ _ (ORequeueDead (rq_env1 re) (rq_env2 re) (tenantOf c) id)); try done.
    repeat (apply Forall_cons; split); [unfold request_env; auto 8..|done]. }
  by destruct (RequeueDeadJob _ _ _ _ _) as [[?|?] t2].
Qed.

Lemma HeartbeatJob_traced svc now tenant c id b t :
  traced (request_env re) (entitled tenant (bound_token Heartbeat_LeaseToken b)) t (HeartbeatJob svc (rq_env1 re) now c id b t).2.
Proof.
  unfold HeartbeatJob. destruct b as [q|]; [|apply traced_refl]. case_bool_decide; [apply traced_refl|].
  unfold Heartbeat. cbn [js_RenewLease PostgresStore bound_token].
  match goal with |- context [RenewLease ?env ?job ?d t] =>
    assert (H2 : traced (request_env re) (entitled tenant (Some (Heartbeat_LeaseToken q))) t (RenewLease env job d t).2);
      [apply (traced_one _ _ (ORenew env job d)); [done..|apply Forall_singleton; unfold request_env; auto 8]
      |by destruct (RenewLease env job d t) as [[?|?] t1]] end.
Qed.

Lemma CompleteJob_traced tenant c id b t :
  traced (request_env re) (entitled tenant (bound_token Complete_LeaseToken b)) t (CompleteJob (rq_env1 re) c id b t).2.
Proof.
  unfold CompleteJob. destruct b as [q|]; [|apply traced_refl]. case_bool_decide; [apply traced_refl|].
  unfold Complete. cbn [js_CompleteClaimedJob PostgresStore bound_token].
  assert (H2 : traced (request_env re) (entitled tenant (Some (Complete_LeaseToken q))) t
    (CompleteClaimedJob (rq_env1 re) id (Complete_LeaseToken q) (Complete_Metadata q) t).2).
  { apply (traced_one _ _ (OComplete (rq_env1 re) id (Complete_LeaseToken q) (Complete_Metadata q)));
      [done..|apply Forall_singleton; unfold request_env; auto 8]. }
  by destruct (CompleteClaimedJob _ _ _ _ _) as [[?|?] t1].
Qed.

Lemma FailJob_traced svc now rnd c id b t :
  fail_stable re (PostFail id b) t -> table_ok (intf (rq_env1 re) t) ->
  traced (request_env re) (entitled (tenantOf c) (bound_token Fail_LeaseToken b)) t
    (FailJob svc (rq_env1 re) now rnd (rq_env2 re) c id b t).2.
Proof.
  intros Hst Hok. unfold FailJob. destruct b as [q|]; [|apply traced_refl]. case_bool_decide; [apply traced_refl|].
  pose proof (Fail_traced (request_env re) (entitled (tenantOf c) (Some (Fail_LeaseToken q))) svc (rq_env1 re) now rnd
    (rq_env2 re) id (Fail_LeaseToken q) (fail_message q) (negb (Fail_Retry q)) t) as H2.
  cbn [bound_token]. destruct (Fail _ _ _ _ _ _ _ _ _ _) as [[?|?] t1];
    (apply H2; [unfold request_env; auto 8|unfold request_env; auto 8|done|done|done|exact Hst]).
Qed.

Lemma handle_traced (id_le : relation string) `{!RelDecision id_le} svc maxWait c req t :
  fail_stable re req t -> table_ok (intf (rq_env1 re) t) ->
  traced (request_env re) (entitled (tenantOf c) (presented_token req)) t (handle id_le svc maxWait re c req t).2.
Proof.
  intros Hst Hok.
  assert (Hpair : forall p : Response * Jobs, (let '(r, t1) := p in (Some r, t1)).2 = p.2) by by intros [].
  destruct req as [b|q|key|b|id|id|id|id b|id b|id b]; cbn [handle presented_token]; rewrite ?Hpair;
    auto using EnqueueJob_traced, ListJobs_traced, ByKey_traced, GetJobStatus_traced, CancelJob_traced,
      RequeueJob_traced, HeartbeatJob_traced, CompleteJob_traced, FailJob_traced.
  pose proof (ClaimJob_traced svc maxWait (rq_now re) (rq_fuel re) None c b t) as H1.
  by destruct (ClaimJob _ _ _ _ _ _ _ _) as [[e T] t1].
Qed.
End Traces.

(** ** A request stays in its tenant *)

(** Who a request may act as. *)
Definition request_actor (tenant : string) (tok : option string) (a : actor) : Prop :=
  match a with
  | Producer _ => True
  | Claimant tn _ | Canceller tn | Requeuer tn => tn = tenant
  | Holder tk => tok = Some tk
  | Reaper | Retention => False
  end.

Lemma entitled_actor tenant tok op a : entitled tenant tok op -> acts op a -> request_actor tenant tok a.
Proof.
  destruct op; cbn; intros; subst; try done. by match goal with H : exists _, _ |- _ => destruct H as (? & _ & ->) end.
Qed.

(** A row of another tenant whose lease the request does not present. *)
Definition foreign (tenant : string) (tok : option string) (r : JobRow) : Prop :=
  tenant_id r <> tenant /\ forall tk, tok = Some tk -> holds_lease tk r = false.

Lemma row_step_foreign tenant tok r o :
  tenant <> AnyTenant -> foreign tenant tok r -> row_step (request_actor tenant tok) (Some r) o -> o = Some r.
Proof.
  intros Hne [Htn Hh] Hs. remember (Some r) as o1 eqn:E.
  destruct Hs; simplify_eq; try done;
    match goal with H : request_actor _ _ _ |- _ => cbn in H end; try done; subst; exfalso;
    try (match goal with H : tenant_matches _ _ = true |- _ =>
           apply tenant_matches_spec in H as [?|?] end; done);
    match goal with H : holds_lease ?tk _ = true |- _ => by rewrite (Hh tk eq_refl) in H end.
Qed.

(** C11. A request is confined to its tenant.  Whatever the request, and
    whatever fails while it is served, it keeps the jobs table well formed
    and leaves every row of another tenant exactly as it was, unless it
    presents the token of that row's current lease.  While a failure report is
    between its read and its write nobody changes the attempt or the budget of the row
    its token holds ([fail_stable]). *)
Theorem request_confined (id_le : relation string) `{!RelDecision id_le} (svc : JobService) (maxWait : Dur)
    (re : ReqEnv) (c : Ctx) (req : JobRequest) (t : Jobs) :
  let P t' := table_ok t' /\ forall k r, t !! k = Some r ->
    foreign (tenantOf c) (presented_token req) r -> t' !! k = Some r in
  (forall env, request_env re env -> keeps P env) -> fail_stable re req t -> table_ok t ->
  P (handle id_le svc maxWait re c req t).2.
Proof.
  intros P Hk Hst Hok. assert (HP : P t) by by split.
  assert (H1 : table_ok (intf (rq_env1 re) t)) by (apply (Hk (rq_env1 re)); [unfold request_env; auto|done]).
  eapply (traced_pred (request_actor (tenantOf c) (presented_token req)));
    [..|apply (handle_traced re id_le svc maxWait c req t Hst H1)|exact HP].
  - intros t1 [Hok1 _]. by apply ok_keyed.
  - intros t1 t2 Hs Hd [Hok1 HP1]. split; [by eapply table_step_ok|]. intros k r Hr Hf.
    specialize (Hs k). rewrite (HP1 k r Hr Hf) in Hs.
    eapply row_step_foreign; [apply tenantOf_nonempty|done|done].
  - intros job now t1 _ Hf [Hok1 HP1]. split; [by apply insert_job_ok|]. intros k r Hr Hfo.
    specialize (HP1 k r Hr Hfo). unfold insert_job. repeat case_goal; try done.
    cbn in *. rewrite lookup_insert_ne; [done|]. intros <-. congruence.
  - apply entitled_actor.
  - exact Hk.
Qed.

(** Nothing happens without a key.  On an instance with a configured
    key, a request that presents neither it nor a live key is refused, with
    401 or, when the key table cannot be read, 500, before any store call: the
    jobs table is as it was. *)
Theorem no_key_no_effect (id_le : relation string) `{!RelDecision id_le} (svc : JobService) (maxWait : Dur)
    (keys : list string) (ae : AuthEnv KeyTable) (rnd : option (list Z)) (re : ReqEnv) (c : Ctx)
    (req : JobRequest) (w : Jobs * KeyTable) :
  let p := bearerToken (ctx_Authorization c) in
  let k1 := intf (ae_tenant ae) w.2 in
  keys <> [] -> keys_ok k1 -> ~ p ∈ keys ->
  (forall k r, k1 !! k = Some r -> live_with (hashKey p) r = false) ->
  let out := serve id_le svc maxWait keys ae rnd re c req w in
  out.2.1 = w.1 /\
  exists r, out.1 = Some r /\ (status r = StatusUnauthorized \/ status r = StatusInternalServerError).
Proof.
  intros p k1 Hkeys Hok Hp Hno out. unfold out, serve. set (c1 := RequestID rnd (rq_now re) c).
  destruct (auth_refuses keys true ae c1 w.2) as (r & Hr & Hs); [done|done|done| |].
  - intros tenant (k & r & Hr & Hl & _). change (bearerToken (ctx_Authorization c1)) with p in Hl.
    by rewrite (Hno k r Hr) in Hl.
  - destruct (APIKeyAuth keys true ae c1 w.2) as [pass ks]. cbn in Hr. subst pass. eauto.
Qed.

(** ** Responses stay in the tenant *)





Lemma claim_poll_tenant svc c f lease deadline fuel i polls now t job T t' :
  Filter_Tenant f <> AnyTenant -> (forall i, keeps keyed (pl_claim (polls i))) -> keyed t ->
  claim_poll svc c f lease deadline fuel i polls now t = (Claimed job, T, t') ->
  exists r, t' !! Job_ID job = Some r /\ job = scanJob r /\ holds_lease (Job_LeaseToken job) r = true /\
    is_Some (lease_expires_at r) /\ tenant_id r = Filter_Tenant f /\ any_matches (Filter_Queues f) (task_queue r) = true /\
    any_matches (Filter_Names f) (task_name r) = true.
Proof.
  intros Hne Hkp. revert i now t. induction fuel as [|fuel IH]; intros i now t Hk; cbn [claim_poll]; [done|].
  unfold Claim. cbn [js_ClaimNextJob PostgresStore].
  pose proof (P_ClaimNextJob (fun _ => True) keyed (fun _ H => H)) as HPk.
  destruct (ClaimNextJob _ _ _ _) as [[j|e] t1] eqn:E.
  - intros [= <- _ <-]. apply ClaimNextJob_Ok in E as (r & tok & Hr & Hc & -> & ->); [|by apply Hkp].
    eexists. split; [apply lookup_insert_eq|]. split; [done|]. unfold claimable in Hc. zbool.
    split; [unfold holds_lease; cbn; by rewrite !bool_decide_refl|]. cbn. split; [by eexists|]. split; [|done].
    by match goal with H : tenant_matches _ _ = true |- _ => apply tenant_matches_spec in H as [?|?] end.
  - assert (Hk1 : keyed t1).
    { replace t1 with (ClaimNextJob (pl_claim (polls i)) (clampLease svc lease) f t).2 by (by rewrite E).
      apply HPk; [apply table_step_keyed|done|apply Hkp|done]. }
    destruct (negb _); [done|]. destruct (_ <=? _); [done|].
    destruct (select _) as [[[] d]|]; try done; by apply IH.
Qed.

Lemma claim_poll_answers svc c f lease deadline fuel i polls now t r T t' :
  claim_poll svc c f lease deadline fuel i polls now t = (Answered r, T, t') ->
  r = internal c "failed to claim a job" \/ (r = mkResponse StatusNoContent BodyNone /\ deadline <= T).
Proof.
  revert i now t. induction fuel as [|fuel IH]; intros i now t; cbn [claim_poll]; [done|].
  destruct (Claim _ _ _ _ _) as [[j|e] t1]; [done|]. destruct (negb _); [intros [= <- _ _]; by left|].
  destruct (_ <=? _) eqn:E; [intros [= <- <- _]; right|].
  - split; [done|]. unfold Sub, int64_min, int64_max in E. zbool. lia.
  - destruct (select _) as [[[] d]|]; try done; apply IH.
Qed.




(** ** Worker reports *)

Definition lease_lost (c : Ctx) : Response :=
  RespondError c StatusConflict "lease_lost"
    "the lease on this job is no longer held; stop working on it and claim another".

Lemma default_lost c d : default d (respondLeaseLost c ErrLeaseLost) = lease_lost c.
Proof. done. Qed.

Lemma FailJob_missing svc env1 now rnd env2 c id q t :
  Fail_LeaseToken q <> "" -> fault env1 = NoFault -> intf env1 t !! id = None ->
  FailJob svc env1 now rnd env2 c id (BindOk q) t = (not_found c, intf env1 t).
Proof.
  intros Htok Hf Hn. unfold FailJob. rewrite bool_decide_false by done. unfold Fail.
  cbn [js_GetJob PostgresStore]. unfold GetJob, query_job, run_stmt. by rewrite Hf, Hn.
Qed.

(** The read of Fail, then its fenced write. *)
Lemma FailJob_present svc env1 now rnd env2 c id q t r :
  Fail_LeaseToken q <> "" -> fault env1 = NoFault -> intf env1 t !! id = Some r ->
  let next := retry_at svc now rnd (negb (Fail_Retry q)) (scanJob r) in
  FailJob svc env1 now rnd env2 c id (BindOk q) t =
  match FailClaimedJob env2 id (Fail_LeaseToken q) (fail_message q) next (intf env1 t) with
  | (Error e, t1) =>
      (default (if errors_Is e ErrJobNotFound then not_found c
                else internal c "failed to record job failure") (respondLeaseLost c e), t1)
  | (Ok _, t1) =>
      let job := failed_job (fail_message q) next (scanJob r) in
      (mkResponse StatusOK (BodyFailed (Job_State job) (Job_Attempt job) (Job_ScheduledAt job)), t1)
  end.
Proof.
  intros Htok Hf Hr next. unfold FailJob. rewrite bool_decide_false by done. unfold Fail.
  cbn [js_GetJob js_FailClaimedJob PostgresStore]. unfold GetJob, query_job, run_stmt. rewrite Hf, Hr.
  cbn [mbind option_bind]. rewrite (proj2 (tenant_matches_spec AnyTenant r)) by (by left). cbn [fst snd].
  fold next. destruct (FailClaimedJob _ _ _ _ _ _) as [[?|e] t1]; [done|].
  destruct (errors_Is e ErrLeaseLost) eqn:E1; [done|]. unfold respondLeaseLost. cbn. by rewrite E1.
Qed.

(** A worker's report is accepted exactly when its token is the lease.
    For complete, heartbeat and fail, when the database answers: the holder
    gets 200 and its row, and no other, takes the reported outcome; anyone
    else gets 409 lease_lost and the table is untouched; a failure report on a
    job that does not exist gets 404. *)
Theorem reports_are_fenced (svc : JobService) (env env2 : Env Jobs) (now : Time) (rnd : float64) (c : Ctx)
    (id tok : string) (meta : StrMap) (secs : Z) (msg : string) (retry : bool) (t : Jobs) :
  fault env = NoFault -> fault env2 = NoFault -> tok <> "" ->
  let t1 := intf env t in
  let t2 := intf env2 t1 in
  let complete := CompleteJob env c id (BindOk (mkCompleteRequest tok meta)) t in
  let heartbeat := HeartbeatJob svc env now c id (BindOk (mkHeartbeatRequest tok secs)) t in
  let fail := FailJob svc env now rnd env2 c id (BindOk (mkFailRequest tok msg retry)) t in
  (not_held id tok t1 -> complete = (lease_lost c, t1) /\ heartbeat = (lease_lost c, t1)) /\
  (forall r, t1 !! id = Some r -> holds_lease tok r = true ->
     status complete.1 = StatusOK /\ complete.2 = <[id := complete_row meta (NOW env) r]> t1 /\
     status heartbeat.1 = StatusOK /\
     heartbeat.2 = <[id := renew_row (pg_ts (Add (gonow env) (clampLease svc (mulDur secs Second)))) (NOW env) r]> t1) /\
  (t1 !! id = None -> fail = (not_found c, t1)) /\
  (forall r, t1 !! id = Some r -> not_held id tok t2 -> fail = (lease_lost c, t2)) /\
  (forall r r2, t1 !! id = Some r -> t2 !! id = Some r2 -> holds_lease tok r2 = true ->
     status fail.1 = StatusOK /\
     fail.2 = <[id := fail_row (fail_message (mkFailRequest tok msg retry))
                        (pg_ts <$> retry_at svc now rnd (negb retry) (scanJob r)) (NOW env2) r2]> t2).
Proof.
  intros Hf Hf2 Htok t1 t2 complete heartbeat fail. split; [|split; [|split; [|split]]].
  - intros Hn. split.
    + unfold complete, CompleteJob, Complete. cbn [Complete_LeaseToken Complete_Metadata js_CompleteClaimedJob PostgresStore].
      rewrite bool_decide_false by done. by rewrite complete_refused.
    + unfold heartbeat, HeartbeatJob, Heartbeat. cbn [Heartbeat_LeaseToken Heartbeat_LeaseSeconds js_RenewLease PostgresStore].
      rewrite bool_decide_false by done. unfold RenewLease. cbn [Job_LeaseToken Job_ID].
      rewrite bool_decide_false by done. rewrite exec_update_miss; [done|done|]. intros r. by apply not_held_holds.
  - intros r Hr Hh.
    unfold complete, CompleteJob, Complete, heartbeat, HeartbeatJob, Heartbeat.
    cbn [Complete_LeaseToken Complete_Metadata js_CompleteClaimedJob Heartbeat_LeaseToken Heartbeat_LeaseSeconds
         js_RenewLease PostgresStore].
    rewrite bool_decide_false by done. unfold CompleteClaimedJob, RenewLease, run_stmt. cbn [Job_LeaseToken Job_ID].
    rewrite bool_decide_false, Hf by done. fold t1. rewrite Hr, Hh.
    by rewrite (exec_update_hit _ _ _ _ _ r).
  - intros Hn. by apply FailJob_missing.
  - intros r Hr Hn. unfold fail. rewrite (FailJob_present _ _ _ _ _ _ _ _ _ r) by done.
    cbn [Fail_LeaseToken]. unfold FailClaimedJob. rewrite bool_decide_false by done.
    rewrite exec_update_miss; [done|done|]. intros r2. by apply not_held_holds.
  - intros r r2 Hr Hr2 Hh. unfold fail. rewrite (FailJob_present _ _ _ _ _ _ _ _ _ r) by done.
    cbn [Fail_LeaseToken Fail_Retry]. unfold FailClaimedJob. rewrite bool_decide_false by done.
    by rewrite (exec_update_hit _ _ _ _ _ r2).
Qed.

(** ** The long poll *)

(** The rounds among the [n] from [i] on whose wake channel is closed at all. *)
Definition wakes (polls : nat -> PollEnv) (i n : nat) : nat :=
  length (filter (fun j => is_Some (pl_wake (polls j))) (seq i n)).

(** How often the timer can fire in a wait of this length. *)
Definition timer_rounds (wait : Dur) : nat := Z.to_nat ((wait + claimRetryEvery - 1) / claimRetryEvery).

Lemma wakes_cons polls i n :
  wakes polls i (S n) = ((match pl_wake (polls i) with Some _ => 1 | None => 0 end) + wakes polls (S i) n)%nat.
Proof.
  unfold wakes. cbn [seq]. destruct (pl_wake (polls i)) eqn:E.
  - rewrite filter_cons_True by (rewrite E; eauto). done.
  - rewrite filter_cons_False by (rewrite E; by intros []). done.
Qed.

Lemma timer_rounds_le a b : a <= b -> (timer_rounds a <= timer_rounds b)%nat.
Proof.
  intros H. unfold timer_rounds, claimRetryEvery, Second.
  pose proof (Z.div_le_mono (a + 2 * 1000000000 - 1) (b + 2 * 1000000000 - 1) (2 * 1000000000)). lia.
Qed.

(** A timer that fires brings the deadline one round nearer. *)
Lemma timer_rounds_fired left : 0 < left ->
  (timer_rounds (left - min_dur left claimRetryEvery)%Z < timer_rounds left)%nat.
Proof.
  intros H. unfold timer_rounds, min_dur, claimRetryEvery, Second.
  case_goal; zbool.
  - pose proof (Z.div_add (left - 2 * 1000000000 + 2 * 1000000000 - 1) 1 (2 * 1000000000)).
    pose proof (Z.div_pos (left - 2 * 1000000000 + 2 * 1000000000 - 1) (2 * 1000000000)).
    replace (left + 2 * 1000000000 - 1) with (left - 2 * 1000000000 + 2 * 1000000000 - 1 + 1 * (2 * 1000000000)) by lia. lia.
  - replace (left - left) with 0 by lia.
    pose proof (Z.div_le_mono (2 * 1000000000) (left + 2 * 1000000000 - 1) (2 * 1000000000)).
    rewrite Z.div_same in * by lia. change ((0 + 2 * 1000000000 - 1) / (2 * 1000000000)) with 0. lia.
Qed.

Lemma select_nonneg {A} (arms : list (A * option Dur)) a d : select arms = Some (a, d) -> 0 <= d.
Proof.
  induction arms as [|[b [e|]] arms IH] in a, d |- *; cbn; [done| |apply IH].
  destruct (select arms) as [[b' d']|] eqn:E; [|intros [= _ <-]; lia].
  pose proof (IH b' d' eq_refl). case_goal; intros [= _ <-]; lia.
Qed.

(** The select of a round: it never blocks, it never waits past its timer, and
    with no wake-up to come it is the timer that ends it, or the context. *)
Lemma poll_select p left : 0 < left ->
  exists a d, select (poll_arms p left) = Some (a, d) /\ 0 <= d <= min_dur left claimRetryEvery /\
    (a = DoneArm -> is_Some (pl_done p)) /\
    (pl_wake p = None -> a <> DoneArm -> d = min_dur left claimRetryEvery).
Proof.
  intros Hl. assert (Hm : 0 < min_dur left claimRetryEvery)
    by (unfold min_dur, claimRetryEvery, Second; case_goal; lia).
  unfold poll_arms. set (m := min_dur left claimRetryEvery) in *. clearbody m.
  destruct (select _) as [[a d]|] eqn:E.
  - pose proof (select_nonneg _ _ _ E). exists a, d. split; [done|]. revert E.
    destruct (pl_wake p) as [w|], (pl_done p) as [g|], (pl_done_first p); cbn;
      repeat (match goal with |- context [?x <? ?y] => destruct (Z.ltb_spec x y) end; cbn);
      intros [= <- <-]; (split; [lia|]); (split; [by eauto|intros; lia || done]).
  - exfalso. revert E. destruct (pl_wake p), (pl_done p), (pl_done_first p); cbn;
      repeat (match goal with |- context [?x <? ?y] => destruct (x <? y) end; cbn); done.
Qed.

Lemma Sub_left deadline now : (Sub deadline now <=? 0) = false -> 0 < Sub deadline now <= deadline - now.
Proof. unfold Sub, int64_min, int64_max. intros H. zbool. lia. Qed.

Lemma min_left deadline now : (Sub deadline now <=? 0) = false ->
  min_dur (Sub deadline now) claimRetryEvery = min_dur (deadline - now) claimRetryEvery.
Proof.
  unfold Sub, min_dur, claimRetryEvery, Second, int64_min, int64_max. intros H. zbool. repeat case_goal; zbool; lia.
Qed.

(** The loop comes to an end: each round without a wake-up uses up one firing
    of the timer. *)
Lemma claim_poll_ends svc c f lease deadline polls fuel i now t :
  (forall i, 0 <= pl_took (polls i)) -> (wakes polls i fuel + timer_rounds (deadline - now)%Z < fuel)%nat ->
  let e := (claim_poll svc c f lease deadline fuel i polls now t).1.1 in
  e <> StillWaiting /\ e <> Stuck /\ (e = ClientGone -> exists j, is_Some (pl_done (polls j))).
Proof.
  intros Htk. revert i now t. induction fuel as [|fuel IH]; intros i now t Hf; [lia|]. cbn [claim_poll]. cbv zeta.
  destruct (Claim _ _ _ _ _) as [[j|e] t1]; [done|]. destruct (negb _); [done|].
  set (now1 := Add now (pl_took (polls i))).
  destruct (Sub deadline now1 <=? 0) eqn:E; [done|]. pose proof (Sub_left _ _ E) as Hl. pose proof (min_left _ _ E) as Hm.
  destruct (poll_select (polls i) (Sub deadline now1)) as (a & d & -> & Hd & Hdone & Hw); [lia|]. rewrite Hm in Hd, Hw.
  assert (Hn : now <= now1) by (unfold now1, Add; specialize (Htk i); lia).
  assert (Hstep : a <> DoneArm -> (wakes polls (S i) fuel + timer_rounds (deadline - Add now1 d)%Z < fuel)%nat).
  { intros Ha. rewrite wakes_cons in Hf. unfold Add. destruct (pl_wake (polls i)) as [w|].
    - pose proof (timer_rounds_le (deadline - (now1 + d)) (deadline - now)). lia.
    - rewrite (Hw eq_refl Ha). replace (deadline - (now1 + _)) with (deadline - now1 - min_dur (deadline - now1) claimRetryEvery) by lia.
      pose proof (timer_rounds_fired (deadline - now1)). pose proof (timer_rounds_le (deadline - now1) (deadline - now)). lia. }
  destruct a; [by apply IH, Hstep|by apply IH, Hstep|]. split; [done|]. split; [done|]. intros _. exists i. by apply Hdone.
Qed.

(** It overruns its deadline by no more than its last claim takes. *)
Lemma claim_poll_clock svc c f lease deadline polls fuel i now t B bound :
  (forall i, 0 <= pl_took (polls i) <= B) -> deadline <= bound -> now <= bound ->
  (claim_poll svc c f lease deadline fuel i polls now t).1.2 <= bound + B.
Proof.
  intros Htk Hb. revert i now t. induction fuel as [|fuel IH]; intros i now t Hn; pose proof (Htk i); cbn [claim_poll]; [cbn; lia|].
  cbv zeta. unfold Add. destruct (Claim _ _ _ _ _) as [[j|e] t1]; [cbn; lia|]. destruct (negb _); [cbn; lia|].
  destruct (Sub deadline _ <=? 0) eqn:E; [cbn; lia|]. pose proof (Sub_left _ _ E) as Hl.
  destruct (poll_select (polls i) (Sub deadline (now + pl_took (polls i)))) as (a & d & -> & Hd & _); [lia|].
  assert (min_dur (Sub deadline (now + pl_took (polls i))) claimRetryEvery <= Sub deadline (now + pl_took (polls i)))
    by (unfold min_dur; case_goal; zbool; lia).
  destruct a; [apply IH; lia|apply IH; lia|cbn; lia].
Qed.

(** What a 200 says: the row of the table is [row], the caller is shown its
    job, its lease token and when that lease ends. *)
Definition shows_claim (row : JobRow) (b : Body) : Prop :=
  exists tok expires, holds_lease tok row = true /\ lease_expires_at row = Some expires /\
    b = BodyClaim (public (scanJob row)) tok expires.

(** C31. A claim request is answered.  Let no claim take longer than [B], and
    follow more rounds than there are wake-ups plus the times the two-second timer
    fits into the wait: then the poll has ended, with an answer unless the
    client went away, and no later than [B] after its deadline.  A 204 does not come
    before the deadline, and a 200 shows a job of the tenant, from the queues and
    names asked for, that the table holds RUNNING under exactly the token and the
    expiry shown. *)
Theorem claim_is_answered (svc : JobService) (maxWait : Dur) (now : Time) (B : Dur) (fuel : nat) (polls : nat -> PollEnv)
    (c : Ctx) (q : ClaimRequest) (t : Jobs) :
  let wait := min_dur (mulDur (Claim_WaitSeconds q) Second) maxWait in
  (forall i, 0 <= pl_took (polls i) <= B) -> (wakes polls 0 fuel + timer_rounds wait < fuel)%nat ->
  (forall i, keeps keyed (pl_claim (polls i))) -> keyed t ->
  let '(e, T, t') := ClaimJob svc maxWait now fuel polls c (Some (BindOk q)) t in
  (is_Some (claim_response e) \/ (e = ClientGone /\ exists i, is_Some (pl_done (polls i)))) /\
  T <= now + Z.max 0 wait + B /\
  forall r, claim_response e = Some r ->
    (status r = StatusNoContent -> now + wait <= T) /\
    (status r = StatusOK ->
       exists row, t' !! id row = Some row /\ shows_claim row (body r) /\ tenant_id row = tenantOf c /\
         any_matches (Claim_Queues q) (task_queue row) = true /\ any_matches (Claim_Names q) (task_name row) = true).
Proof.
  intros wait Htk Hf Hkp Hk. pose proof (Htk 0%nat) as Htk0. unfold ClaimJob. cbn [from_option Datatypes.id].
  destruct (_ || _).
  { split; [left; by eexists|]. split; [lia|]. intros r [= <-]. done. }
  fold wait. set (f := mkClaimFilter _ _ _). set (lease := mulDur (Claim_LeaseSeconds q) Second). set (deadline := Add now wait).
  destruct (claim_poll_ends svc c f lease deadline polls fuel 0 now t) as (H1 & H2 & H3).
  { intros i. apply Htk. } { unfold deadline, Add. by replace (now + wait - now) with wait by lia. }
  pose proof (claim_poll_clock svc c f lease deadline polls fuel 0 now t B (now + Z.max 0 wait) Htk) as H4.
  destruct (claim_poll _ _ _ _ _ _ _ _ _ t) as [[e T] t1] eqn:E. cbn [fst snd] in *.
  split; [destruct e; [left; by eexists|left; by eexists|right; auto|done|done]|].
  split; [apply H4; unfold deadline, Add; lia|]. destruct e as [job|r0| | |]; try done; intros r [= <-]; cbn.
  - split; [done|]. intros _. apply claim_poll_tenant in E as (row & Hr & -> & Hh & [ex Hx] & Hrest);
      [|apply tenantOf_nonempty|done..].
    exists row. split; [exact Hr|]. split; [|exact Hrest]. exists (Job_LeaseToken (scanJob row)), ex.
    split; [done|]. split; [done|]. cbn. by rewrite Hx.
  - apply claim_poll_answers in E as [-> |[-> Hd]]; [done|]. done.
Qed.

(** A wait that does not fit is no wait.  A request for 9223372037
    seconds or more, up to twice that, is not clamped to the server's maximum:
    the duration wraps to a negative one, and when nothing is due at the first
    look the caller gets 204 at once, however long the server is willing to
    wait. *)
Theorem huge_wait_is_no_wait (svc : JobService) (maxWait : Dur) (now : Time) (fuel : nat) (polls : nat -> PollEnv)
    (c : Ctx) (q : ClaimRequest) (t : Jobs) (e : error) :
  9223372037 <= Claim_WaitSeconds q <= 18446744073 -> 0 <= Claim_LeaseSeconds q -> 0 <= pl_took (polls 0%nat) ->
  (Claim svc (pl_claim (polls 0%nat)) (mkClaimFilter (tenantOf c) (Claim_Queues q) (Claim_Names q))
     (mulDur (Claim_LeaseSeconds q) Second) t).1 = Error e ->
  errors_Is e ErrJobNotFound = true ->
  (ClaimJob svc maxWait now (S fuel) polls c (Some (BindOk q)) t).1.1
    = Answered (mkResponse StatusNoContent BodyNone).
Proof.
  intros Hw Hl Hnow Hcl He. unfold ClaimJob. cbn [from_option Datatypes.id].
  rewrite (proj2 (Z.ltb_ge _ _)), (proj2 (Z.ltb_ge (Claim_WaitSeconds q) 0)) by lia. cbn [orb claim_poll].
  destruct (Claim _ _ _ _ _) as [r t1]. cbn in Hcl. subst r. rewrite He. cbn [negb].
  assert (Hm : mulDur (Claim_WaitSeconds q) Second < 0).
  { unfold mulDur, wrap64, Second. set (w := Claim_WaitSeconds q) in *.
    rewrite <- (Z.mod_unique (w * 1000000000 + 2 ^ 63) (2 ^ 64) 1 (w * 1000000000 + 2 ^ 63 - 2 ^ 64)); lia. }
  rewrite (proj2 (Z.leb_le _ _)); [done|].
  unfold Add, min_dur, Sub, int64_min, int64_max. case_goal; zbool; lia.
Qed.

(** ** On the demo table *)

(** Claims of a millisecond, one wake-up after half a second, then silence. *)
Definition demo_polls (i : nat) : PollEnv :=
  mkPollEnv (demo_env ["j1"; "j2"] 9) Millisecond (if bool_decide (i = 0%nat) then Some (500 * Millisecond) else None) None false.

Definition demo_req_env : ReqEnv :=
  mkReqEnv (demo_enqueue 1) (demo_env [] 0) (demo_env [] 0) (demo_env [] 0) demo_polls 3 demo_now (of_int 0).

Definition tenant_ctx (tenant : string) : Ctx := set_ctx_tenant tenant (demo_ctx "").

Lemma demo_req_calm P env : request_env demo_req_env env -> keeps P env.
Proof.
  unfold request_env. intros H. repeat destruct H as [->|H]; try apply keeps_calm.
  destruct H as [i ->]. apply keeps_calm.
Qed.

Lemma request_confined_witness :
  (handle String.le demo_service (25 * Second) demo_req_env (tenant_ctx "globex") (PostCancel "j1") demo_leased).2
    !! "j1" = demo_leased !! "j1".
Proof.
  destruct (demo_leased !! "j1") as [r|] eqn:E; [|vm_compute in E; discriminate].
  refine (proj2 (request_confined String.le demo_service (25 * Second) demo_req_env (tenant_ctx "globex")
    (PostCancel "j1") demo_leased _ _ _) "j1" r E _).
  - intros env. apply demo_req_calm.
  - exact I.
  - apply demo_leased_ok.
  - vm_compute in E. injection E as <-. split; [discriminate|]. intros tk H. discriminate.
Defined.


Lemma reports_are_fenced_witness :
  CompleteJob (demo_env [] 0) (tenant_ctx "acme") "j1" (BindOk (mkCompleteRequest (demo_token 9) None)) demo_leased
    = (lease_lost (tenant_ctx "acme"), demo_leased).
Proof.
  refine (proj1 (proj1 (reports_are_fenced demo_service (demo_env [] 0) (demo_env [] 0) demo_now (of_int 0)
    (tenant_ctx "acme") "j1" (demo_token 9) None 30 "" false demo_leased _ _ _) _)).
  - reflexivity.
  - reflexivity.
  - discriminate.
  - intros r Hr. vm_compute in Hr. injection Hr as <-. discriminate.
Defined.

(** Nothing is due for this tenant: three seconds of waiting, a wake-up and two
    firings of the timer, then 204. *)
Lemma claim_is_answered_witness :
  let '(e, T, _) := ClaimJob demo_service (25 * Second) demo_now 4 demo_polls (tenant_ctx "nobody")
    (Some (BindOk (mkClaimRequest ["default"] [] 30 3))) demo_table in
  e = Answered (mkResponse StatusNoContent BodyNone) /\ demo_now + 3 * Second <= T <= demo_now + 3 * Second + Millisecond.
Proof.
  pose proof (claim_is_answered demo_service (25 * Second) demo_now Millisecond 4 demo_polls (tenant_ctx "nobody")
    (mkClaimRequest ["default"] [] 30 3) demo_table) as H.
  assert (He : (ClaimJob demo_service (25 * Second) demo_now 4 demo_polls (tenant_ctx "nobody")
    (Some (BindOk (mkClaimRequest ["default"] [] 30 3))) demo_table).1.1 = Answered (mkResponse StatusNoContent BodyNone))
    by (vm_compute; reflexivity).
  destruct (ClaimJob _ _ _ _ _ _ _ _) as [[e T] t']. cbn [fst] in He. subst e.
  destruct H as (_ & Ht & Hr).
  - intros i. vm_compute. split; discriminate.
  - apply Nat.ltb_lt. vm_compute. reflexivity.
  - intros i. apply keeps_calm.
  - apply ok_keyed, demo_table_ok.
  - split; [reflexivity|]. destruct (Hr _ eq_refl) as [H204 _]. split; [exact (H204 eq_refl)|exact Ht].
Defined.

Lemma huge_wait_is_no_wait_witness :
  (ClaimJob demo_service (25 * Second) demo_now 1 demo_polls (tenant_ctx "acme")
     (Some (BindOk (mkClaimRequest [] [] 30 9223372037))) ∅).1.1 = Answered (mkResponse StatusNoContent BodyNone).
Proof.
  apply (huge_wait_is_no_wait demo_service (25 * Second) demo_now 0 demo_polls (tenant_ctx "acme")
    (mkClaimRequest [] [] 30 9223372037) ∅ ErrJobNotFound).
  - cbn. lia.
  - cbn. lia.
  - vm_compute. discriminate.
  - vm_compute. reflexivity.
  - reflexivity.
Defined.

Lemma no_key_no_effect_witness :
  (serve String.le demo_service (25 * Second) ["operator"] demo_auth_env (Some [1]) demo_req_env
     (demo_ctx "Bearer guess") (PostCancel "j1") (demo_table, demo_minted.2)).2.1 = demo_table.
Proof.
  refine (proj1 (no_key_no_effect String.le demo_service (25 * Second) ["operator"] demo_auth_env (Some [1])
    demo_req_env (demo_ctx "Bearer guess") (PostCancel "j1") (demo_table, demo_minted.2) _ _ _ _)).
  - discriminate.
  - apply demo_minted_ok.
  - intros Hin. apply list_elem_of_singleton in Hin. vm_compute in Hin. discriminate.
  - intros k r Hr.
    assert (Hd : map_Forall (fun _ r => live_with (hashKey "guess") r = false) demo_minted.2)
      by (apply (bool_decide_unpack _); vm_compute; exact I).
    exact (Hd k r Hr).
Defined.
