(* ===== verification/LongPoll.v ===== *)
(** * internal/api/worker.go and internal/queue/waker.go: requests that wait

    The claim requests of one instance, sharing its Waker, as a transition
    system with a clock: each takes the channel, looks for work, and waits for
    the channel, its timer or its client, while jobs become due with and
    without a notification and notifications arrive or are lost. *)

From S2P Require Transport.
From S2P Require Import Prelude Models Api.

(** One claim request: before its round, between taking the channel and the
    end of its claim, or in its select since [since] with a timer set for [till]. *)
Inductive waiter := Outside | Took (c : nat) | Waiting (c : nat) (since till : Time).

(** The Waker, the clock, the jobs due in the table, those of them nobody will
    announce, the notifications under way by the job they name, and the requests,
    each with its deadline. *)
Record System := mkSystem {
  waker : Transport.Waker;
  clock : Time;
  due : gset string;
  silent : gset string;
  coming : list string;
  requests : gmap nat (Time * waiter)
}.

Section Waiters.
(** Which jobs a request's tenant, queues and names let it claim. *)
Variable wants : nat -> string -> bool.

(** The steps of a request, from [requests s !! i] on:
    [takes] and the end of its claim, which finds a job ([claims]), fails
    ([answers], a 500) or finds none, every due job it wants being locked by
    another session ([finds_none]) — then it waits, or, its deadline past, gets a 204
    ([answers]).  Its wait ends with the channel ([woken]), the timer ([fires]) or the client
    ([leaves]).  Around it jobs are enqueued with a notification behind them ([enqueued]),
    become due without one, by their scheduled_at, a backoff, a reaped lease or a requeue
    ([turns_due]), are claimed by others ([goes]); a notification reaches
    the Waker ([arrives]) or never will ([lost]); and time passes ([passes]), while no
    request has a ready arm or an expired timer. *)
Inductive sys_step : System -> System -> Prop :=
  | begins w now d sl n rs i dl :
      rs !! i = None ->
      sys_step (mkSystem w now d sl n rs) (mkSystem w now d sl n (<[i := (dl, Outside)]> rs))
  | takes w now d sl n rs i dl :
      rs !! i = Some (dl, Outside) ->
      sys_step (mkSystem w now d sl n rs) (mkSystem w now d sl n (<[i := (dl, Took (Transport.C w))]> rs))
  | claims w now d sl n rs i dl c j :
      rs !! i = Some (dl, Took c) -> j ∈ d -> wants i j = true ->
      sys_step (mkSystem w now d sl n rs) (mkSystem w now (d ∖ {[j]}) sl n (delete i rs))
  | finds_none w now d sl n rs i dl c (locked : gset string) :
      rs !! i = Some (dl, Took c) -> (forall j, j ∈ d -> wants i j = true -> j ∈ locked) -> 0 < Sub dl now ->
      sys_step (mkSystem w now d sl n rs)
        (mkSystem w now d (sl ∪ locked) n
           (<[i := (dl, Waiting c now (Add now (min_dur (Sub dl now) claimRetryEvery)))]> rs))
  | answers w now d sl n rs i dl c :
      rs !! i = Some (dl, Took c) ->
      sys_step (mkSystem w now d sl n rs) (mkSystem w now d sl n (delete i rs))
  | woken w now d sl n rs i dl c since till :
      rs !! i = Some (dl, Waiting c since till) -> Transport.ready c w = true ->
      sys_step (mkSystem w now d sl n rs) (mkSystem w now d sl n (<[i := (dl, Outside)]> rs))
  | fires w now d sl n rs i dl c since till :
      rs !! i = Some (dl, Waiting c since till) -> till <= now ->
      sys_step (mkSystem w now d sl n rs) (mkSystem w now d sl n (<[i := (dl, Outside)]> rs))
  | leaves w now d sl n rs i :
      sys_step (mkSystem w now d sl n rs) (mkSystem w now d sl n (delete i rs))
  | enqueued w now d sl n rs j :
      sys_step (mkSystem w now d sl n rs) (mkSystem w now ({[j]} ∪ d) (sl ∖ {[j]}) (n ++ [j]) rs)
  | turns_due w now d sl n rs j :
      sys_step (mkSystem w now d sl n rs) (mkSystem w now ({[j]} ∪ d) ({[j]} ∪ sl) n rs)
  | goes w now d sl n rs j :
      sys_step (mkSystem w now d sl n rs) (mkSystem w now (d ∖ {[j]}) sl n rs)
  | arrives w now d sl n1 j n2 rs :
      sys_step (mkSystem w now d sl (n1 ++ j :: n2) rs) (mkSystem (Transport.Wake w) now d sl (n1 ++ n2) rs)
  | lost w now d sl n1 j n2 rs :
      sys_step (mkSystem w now d sl (n1 ++ j :: n2) rs) (mkSystem w now d ({[j]} ∪ sl) (n1 ++ n2) rs)
  | passes w now d sl n rs e :
      0 < e ->
      (forall i dl c since till, rs !! i = Some (dl, Waiting c since till) ->
         Transport.ready c w = false /\ Add now e <= till) ->
      sys_step (mkSystem w now d sl n rs) (mkSystem w (Add now e) d sl n rs).

(** The channel a request holds was made before or is the current one. *)
Definition channel (r : waiter) : option nat :=
  match r with Outside => None | Took c | Waiting c _ _ => Some c end.

Record sys_ok (s : System) : Prop := {
  so_waker : Transport.waker_ok (waker s);
  so_taken i dl r c : requests s !! i = Some (dl, r) -> channel r = Some c -> (c <= Transport.ch (waker s))%nat;
  so_timer i dl c since till : requests s !! i = Some (dl, Waiting c since till) ->
    since <= clock s <= till /\ till <= since + claimRetryEvery /\ till <= dl;
  so_awake i dl c since till j : requests s !! i = Some (dl, Waiting c since till) ->
    j ∈ due s -> wants i j = true -> j ∉ silent s -> Transport.ready c (waker s) = true \/ j ∈ coming s
}.

Lemma timer_bounds dl now : 0 < Sub dl now ->
  now <= Add now (min_dur (Sub dl now) claimRetryEvery) <= now + claimRetryEvery /\
  Add now (min_dur (Sub dl now) claimRetryEvery) <= dl.
Proof.
  unfold Add, Sub, min_dur, claimRetryEvery, Second, int64_min, int64_max. intros H. case_goal; zbool; lia.
Qed.

(** Removing one request, or taking one back to the start of its round, keeps the rest. *)
Lemma sys_ok_forget w now d sl n rs rs' :
  (forall i x, rs' !! i = Some x -> rs !! i = Some x \/ x.2 = Outside) ->
  sys_ok (mkSystem w now d sl n rs) -> sys_ok (mkSystem w now d sl n rs').
Proof.
  intros Hsub [H1 H2 H3 H4]. cbn in *. split; cbn; [done| | |].
  - intros i dl r c Hi Hc. destruct (Hsub _ _ Hi) as [Hi'|Ho]; [by eapply H2|]. cbn in Ho. by subst r.
  - intros i dl c since till Hi. destruct (Hsub _ _ Hi) as [Hi'|[=]]. by eapply H3.
  - intros i dl c since till j Hi. destruct (Hsub _ _ Hi) as [Hi'|[=]]. by eapply H4.
Qed.

(** Fewer jobs due, or more of them silent, asks for less. *)
Lemma sys_ok_jobs w now d sl n rs d' sl' n' :
  (forall j, j ∈ d' -> j ∉ sl' -> j ∈ n' \/ (j ∈ d /\ (j ∉ sl) /\ (j ∈ n -> j ∈ n'))) ->
  sys_ok (mkSystem w now d sl n rs) -> sys_ok (mkSystem w now d' sl' n' rs).
Proof.
  intros Hj [H1 H2 H3 H4]. cbn in *. split; cbn; [done..|].
  intros i dl c since till j Hi Hd Hw Hs. destruct (Hj j Hd Hs) as [?|(Hd' & Hs' & Hn)]; [by right|].
  destruct (H4 _ _ _ _ _ j Hi Hd' Hw Hs'); auto.
Qed.

Lemma sys_step_ok s s' : sys_step s s' -> sys_ok s -> sys_ok s'.
Proof.
  assert (Hforget : forall rs : gmap nat (Time * waiter), forall i dl k x,
    <[i := (dl, Outside)]> rs !! k = Some x -> rs !! k = Some x \/ x.2 = Outside).
  { intros rs i dl k x [[_ <-]|[_ ?]]%lookup_insert_Some; [by right|by left]. }
  assert (Hdrop : forall rs : gmap nat (Time * waiter), forall i k x,
    delete i rs !! k = Some x -> rs !! k = Some x \/ x.2 = Outside).
  { intros rs i k x [_ ?]%lookup_delete_Some. by left. }
  destruct 1 as [w now d sl n rs i dl _|w now d sl n rs i dl Hi|w now d sl n rs i dl c j Hi|
    w now d sl n rs i dl c locked Hi Hl Hleft|w now d sl n rs i dl c _|w now d sl n rs i dl c since till _ _|
    w now d sl n rs i dl c since till _ _|w now d sl n rs i|w now d sl n rs j|w now d sl n rs j|w now d sl n rs j|
    w now d sl n1 j n2 rs|w now d sl n1 j n2 rs|w now d sl n rs e He Hp]; intros Hok.
  all: try (by apply (sys_ok_forget w now d sl n rs); [first [apply Hforget|apply Hdrop]|]).
  - destruct Hok as [H1 H2 H3 H4]. cbn in *. split; cbn; [done| | |].
    + intros k dl' r c. rewrite lookup_insert_Some. intros [[<- [= <- <-]]|[_ Hk]]; [intros [= <-]; done|by eapply H2].
    + intros k dl' c since till. rewrite lookup_insert_Some. intros [[_ [=]]|[_ Hk]]. by eapply H3.
    + intros k dl' c since till j. rewrite lookup_insert_Some. intros [[_ [=]]|[_ Hk]]. by eapply H4.
  - apply (sys_ok_forget w now _ sl n rs); [apply Hdrop|]. revert Hok. apply sys_ok_jobs.
    intros k [Hk _]%elem_of_difference Hs. auto.
  - destruct Hok as [H1 H2 H3 H4]. cbn in *. split; cbn; [done| | |].
    + intros k dl' r c'. rewrite lookup_insert_Some. intros [[<- [= <- <-]]|[_ Hk]]; [intros [= <-]; by eapply H2|by eapply H2].
    + intros k dl' c' since till. rewrite lookup_insert_Some. intros [[<- [= <- <- <- <-]]|[_ Hk]]; [|by eapply H3].
      pose proof (timer_bounds dl now Hleft). lia.
    + intros k dl' c' since till j. rewrite lookup_insert_Some. intros [[<- [= <- <- <- <-]]|[_ Hk]] Hj Hw Hs.
      * destruct Hs. apply elem_of_union_r. by apply Hl.
      * eapply H4; [done..|]. intros ?. apply Hs. by apply elem_of_union_l.
  - revert Hok. apply sys_ok_jobs. intros k [->%elem_of_singleton|Hk]%elem_of_union Hs;
      [left; apply elem_of_app; right; by apply list_elem_of_singleton|].
    destruct (decide (k = j)) as [->|Hne]; [left; apply elem_of_app; right; by apply list_elem_of_singleton|].
    right. split; [done|]. split; [|intros ?; apply elem_of_app; by left].
    intros ?. apply Hs, elem_of_difference. by rewrite elem_of_singleton.
  - revert Hok. apply sys_ok_jobs. intros k [Hk|Hk]%elem_of_union Hs; [destruct Hs; by apply elem_of_union_l|].
    right. split; [done|]. split; [|done]. intros ?. by apply Hs, elem_of_union_r.
  - revert Hok. apply sys_ok_jobs. intros k [Hk _]%elem_of_difference Hs. auto.
  - destruct Hok as [H1 H2 H3 H4]. cbn in *. destruct (Transport.Wake_ok w H1) as [Hw' _]. split; cbn; [done| |done|].
    + intros i dl r c Hi Hc. pose proof (H2 _ _ _ _ Hi Hc). lia.
    + intros i dl c since till k Hi _ _ _. left. apply (Transport.ready_closed _ _ Hw'). cbn.
      pose proof (H2 _ _ _ c Hi eq_refl). lia.
  - revert Hok. apply sys_ok_jobs. intros k Hk Hs. right. split; [done|]. rewrite elem_of_union, elem_of_singleton in Hs.
    split; [naive_solver|]. rewrite !elem_of_app, elem_of_cons. naive_solver.
  - destruct Hok as [H1 H2 H3 H4]. cbn in *. split; cbn; [done|done| |done].
    intros i dl c since till Hi. destruct (H3 _ _ _ _ _ Hi). destruct (Hp _ _ _ _ _ Hi) as [_ ?]. unfold Add in *. lia.
Qed.

(** No request yet, nothing due, nothing under way. *)
Definition idle_system (now : Time) : System := mkSystem Transport.NewWaker now ∅ ∅ [] ∅.

(** C26. No wake-up is lost, and no wait is long.  In every state the claim
    requests of an instance, the notifications and the jobs can reach, take a request
    that waits.  For a due job it could claim, and whose notification was neither
    never sent nor lost, nor the job locked by another session when somebody looked: its
    channel is closed already, or the notification is still on its way, and will
    close it.  Whatever the job and however it became due, the wait has lasted
    two seconds at most and does not go past the request's deadline. *)
Theorem no_lost_wakeup start s i dl c since till :
  rtc sys_step (idle_system start) s -> requests s !! i = Some (dl, Waiting c since till) ->
  (forall j, j ∈ due s -> wants i j = true -> j ∉ silent s ->
     Transport.ready c (waker s) = true \/ j ∈ coming s) /\
  since <= clock s <= Z.min dl (since + claimRetryEvery).
Proof.
  intros Hr Hi. assert (Hok : sys_ok s).
  { assert (H0 : sys_ok (idle_system start)) by (split; cbn; [apply Transport.NewWaker_ok|done..]).
    revert H0. clear Hi. induction Hr as [|s1 s2 s3 Hs Hr IH]; [done|]. intros H0. by apply IH, (sys_step_ok s1). }
  split; [intros j; by eapply so_awake|]. destruct (so_timer s Hok i dl c since till Hi). lia.
Qed.

End Waiters.

(** A request that found nothing; a second later a job is enqueued and its notification
    arrives. *)
Definition woken_system : System :=
  mkSystem (Transport.Wake Transport.NewWaker) Second {["j1"]} ∅ [] {[7%nat := (10 * Second, Waiting 0 0 (2 * Second))]}.

Lemma no_lost_wakeup_witness :
  Transport.ready 0 (waker woken_system) = true \/ "j1" ∈ coming woken_system.
Proof.
  refine (proj1 (no_lost_wakeup (fun _ _ => true) 0 woken_system 7 (10 * Second) 0 0 (2 * Second) _ eq_refl) "j1" _ eq_refl _).
  - set (ws (r : waiter) := {[7%nat := (10 * Second, r)]} : gmap nat (Time * waiter)).
    apply (rtc_l _ _ (mkSystem Transport.NewWaker 0 ∅ ∅ [] (ws Outside))).
    { apply (begins _ Transport.NewWaker 0 ∅ ∅ [] ∅ 7 (10 * Second)). reflexivity. }
    apply (rtc_l _ _ (mkSystem Transport.NewWaker 0 ∅ ∅ [] (ws (Took 0)))).
    { pose proof (takes (fun _ _ => true) Transport.NewWaker 0 ∅ ∅ [] (ws Outside) 7 (10 * Second) eq_refl) as H.
      unfold ws in H. by rewrite insert_singleton in H. }
    apply (rtc_l _ _ (mkSystem Transport.NewWaker 0 ∅ ∅ [] (ws (Waiting 0 0 (2 * Second))))).
    { pose proof (finds_none (fun _ _ => true) Transport.NewWaker 0 ∅ ∅ [] (ws (Took 0)) 7 (10 * Second) 0 ∅ eq_refl) as H.
      unfold ws in H. rewrite insert_singleton in H. rewrite (left_id_L ∅ (∪)) in H. apply H; [set_solver|reflexivity]. }
    apply (rtc_l _ _ (mkSystem Transport.NewWaker Second ∅ ∅ [] (ws (Waiting 0 0 (2 * Second))))).
    { apply (passes _ Transport.NewWaker 0 ∅ ∅ [] _ Second); [reflexivity|].
      intros i dl c since till [_ [= <- <- <- <-]]%lookup_singleton_Some. split; [reflexivity|discriminate]. }
    apply (rtc_l _ _ (mkSystem Transport.NewWaker Second {["j1"]} ∅ ["j1"] (ws (Waiting 0 0 (2 * Second))))).
    { pose proof (enqueued (fun _ _ => true) Transport.NewWaker Second ∅ ∅ [] (ws (Waiting 0 0 (2 * Second))) "j1") as H.
      rewrite (right_id_L ∅ (∪)) in H. exact H. }
    apply (rtc_l _ _ woken_system); [apply (arrives _ Transport.NewWaker Second {["j1"]} ∅ [] "j1" [])|apply rtc_refl].
  - cbn [due woken_system]. apply elem_of_singleton_2. reflexivity.
  - cbn [silent woken_system]. apply not_elem_of_empty.
Defined.
