(* ===== verification/ScheduleApi.v ===== *)
(** * internal/api/schedules.go: the schedule endpoints

    Creating, listing and deleting schedules over the schedules table.  The
    theorems: what is created can fire, and a tenant neither sees nor deletes
    another's schedules. *)

From S2P Require Import Prelude Models JobStore JobFacts JobSystem JobSpec JobProps Retry Service Calendar GoStrings Cron ScheduleStore Scheduler Pages Keys Auth Api.

Record CreateScheduleRequest := mkCreateScheduleRequest {
  Create_Name : string;
  Create_Cron : string;
  Create_Task : Task
}.

(** The text of a parse error, as [err.Error()] gives it; [Parse] fails with
    plain texts and wrapped ones only. *)
Fixpoint error_text (e : error) : string :=
  match e with
  | ErrText msg => msg
  | Wrapf msg e1 => msg +:+ error_text e1
  | Wrapf2 msg e1 e2 => msg +:+ error_text e1 +:+ error_text e2
  | PgError code _ => "ERROR (SQLSTATE " +:+ code +:+ ")"
  | Sentinel _ => ""
  end.

Definition request_schedule (c : Ctx) (req : CreateScheduleRequest) (next : Time) : Schedule :=
  mkSchedule "" (tenantOf c) (Create_Name req) (Create_Cron req) (Create_Task req) true next None "" 0 0.

Definition CreateSchedule_handler (env : Env Scheds) (now : Time) (c : Ctx) (b : Bound CreateScheduleRequest)
    (t : Scheds) : Response * Scheds :=
  match b with
  | BindError msg => (bad_request c msg, t)
  | BindOk req =>
      if bool_decide (Create_Name req = "") then (bad_request c "name is required", t)
      else if bool_decide (Task_Name (Create_Task req) = "") then (bad_request c "task.name is required", t)
      else match taskAllowed c (Task_Name (Create_Task req)) with
      | Some refusal => (refusal, t)
      | None =>
          match Parse (Create_Cron req) with
          | Error e => (bad_request c ("cron: " +:+ error_text e), t)
          | Ok cron =>
              let next := Next cron now in
              if IsZero next then (bad_request c "cron has no occurrence in the next four years", t)
              else match CreateSchedule env (request_schedule c req next) t with
              | (Error e, t1) =>
                  ((if errors_Is e ErrDuplicateSchedule
                    then RespondError c StatusConflict "duplicate_name" "a schedule with that name already exists"
                    else internal c "failed to create schedule"), t1)
              | (Ok sched, t1) => (mkResponse StatusCreated (BodySchedule sched), t1)
              end
          end
      end
  end.

Definition ListSchedules_handler (name_le : relation string) `{!RelDecision name_le} (env : Env Scheds) (c : Ctx)
    (t : Scheds) : Response * Scheds :=
  match ListSchedules name_le env (tenantOf c) t with
  | (Error _, t1) => (internal c "failed to list schedules", t1)
  | (Ok l, t1) => (mkResponse StatusOK (BodySchedules l), t1)
  end.

Definition DeleteSchedule_handler (env : Env Scheds) (c : Ctx) (id : string) (t : Scheds) : Response * Scheds :=
  match DeleteSchedule env (tenantOf c) id t with
  | (Error e, t1) =>
      ((if errors_Is e ErrScheduleNotFound
        then RespondError c StatusNotFound "not_found" "schedule not found"
        else internal c "failed to delete schedule"), t1)
  | (Ok _, t1) => (mkResponse StatusNoContent BodyNone, t1)
  end.

(** ** What is created can fire *)

(** The search is a long loop, never to be run while checking a proof. *)
#[local] Opaque Next.

Lemma CreateSchedule_Ok env s t s' t' :
  CreateSchedule env s t = (Ok s', t') ->
  (exists i, s' = stamp_sched (gonow env) i s) /\ intf env t !! Schedule_ID s' = None /\
  t' = <[Schedule_ID s' := sched_row s']> (intf env t).
Proof.
  unfold CreateSchedule. destruct (if bool_decide _ then _ else _) as [i|]; [|done].
  unfold run_stmt, insert_sched. destruct (fault env); [|done|by repeat case_goal].
  destruct (negb _); [done|]. destruct (intf env t !! _) eqn:E; [done|].
  destruct (bool_decide _); [done|]. intros [= <- <-]. split; [by exists i|]. by split.
Qed.

(** A schedule the API accepts can fire.  A 201 means one new row, in
    the caller's tenant, enabled, whose expression parses, and whose next run
    is the first occurrence strictly after the time of the request, within
    the search window; no other row changed. *)
Theorem created_schedule_can_fire (env : Env Scheds) (now : Time) (c : Ctx) (req : CreateScheduleRequest)
    (t : Scheds) :
  let out := CreateSchedule_handler env now c (BindOk req) t in
  0 <= now -> status out.1 = StatusCreated ->
  exists cron key r,
    Parse (Create_Cron req) = Ok cron /\ intf env t !! key = None /\ out.2 = <[key := r]> (intf env t) /\
    s_id r = key /\ s_tenant_id r = tenantOf c /\ s_cron_expr r = Create_Cron req /\ s_enabled r = true /\
    s_next_run_at r = Next cron now /\ now < Next cron now < now + search_window /\ matches cron (Next cron now) /\
    forall u, now < u < Next cron now -> ~ matches cron u.
Proof.
  intros out H0. unfold out, CreateSchedule_handler.
  destruct (bool_decide _); [done|]. destruct (bool_decide _); [done|].
  destruct (taskAllowed _ _) as [r0|] eqn:Et.
  { unfold taskAllowed in Et. destruct (_ && _); [|done]. by injection Et as <-. }
  destruct (Parse (Create_Cron req)) as [cron|e] eqn:Ep; [|done]. cbn zeta.
  destruct (next_is_first cron now H0) as [[Hz _]|(Hlt & Hm & Hno)]; [by rewrite Hz|].
  destruct (IsZero (Next cron now)) eqn:Ez; [unfold IsZero in Ez; zbool; lia|].
  clear Ez out H0. remember (Next cron now) as nx eqn:Enx.
  destruct (CreateSchedule _ _ _) as [[s|e] t1] eqn:Ec; [|by destruct (errors_Is _ _)].
  intros _. apply CreateSchedule_Ok in Ec as ([i ->] & Hn & ->).
  exists cron, i, (sched_row (stamp_sched (gonow env) i (request_schedule c req nx))).
  rewrite <- Enx. clear Enx. split; [done|]. split; [exact Hn|]. split; [done|]. split; [done|].
  split; [cbn; by rewrite bool_decide_false by apply tenantOf_nonempty|].
  split; [done|]. split; [done|]. split; [apply pg_ts_minute, (proj1 Hm)|]. done.
Qed.

(** A tenant neither sees nor deletes another's schedules: a listing
    shows only its own, and a delete leaves every row of another tenant and
    answers 404 for it, as for a schedule that does not exist. *)
Theorem schedules_stay_in_tenant (name_le : relation string) `{!RelDecision name_le} (env : Env Scheds) (c : Ctx)
    (id : string) (t : Scheds) :
  (forall l, body (ListSchedules_handler name_le env c t).1 = BodySchedules l ->
     Forall (fun s => Schedule_TenantID s = tenantOf c) l) /\
  (forall k r, intf env t !! k = Some r -> s_tenant_id r <> tenantOf c ->
     (DeleteSchedule_handler env c id t).2 !! k = Some r) /\
  (fault env = NoFault -> (forall r, intf env t !! id = Some r -> s_tenant_id r <> tenantOf c) ->
     status (DeleteSchedule_handler env c id t).1 = StatusNotFound /\
     (DeleteSchedule_handler env c id t).2 = intf env t).
Proof.
  unfold ListSchedules_handler, ListSchedules, DeleteSchedule_handler, DeleteSchedule. split; [|split].
  - intros l. unfold run_stmt. destruct (fault env); cbn; [|done|done]. intros [= <-].
    apply Forall_fmap, Forall_forall. intros r Hr. cbn.
    apply elem_of_merge_sort, elem_of_Lfilter in Hr as [_ Hr]. by zbool.
  - intros k r Hr Htn. unfold run_stmt.
    set (stmt := match intf env t !! id with Some _ => _ | None => _ end).
    assert (Hk : stmt.2 !! k = Some r).
    { unfold stmt. destruct (intf env t !! id) as [r0|] eqn:E; [|done]. case_bool_decide as Hd; [|done]. cbn.
      rewrite lookup_delete_ne; [done|]. intros <-. rewrite Hr in E. by simplify_eq. }
    destruct (fault env); [|done|done]. destruct stmt as [[n|e] t1]; cbn in Hk |- *; [|done].
    by destruct (n =? 0).
  - intros Hf Hno. unfold run_stmt. rewrite Hf. destruct (intf env t !! id) as [r|] eqn:E; [|done].
    by rewrite bool_decide_false by (by apply Hno).
Qed.

(** ** A schedule created *)

#[local] Transparent Next.

Definition demo_create_request : CreateScheduleRequest :=
  mkCreateScheduleRequest "nightly" "30 2 * * *" demo_task.

Lemma created_schedule_can_fire_witness :
  exists r, (CreateSchedule_handler (calm_s demo_now) demo_now (tenant_ctx "acme") (BindOk demo_create_request) ∅).2
    = {[s_id r := r]} /\ s_enabled r = true.
Proof.
  destruct (created_schedule_can_fire (calm_s demo_now) demo_now (tenant_ctx "acme") demo_create_request ∅)
    as (cron & key & r & _ & _ & Ht & Hid & _ & _ & He & _).
  - vm_compute. discriminate.
  - vm_compute. reflexivity.
  - exists r. split; [|exact He]. rewrite Ht, Hid. reflexivity.
Defined.

Lemma schedules_stay_in_tenant_witness :
  status (DeleteSchedule_handler (calm_s demo_now) (tenant_ctx "globex") "s1" demo_scheds).1 = StatusNotFound.
Proof.
  refine (proj1 (proj2 (proj2 (schedules_stay_in_tenant String.le (calm_s demo_now) (tenant_ctx "globex") "s1"
    demo_scheds)) _ _)).
  - reflexivity.
  - intros r Hr. vm_compute in Hr. injection Hr as <-. discriminate.
Defined.
