(* ===== verification/ApiJson.v ===== *)
(** * internal/api on the wire

    The bodies of requests as [ShouldBindJSON] reads them and of responses as
    [c.JSON] writes them: the text around the handlers of Api.v and
    ScheduleApi.v.  The decoder reads the first value of a body and looks at
    nothing after it. *)

From S2P Require Import Prelude GoStrings GoText Models Retry GoDuration GoJson JsonText JsonGrammar JsonObject Calendar GoTime.
From S2P Require Import JsonStruct JsonFields JobJson JobStore Service Auth Api ScheduleApi.
From S2P Require Etl.

(** ** Requests *)

(** [json.NewDecoder(body).Decode(&request)] with the unknown fields disallowed,
    as RegisterRoutes asks of gin: the first value of the body. *)
Definition ShouldBindJSON {R} (fs : list (field R)) (zero : R) (s : string) : Bound R :=
  match parse_value (2 * String.length s + 2) 0 s with
  | None => BindError "invalid JSON"
  | Some (_, rest) =>
      match decode_struct true fs 0 (before (skip_ws s) rest) zero with
      | Got r => BindOk r
      | TypeErr _ | Halt _ => BindError "cannot unmarshal"
      end
  end.

(** [[]string], nil when absent; the elements by [decode_elems] of Etl.v. *)
Fixpoint elems_text (ts : list string) : string :=
  match ts with [] => "" | [t] => t | t :: ts' => t +:+ "," +:+ elems_text ts' end.
Definition array_text (ts : list string) : string := "[" +:+ elems_text ts +:+ "]".

Definition decode_list (raw : string) (old : list string) : decoded (list string) :=
  match json_parse raw with
  | Some v => match Etl.decode_strings old v with Some l => Got l | None => TypeErr old end
  | None => Halt json_type_error
  end.

Definition list_omit {R} (name : string) (get : R -> list string) (set : list string -> R -> R) : field R :=
  omitempty (fun r => bool_decide (get r = []))
    (mkField name (fun r => Ok (Some (array_text (map json_quote (get r)))))
       (fun raw r => decoded_map (fun v => set v r) (decode_list raw (get r)))).

Definition enqueue_fields (loc : string -> Z) : list (field EnqueueRequest) :=
  [ string_omit "idempotency_key" Enq_IdempotencyKey
      (fun x r => match r with mkEnqueueRequest _ b c d => mkEnqueueRequest x b c d end);
    struct_field true (task_fields 1) 1 "task" Enq_Task
      (fun x r => match r with mkEnqueueRequest a _ c d => mkEnqueueRequest a x c d end);
    time_ptr_omit (loc "scheduled_at") "scheduled_at" Enq_ScheduledAt
      (fun x r => match r with mkEnqueueRequest a b _ d => mkEnqueueRequest a b x d end);
    map_omit 1 "metadata" Enq_Metadata
      (fun x r => match r with mkEnqueueRequest a b c _ => mkEnqueueRequest a b c x end) ].

Definition claim_fields : list (field ClaimRequest) :=
  [ list_omit "queues" Claim_Queues (fun x r => match r with mkClaimRequest _ b c d => mkClaimRequest x b c d end);
    list_omit "names" Claim_Names (fun x r => match r with mkClaimRequest a _ c d => mkClaimRequest a x c d end);
    int_omit "lease_seconds" Claim_LeaseSeconds (fun x r => match r with mkClaimRequest a b _ d => mkClaimRequest a b x d end);
    int_omit "wait_seconds" Claim_WaitSeconds (fun x r => match r with mkClaimRequest a b c _ => mkClaimRequest a b c x end) ].

Definition heartbeat_fields : list (field HeartbeatRequest) :=
  [ string_field "lease_token" Heartbeat_LeaseToken (fun x r => mkHeartbeatRequest x (Heartbeat_LeaseSeconds r));
    int_omit "lease_seconds" Heartbeat_LeaseSeconds (fun x r => mkHeartbeatRequest (Heartbeat_LeaseToken r) x) ].

Definition complete_fields : list (field CompleteRequest) :=
  [ string_field "lease_token" Complete_LeaseToken (fun x r => mkCompleteRequest x (Complete_Metadata r));
    map_omit 1 "metadata" Complete_Metadata (fun x r => mkCompleteRequest (Complete_LeaseToken r) x) ].

Definition fail_fields : list (field FailRequest) :=
  [ string_field "lease_token" Fail_LeaseToken (fun x r => mkFailRequest x (Fail_Error r) (Fail_Retry r));
    string_field "error" Fail_Error (fun x r => mkFailRequest (Fail_LeaseToken r) x (Fail_Retry r));
    bool_field "retry" Fail_Retry (fun x r => mkFailRequest (Fail_LeaseToken r) (Fail_Error r) x) ].

Definition create_schedule_fields : list (field CreateScheduleRequest) :=
  [ string_field "name" Create_Name (fun x r => mkCreateScheduleRequest x (Create_Cron r) (Create_Task r));
    string_field "cron" Create_Cron (fun x r => mkCreateScheduleRequest (Create_Name r) x (Create_Task r));
    struct_field true (task_fields 1) 1 "task" Create_Task (fun x r => mkCreateScheduleRequest (Create_Name r) (Create_Cron r) x) ].

Definition bind_enqueue (s : string) : Bound EnqueueRequest :=
  ShouldBindJSON (enqueue_fields (fun _ => 0)) (mkEnqueueRequest "" zeroTask None None) s.
Definition bind_claim (s : string) : Bound ClaimRequest := ShouldBindJSON claim_fields (mkClaimRequest [] [] 0 0) s.
Definition bind_heartbeat (s : string) : Bound HeartbeatRequest := ShouldBindJSON heartbeat_fields (mkHeartbeatRequest "" 0) s.
Definition bind_complete (s : string) : Bound CompleteRequest := ShouldBindJSON complete_fields (mkCompleteRequest "" None) s.
Definition bind_fail (s : string) : Bound FailRequest := ShouldBindJSON fail_fields (mkFailRequest "" "" false) s.
Definition bind_create_schedule (s : string) : Bound CreateScheduleRequest :=
  ShouldBindJSON create_schedule_fields (mkCreateScheduleRequest "" "" zeroTask) s.

(** An empty body is a valid claim.  A chunked one has the length -1 and is
    taken for empty as well. *)
Definition claim_body (content_length : Z) (s : string) : option (Bound ClaimRequest) :=
  if 0 <? content_length then Some (bind_claim s) else None.

Example bind_1 : bind_fail ("{" +:+ json_quote "lease_token" +:+ ":" +:+ json_quote "t" +:+ "} {") = BindOk (mkFailRequest "t" "" false).
Proof. reflexivity. Qed.
Example bind_2 : bind_claim ("{" +:+ json_quote "QUEUES" +:+ ":[" +:+ json_quote "a" +:+ ",null]}") = BindOk (mkClaimRequest ["a"; ""] [] 0 0).
Proof. reflexivity. Qed.
Example bind_3 : bind_heartbeat ("{" +:+ json_quote "lease_seconds" +:+ ":1.0}") = BindError "cannot unmarshal".
Proof. reflexivity. Qed.

Example bind_4 : bind_enqueue ("{" +:+ json_quote "queue" +:+ ":" +:+ json_quote "etl" +:+ "," +:+ json_quote "task" +:+ ":{" +:+ json_quote "name" +:+ ":"
  +:+ json_quote "webhook" +:+ "}}") = BindError "cannot unmarshal".
Proof. reflexivity. Qed.

(** ** Reading back *)

Lemma elems_text_elems d ts vs : ts <> [] -> Forall2 (val d) ts vs -> elems d (elems_text ts) vs.
Proof.
  intros Hne H. induction H as [|t v ts vs Hv Hts IH]; [done|]. destruct ts as [|t' ts].
  - inversion Hts; subst. pose proof (elems_one d "" t "" v) as HE. rewrite string_app_nil in HE. by apply HE.
  - assert (Hne' : t' :: ts <> []) by done. specialize (IH Hne').
    change (elems_text (t :: t' :: ts)) with (t +:+ "," +:+ elems_text (t' :: ts)). by apply (elems_more d "" t "" v).
Qed.

Lemma array_val d ts vs : d < maxNestingDepth -> Forall2 (val (d + 1)) ts vs -> val d (array_text ts) (JArray vs).
Proof.
  intros Hd H. destruct ts as [|t ts]; [inversion H; subst; by apply val_array_nil|]. apply val_array; [done|]. by apply elems_text_elems.
Qed.

Lemma quotes_val d l : Forall2 (val d) (map json_quote l) (map (fun s => JString (utf8 s)) l).
Proof. induction l as [|s l IH]; constructor; [apply json_quote_val|exact IH]. Qed.

Lemma list_omit_emits {R} d r name get (set : list string -> R -> R) : d < maxNestingDepth -> emits d r (list_omit name get set).
Proof.
  intros Hd. apply omitempty_emits. eexists. split; [reflexivity|]. intros raw [= <-]. eexists. apply array_val; [done|]. apply quotes_val.
Qed.

Lemma decode_elems_strings l : Etl.decode_elems [] (map (fun s => JString (utf8 s)) l) = Some (map utf8 l).
Proof. induction l as [|s l IH]; [done|]. cbn [map Etl.decode_elems Etl.decode_string]. by rewrite IH. Qed.

Lemma list_omit_apply {R} r (st : R) name get set : get st = [] -> set [] st = st ->
  apply_field (list_omit name get set) r st = Got (set (map utf8 (get r)) st).
Proof.
  intros Hst H. apply omitempty_apply; intros E; [apply bool_decide_eq_true in E; by rewrite E|].
  unfold apply_field. cbn [f_get f_set]. unfold decode_list.
  rewrite (val_parse 0 _ _ (array_val 0 _ _ eq_refl (quotes_val 1 (get r))) : json_parse _ = _). cbn [Etl.decode_strings].
  by rewrite Hst, decode_elems_strings.
Qed.
#[local] Hint Resolve list_omit_emits list_omit_apply : wire.

(** An object is read whatever follows it. *)
Lemma object_then_anything d t vs f X : val d t (JObject vs) -> (2 * String.length t <= f)%nat ->
  parse_value f d (t +:+ X) = Some (JObject vs, X).
Proof.
  intros H Hf. inversion H as [| | | | |? w Hd Hw|? u m Hd Hm| |]; subst; fuel_step f Hf; rewrite !string_app_assoc, parse_object by done.
  - by rewrite string_app_cons, skip_ws_stop.
  - rewrite (proj2 (proj2 grammar_complete) _ _ _ Hm) by lia.
    destruct (members_first _ _ _ Hm) as (w & t' & -> & Hw). by rewrite string_app_assoc, append_cons, skip_ws_stop.
Qed.

(** What a client writes by the same tags is bound, in spite of what follows. *)
Lemma bind_wire {R} (fs gs : list (field R)) r zero r' : names_ok fs -> Forall (emits 1 r) fs -> applies r fs zero r' ->
  Forall2 same_reader gs fs ->
  exists s, marshal_struct fs r = Ok s /\ forall X, ShouldBindJSON gs zero (s +:+ X) = BindOk r'.
Proof.
  intros Hn He Ha Hsame. destruct (struct_wire fs 0 r zero r' Hn eq_refl He Ha) as (s & vs & Hs & Hv & Hd).
  exists s. split; [done|]. intros X. unfold ShouldBindJSON.
  rewrite (object_then_anything 0 s vs _ X Hv) by (rewrite append_length; lia).
  assert (Hw : skip_ws (s +:+ X) = s +:+ X).
  { destruct (val_first _ _ _ Hv) as (c & t & -> & Hc & _). by rewrite append_cons, skip_ws_cons, Hc. }
  by rewrite Hw, before_app, (decode_same true gs fs), Hd.
Qed.

(** The keys of the first value of a body all name a field of the table. *)
Definition known_keys {R} (fs : list (field R)) (s : string) : Prop :=
  exists v rest, parse_value (2 * String.length s + 2) 0 s = Some (v, rest) /\
  forall t ms k raw, before (skip_ws s) rest = "{" +:+ t -> object_members 0 ("{" +:+ t) = Some ms -> (k, raw) ∈ ms ->
    is_Some (find_named k fs).

Lemma strict_members {R} (fs : list (field R)) ms r saved r' : set_members true fs ms r saved = Got r' ->
  saved = false /\ forall k raw, (k, raw) ∈ ms -> is_Some (find_named k fs).
Proof.
  revert r saved. induction ms as [|[k raw] ms IH]; intros r saved; cbn [set_members].
  { destruct saved; [done|]. intros _. split; [done|]. set_solver. }
  destruct (find_named k fs) as [f|] eqn:Ef; [|intros [? _]%IH; done].
  destruct (f_set f raw r) as [r1|r1|e]; intros H; [|apply IH in H as [? _]; done|done].
  apply IH in H as [-> H]. split; [done|]. intros k' raw' [[= -> ->]|Hin]%elem_of_cons; [by rewrite Ef|by eapply H].
Qed.

Lemma bind_known {R} (fs : list (field R)) zero s r : ShouldBindJSON fs zero s = BindOk r -> known_keys fs s.
Proof.
  unfold ShouldBindJSON, known_keys. destruct (parse_value _ 0 s) as [[v rest]|]; [|done]. intros H. exists v, rest. split; [done|].
  intros t ms k raw Hb Hms Hin. rewrite Hb in H. assert (E : decode_struct true fs 0 ("{" +:+ t) zero =
    match object_members 0 ("{" +:+ t) with Some ms => set_members true fs ms zero false | None => Halt json_type_error end) by done.
  rewrite E, Hms in H. destruct (set_members true fs ms zero false) eqn:Es; [|done..]. by eapply strict_members.
Qed.

Definition enqueue_wire (r : EnqueueRequest) : EnqueueRequest :=
  mkEnqueueRequest (utf8 (Enq_IdempotencyKey r)) (task_wire (Enq_Task r)) (Enq_ScheduledAt r) (wire_map (Enq_Metadata r)).

Lemma enqueue_text loc r : task_sendable 1 (Enq_Task r) = true -> printable_ptr (loc "scheduled_at") (Enq_ScheduledAt r) = true ->
  exists s, marshal_struct (enqueue_fields loc) r = Ok s /\ forall X, bind_enqueue (s +:+ X) = BindOk (enqueue_wire r).
Proof.
  intros Ht Hp. apply bind_wire; [|emits_all|applies_all|by repeat constructor].
  split; [apply (bool_decide_unpack _); vm_compute; exact I|by repeat constructor].
Qed.

(** Requests survive the wire: what a client writes for a request
    is bound to that request, its strings as UTF-8 and its payload compacted,
    whatever follows it in the body; and a body one of whose keys names no field
    is refused. *)
Theorem requests_bind :
  (forall loc r, task_sendable 1 (Enq_Task r) = true -> printable_ptr (loc "scheduled_at") (Enq_ScheduledAt r) = true ->
     exists s, marshal_struct (enqueue_fields loc) r = Ok s /\ forall X, bind_enqueue (s +:+ X) = BindOk (enqueue_wire r)) /\
  (forall r, int64_ok (Claim_LeaseSeconds r) = true -> int64_ok (Claim_WaitSeconds r) = true ->
     exists s, marshal_struct claim_fields r = Ok s /\
       forall X, bind_claim (s +:+ X) = BindOk (mkClaimRequest (map utf8 (Claim_Queues r)) (map utf8 (Claim_Names r)) (Claim_LeaseSeconds r) (Claim_WaitSeconds r))) /\
  (forall r, int64_ok (Heartbeat_LeaseSeconds r) = true ->
     exists s, marshal_struct heartbeat_fields r = Ok s /\
       forall X, bind_heartbeat (s +:+ X) = BindOk (mkHeartbeatRequest (utf8 (Heartbeat_LeaseToken r)) (Heartbeat_LeaseSeconds r))) /\
  (forall r, exists s, marshal_struct complete_fields r = Ok s /\
       forall X, bind_complete (s +:+ X) = BindOk (mkCompleteRequest (utf8 (Complete_LeaseToken r)) (wire_map (Complete_Metadata r)))) /\
  (forall r, exists s, marshal_struct fail_fields r = Ok s /\
       forall X, bind_fail (s +:+ X) = BindOk (mkFailRequest (utf8 (Fail_LeaseToken r)) (utf8 (Fail_Error r)) (Fail_Retry r))) /\
  (forall r, task_sendable 1 (Create_Task r) = true -> exists s, marshal_struct create_schedule_fields r = Ok s /\
       forall X, bind_create_schedule (s +:+ X) = BindOk (mkCreateScheduleRequest (utf8 (Create_Name r)) (utf8 (Create_Cron r)) (task_wire (Create_Task r)))) /\
  (forall s, (forall r, bind_enqueue s = BindOk r -> known_keys (enqueue_fields (fun _ => 0)) s) /\
     (forall r, bind_claim s = BindOk r -> known_keys claim_fields s) /\
     (forall r, bind_create_schedule s = BindOk r -> known_keys create_schedule_fields s)).
Proof.
  assert (Hk : forall s, (forall r, bind_enqueue s = BindOk r -> known_keys (enqueue_fields (fun _ => 0)) s) /\
     (forall r, bind_claim s = BindOk r -> known_keys claim_fields s) /\
     (forall r, bind_create_schedule s = BindOk r -> known_keys create_schedule_fields s))
    by (intros s; split_and!; intros r; apply bind_known).
  refine (conj enqueue_text (conj _ (conj _ (conj _ (conj _ (conj _ Hk)))))); clear Hk; intros; apply bind_wire; try (by repeat constructor); try (split; [apply (bool_decide_unpack _); vm_compute; exact I|by repeat constructor]);
    first [emits_all|applies_all].
Qed.

(** ** Responses *)

(** The elements of a list, or the first error. *)
Fixpoint all_ok (l : list (result string)) : result (list string) :=
  match l with
  | [] => Ok []
  | Error e :: _ => Error e
  | Ok s :: l' => match all_ok l' with Ok ss => Ok (s :: ss) | Error e => Error e end
  end.

(** [gin.H] is a map: its keys are written in order. *)
Definition bodyText (loc : string -> Z) (b : Body) : result string :=
  match b with
  | BodyNone => Ok ""
  | BodyError code message request_id =>
      Ok (object_text [("error", object_text ([("code", json_quote code); ("message", json_quote message)]
            ++ (if bool_decide (request_id = "") then [] else [("request_id", json_quote request_id)])))])
  | BodyID id => Ok (object_text [("id", json_quote id)])
  | BodyJob job => marshal_job loc job
  | BodyJobs jobs next_cursor =>
      match all_ok (map (marshal_struct (job_fields 2 loc)) jobs) with
      | Ok ts => Ok (object_text [("jobs", array_text ts); ("next_cursor", json_quote next_cursor)])
      | Error e => Error e
      end
  | BodyCancelled => Ok (object_text [("status", json_quote "cancelled")])
  | BodyRequeued => Ok (object_text [("attempt", "0"); ("state", json_quote "PENDING")])
  | BodyClaim job lease_token lease_expires_at =>
      match marshal_struct (job_fields 1 loc) job, Time_MarshalJSON (loc "lease_expires_at") lease_expires_at with
      | Ok j, Ok t => Ok (object_text [("job", j); ("lease_token", json_quote lease_token); ("lease_expires_at", compact t)])
      | Error e, _ | _, Error e => Error e
      end
  | BodyLease lease_expires_at =>
      match Time_MarshalJSON (loc "lease_expires_at") lease_expires_at with
      | Ok t => Ok (object_text [("lease_expires_at", compact t)])
      | Error e => Error e
      end
  | BodyCompleted => Ok (object_text [("state", json_quote "COMPLETED")])
  | BodyFailed st attempt scheduled_at =>
      match (match scheduled_at with Some t => Time_MarshalJSON (loc "scheduled_at") t | None => Ok "null" end) with
      | Ok t => Ok (object_text [("attempt", Itoa attempt); ("scheduled_at", compact t); ("state", json_quote (JobState_string st))])
      | Error e => Error e
      end
  | BodySchedule s => marshal_schedule loc s
  | BodySchedules l =>
      match all_ok (map (marshal_struct (schedule_fields 2 loc)) l) with
      | Ok ts => Ok (object_text [("schedules", array_text ts)])
      | Error e => Error e
      end
  end.

(** Times with a text, integers of 64 bits, payloads not nested to the limit. *)
Definition body_sendable (loc : string -> Z) (b : Body) : bool :=
  match b with
  | BodyJob job => job_sendable loc job
  | BodyJobs jobs _ => forallb (job_sendable_at 2 loc) jobs
  | BodyClaim job _ t => job_sendable_at 1 loc job && printable (loc "lease_expires_at") t
  | BodyLease t => printable (loc "lease_expires_at") t
  | BodyFailed _ attempt at_ => int64_ok attempt && printable_ptr (loc "scheduled_at") at_
  | BodySchedule s => schedule_sendable loc s
  | BodySchedules l => forallb (schedule_sendable_at 2 loc) l
  | _ => true
  end.

Lemma object_members_val d ms : d < maxNestingDepth -> Forall (fun m => exists v, val (d + 1) m.2 v) ms ->
  exists v, val d (object_text ms) v.
Proof.
  intros Hd H. assert (Hvs : exists vs, values_ok (d + 1) ms vs).
  { induction H as [|[k t] ms [v Hv] _ [vs IH]]; [by exists []; constructor|]. exists ((utf8 k, v) :: vs). by constructor. }
  destruct Hvs as [vs Hvs]. eexists. by apply object_val.
Qed.

Lemma time_text_val d off t : printable off t = true -> exists s v, Time_MarshalJSON off t = Ok s /\ val d (compact s) v.
Proof.
  intros Hp. destruct (Time_MarshalJSON_wire 0 off t Hp) as (s & Hs & Hm & _). exists (quoted s), (JString s).
  split; [done|]. rewrite compact_plain by done. by apply quoted_plain_val.
Qed.

Lemma job_text_val d loc j : d + 2 < maxNestingDepth -> job_sendable_at d loc j = true ->
  exists s v, marshal_struct (job_fields d loc) j = Ok s /\ val d s v.
Proof.
  intros Hd H. destruct (struct_wire (job_fields d loc) d j zeroJob (job_wire j)) as (s & vs & Hs & Hv & _);
    [apply job_names|lia|by apply job_emits|by apply job_applies|]. by exists s, (JObject vs).
Qed.

Lemma schedule_text_val d loc s : d + 2 < maxNestingDepth -> schedule_sendable_at d loc s = true ->
  exists t v, marshal_struct (schedule_fields d loc) s = Ok t /\ val d t v.
Proof.
  intros Hd H. destruct (struct_wire (schedule_fields d loc) d s zeroSchedule (schedule_wire s)) as (t & vs & Hs & Hv & _);
    [apply schedule_names|lia|by apply schedule_emits|by apply schedule_applies|]. by exists t, (JObject vs).
Qed.

Lemma all_ok_val {A} d (f : A -> result string) (ok : A -> bool) l :
  (forall a, ok a = true -> exists s v, f a = Ok s /\ val d s v) -> forallb ok l = true ->
  exists ts vs, all_ok (map f l) = Ok ts /\ Forall2 (val d) ts vs.
Proof.
  intros Hf. induction l as [|a l IH]; cbn [forallb map all_ok]; [by exists [], []; repeat constructor|].
  intros [Ha Hl]%andb_true_iff. destruct (Hf a Ha) as (s & v & -> & Hv). destruct (IH Hl) as (ts & vs & -> & Hvs).
  exists (s :: ts), (v :: vs). split; [done|]. by constructor.
Qed.

Lemma some_quote d s : exists v, val d (json_quote s) v.
Proof. eexists. apply json_quote_val. Qed.
#[local] Hint Resolve some_quote : wire.

(** Members with the values the context has. *)
Ltac members_ok := apply object_members_val; [reflexivity|]; repeat (apply Forall_cons_2; [by eauto with wire|]); apply Forall_nil_2.

Lemma body_val loc b : body_sendable loc b = true -> b <> BodyNone -> exists s v, bodyText loc b = Ok s /\ val 0 s v.
Proof.
  assert (Hok : forall s, (exists v, val 0 s v) -> exists s' v, Ok s = Ok s' /\ val 0 s' v) by (intros s [v Hv]; by exists s, v).
  destruct b as [|code msg rid|id|j|jobs cur| | |j tok t|t| |st at_ sch|s|l]; cbn [body_sendable bodyText]; intros H Hb; try done.
  - apply Hok. apply object_members_val; [reflexivity|]. apply Forall_cons_2; [|apply Forall_nil_2].
    cbn [snd]. apply object_members_val; [reflexivity|]. do 2 (apply Forall_cons_2; [by eauto with wire|]).
    case_bool_decide; [apply Forall_nil_2|]. apply Forall_cons_2; [by eauto with wire|apply Forall_nil_2].
  - apply Hok. members_ok.
  - by apply (job_text_val 0).
  - destruct (all_ok_val 2 (marshal_struct (job_fields 2 loc)) _ jobs (fun j => job_text_val 2 loc j eq_refl) H) as (ts & vs & -> & Hvs).
    apply Hok. assert (Ha : exists v, val 1 (array_text ts) v) by (eexists; by apply array_val). members_ok.
  - apply Hok. members_ok.
  - apply Hok. assert (H0 : exists v, val 1 "0" v) by (eexists; apply val_number; reflexivity). members_ok.
  - apply andb_true_iff in H as [Hj Ht]. destruct (job_text_val 1 loc j eq_refl Hj) as (js & v & -> & Hv).
    destruct (time_text_val 1 _ t Ht) as (s & v' & -> & Hv'). apply Hok. members_ok.
  - destruct (time_text_val 1 _ t H) as (s & v' & -> & Hv'). apply Hok. members_ok.
  - apply Hok. members_ok.
  - apply andb_true_iff in H as [Ha Ht]. assert (Hi : exists v, val 1 (Itoa at_) v) by (eexists; by apply val_number, Itoa_number, int64_range).
    destruct sch as [t|].
    + destruct (time_text_val 1 _ t Ht) as (s & v' & -> & Hv'). apply Hok. members_ok.
    + apply Hok. assert (Hn : exists v, val 1 (compact "null") v) by (eexists; apply val_null). members_ok.
  - by apply (schedule_text_val 0).
  - destruct (all_ok_val 2 (marshal_struct (schedule_fields 2 loc)) _ l (fun s => schedule_text_val 2 loc s eq_refl) H) as (ts & vs & -> & Hvs).
    apply Hok. assert (Ha : exists v, val 1 (array_text ts) v) by (eexists; by apply array_val). members_ok.
Qed.

(** The job under another lease token. *)
Definition with_token (tok : string) (j : Job) : Job :=
  match j with mkJob a b c d e f g h i _ k l m n o => mkJob a b c d e f g h i tok k l m n o end.

Lemma marshal_struct_ext {R} (fs : list (field R)) r r' : Forall (fun f => f_get f r = f_get f r') fs ->
  marshal_struct fs r = marshal_struct fs r'.
Proof.
  intros H. unfold marshal_struct. assert (emit fs r = emit fs r') as ->; [|done]. induction H as [|f fs Hf _ IH]; cbn [emit]; [done|].
  by rewrite Hf, IH.
Qed.

Lemma token_not_written d loc tok job : marshal_struct (job_fields d loc) (with_token tok job) = marshal_struct (job_fields d loc) job.
Proof. apply marshal_struct_ext. destruct job. unfold job_fields. repeat (apply Forall_cons_2; [reflexivity|]). apply Forall_nil_2. Qed.

(** Every answer of the API is one valid JSON value, or empty; and of
    a job's lease token nothing is in it: the text of a job, in a list or alone
    or beside the token a claim is answered with, is the same whatever token
    the job has. *)
Theorem responses_are_json loc b : body_sendable loc b = true ->
  (b = BodyNone \/ exists s, bodyText loc b = Ok s /\ json_Valid s = true) /\
  (forall tok job cur t, bodyText loc (BodyJob (with_token tok job)) = bodyText loc (BodyJob job) /\
     bodyText loc (BodyJobs [with_token tok job] cur) = bodyText loc (BodyJobs [job] cur) /\
     bodyText loc (BodyClaim (with_token tok job) tok t) = bodyText loc (BodyClaim job tok t)).
Proof.
  intros H. split; [|intros tok job cur t; unfold bodyText, marshal_job; cbn [map all_ok]; by rewrite !token_not_written].
  assert (Hd : b = BodyNone \/ b <> BodyNone) by (destruct b; by (left + right)). destruct Hd as [->|Hb]; [by left|right].
  destruct (body_val loc b H Hb) as (s & v & Hs & Hv). exists s. split; [done|]. unfold json_Valid.
  by rewrite (val_parse 0 s v Hv : json_parse s = Some v).
Qed.

Lemma responses_are_json_witness :
  exists s, bodyText (fun _ => 0) (BodyFailed JobStatePending 2 (Some (Date 2024 2 29 23 59))) = Ok s /\ json_Valid s = true.
Proof.
  destruct (responses_are_json (fun _ => 0) (BodyFailed JobStatePending 2 (Some (Date 2024 2 29 23 59))) eq_refl) as [[H|H] _]; [discriminate|exact H].
Defined.

Lemma requests_bind_witness : exists s, marshal_struct heartbeat_fields (mkHeartbeatRequest "t" 30) = Ok s /\
  bind_heartbeat (s +:+ "trailing") = BindOk (mkHeartbeatRequest "t" 30).
Proof.
  destruct (proj1 (proj2 (proj2 requests_bind)) (mkHeartbeatRequest "t" 30) eq_refl) as (s & Hs & Hb).
  exists s. split; [exact Hs|exact (Hb "trailing")].
Defined.
