(* ===== verification/Http.v ===== *)
(** * The server as its clients see it: paths and texts in, statuses and texts out

    The routes of internal/api and cmd/server/main.go as one table, matched by
    path segments the way gin documents (a parameter is one segment that is not
    empty); behind them the middleware and handlers of Api.v and ScheduleApi.v,
    with the bodies of ApiJson.v on both sides.  The scrape of Prometheus and the
    readiness probe (Server.v) are arguments, and so is what gin answers where no
    route matches. *)

From S2P Require Import Prelude GoStrings GoText Models Retry GoJson JsonText JsonGrammar JsonObject GoTime JsonStruct JsonFields JobJson.
From S2P Require Import JobStore JobFacts JobSystem JobSpec JobProps Service ScheduleStore Pages Keys Auth Api ScheduleApi ApiJson.

(** ** The table *)

Inductive segment := Static (s : string) | Param.

Inductive endpoint :=
  | EEnqueue | EList | EByKey | EClaim | EGet | ECancel | ERequeue | EHeartbeat | EComplete | EFail
  | ECreateSchedule | EListSchedules | EDeleteSchedule
  | EMetrics | ELive | EReady | EHealth.

#[global] Instance endpoint_eq_dec : EqDecision endpoint.
Proof. solve_decision. Defined.

Record route := mkRoute { r_method : string; r_pattern : list segment; r_endpoint : endpoint }.

Definition job_routes : list route :=
  let g p := Static "api" :: Static "jobs" :: p in
  [ mkRoute "POST" (g []) EEnqueue;
    mkRoute "GET" (g []) EList;
    mkRoute "GET" (g [Static "by-idempotency-key"; Param]) EByKey;
    mkRoute "POST" (g [Static "claim"]) EClaim;
    mkRoute "GET" (g [Param]) EGet;
    mkRoute "POST" (g [Param; Static "cancel"]) ECancel;
    mkRoute "POST" (g [Param; Static "requeue"]) ERequeue;
    mkRoute "POST" (g [Param; Static "heartbeat"]) EHeartbeat;
    mkRoute "POST" (g [Param; Static "complete"]) EComplete;
    mkRoute "POST" (g [Param; Static "fail"]) EFail ].

Definition schedule_routes : list route :=
  let g p := Static "api" :: Static "schedules" :: p in
  [ mkRoute "POST" (g []) ECreateSchedule;
    mkRoute "GET" (g []) EListSchedules;
    mkRoute "DELETE" (g [Param]) EDeleteSchedule ].

Definition root_routes : list route :=
  [ mkRoute "GET" [Static "metrics"] EMetrics;
    mkRoute "GET" [Static "live"] ELive;
    mkRoute "GET" [Static "ready"] EReady;
    mkRoute "GET" [Static "health"] EHealth ].

Definition routes : list route := job_routes ++ schedule_routes ++ root_routes.

(** The parameters of a path that matches. *)
Fixpoint match_path (p : list segment) (path : list string) : option (list string) :=
  match p, path with
  | [], [] => Some []
  | Static s :: p', x :: path' => if bool_decide (s = x) then match_path p' path' else None
  | Param :: p', x :: path' => if bool_decide (x = "") then None else (fun l => x :: l) <$> match_path p' path'
  | _, _ => None
  end.

Definition match_route (method : string) (path : list string) (r : route) : option (list string) :=
  if bool_decide (r_method r = method) then match_path (r_pattern r) path else None.

Fixpoint find_route (method : string) (path : list string) (rs : list route) : option (endpoint * list string) :=
  match rs with
  | [] => None
  | r :: rs' =>
      match match_route method path r with
      | Some params => Some (r_endpoint r, params)
      | None => find_route method path rs'
      end
  end.

(** ** A request *)

Record Http := mkHttp {
  hr_method : string;
  hr_path : list string;
  hr_query : ListQuery;
  hr_length : Z;              (* Content-Length, -1 when it is not known *)
  hr_body : string
}.

Inductive reply := Reply (status : Z) (text : result string) | NoReply | Unrouted.

Definition reply_of (loc : string -> Z) (r : option Response) : reply :=
  match r with Some r => Reply (status r) (bodyText loc (body r)) | None => NoReply end.

(** The endpoint's view of the request; [p] is the path's parameter. *)
Definition job_request (e : endpoint) (p : string) (hr : Http) : option JobRequest :=
  match e with
  | EEnqueue => Some (PostJobs (bind_enqueue (hr_body hr)))
  | EList => Some (GetJobs (hr_query hr))
  | EByKey => Some (GetByKey p)
  | EClaim => Some (PostClaim (claim_body (hr_length hr) (hr_body hr)))
  | EGet => Some (GetOne p)
  | ECancel => Some (PostCancel p)
  | ERequeue => Some (PostRequeue p)
  | EHeartbeat => Some (PostHeartbeat p (bind_heartbeat (hr_body hr)))
  | EComplete => Some (PostComplete p (bind_complete (hr_body hr)))
  | EFail => Some (PostFail p (bind_fail (hr_body hr)))
  | _ => None
  end.

Record Tables := mkTables { tb_jobs : Jobs; tb_scheds : Scheds; tb_keys : KeyTable }.

(** What run gives the router. *)
Record Router := mkRouter {
  ro_service : JobService;
  ro_claim_wait : Dur;
  ro_keys : list string;               (* CONDUIT_API_KEYS *)
  ro_metrics_token : string;
  ro_scrape : string;                  (* what Prometheus writes *)
  ro_ready : Z * string;               (* what the readiness handler answers *)
  ro_loc : string -> Z                 (* the location a time is printed in *)
}.

(** What one request meets outside the program. *)
Record HttpEnv := mkHttpEnv {
  he_auth : AuthEnv KeyTable;
  he_rnd : option (list Z);
  he_req : ReqEnv;
  he_sched : Env Scheds
}.

Section Server.
Context (id_le name_le : relation string) `{!RelDecision id_le, !RelDecision name_le}.
Context (ro : Router).

Definition schedule_request (e : endpoint) (p : string) (he : HttpEnv) (c : Ctx) (hr : Http) (t : Scheds) : option (Response * Scheds) :=
  match e with
  | ECreateSchedule => Some (CreateSchedule_handler (he_sched he) (rq_now (he_req he)) c (bind_create_schedule (hr_body hr)) t)
  | EListSchedules => Some (ListSchedules_handler name_le (he_sched he) c t)
  | EDeleteSchedule => Some (DeleteSchedule_handler (he_sched he) c p t)
  | _ => None
  end.

Definition status_ok : string := object_text [("status", json_quote "ok")].

(** The endpoints on the root: no key, the scrape behind its own token. *)
Definition root_request (e : endpoint) (c : Ctx) : reply :=
  match e with
  | EMetrics =>
      match TokenAuth (ro_metrics_token ro) c with
      | Abort r => reply_of (ro_loc ro) (Some r)
      | Proceed _ => Reply StatusOK (Ok (ro_scrape ro))
      end
  | EReady => Reply (ro_ready ro).1 (Ok (ro_ready ro).2)
  | _ => Reply StatusOK (Ok status_ok)
  end.

Definition is_schedule (e : endpoint) : bool :=
  match e with ECreateSchedule | EListSchedules | EDeleteSchedule => true | _ => false end.

Definition serve_http (he : HttpEnv) (c : Ctx) (hr : Http) (w : Tables) : reply * Tables :=
  match find_route (hr_method hr) (hr_path hr) routes with
  | None => (Unrouted, w)
  | Some (e, params) =>
      let p := default "" (head params) in
      match job_request e p hr with
      | Some req =>
          let '(r, (t1, k1)) := serve id_le (ro_service ro) (ro_claim_wait ro) (ro_keys ro) (he_auth he) (he_rnd he) (he_req he)
                                  c req (tb_jobs w, tb_keys w) in
          (reply_of (ro_loc ro) r, mkTables t1 (tb_scheds w) k1)
      | None =>
          let c := RequestID (he_rnd he) (rq_now (he_req he)) c in
          if is_schedule e then
            match APIKeyAuth (ro_keys ro) true (he_auth he) c (tb_keys w) with
            | (Abort r, k1) => (reply_of (ro_loc ro) (Some r), mkTables (tb_jobs w) (tb_scheds w) k1)
            | (Proceed c', k1) =>
                match schedule_request e p he c' hr (tb_scheds w) with
                | Some (r, s1) => (reply_of (ro_loc ro) (Some r), mkTables (tb_jobs w) s1 k1)
                | None => (NoReply, w)
                end
            end
          else (root_request e c, w)
      end
  end.

End Server.

(** ** The table is unambiguous *)

(** Two patterns some path matches both. *)
Fixpoint overlap (p q : list segment) : bool :=
  match p, q with
  | [], [] => true
  | Static s :: p', Static s' :: q' => bool_decide (s = s') && overlap p' q'
  | Static s :: p', Param :: q' | Param :: p', Static s :: q' => bool_decide (s <> "") && overlap p' q'
  | Param :: p', Param :: q' => overlap p' q'
  | _, _ => false
  end.

Lemma match_overlap p q path l m : match_path p path = Some l -> match_path q path = Some m -> overlap p q = true.
Proof.
  revert q path l m. induction p as [|[s|] p IH]; intros [|[s'|] q] [|x path] l m; cbn; try done.
  - case_bool_decide as E1; [subst|done]. case_bool_decide as E2; [subst|done]. intros Hp Hq. rewrite bool_decide_eq_true_2 by done. by eapply IH.
  - case_bool_decide as E1; [subst|done]. case_bool_decide as E2; [done|]. intros Hp (m' & Hq & _)%fmap_Some.
    rewrite bool_decide_eq_true_2 by done. by eapply IH.
  - case_bool_decide as E1; [done|]. case_bool_decide as E2; [subst|done]. intros (l' & Hp & _)%fmap_Some Hq.
    rewrite bool_decide_eq_true_2 by done. by eapply IH.
  - case_bool_decide; [done|]. intros (l' & Hp & _)%fmap_Some (m' & Hq & _)%fmap_Some. by eapply IH.
Qed.

Definition apart (rs : list route) : bool :=
  forallb (fun r => forallb (fun r' => negb (bool_decide (r_method r = r_method r') && overlap (r_pattern r) (r_pattern r'))
                                       || bool_decide (r_endpoint r = r_endpoint r')) rs) rs.

Lemma routes_apart : apart routes = true.
Proof. vm_compute. reflexivity. Qed.

(** Of the routes that match a request all lead to one endpoint: the order the
    routes are registered in does not matter, nor which of two kinds of segment
    the router prefers. *)
Lemma one_endpoint method path r r' l l' : r ∈ routes -> r' ∈ routes ->
  match_route method path r = Some l -> match_route method path r' = Some l' -> r_endpoint r = r_endpoint r'.
Proof.
  intros Hr Hr'. unfold match_route. case_bool_decide as Em; [|done]. case_bool_decide as Em'; [|done]. intros Hl Hl'.
  pose proof routes_apart as H. unfold apart in H. rewrite forallb_forall in H.
  specialize (H r (proj1 (list_elem_of_In _ _) Hr)). rewrite forallb_forall in H. specialize (H r' (proj1 (list_elem_of_In _ _) Hr')).
  rewrite (match_overlap _ _ _ _ _ Hl Hl'), bool_decide_eq_true_2 in H by congruence. cbn in H. by apply bool_decide_eq_true in H.
Qed.

(** ** No key, no change *)

Lemma find_route_in method path rs e params : find_route method path rs = Some (e, params) ->
  exists r, r ∈ rs /\ match_route method path r = Some params /\ r_endpoint r = e.
Proof.
  induction rs as [|r rs IH]; cbn; [done|]. destruct (match_route method path r) as [l|] eqn:E.
  - intros [= <- <-]. exists r. split; [left|done].
  - intros (r' & Hr & H)%IH. exists r'. split; [by right|done].
Qed.

(** The paths no key guards. *)
Definition open_paths : list (list string) := [["metrics"]; ["live"]; ["ready"]; ["health"]].

Lemma root_path method path e params p hr : find_route method path routes = Some (e, params) ->
  job_request e p hr = None -> is_schedule e = false -> path ∈ open_paths.
Proof.
  intros (r & Hr & Hm & <-)%find_route_in Hj Hs. unfold routes in Hr. rewrite !elem_of_app in Hr.
  unfold match_route in Hm. case_bool_decide; [|done]. destruct Hr as [Hr|[Hr|Hr]].
  - exfalso. revert Hj. unfold job_routes in Hr. rewrite !elem_of_cons, elem_of_nil in Hr. decompose [or] Hr; try done; subst r; done.
  - exfalso. revert Hs. unfold schedule_routes in Hr. rewrite !elem_of_cons, elem_of_nil in Hr. decompose [or] Hr; try done; subst r; done.
  - unfold root_routes in Hr. rewrite !elem_of_cons, elem_of_nil in Hr. unfold open_paths. rewrite !elem_of_cons.
    decompose [or] Hr; try done; subst r; (destruct path as [|x [|y path]]; [done| |]; cbn in Hm; (case_bool_decide as E; [|done]);
      [subst x; naive_solver|done]).
Qed.

(** A refusal is an error body. *)
Lemma auth_abort keys lookup (ae : AuthEnv KeyTable) c s r : (APIKeyAuth keys lookup ae c s).1 = Abort r ->
  exists st code msg, r = RespondError c st code msg.
Proof.
  assert (Ho : forall p s, (auth_open keys lookup (ae_active ae) p c s).1 = Abort r -> exists st code msg, r = RespondError c st code msg).
  { intros p s0. unfold auth_open. repeat (case_goal; cbn [fst]; try done); intros [= <-]; eauto. }
  unfold APIKeyAuth. destruct (str_nonempty _); [|apply Ho]. destruct (matches_any _ _); [done|]. destruct lookup; [|apply Ho].
  destruct (kl_TenantForKey _ _ s) as [[tn|e] s1]; [done|]. destruct (negb _); [|apply Ho]. intros [= <-]. eauto.
Qed.

Lemma error_text_valid loc c st code msg : exists s, bodyText loc (body (RespondError c st code msg)) = Ok s /\ json_Valid s = true.
Proof.
  destruct (body_val loc (body (RespondError c st code msg)) eq_refl ltac:(done)) as (s & v & Hs & Hv). exists s. split; [done|].
  unfold json_Valid. by rewrite (val_parse 0 s v Hv : json_parse s = Some v).
Qed.

Lemma RequestID_Authorization rnd now c : ctx_Authorization (RequestID rnd now c) = ctx_Authorization c.
Proof. unfold RequestID. repeat case_goal; done. Qed.

Section Guard.
Context (id_le name_le : relation string) `{!RelDecision id_le, !RelDecision name_le}.

(** C10. No key, no change: with keys configured, a request that presents none
    of them nor a live issued one changes neither jobs nor schedules, whatever
    its method, path and body, and whatever fails; it is answered 401 or 500
    with a JSON error, unless its path is one of the four open ones or none at
    all. *)
Theorem no_key_no_change ro he c hr w :
  let p := bearerToken (ctx_Authorization c) in
  let seen := intf (ae_tenant (he_auth he)) (tb_keys w) in
  ro_keys ro <> [] -> p ∉ ro_keys ro -> kl_ok seen -> (forall tenant, ~ kl_acts p tenant seen) ->
  let '(r, w') := serve_http id_le name_le ro he c hr w in
  tb_jobs w' = tb_jobs w /\ tb_scheds w' = tb_scheds w /\
  (r = Unrouted \/ hr_path hr ∈ open_paths \/
   exists st text, r = Reply st (Ok text) /\ (st = StatusUnauthorized \/ st = StatusInternalServerError) /\ json_Valid text = true).
Proof.
  intros p seen Hk Hp Hok Hno. unfold serve_http.
  destruct (find_route (hr_method hr) (hr_path hr) routes) as [[e params]|] eqn:Ef; [|by auto].
  assert (Ha : exists r, (APIKeyAuth (ro_keys ro) true (he_auth he) (RequestID (he_rnd he) (rq_now (he_req he)) c) (tb_keys w)).1 = Abort r /\
    (status r = StatusUnauthorized \/ status r = StatusInternalServerError))
    by (apply auth_refuses; rewrite ?RequestID_Authorization; done).
  destruct Ha as (r & Hr & Hst). pose proof (auth_abort _ _ _ _ _ _ Hr) as (st & code & msg & Er).
  assert (Hreply : exists st text, reply_of (ro_loc ro) (Some r) = Reply st (Ok text) /\
    (st = StatusUnauthorized \/ st = StatusInternalServerError) /\ json_Valid text = true).
  { subst r. destruct (error_text_valid (ro_loc ro) (RequestID (he_rnd he) (rq_now (he_req he)) c) st code msg) as (text & Ht & Hv).
    exists st, text. unfold reply_of. by rewrite Ht. }
  destruct (job_request e _ hr) as [req|] eqn:Ej.
  - unfold serve. cbn [snd fst]. destruct (APIKeyAuth _ _ _ _ (tb_keys w)) as [pass k1]. cbn [fst] in Hr. subst pass. by auto.
  - destruct (is_schedule e) eqn:Es; [|split; [done|]; split; [done|]; right; left; by eapply root_path].
    destruct (APIKeyAuth _ _ _ _ (tb_keys w)) as [pass k1]. cbn [fst] in Hr. subst pass. by auto.
Qed.

End Guard.

(** ** What is submitted is what is fetched *)

(** The context a request reaches its handler with. *)
Definition admitted (ro : Router) (he : HttpEnv) (c : Ctx) (w : Tables) (c' : Ctx) : Prop :=
  exists k, APIKeyAuth (ro_keys ro) true (he_auth he) (RequestID (he_rnd he) (rq_now (he_req he)) c) (tb_keys w) = (Proceed c', k).

Definition post_job (body : string) : Http := mkHttp "POST" ["api"; "jobs"] (mkListQuery "" "" "" "") (Z.of_nat (String.length body)) body.
Definition get_job (id : string) : Http := mkHttp "GET" ["api"; "jobs"; id] (mkListQuery "" "" "" "") 0 "".

(** The row a submission becomes. *)
Definition submitted_row (ro : Router) (he : HttpEnv) (tenant : string) (r : EnqueueRequest) (id : string) : JobRow :=
  let ee := rq_enqueue (he_req he) in
  job_row (stamp_job (gonow (ee_create ee))
    (normalise (ro_service ro) (ee_now ee) id
       (mkJob "" tenant (Enq_IdempotencyKey r) (Enq_Task r) JobStateUnset 0 (Enq_ScheduledAt r) None None "" None "" (Enq_Metadata r) 0 0))).

(** Nothing stands in the way of a new job: the request has no key, or nobody
    holds it when it is looked up and the insert runs alone. *)
Definition first_submission (ee : EnqueueEnv Jobs) (tenant key : string) (t : Jobs) : Prop :=
  key = "" \/
  ((forall id, ~ row_holds tenant key id (intf (ee_lookup ee) t)) /\
   (forall t, intf (ee_create ee) t = t) /\ fault (ee_create ee) = NoFault).

Lemma CreateJob_row env job t t1 : CreateJob env job t = (Ok tt, t1) ->
  t1 !! Job_ID job = Some (job_row (stamp_job (gonow env) job)).
Proof.
  unfold CreateJob, run_stmt. destruct (fault env); [|by case_match..]. unfold insert_job.
  set (row := job_row (stamp_job (gonow env) job)).
  destruct (negb _); [by case_match|]. destruct (_ !! id row); [by case_match|]. case_bool_decide; [by case_match|].
  intros [= <-]. apply lookup_insert_eq.
Qed.

(** A first submission inserts the job it was given. *)
Lemma enqueue_inserts svc ee c r t id pub t1 :
  first_submission ee (tenantOf c) (Enq_IdempotencyKey r) t -> keeps table_ok (ee_lookup ee) -> table_ok t ->
  Enqueue svc ee (request_job c r) t = (Ok id, pub, t1) ->
  newJobID (ee_rand ee) = Ok id /\
  t1 !! id = Some (job_row (stamp_job (gonow (ee_create ee)) (normalise svc (ee_now ee) id (request_job c r)))).
Proof.
  intros Hfirst Hk Hok. unfold Enqueue.
  assert (Hs : set_tenant (request_job c r) = request_job c r).
  { unfold set_tenant. rewrite bool_decide_eq_false_2 by (cbn; apply tenantOf_nonempty). done. }
  rewrite Hs. cbn [Job_IdempotencyKey Job_TenantID request_job].
  assert (Hnew : forall t', (Enq_IdempotencyKey r = "" \/
      (forall id, ~ row_holds (tenantOf c) (Enq_IdempotencyKey r) id t') /\
      (forall t, intf (ee_create ee) t = t) /\ fault (ee_create ee) = NoFault) ->
      enqueue_new svc ee (request_job c r) t' = (Ok id, pub, t1) ->
      newJobID (ee_rand ee) = Ok id /\
      t1 !! id = Some (job_row (stamp_job (gonow (ee_create ee)) (normalise svc (ee_now ee) id (request_job c r))))).
  { intros t' Hf. unfold enqueue_new. rewrite bool_decide_eq_true_2 by done. destruct (newJobID (ee_rand ee)) as [id'|]; [|done].
    cbv zeta. set (job := normalise svc (ee_now ee) id' (request_job c r)).
    destruct (js_CreateJob (ee_create ee) job t') as [[[]|e] t2] eqn:Ec.
    - intros [= <- _ <-]. split; [done|]. by apply CreateJob_row in Ec.
    - destruct (errors_Is e ErrDuplicateIdempotencyKey) eqn:Ee; [|done]. cbn [andb].
      destruct (str_nonempty (Job_IdempotencyKey job)) eqn:En; [|done]. exfalso.
      apply str_nonempty_true in En. destruct Hf as [Hf|(Hn & Hq & Hf)]; [done|].
      destruct (create_duplicate _ _ _ _ _ Hf En Ec Ee) as (-> & w & Hw). rewrite Hq in Hw. by eapply Hn. }
  destruct (str_nonempty (Enq_IdempotencyKey r)) eqn:En; [|apply Hnew; left; unfold str_nonempty in En; by zbool].
  apply str_nonempty_true in En. destruct Hfirst as [?|(Hn & Hq & Hf)]; [done|].
  destruct (js_GetJobByIdempotencyKey _ _ _ _) as [[ex|e] t2] eqn:El.
  - apply lookup_found in El as [-> Hl]; [|apply tenantOf_nonempty|by apply Hk]. by apply Hn in Hl.
  - pose proof (lookup_reads (ee_lookup ee) (tenantOf c) (Enq_IdempotencyKey r) t) as Hr. rewrite El in Hr. cbn in Hr. subst t2.
    destruct (negb _); [done|]. apply Hnew. by right.
Qed.

Lemma newJobID_nonempty rnd id : newJobID rnd = Ok id -> id <> "".
Proof.
  unfold newJobID. destruct (rand_Read 16 rnd); [|done]. intros [= <-]. unfold uuid_v4. by destruct (String.substring 0 8 _).
Qed.

(** An accepted request leaves, under the id it is answered, a row of the
    caller's tenant that holds its key. *)
Lemma enqueue_leaves_row svc ee c r t id pub t1 : enqueue_keeps ee -> table_ok t ->
  Enqueue svc ee (request_job c r) t = (Ok id, pub, t1) ->
  exists row, t1 !! id = Some row /\ tenant_id row = tenantOf c /\
    idempotency_key row = nullableString (Enq_IdempotencyKey r).
Proof.
  intros (H1 & H2 & H3) Hok He. destruct (decide (Enq_IdempotencyKey r = "")) as [Hk|Hk].
  - destruct (enqueue_inserts _ _ _ _ _ _ _ _ (or_introl Hk) H1 Hok He) as [_ Hl]. by eexists.
  - assert (Hs : submission (request_job c r)) by (unfold submission; cbn; naive_solver).
    destruct (enqueue_holds (H0 := PostgresLaws) svc ee (request_job c r) t t1 id pub) as (row & Hl & Htn & Hkey); try done.
    exists row. split; [done|]. split; [rewrite Htn; cbn; by rewrite bool_decide_eq_false_2 by apply tenantOf_nonempty|].
    rewrite Hkey. unfold nullableString. by rewrite bool_decide_false.
Qed.

Lemma tenant_matches_of c row : tenant_matches (tenantOf c) row = bool_decide (tenantOf c = tenant_id row).
Proof.
  apply eq_true_iff_eq. rewrite bool_decide_eq_true, tenant_matches_spec. pose proof (tenantOf_nonempty c).
  unfold in_tenant. naive_solver.
Qed.

Section EndToEnd.
Context (id_le name_le : relation string) `{!RelDecision id_le, !RelDecision name_le}.

(** The first route that matches, and the routes before it that do not. *)
Lemma find_route_app method path rs r rs' params : (forall x, x ∈ rs -> match_route method path x = None) ->
  match_route method path r = Some params -> find_route method path (rs ++ r :: rs') = Some (r_endpoint r, params).
Proof.
  intros Hn Hr. induction rs as [|x rs IH]; cbn [find_route app]; [by rewrite Hr|].
  rewrite (Hn x) by left. apply IH. intros y Hy. apply Hn. by right.
Qed.

Lemma get_route id : id <> "" -> find_route "GET" ["api"; "jobs"; id] routes = Some (EGet, [id]).
Proof.
  intros H. change routes with (take 4 routes ++ mkRoute "GET" [Static "api"; Static "jobs"; Param] EGet :: drop 5 routes).
  rewrite (find_route_app _ _ _ _ _ [id]); [done| |].
  - intros x Hx. cbn in Hx. rewrite !elem_of_cons, elem_of_nil in Hx. unfold match_route. decompose [or] Hx; try done; subst x; try reflexivity.
    cbn. by destruct (bool_decide ("by-idempotency-key" = id)).
  - unfold match_route. cbn [r_method r_pattern match_path]. rewrite (bool_decide_eq_false_2 (id = "")) by done. reflexivity.
Qed.

Lemma post_route : find_route "POST" ["api"; "jobs"] routes = Some (EEnqueue, []).
Proof. vm_compute. reflexivity. Qed.

(** The handler of a GET that was let in. *)
Lemma serve_get ro he c w c' id : id <> "" -> admitted ro he c w c' ->
  (serve_http id_le name_le ro he c (get_job id) w).1 =
    reply_of (ro_loc ro) (Some (GetJobStatus (rq_env1 (he_req he)) c' id (tb_jobs w)).1).
Proof.
  intros Hid [k Hk]. unfold serve_http. cbn [hr_method hr_path get_job]. rewrite get_route by done. cbn [job_request head default].
  unfold serve. cbn [snd fst]. rewrite Hk. cbn [handle]. by destruct (GetJobStatus _ _ _ _).
Qed.

Lemma serve_post ro he c w c' hr : hr_method hr = "POST" -> hr_path hr = ["api"; "jobs"] -> admitted ro he c w c' -> exists k,
  serve_http id_le name_le ro he c hr w =
    let '(r, t1) := EnqueueJob (ro_service ro) (rq_enqueue (he_req he)) c' (bind_enqueue (hr_body hr)) (tb_jobs w) in
    (reply_of (ro_loc ro) (Some r), mkTables t1 (tb_scheds w) k).
Proof.
  intros Hm Hpath [k Hk]. exists k. unfold serve_http. rewrite Hm, Hpath, post_route. cbn [job_request].
  unfold serve. cbn [snd fst]. rewrite Hk. cbn [handle]. by destruct (EnqueueJob _ _ _ _ _).
Qed.

(** C9. What is submitted is what is fetched.  A client posts a request that
    has a JSON text, with whatever after it, to a server whose jobs table is
    well formed, and is answered 201: the answer is the id of a row of its tenant
    that holds the request's idempotency key, or none if it has none.  When the
    request has no key, or nobody holds its key and the insert runs alone, that
    row is the request as a pending job; otherwise it may be the job an earlier
    request put there.  Whoever asks for that id (not empty, as no new one is)
    while the row is unchanged is answered 404 if it acts for another tenant,
    and 200 if it acts for the same one, with JSON that reads back as the row's
    job if that job has a JSON text (its times are in the printable years, its
    integers 64 bits and its payload within the nesting limit). *)
Theorem submit_then_fetch ro he c w c' loc r text X w1 answer :
  task_sendable 1 (Enq_Task r) = true ->
  printable_ptr (loc "scheduled_at") (Enq_ScheduledAt r) = true -> marshal_struct (enqueue_fields loc) r = Ok text ->
  admitted ro he c w c' -> table_ok (tb_jobs w) -> enqueue_keeps (rq_enqueue (he_req he)) ->
  serve_http id_le name_le ro he c (post_job (text +:+ X)) w = (Reply StatusCreated answer, w1) ->
  exists id row, answer = Ok (object_text [("id", json_quote id)]) /\
    tb_jobs w1 !! id = Some row /\ tenant_id row = tenantOf c' /\
    idempotency_key row = nullableString (Enq_IdempotencyKey (enqueue_wire r)) /\
    (first_submission (rq_enqueue (he_req he)) (tenantOf c') (Enq_IdempotencyKey (enqueue_wire r)) (tb_jobs w) ->
       id <> "" /\ row = submitted_row ro he (tenantOf c') (enqueue_wire r) id /\ state row = JobStatePending) /\
    forall he2 c2 w2 c2', id <> "" -> admitted ro he2 c2 w2 c2' -> fault (rq_env1 (he_req he2)) = NoFault ->
      intf (rq_env1 (he_req he2)) (tb_jobs w2) !! id = Some row ->
      let got := (serve_http id_le name_le ro he2 c2 (get_job id) w2).1 in
      (tenantOf c2' = tenantOf c' -> job_sendable (ro_loc ro) (scanJob row) = true ->
         exists s, got = Reply StatusOK (Ok s) /\ json_Valid s = true /\ unmarshal_job s = Ok (job_wire (scanJob row))) /\
      (tenantOf c2' <> tenantOf c' -> exists s, got = Reply StatusNotFound s).
Proof.
  intros Ht Hp Hm Hadm Hok Hee. destruct (enqueue_text loc r Ht Hp) as (s & Hs & Hb). rewrite Hm in Hs. injection Hs as <-.
  destruct (serve_post ro he c w c' (post_job (text +:+ X)) eq_refl eq_refl Hadm) as [k ->].
  assert (Eb : hr_body (post_job (text +:+ X)) = text +:+ X) by done. rewrite Eb, Hb. cbn [EnqueueJob].
  set (req := enqueue_wire r).
  case_bool_decide; [done|]. unfold taskAllowed. destruct (_ && _); [done|].
  destruct (Enqueue _ _ _ _) as [[[id|e] pub] t1] eqn:Ee; [|done]. intros [= <- <-].
  destruct (enqueue_leaves_row _ _ _ _ _ _ _ _ Hee Hok Ee) as (row & Hl & Htn & Hkey).
  exists id, row. do 4 (split; [done|]). split.
  - intros Hf. destruct (enqueue_inserts _ _ _ _ _ _ _ _ Hf (proj1 Hee) Hok Ee) as (Hid & Hl').
    apply newJobID_nonempty in Hid. cbn [tb_jobs] in Hl. rewrite Hl in Hl'. injection Hl' as ->. done.
  - intros he2 c2 w2 c2' Hid Hadm2 Hf Hr. cbv zeta. rewrite (serve_get ro he2 c2 w2 c2' id Hid Hadm2).
    unfold GetJobStatus, GetJob, query_job, run_stmt. rewrite Hf, Hr. cbn [mbind option_bind].
    rewrite (tenant_matches_of c2' row), Htn. split; intros Heq.
    + intros Hsend. rewrite bool_decide_eq_true_2 by done. cbn [fst respond_job reply_of status body bodyText].
      destruct (job_wire_text (ro_loc ro) (public (scanJob row)) Hsend) as (s & Hs & Hv & Hu). exists s. by rewrite Hs.
    + rewrite bool_decide_eq_false_2 by done. by eexists.
Qed.

End EndToEnd.

(** ** A server with one configured key *)

Definition demo_router : Router :=
  mkRouter demo_service (25 * Second) ["operator"] "" "" (StatusOK, status_ok) (fun _ => 0).
Definition demo_http : HttpEnv := mkHttpEnv demo_auth_env None demo_req_env (calm demo_now [] []).
Definition demo_request : EnqueueRequest :=
  mkEnqueueRequest "order-7" (mkTask "" "webhook" (Some "{ }") 0 0 0 "" "" (Some {["url" := "https://example.com/hook"]}) 0) None None.
Definition demo_text : string :=
  match marshal_struct (enqueue_fields (fun _ => 0)) demo_request with Ok s => s | Error _ => "" end.
Definition operator_ctx : Ctx := demo_ctx "Bearer operator".
Definition demo_posted : reply * Tables :=
  serve_http String.le String.le demo_router demo_http operator_ctx (post_job (demo_text +:+ " ")) (mkTables ∅ ∅ ∅).

Lemma operator_admitted jobs : exists c, admitted demo_router demo_http operator_ctx (mkTables jobs ∅ ∅) c /\ tenantOf c = DefaultTenant.
Proof. eexists. split; [eexists; vm_compute; reflexivity|reflexivity]. Qed.

Lemma submit_then_fetch_witness :
  exists id s job, demo_posted.1 = Reply StatusCreated (Ok (object_text [("id", json_quote id)])) /\
    (serve_http String.le String.le demo_router demo_http operator_ctx (get_job id) (mkTables (tb_jobs demo_posted.2) ∅ ∅)).1 = Reply StatusOK (Ok s) /\
    unmarshal_job s = Ok job /\ Job_State job = JobStatePending /\ Task_Payload (Job_Task job) = Some "{}".
Proof.
  destruct (operator_admitted ∅) as (c & Hc & Htn).
  assert (Hp : exists answer, demo_posted.1 = Reply StatusCreated answer) by (eexists; vm_compute; reflexivity).
  destruct Hp as [answer Hp].
  destruct (submit_then_fetch String.le String.le demo_router demo_http operator_ctx (mkTables ∅ ∅ ∅) c (fun _ => 0) demo_request demo_text " "
    demo_posted.2 answer) as (id & row & -> & Hl & _ & _ & Hnew & Hget).
  - vm_compute. reflexivity.
  - reflexivity.
  - vm_compute. reflexivity.
  - exact Hc.
  - apply table_ok_empty.
  - split; [|split]; apply keeps_calm.
  - rewrite <- Hp. unfold demo_posted. destruct (serve_http _ _ _ _ _ _ _). reflexivity.
  - destruct Hnew as (Hid & Hrow & Hst).
    { right. split; [|split; reflexivity]. intros i (x & Hx & _). discriminate Hx. }
    revert Hl. generalize (tb_jobs demo_posted.2). intros t1 Hl. destruct (operator_admitted t1) as (c2 & Hc2 & Htn2).
    destruct (Hget demo_http operator_ctx (mkTables t1 ∅ ∅) c2 Hid Hc2 eq_refl Hl) as [Hsame _].
    destruct (Hsame ltac:(by rewrite Htn2)) as (s & Hs & _ & Hu).
    { rewrite Hrow, Htn. vm_compute. reflexivity. }
    exists id, s, (job_wire (scanJob row)). split; [exact Hp|]. split; [exact Hs|]. split; [exact Hu|].
    rewrite Hrow. split; [reflexivity|]. vm_compute. reflexivity.
Defined.

Lemma no_key_no_change_witness :
  exists text, (serve_http String.le String.le demo_router demo_http (demo_ctx "Bearer guess") (post_job demo_text)
    (mkTables demo_leased ∅ demo_minted.2)).1 = Reply StatusUnauthorized (Ok text) /\ json_Valid text = true /\
    tb_jobs (serve_http String.le String.le demo_router demo_http (demo_ctx "Bearer guess") (post_job demo_text)
      (mkTables demo_leased ∅ demo_minted.2)).2 = demo_leased.
Proof.
  pose proof (no_key_no_change String.le String.le demo_router demo_http (demo_ctx "Bearer guess") (post_job demo_text)
    (mkTables demo_leased ∅ demo_minted.2)) as H. cbv zeta in H.
  assert (H401 : exists text, (serve_http String.le String.le demo_router demo_http (demo_ctx "Bearer guess") (post_job demo_text)
    (mkTables demo_leased ∅ demo_minted.2)).1 = Reply StatusUnauthorized (Ok text)) by (eexists; vm_compute; reflexivity).
  destruct H401 as [text Ht]. exists text.
  destruct (serve_http _ _ _ _ _ _ _) as [r w']. cbn [fst snd] in *. subst r. destruct H as (Hj & _ & [H|[H|H]]).
  - discriminate.
  - intros Hin. apply list_elem_of_singleton in Hin. vm_compute in Hin. discriminate.
  - apply demo_minted_ok.
  - intros tenant (k & r & Hr & Hl & _). revert Hl.
    assert (Hd : map_Forall (fun _ r => live_with (hashKey "guess") r = false) demo_minted.2)
      by (apply (bool_decide_unpack _); vm_compute; exact I).
    change (bearerToken (ctx_Authorization (demo_ctx "Bearer guess"))) with "guess".
    rewrite (Hd k r Hr). discriminate.
  - discriminate.
  - exfalso. unfold open_paths, post_job in H. cbn [hr_path] in H. repeat (apply elem_of_cons in H as [H|H]; [discriminate H|]).
    by apply elem_of_nil in H.
  - destruct H as (st & t & [= _ <-] & _ & Hv). split; [reflexivity|]. split; [exact Hv|exact Hj].
Defined.
