(* ===== verification/Worker.v ===== *)
(** * cmd/server/main.go: the worker

    jobWorker.Run, from the wait for scheduled_at to the outcome write, with
    the breaker per task, the execution lock, the claim of a message that
    arrived PENDING, the lease renewal running beside the handler, and the
    Kafka handler that feeds it.  The handler itself (a webhook, an ETL query)
    is seen by its result; the lock by whether it was acquired. *)

From S2P Require Import Breaker.
From S2P Require Pool.
From S2P Require Import Prelude Models JobStore JobFacts JobSystem JobSpec JobProps Retry Service JobJson JsonObject Transport.

(** ** Breakers per task *)

Record taskBreakers := mkTaskBreakers {
  byTask : gmap string Breaker.Breaker;
  unknown : Breaker.Breaker;
  openTimeout : Dur
}.

Definition newTaskBreakers (cfg : Breaker.Config) (handlers : gset string) : taskBreakers :=
  mkTaskBreakers (gset_to_gmap (Breaker.New cfg) handlers) (Breaker.New cfg) (Breaker.OpenTimeout cfg).

Definition get (b : taskBreakers) (name : string) : Breaker.Breaker :=
  default (unknown b) (byTask b !! name).

(** The breaker behind the pointer [get] returns, after a method changed it. *)
Definition put (b : taskBreakers) (name : string) (br : Breaker.Breaker) : taskBreakers :=
  match byTask b !! name with
  | Some _ => mkTaskBreakers (<[name := br]> (byTask b)) (unknown b) (openTimeout b)
  | None => mkTaskBreakers (byTask b) br (openTimeout b)
  end.

(** ** The worker *)

Definition lockContentionBackoff : Dur := 5 * Second.
Definition maxInWorkerSleep : Dur := 60 * Second.

Record jobWorker := mkJobWorker {
  jw_outcome : JobService;
  jw_handlers : gset string;       (* the registered task names *)
  jw_lease : Dur
}.

Definition effectiveLease (jw : jobWorker) : Dur := if 0 <? jw_lease jw then jw_lease jw else 5 * Minute.

(** [lease / 2] truncates; a lease is positive. *)
Definition renewInterval (jw : jobWorker) : Dur :=
  let interval := effectiveLease jw / 2 in
  if interval <? Second then Second else interval.

Definition newWorkerLeaseToken (rnd : option (list Z)) : result string :=
  match rand_Read 16 rnd with
  | Error e => Error e
  | Ok bytes => Ok (hex_EncodeToString bytes)
  end.

(** Everything outside the program that one Run meets, in order. *)
Record WorkEnv := mkWorkEnv {
  we_now : Time;                     (* time.Until(scheduled_at) *)
  we_cancelled : bool;               (* the context ends during that wait *)
  we_allow : Time;                   (* the clock of breaker.Allow *)
  we_lock : option error;            (* the lock's refusal *)
  we_release : Env Jobs;             (* releaseClaim *)
  we_claim_now : Time;
  we_rand : option (list Z);
  we_update1 : Env Jobs;             (* the two statements of UpdateJob *)
  we_update2 : Env Jobs;
  we_renews : list (Env Jobs);       (* renewals while the handler runs *)
  we_result : option error;          (* what the handler returns *)
  we_error_text : string;            (* runErr.Error(), whichever error that is *)
  we_others : taskBreakers -> taskBreakers;   (* other jobs on the shared breakers meanwhile *)
  we_record : Time;                  (* the clock of RecordFailure *)
  we_fail1 : Env Jobs;               (* the service's Fail *)
  we_fail_now : Time;
  we_rnd : float64;
  we_fail2 : Env Jobs;
  we_complete : Env Jobs;            (* the service's Complete *)
  we_late : list (Env Jobs)          (* renewals that still fire before the deferred stop *)
}.

(** How a Run ended. *)
Inductive run_end :=
  | LeftForReconciler
  | WaitCancelled
  | CircuitOpen
  | LockRefused
  | NoToken (e : error)
  | ClaimRefused (e : error)
  | Failed (runErr : error) (job : Job) (recorded : result Job)
  | Completed (job : Job) (recorded : result Job).

(** The error Run returns. *)
Definition run_error (e : run_end) : option error :=
  match e with
  | LeftForReconciler | CircuitOpen | LockRefused => None
  | WaitCancelled => Some (Sentinel ErrCanceled)
  | NoToken e => Some (Wrapf "worker: generate lease token: " e)
  | ClaimRefused e => Some e
  | Failed runErr _ _ => Some runErr
  | Completed _ (Error e) => Some e
  | Completed _ (Ok _) => None
  end.

Definition releaseClaim (env : Env Jobs) (job : Job) (reason : string) (retryAfter : Dur) (t : Jobs) : Jobs :=
  if negb (bool_decide (Job_State job = JobStateRunning)) || bool_decide (Job_LeaseToken job = "") then t
  else (ReleaseClaim env job reason retryAfter t).2.

(** The renewal goroutine: one RenewLease per tick until one fails or it is
    stopped. *)
Fixpoint renewals (job : Job) (lease : Dur) (envs : list (Env Jobs)) (t : Jobs) : bool * Jobs :=
  match envs with
  | [] => (true, t)
  | env :: envs' =>
      match RenewLease env job lease t with
      | (Error _, t1) => (false, t1)
      | (Ok _, t1) => renewals job lease envs' t1
      end
  end.

Definition startLeaseRenewal (jw : jobWorker) (job : Job) (envs : list (Env Jobs)) (t : Jobs) : bool * Jobs :=
  if negb (bool_decide (Job_State job = JobStateRunning)) || bool_decide (Job_LeaseToken job = "")
  then (false, t) else renewals job (effectiveLease jw) envs t.

(** [execute]: the handler's result, or the refusal of an unregistered name. *)
Definition execute (jw : jobWorker) (we : WorkEnv) (job : Job) : option error :=
  if bool_decide (Task_Name (Job_Task job) ∈ jw_handlers jw) then we_result we
  else Some (Wrapf "worker: no handler registered for task: " ErrNoRetry).

(** The job as Run marks it when it claims a message itself. *)
Definition claimed_job (jw : jobWorker) (now : Time) (tok : string) (job : Job) : Job :=
  mkJob (Job_ID job) (Job_TenantID job) (Job_IdempotencyKey job) (Job_Task job) JobStateRunning
    (Job_Attempt job + 1) (Job_ScheduledAt job) (Some now) (Some (Add now (effectiveLease jw))) tok
    (Job_CompletedAt job) (Job_LastError job) (Job_Metadata job) (Job_CreatedAt job) (Job_UpdatedAt job).

(** A job that is not RUNNING yet is claimed in the table first. *)
Definition claim_message (jw : jobWorker) (we : WorkEnv) (job : Job) (t : Jobs) : (Job + run_end) * Jobs :=
  if bool_decide (Job_State job = JobStateRunning) then (inl job, t)
  else match newWorkerLeaseToken (we_rand we) with
  | Error e => (inr (NoToken e), t)
  | Ok tok =>
      let job := claimed_job jw (we_claim_now we) tok job in
      match UpdateJob (we_update1 we) (we_update2 we) job t with
      | (Error e, t1) => (inr (ClaimRefused e), t1)
      | (Ok _, t1) => (inl job, t1)
      end
  end.

(** Run the handler beside the renewals and write the outcome. *)
Definition run_claimed (jw : jobWorker) (we : WorkEnv) (job : Job) (t : Jobs) : run_end * Jobs :=
  let '(alive, t1) := startLeaseRenewal jw job (we_renews we) t in
  let late t := if alive : bool then (startLeaseRenewal jw job (we_late we) t).2 else t in
  match execute jw we job with
  | Some runErr =>
      let permanent := errors_Is runErr ErrNoRetry in
      let '(r, t2) := Fail (jw_outcome jw) (we_fail1 we) (we_fail_now we) (we_rnd we) (we_fail2 we)
                        (Job_ID job) (Job_LeaseToken job) (we_error_text we) permanent t1 in
      (Failed runErr job r, late t2)
  | None =>
      let '(r, t2) := Complete (we_complete we) (Job_ID job) (Job_LeaseToken job) None t1 in
      (Completed job r, late t2)
  end.

(** The wait for scheduled_at: [None] when it is over and Run goes on. *)
Definition wait_scheduled (we : WorkEnv) (job : Job) : option run_end :=
  match Job_ScheduledAt job with
  | None => None
  | Some at_ =>
      let wait := Sub at_ (we_now we) in
      if wait <=? 0 then None
      else if maxInWorkerSleep <? wait then Some LeftForReconciler
      else if we_cancelled we then Some WaitCancelled else None
  end.

Definition Run (jw : jobWorker) (we : WorkEnv) (job : Job) (bs : taskBreakers) (t : Jobs)
    : run_end * taskBreakers * Jobs :=
  match wait_scheduled we job with
  | Some e => (e, bs, t)
  | None =>
      let name := Task_Name (Job_Task job) in
      let '(ok, br) := Breaker.Allow (we_allow we) (get bs name) in
      let bs := put bs name br in
      if negb ok then
        (CircuitOpen, bs, releaseClaim (we_release we) job "circuit open" (openTimeout bs) t)
      else match we_lock we with
      | Some _ =>
          (LockRefused, bs,
           releaseClaim (we_release we) job "could not acquire execution lock" lockContentionBackoff t)
      | None =>
          match claim_message jw we job t with
          | (inr e, t1) => (e, bs, t1)
          | (inl job, t1) =>
              let '(e, t2) := run_claimed jw we job t1 in
              let bs := we_others we bs in
              let br := get bs name in
              (e, put bs name (match e with
                               | Failed _ _ _ => Breaker.RecordFailure (we_record we) br
                               | _ => Breaker.RecordSuccess br
                               end), t2)
          end
      end
  end.

(** ** The Kafka handler *)

Definition claims (queues : list string) (queue : string) : bool :=
  bool_decide (queues = []) ||
  bool_decide ((if bool_decide (queue = "") then DefaultQueue else queue) ∈ queues).

(** How the session's context looks while one message is handled: done at
    Submit's first test, at its select, and whether the select prefers it. *)
Record CtxSeen := mkCtxSeen { seen_before : bool; seen_now : bool; seen_pick : bool }.

(** The error Handle returns, and the pool after it; [None] is the panic of a
    send on the closed queue. *)
Definition Handle (queues : list string) (ctx : CtxSeen) (value : string) (p : Pool.Pool)
    : option (option error * Pool.Pool) :=
  match unmarshal_job value with
  | Error _ => Some (None, p)
  | Ok job =>
      if negb (claims queues (Task_Queue (Job_Task job))) then Some (None, p)
      else match Pool.Submit (seen_before ctx) (seen_now ctx) (seen_pick ctx) job p with
      | Pool.Next true p' => Some (None, p')
      | Pool.Next false p' => Some (Some (ErrText "worker pool full"), p')
      | Pool.Blocked | Pool.Crash => None
      end
  end.

(** The consumer loop with this handler, over messages each with the context it
    meets. *)
Definition consume (queues : list string)
    : list ((Pool.Pool -> Pool.Pool) * delivery (CtxSeen * ProducerMessage)) -> Pool.Pool ->
      list (CtxSeen * ProducerMessage) * option Pool.Pool :=
  ConsumeClaim (fun m => Handle queues m.1 (pm_value m.2)).

Lemma Handle_ok queues ctx value job p : unmarshal_job value = Ok job ->
  Handle queues ctx value p =
    if negb (claims queues (Task_Queue (Job_Task job))) then Some (None, p)
    else match Pool.Submit (seen_before ctx) (seen_now ctx) (seen_pick ctx) job p with
    | Pool.Next true p' => Some (None, p')
    | Pool.Next false p' => Some (Some (ErrText "worker pool full"), p')
    | Pool.Blocked | Pool.Crash => None
    end.
Proof. intros H. unfold Handle. by rewrite H. Qed.

(** Submit takes a job into the pool exactly when it says so, and never waits. *)
Lemma Submit_answer before now pick job p :
  match Pool.Submit before now pick job p with
  | Pool.Next true p' => Pool.accepted p' = Pool.accepted p ++ [job]
  | Pool.Next false p' => p' = p
  | Pool.Blocked => False
  | Pool.Crash => Pool.closed p = true
  end.
Proof.
  unfold Pool.Submit, Pool.send. destruct before; [done|]. destruct (now && pick); [done|].
  destruct (Pool.closed p); [done|]. destruct (_ <? _); [done|]. by destruct (Pool.dispatcher p), (Pool.queue p).
Qed.

(** C25. What a publisher sends, the consumer submits.  Take a job that has a
    JSON text (times in the printable years, 64-bit integers, a payload within the
    nesting limit), and the message its publication sends, when the consumer loop
    takes it, the pool being whatever the other goroutines made of it by then.
    An instance that does not claim the job's queue marks the message and leaves the
    pool alone.  One that claims it offers the pool the job that was sent, less its
    token: accepted, it is the last job in the pool and the message is marked;
    refused, the pool is as it was and the message is not marked; and only a pool
    whose queue is closed ends in a panic.  The loop then goes on with the rest. *)
Theorem kafka_delivers loc topic job sent queues ctx meanwhile ds p : job_sendable loc job = true ->
  exists msg, KafkaClient_Publish loc NoFault topic job sent = (None, sent ++ [msg]) /\ pm_key msg = Job_ID job /\
    let p1 := meanwhile p in
    let here := consume queues ((meanwhile, Message (ctx, msg)) :: ds) p in
    let marked_and rest := ((ctx, msg) :: rest.1, rest.2) in
    if claims queues (utf8 (Task_Queue (Job_Task job))) then
      match Pool.Submit (seen_before ctx) (seen_now ctx) (seen_pick ctx) (job_wire job) p1 with
      | Pool.Next true p2 =>
          Pool.accepted p2 = Pool.accepted p1 ++ [job_wire job] /\ here = marked_and (consume queues ds p2)
      | Pool.Next false p2 => p2 = p1 /\ here = consume queues ds p1
      | Pool.Blocked => False
      | Pool.Crash => Pool.closed p1 = true /\ here = ([], None)
      end
    else here = marked_and (consume queues ds p1).
Proof.
  intros H. destruct (job_wire_text loc job H) as (s & Hs & _ & Hu). unfold KafkaClient_Publish. rewrite Hs.
  eexists. split; [reflexivity|]. split; [done|]. unfold consume. cbn [ConsumeClaim fst snd pm_value].
  pose proof (Submit_answer (seen_before ctx) (seen_now ctx) (seen_pick ctx) (job_wire job) (meanwhile p)) as Ha.
  rewrite (Handle_ok queues ctx s _ (meanwhile p) Hu).
  change (Task_Queue (Job_Task (job_wire job))) with (utf8 (Task_Queue (Job_Task job))).
  destruct (claims queues _); cbn [negb]; [|by destruct (ConsumeClaim _ ds _)].
  destruct (Pool.Submit _ _ _ _ _) as [[] p2| |]; try done; [|by subst p2].
  split; [done|]. by destruct (ConsumeClaim _ ds _).
Qed.

(** A pool with one free place, and two copies of a message: the first is taken and
    marked, the second refused and not marked. *)
Definition one_place : Pool.Pool := Pool.mkPool (Pool.mkPoolConfig 1 1 0) [] false [] Pool.NotStarted false [] [] [].
Definition live_session : CtxSeen := mkCtxSeen false false false.

Lemma kafka_delivers_witness :
  exists msg, KafkaClient_Publish wire_locations NoFault "jobs" wire_sample [] = (None, [msg]) /\
    exists p, consume ["etl"] [(fun p => p, Message (live_session, msg)); (fun p => p, Message (live_session, msg))] one_place =
      ([(live_session, msg)], Some p) /\ Pool.accepted p = [job_wire wire_sample].
Proof.
  destruct (kafka_delivers wire_locations "jobs" wire_sample [] ["etl"] live_session (fun p => p) [] one_place) as (msg & Hm & _ & _);
    [vm_compute; reflexivity|].
  destruct (kafka_delivers wire_locations "jobs" wire_sample [] ["etl"] live_session (fun p => p)
    [(fun p => p, Message (live_session, msg))] one_place) as (msg' & Hm' & _ & H1); [vm_compute; reflexivity|].
  rewrite Hm in Hm'. injection Hm' as <-. exists msg. split; [exact Hm|].
  assert (Hc : claims ["etl"] (utf8 (Task_Queue (Job_Task wire_sample))) = true) by (vm_compute; reflexivity).
  cbv zeta in H1. rewrite Hc in H1. cbn [Pool.Submit seen_before seen_now seen_pick live_session] in H1.
  destruct (Pool.send (job_wire wire_sample) one_place) as [p2| |] eqn:E; [|discriminate E..].
  injection E as E. destruct H1 as [Ha ->]. exists p2.
  destruct (kafka_delivers wire_locations "jobs" wire_sample [] ["etl"] live_session (fun p => p) [] p2) as (msg' & Hm' & _ & H2);
    [vm_compute; reflexivity|].
  rewrite Hm in Hm'. injection Hm' as <-. cbv zeta in H2. rewrite Hc in H2. rewrite <- E in H2.
  destruct H2 as [_ H2]. rewrite <- E. split; [|reflexivity]. by rewrite H2.
Defined.

(** ** A Run is a trace of calls on its own job *)

Definition work_envs (we : WorkEnv) : list (Env Jobs) :=
  [we_release we; we_update1 we; we_update2 we; we_fail1 we; we_fail2 we; we_complete we]
    ++ we_renews we ++ we_late we.

(** The token the Run works under. *)
Definition run_token (we : WorkEnv) (job : Job) : string :=
  if bool_decide (Job_State job = JobStateRunning) then Job_LeaseToken job
  else match newWorkerLeaseToken (we_rand we) with Ok tok => tok | Error _ => "" end.

(** Calls on the job [key] under the token [tok]. *)
Definition own_call (key tok : string) (op : Op) : Prop :=
  match op with
  | OGet _ _ _ => True
  | OUpdate _ _ job | ORenew _ job _ | ORelease _ job _ _ => Job_ID job = key /\ Job_LeaseToken job = tok
  | OComplete _ k tk _ | OFail _ k tk _ _ => k = key /\ tk = tok
  | _ => False
  end.

(** What the transports deliver: a job the reconciler claimed, or the message
    of a job as it was enqueued, for which a token no row holds is drawn. *)
Definition delivered (we : WorkEnv) (job : Job) (t : Jobs) : Prop :=
  Job_State job = JobStateRunning \/
  (Job_Attempt job = 0 /\ Job_CompletedAt job = None /\
   forall k r, intf (we_update2 we) (intf (we_update1 we) t) !! k = Some r ->
     lease_token r <> Some (run_token we job)).

(** While Fail is between its read and its write nobody changes the attempt
    or the budget of a row the token holds. *)
Definition fail_undisturbed (we : WorkEnv) (key tok : string) : Prop :=
  forall t r2, intf (we_fail2 we) t !! key = Some r2 -> holds_lease tok r2 = true ->
  exists r1, t !! key = Some r1 /\ attempt r1 = attempt r2 /\ task_max_retries r1 = task_max_retries r2.

Section Trace.
Variables (jw : jobWorker) (we : WorkEnv) (key tok : string).
Hypothesis envs_ok : Forall (keeps table_ok) (work_envs we).
Hypothesis undisturbed : fail_undisturbed we key tok.

Abbreviation mine := (traced (fun env => env ∈ work_envs we) (own_call key tok)).

Lemma mine_env env : env ∈ work_envs we -> keeps table_ok env.
Proof. rewrite Forall_forall in envs_ok. auto. Qed.

Lemma mine_ok t t' : mine t t' -> table_ok t -> table_ok t'.
Proof.
  intros (ops & -> & Hal & _ & Hev). apply run_ok; [|done].
  eapply Forall_impl; [exact Hev|]. intros op Hop. eapply Forall_impl; [exact Hop|]. apply mine_env.
Qed.

Lemma work_env_in i env : work_envs we !! i = Some env -> env ∈ work_envs we.
Proof. apply list_elem_of_lookup_2. Qed.

Lemma releaseClaim_mine job reason d t :
  Job_ID job = key -> Job_LeaseToken job = tok -> mine t (releaseClaim (we_release we) job reason d t).
Proof.
  intros Hk Ht. unfold releaseClaim. destruct (_ || _); [apply traced_refl|].
  apply (traced_one _ _ (ORelease (we_release we) job reason d)); [done..|].
  apply Forall_singleton. by apply (work_env_in 0).
Qed.

Lemma renewals_mine job d envs t :
  Job_ID job = key -> Job_LeaseToken job = tok -> (forall env, env ∈ envs -> env ∈ work_envs we) ->
  mine t (renewals job d envs t).2.
Proof.
  intros Hk Ht. revert t. induction envs as [|env envs IH]; intros t Hin; cbn; [apply traced_refl|].
  assert (H1 : mine t (RenewLease env job d t).2).
  { apply (traced_one _ _ (ORenew env job d)); [done..|]. apply Forall_singleton, Hin. by left. }
  destruct (RenewLease env job d t) as [[?|?] t1]; cbn in H1; [|done].
  eapply traced_trans; [apply H1|]. apply IH. intros e He. apply Hin. by right.
Qed.

Lemma startLeaseRenewal_mine job envs t :
  Job_ID job = key -> Job_LeaseToken job = tok -> (forall env, env ∈ envs -> env ∈ work_envs we) ->
  mine t (startLeaseRenewal jw job envs t).2.
Proof.
  intros. unfold startLeaseRenewal. destruct (_ || _); [apply traced_refl|by apply renewals_mine].
Qed.

Lemma Fail_mine svc now rnd msg permanent t :
  table_ok t -> mine t (Fail svc (we_fail1 we) now rnd (we_fail2 we) key tok msg permanent t).2.
Proof.
  intros Hok. apply Fail_traced; [by apply (work_env_in 3)|by apply (work_env_in 4)|done|done| |].
  - apply mine_env; [by apply (work_env_in 3)|done].
  - intros r2. apply undisturbed.
Qed.

Lemma Complete_mine meta t : mine t (Complete (we_complete we) key tok meta t).2.
Proof.
  unfold Complete. cbn [js_CompleteClaimedJob PostgresStore].
  assert (H1 : mine t (CompleteClaimedJob (we_complete we) key tok meta t).2).
  { apply (traced_one _ _ (OComplete (we_complete we) key tok meta)); [done..|].
    apply Forall_singleton. by apply (work_env_in 5). }
  by destruct (CompleteClaimedJob _ _ _ _ _) as [[?|?] t1].
Qed.

Lemma run_claimed_mine job t :
  Job_ID job = key -> Job_LeaseToken job = tok -> table_ok t -> mine t (run_claimed jw we job t).2.
Proof.
  intros Hk Ht Hok. unfold run_claimed.
  pose proof (startLeaseRenewal_mine job (we_renews we) t Hk Ht) as H1.
  destruct (startLeaseRenewal jw job (we_renews we) t) as [alive t1]. cbn [snd] in H1.
  assert (H1' : mine t t1) by (apply H1; intros env; unfold work_envs; rewrite !elem_of_app; auto). clear H1.
  assert (Hlate : forall t2, mine t2 (if alive then (startLeaseRenewal jw job (we_late we) t2).2 else t2)).
  { intros t2. destruct alive; [|apply traced_refl]. apply startLeaseRenewal_mine; [done..|].
    intros env. unfold work_envs. rewrite !elem_of_app. auto. }
  assert (Hok1 : table_ok t1) by by eapply mine_ok. rewrite Hk, Ht.
  destruct (execute jw we job) as [e|].
  - pose proof (Fail_mine (jw_outcome jw) (we_fail_now we) (we_rnd we) (we_error_text we)
      (errors_Is e ErrNoRetry) t1 Hok1) as H2.
    destruct (Fail _ _ _ _ _ _ _ _ _ _) as [r t2]. cbn [snd] in H2 |- *.
    eapply traced_trans; [apply H1'|]. eapply traced_trans; [apply H2|apply Hlate].
  - pose proof (Complete_mine None t1) as H2. destruct (Complete _ _ _ _ _) as [r t2]. cbn [snd] in H2 |- *.
    eapply traced_trans; [apply H1'|]. eapply traced_trans; [apply H2|apply Hlate].
Qed.
Lemma claim_message_mine job t :
  delivered we job t -> Job_ID job = key -> run_token we job = tok ->
  mine t (claim_message jw we job t).2 /\
  forall job', (claim_message jw we job t).1 = inl job' ->
    Job_ID job' = key /\ Job_LeaseToken job' = tok /\ Job_State job' = JobStateRunning.
Proof.
  intros Hd Hk Ht. unfold claim_message, run_token in *. case_bool_decide as Hst.
  { split; [apply traced_refl|]. intros job' [= <-]. done. }
  destruct (newWorkerLeaseToken _) as [tk|e] eqn:E; [|split; [apply traced_refl|done]]. subst tk.
  destruct Hd as [?|(Ha & Hc & Hfresh)]; [done|].
  unfold run_token in Hfresh. rewrite bool_decide_false, E in Hfresh by done.
  set (job1 := claimed_job jw _ tok job).
  assert (H1 : mine t (UpdateJob (we_update1 we) (we_update2 we) job1 t).2).
  { apply (traced_one _ _ (OUpdate (we_update1 we) (we_update2 we) job1)); [done| |done|].
    - split; [|exact Hfresh]. unfold worker_claim. cbn. rewrite Ha.
      apply newLeaseToken_nonempty in E. split_and!; eauto.
    - repeat (apply Forall_cons; split); [by apply (work_env_in 1)|by apply (work_env_in 2)|done]. }
  destruct (UpdateJob _ _ _ _) as [[?|?] t1]; (split; [exact H1|]); [|done]. intros job' [= <-]. done.
Qed.

Lemma Run_mine job bs t :
  delivered we job t -> Job_ID job = key -> run_token we job = tok -> table_ok t ->
  mine t (Run jw we job bs t).2.
Proof.
  intros Hd Hk Ht Hok. unfold Run. destruct (wait_scheduled we job); [apply traced_refl|].
  assert (Hrel : forall reason d, mine t (releaseClaim (we_release we) job reason d t)).
  { intros reason d. destruct (decide (Job_State job = JobStateRunning)) as [Hr|Hr].
    - apply releaseClaim_mine; [done|]. unfold run_token in Ht. by rewrite bool_decide_true in Ht.
    - unfold releaseClaim. rewrite bool_decide_false by done. apply traced_refl. }
  destruct (Breaker.Allow _ _) as [ok br]. destruct (negb ok); [apply Hrel|].
  destruct (we_lock we); [apply Hrel|].
  destruct (claim_message_mine job t Hd Hk Ht) as [H1 H2].
  destruct (claim_message jw we job t) as [[job1|e] t1]; cbn [fst snd] in *; [|done].
  destruct (H2 job1 eq_refl) as (Hk1 & Ht1 & _).
  pose proof (run_claimed_mine job1 t1 Hk1 Ht1 (mine_ok _ _ H1 Hok)) as H3.
  destruct (run_claimed jw we job1 t1) as [e t2]. cbn [snd] in *. by eapply traced_trans.
Qed.
End Trace.

(** *** Other rows *)

(** [t'] still has the rows of [t0] other than [key]. *)
Definition others_kept (key : string) (t0 t' : Jobs) : Prop :=
  forall k r, k <> key -> t0 !! k = Some r -> t' !! k = Some r.

Lemma others_update key t0 cond f t :
  others_kept key t0 t -> others_kept key t0 (update_by_id key cond f t).2.
Proof.
  intros H k r Hk Hr. rewrite update_by_id_lookup. rewrite bool_decide_false by done. by rewrite (H k r Hk Hr).
Qed.

Lemma others_exec_update key t0 env cond f t :
  keeps (others_kept key t0) env -> others_kept key t0 t -> others_kept key t0 (exec_update env key cond f t).2.
Proof.
  intros He H. unfold exec_update. apply run_stmt_pred; [by apply He|].
  pose proof (others_update key t0 cond f _ (He _ H)) as H1. by destruct (update_by_id _ _ _ _).
Qed.

Lemma UpdateJob_others key t0 env1 env2 job t :
  Job_ID job = key -> keeps (others_kept key t0) env1 -> keeps (others_kept key t0) env2 ->
  others_kept key t0 t -> others_kept key t0 (UpdateJob env1 env2 job t).2.
Proof.
  intros Hid H1 H2 Ht. unfold UpdateJob. apply H1 in Ht. pose proof (H2 _ Ht) as Ht2.
  pose proof (GetJob_snd env1 AnyTenant (Job_ID job) t) as Hs.
  destruct (GetJob _ _ _ _) as [[ex|e] t1]; cbn in Hs; subst t1; [|exact Ht].
  destruct (negb _); [exact Ht|].
  match goal with |- context [run_stmt env2 ?st ?t1] =>
    assert (HP : others_kept key t0 (run_stmt env2 st t1).2); [|by destruct (run_stmt env2 st t1) as [[?|?] ?]] end.
  apply run_stmt_pred; [exact Ht2|]. destruct (_ && _); [|exact Ht2]. rewrite Hid.
  match goal with |- context [update_by_id ?k ?c ?f ?t1] =>
    pose proof (others_update k t0 c f t1 Ht2) as HP; by destruct (update_by_id k c f t1) end.
Qed.

Lemma Complete_others key t0 env tok meta t :
  keeps (others_kept key t0) env -> others_kept key t0 t ->
  others_kept key t0 (CompleteClaimedJob env key tok meta t).2.
Proof.
  intros H1 Ht. unfold CompleteClaimedJob. destruct (bool_decide _); [exact Ht|]. apply H1 in Ht.
  match goal with |- context [run_stmt env ?st ?t1] =>
    assert (HP : others_kept key t0 (run_stmt env st t1).2); [|by destruct (run_stmt env st t1) as [[?|?] ?]] end.
  apply run_stmt_pred; [exact Ht|]. destruct (intf env t !! key) as [r0|]; [|exact Ht].
  destruct (holds_lease _ _); [|exact Ht]. intros k r Hk Hr. cbn. rewrite lookup_insert_ne by done. by apply Ht.
Qed.

Lemma own_call_others key tok t0 op t :
  own_call key tok op -> Forall (keeps (others_kept key t0)) (op_envs op) ->
  others_kept key t0 t -> others_kept key t0 (exec op t).
Proof.
  intros Ho He Ht. destruct op; try done; cbn [exec op_envs own_call] in *;
    rewrite ?Forall_cons in He; destruct_and?; subst.
  - rewrite GetJob_snd. match goal with H : keeps _ env |- _ => by apply H end.
  - by apply UpdateJob_others.
  - unfold RenewLease. destruct (bool_decide _); [done|].
    pose proof (others_exec_update (Job_ID job) t0 env (holds_lease (Job_LeaseToken job))
      (renew_row (pg_ts (Add (gonow env) d)) (NOW env)) t) as HP.
    destruct (exec_update _ _ _ _ _) as [[?|?] ?]; by apply HP.
  - unfold ReleaseClaim. cbn zeta.
    match goal with |- context [exec_update ?e ?k ?c ?f t] =>
      pose proof (others_exec_update k t0 e c f t) as HP; destruct (exec_update e k c f t) as [[?|?] ?] end; by apply HP.
  - by apply Complete_others.
  - unfold FailClaimedJob. destruct (bool_decide _); [done|].
    match goal with |- context [exec_update ?e ?k ?c ?f t] =>
      pose proof (others_exec_update k t0 e c f t) as HP; destruct (exec_update e k c f t) as [[?|?] ?] end; by apply HP.
Qed.

(** A worker touches one row.  Running any delivered job, whatever its
    handler does, whatever fails and whenever the context ends, keeps the jobs
    table well formed and changes no row but that job's. *)
Theorem worker_touches_one_row (jw : jobWorker) (we : WorkEnv) (job : Job) (bs : taskBreakers) (t : Jobs) :
  Forall (keeps table_ok) (work_envs we) ->
  Forall (keeps (others_kept (Job_ID job) t)) (work_envs we) ->
  delivered we job t -> fail_undisturbed we (Job_ID job) (run_token we job) -> table_ok t ->
  table_ok (Run jw we job bs t).2 /\ others_kept (Job_ID job) t (Run jw we job bs t).2.
Proof.
  intros Hok1 Hot Hd Hun Hok. set (key := Job_ID job) in *. set (tok := run_token we job) in *.
  pose proof (Run_mine jw we key tok Hok1 Hun job bs t Hd eq_refl eq_refl Hok) as Hm.
  split; [by eapply mine_ok|]. destruct Hm as (ops & -> & _ & Hown & Hev). clear Hun Hd Hok Hok1.
  assert (H0 : others_kept key t t) by (by intros k r _ ?). revert H0. generalize t at 2 4 as t1.
  induction Hown as [|op ops Hop Hown IH]; intros t1 H0; [done|]. apply Forall_cons in Hev as [He Hev]. cbn.
  apply IH; [done|]. eapply own_call_others; [done| |done].
  rewrite Forall_forall in Hot. eapply Forall_impl; [exact He|]. apply Hot.
Qed.

(** ** What a Run records *)

(** Renewals of the holder keep its lease; those of anyone else do nothing. *)
Lemma renewals_held job d envs t r :
  Forall quiet envs -> Job_LeaseToken job <> "" -> t !! Job_ID job = Some r ->
  holds_lease (Job_LeaseToken job) r = true ->
  exists r1, (renewals job d envs t).1 = true /\ (renewals job d envs t).2 !! Job_ID job = Some r1 /\
    holds_lease (Job_LeaseToken job) r1 = true /\ attempt r1 = attempt r /\
    task_max_retries r1 = task_max_retries r.
Proof.
  intros Hq Htok. revert t r. induction Hq as [|env envs [Hi Hf] Hq IH]; intros t r Hr Hh; [by exists r|].
  cbn [renewals]. unfold RenewLease. rewrite bool_decide_false by done.
  rewrite (exec_update_hit _ _ _ _ _ r) by (rewrite ?Hi; done). rewrite Hi. cbn.
  set (r' := renew_row _ _ r).
  destruct (IH (<[Job_ID job := r']> t) r') as (r1 & H1); [apply lookup_insert_eq|exact Hh|].
  by exists r1.
Qed.

Lemma renewals_lost job d envs t :
  Forall quiet envs -> Job_LeaseToken job <> "" -> not_held (Job_ID job) (Job_LeaseToken job) t ->
  (renewals job d envs t).2 = t.
Proof.
  intros Hq Htok Hn. destruct Hq as [|env envs [Hi Hf] Hq]; [done|]. cbn [renewals]. unfold RenewLease.
  rewrite bool_decide_false by done. rewrite exec_update_miss; [by rewrite Hi|done|].
  rewrite Hi. intros r. by apply not_held_holds.
Qed.

(** The state a failure leaves: dead when permanent or out of budget, else
    waiting out the backoff. *)
Definition after_failure (jw : jobWorker) (we : WorkEnv) (err : error) (r : JobRow) : JobState * option Time :=
  if errors_Is err ErrNoRetry || negb (attempt r <? task_max_retries r) then (JobStateDead, scheduled_at r)
  else (JobStatePending,
        Some (pg_ts (we_fail_now we + Delay (svc_retry (jw_outcome jw)) (we_rnd we) (attempt r)))).

Lemma fail_records jw we err key tok t r :
  quiet (we_fail1 we) -> quiet (we_fail2 we) -> tok <> "" -> t !! key = Some r -> holds_lease tok r = true ->
  0 < task_max_retries r ->
  exists j r', Fail (jw_outcome jw) (we_fail1 we) (we_fail_now we) (we_rnd we) (we_fail2 we) key tok
      (we_error_text we) (errors_Is err ErrNoRetry) t = (Ok j, <[key := r']> t) /\
    (state r', scheduled_at r') = after_failure jw we err r /\ attempt r' = attempt r /\
    last_error r' = we_error_text we /\ lease_token r' = None.
Proof.
  intros [Hi1 Hf1] [Hi2 Hf2] Htok Hr Hh Hmax. unfold Fail. cbn [js_GetJob js_FailClaimedJob PostgresStore].
  unfold GetJob, query_job, run_stmt. rewrite Hf1, Hi1, Hr. cbn [mbind option_bind].
  rewrite (proj2 (tenant_matches_spec AnyTenant r)) by (by left). unfold FailClaimedJob.
  rewrite bool_decide_false by done. rewrite (exec_update_hit _ _ _ _ _ r) by (rewrite ?Hi2; done). rewrite Hi2.
  eexists _, _. split; [done|]. unfold after_failure, retry_at, shouldRetry.
  change (Task_MaxRetries (Job_Task (scanJob r))) with (task_max_retries r).
  change (Job_Attempt (scanJob r)) with (attempt r). rewrite (proj2 (Z.ltb_lt 0 _)) by lia.
  by destruct (errors_Is err ErrNoRetry), (attempt r <? task_max_retries r).
Qed.

Lemma run_outcome (jw : jobWorker) (we : WorkEnv) (job : Job) (bs : taskBreakers) (t : Jobs) (r : JobRow) :
  Forall quiet (work_envs we) -> wait_scheduled we job = None ->
  (Breaker.Allow (we_allow we) (get bs (Task_Name (Job_Task job)))).1 = true -> we_lock we = None ->
  Job_State job = JobStateRunning -> Job_LeaseToken job <> "" ->
  t !! Job_ID job = Some r -> holds_lease (Job_LeaseToken job) r = true -> 0 < task_max_retries r ->
  exists e bs' t' r', Run jw we job bs t = (e, bs', t') /\ t' !! Job_ID job = Some r' /\
    attempt r' = attempt r /\ lease_token r' = None /\
    match execute jw we job with
    | None => e = Completed job (Ok (scanJob r')) /\ state r' = JobStateCompleted
    | Some err => (exists j, e = Failed err job (Ok j)) /\ state r' = (after_failure jw we err r).1 /\
        (state r' = JobStatePending -> scheduled_at r' = (after_failure jw we err r).2) /\
        last_error r' = we_error_text we
    end.
Proof.
  intros Hq Hw Hb Hl Hst Htok Hr Hh Hmax.
  assert (Hq' : forall i env, work_envs we !! i = Some env -> quiet env)
    by (intros i env Hi; rewrite Forall_forall in Hq; by apply Hq, (work_env_in we i)).
  unfold work_envs in Hq. rewrite !Forall_app in Hq. destruct Hq as (_ & Hq1 & Hq2).
  unfold Run. rewrite Hw. destruct (Breaker.Allow _ _) as [ok br]. cbn in Hb. subst ok. cbn [negb].
  rewrite Hl. unfold claim_message. rewrite bool_decide_true by done. unfold run_claimed.
  assert (Hstart : forall envs t, startLeaseRenewal jw job envs t = renewals job (effectiveLease jw) envs t)
    by (intros; unfold startLeaseRenewal; by rewrite bool_decide_true, bool_decide_false).
  rewrite Hstart.
  destruct (renewals_held job (effectiveLease jw) (we_renews we) t r Hq1 Htok Hr Hh) as (r1 & Ha & Hr1 & Hh1 & Hat & Hm).
  destruct (renewals job _ (we_renews we) t) as [alive t1]. cbn [fst snd] in *. subst alive.
  destruct (execute jw we job) as [err|] eqn:Ex.
  - destruct (fail_records jw we err (Job_ID job) (Job_LeaseToken job) t1 r1)
      as (j & r' & -> & Hs & Hat' & Hle & Hlt); [by apply (Hq' 3%nat)|by apply (Hq' 4%nat)|done|done|done|lia|].
    rewrite Hstart, renewals_lost; [|done|done|intros r2; rewrite lookup_insert_eq; congruence].
    do 4 eexists. split; [done|]. split; [apply lookup_insert_eq|]. split; [lia|]. split; [done|].
    unfold after_failure in *. rewrite Hat, Hm in Hs. split; [by eexists|].
    destruct (_ || _); injection Hs as -> ->; split; [done|split; [done|done]|done|split; done].
  - unfold Complete. cbn [js_CompleteClaimedJob PostgresStore].
    destruct (Hq' 5%nat (we_complete we) eq_refl) as [Hi Hf].
    unfold CompleteClaimedJob, run_stmt. rewrite bool_decide_false by done. rewrite Hf, Hi, Hr1, Hh1.
    rewrite Hstart, renewals_lost; [|done|done|intros r2; rewrite lookup_insert_eq; by intros [= <-]].
    do 4 eexists. split; [done|]. split; [apply lookup_insert_eq|]. done.
Qed.

(** The outcome of a claimed job is recorded.  When the job's lease is
    in place, the breaker and the lock let it through and nothing else
    interferes, a Run executes the handler and leaves the row COMPLETED if it
    returned nil; otherwise DEAD if the error is permanent (an unregistered
    task is) or the budget is spent, and PENDING, due after the backoff, if
    not; in each case with the lease gone. *)
Theorem run_records_outcome (jw : jobWorker) (we : WorkEnv) (job : Job) (bs : taskBreakers) (t : Jobs) (r : JobRow) :
  Forall quiet (work_envs we) -> wait_scheduled we job = None ->
  (Breaker.Allow (we_allow we) (get bs (Task_Name (Job_Task job)))).1 = true -> we_lock we = None ->
  Job_State job = JobStateRunning -> Job_LeaseToken job <> "" ->
  t !! Job_ID job = Some r -> holds_lease (Job_LeaseToken job) r = true -> 0 < task_max_retries r ->
  exists e bs' t' r', Run jw we job bs t = (e, bs', t') /\ t' !! Job_ID job = Some r' /\
    attempt r' = attempt r /\ lease_token r' = None /\
    match execute jw we job with
    | None => e = Completed job (Ok (scanJob r')) /\ state r' = JobStateCompleted
    | Some err => (exists j, e = Failed err job (Ok j)) /\ state r' = (after_failure jw we err r).1 /\
        (state r' = JobStatePending -> scheduled_at r' = (after_failure jw we err r).2) /\
        last_error r' = we_error_text we
    end.
Proof. apply run_outcome. Qed.

(** ** Messages delivered again *)

(** Delivering a message again never executes a job that is not waiting.
    If the job is not PENDING when the message is claimed (it runs under
    somebody's lease, or it is over), a Run of the message executes nothing,
    reports ErrInvalidTransition and leaves the table as it was. *)
Theorem replay_of_taken_job_is_refused (jw : jobWorker) (we : WorkEnv) (job : Job) (bs : taskBreakers) (t : Jobs)
    (r : JobRow) (tok : string) :
  quiet (we_update1 we) -> newWorkerLeaseToken (we_rand we) = Ok tok -> wait_scheduled we job = None ->
  (Breaker.Allow (we_allow we) (get bs (Task_Name (Job_Task job)))).1 = true -> we_lock we = None ->
  Job_State job = JobStatePending -> t !! Job_ID job = Some r -> state r <> JobStatePending ->
  exists bs', Run jw we job bs t = (ClaimRefused ErrInvalidTransition, bs', t).
Proof.
  intros [Hi1 Hf1] Hrnd Hw Hb Hl Hst Hr Hne. unfold Run. rewrite Hw.
  destruct (Breaker.Allow _ _) as [ok br]. cbn in Hb. subst ok. cbn [negb]. rewrite Hl. unfold claim_message.
  rewrite bool_decide_false by (by rewrite Hst). rewrite Hrnd. set (job1 := claimed_job jw _ tok job).
  assert (Hu : UpdateJob (we_update1 we) (we_update2 we) job1 t = (Error ErrInvalidTransition, t)); [|rewrite Hu; eauto].
  unfold UpdateJob, GetJob, query_job, run_stmt. change (Job_ID job1) with (Job_ID job).
  rewrite Hf1, Hi1, Hr. cbn [mbind option_bind].
  rewrite (proj2 (tenant_matches_spec AnyTenant r)) by (by left).
  change (Job_State (scanJob r)) with (state r). change (Job_State job1) with JobStateRunning.
  by destruct (state r).
Qed.

(** Replaying a message forgets what the job has been through.  A job
    that failed and waits PENDING for its retry, however many attempts it has
    used and however long its backoff, is taken by a replay of its original
    message as if it were new: it is claimed at once and its attempt is 1
    again, so its retry budget starts over. *)
Theorem replay_resets_attempts (jw : jobWorker) (we : WorkEnv) (job : Job) (t : Jobs) (r : JobRow) (tok : string) :
  quiet (we_update1 we) -> quiet (we_update2 we) -> newWorkerLeaseToken (we_rand we) = Ok tok ->
  Job_State job = JobStatePending -> Job_Attempt job = 0 -> int4_ok (Task_RetryCount (Job_Task job)) = true ->
  t !! Job_ID job = Some r -> state r = JobStatePending -> lease_token r = None ->
  exists job' r', claim_message jw we job t = (inl job', <[Job_ID job := r']> t) /\
    state r' = JobStateRunning /\ lease_token r' = Some tok /\ attempt r' = 1 /\
    scheduled_at r' = pg_ts <$> Job_ScheduledAt job.
Proof.
  intros [Hi1 Hf1] [Hi2 Hf2] Hrnd Hst Ha Hrc Hr Hp Hlt. unfold claim_message.
  rewrite bool_decide_false by (by rewrite Hst). rewrite Hrnd. set (job1 := claimed_job jw _ tok job).
  apply newLeaseToken_nonempty in Hrnd.
  unfold UpdateJob, GetJob, query_job, run_stmt. change (Job_ID job1) with (Job_ID job).
  rewrite Hf1, Hi1, Hr. cbn [mbind option_bind].
  rewrite (proj2 (tenant_matches_spec AnyTenant r)) by (by left).
  change (Job_State (scanJob r)) with (state r). rewrite Hp. cbn [negb CanTransition Job_State job1 claimed_job].
  rewrite Hf2, Hi2. change (Task_RetryCount (Job_Task job1)) with (Task_RetryCount (Job_Task job)).
  change (Job_Attempt job1) with (Job_Attempt job + 1). rewrite Ha, Hrc. cbn [andb int4_ok].
  rewrite (update_by_id_hit _ _ _ _ r); [|done|].
  2:{ unfold update_fenced. cbn [job1 claimed_job Job_LeaseToken Job_State].
      rewrite Hp, Hlt, (bool_decide_false (tok = "")) by done. done. }
  do 2 eexists. split; [done|]. unfold update_row. cbn. rewrite Ha. unfold nullableString.
  rewrite bool_decide_false by done. done.
Qed.

(** ** On the demo table *)

Definition demo_handlers : gset string := {["http.webhook"]}.
Definition demo_worker : jobWorker := mkJobWorker demo_service demo_handlers (5 * Minute).
Definition demo_breakers : taskBreakers := newTaskBreakers Breaker.breakerCfg demo_handlers.

Definition demo_work (result : option error) (msg : string) : WorkEnv :=
  mkWorkEnv demo_now false demo_now None (demo_env [] 0) demo_now (Some [9]) (demo_env [] 0) (demo_env [] 0)
    [demo_env [] 0] result msg (fun bs => bs) demo_now (demo_env [] 0) demo_now (of_int 0) (demo_env [] 0)
    (demo_env [] 0) [demo_env [] 0].

(** The job as the reconciler submits it, and as the transport delivers it. *)
Definition demo_claimed : Job :=
  match demo_leased !! "j1" with Some r => scanJob r | None => zeroJob end.

Lemma demo_work_quiet result msg : Forall quiet (work_envs (demo_work result msg)).
Proof. repeat constructor. Qed.

Lemma run_records_outcome_witness :
  exists bs t r, Run demo_worker (demo_work None "") demo_claimed demo_breakers demo_leased
      = (Completed demo_claimed (Ok (scanJob r)), bs, t) /\ state r = JobStateCompleted.
Proof.
  destruct (demo_leased !! "j1") as [r|] eqn:E; [|vm_compute in E; discriminate].
  destruct (run_records_outcome demo_worker (demo_work None "") demo_claimed demo_breakers demo_leased r)
    as (e & bs & t & r' & HR & _ & _ & _ & H).
  - apply demo_work_quiet.
  - vm_compute. reflexivity.
  - vm_compute. reflexivity.
  - reflexivity.
  - vm_compute. reflexivity.
  - vm_compute. discriminate.
  - rewrite <- E. vm_compute. reflexivity.
  - vm_compute in E. injection E as <-. vm_compute. reflexivity.
  - vm_compute in E. injection E as <-. vm_compute. reflexivity.
  - replace (execute demo_worker (demo_work None "") demo_claimed) with (None : option error) in H
      by (vm_compute; reflexivity).
    destruct H as [-> H]. exists bs, t, r'. split; [exact HR|exact H].
Defined.

Lemma worker_touches_one_row_witness :
  others_kept (Job_ID demo_claimed) demo_leased
    (Run demo_worker (demo_work (Some (ErrText "boom")) "boom") demo_claimed demo_breakers demo_leased).2.
Proof.
  apply (worker_touches_one_row demo_worker (demo_work (Some (ErrText "boom")) "boom") demo_claimed demo_breakers
    demo_leased).
  - calm_envs.
  - calm_envs.
  - left. vm_compute. reflexivity.
  - intros t r2 Hr2 Hh. exists r2. split; [exact Hr2|]. split; reflexivity.
  - apply demo_leased_ok.
Defined.

Lemma replay_of_taken_job_is_refused_witness :
  exists bs, Run demo_worker (demo_work None "") (demo_job "j1" "acme") demo_breakers demo_leased
    = (ClaimRefused ErrInvalidTransition, bs, demo_leased).
Proof.
  destruct (demo_leased !! "j1") as [r|] eqn:E; [|vm_compute in E; discriminate].
  apply (replay_of_taken_job_is_refused demo_worker (demo_work None "") (demo_job "j1" "acme") demo_breakers
    demo_leased r (demo_token 9)).
  - split; reflexivity.
  - vm_compute. reflexivity.
  - vm_compute. reflexivity.
  - vm_compute. reflexivity.
  - reflexivity.
  - reflexivity.
  - exact E.
  - vm_compute in E. injection E as <-. vm_compute. discriminate.
Defined.

(** The first job after two failed attempts, its retry an hour away. *)
Definition demo_retrying : Jobs :=
  run [OFail (demo_env [] 0) "j1" (demo_token 7) "boom" (Some demo_now); demo_claim ["j1"] 8;
       OFail (demo_env [] 0) "j1" (demo_token 8) "boom" (Some (demo_now + Hour))] demo_leased.

Lemma replay_resets_attempts_witness :
  (attempt <$> demo_retrying !! "j1") = Some 2 /\
  exists job r, claim_message demo_worker (demo_work None "") (demo_job "j1" "acme") demo_retrying
      = (inl job, <["j1" := r]> demo_retrying) /\ attempt r = 1 /\ state r = JobStateRunning.
Proof.
  split; [vm_compute; reflexivity|].
  destruct (demo_retrying !! "j1") as [r|] eqn:E; [|vm_compute in E; discriminate].
  destruct (replay_resets_attempts demo_worker (demo_work None "") (demo_job "j1" "acme") demo_retrying r (demo_token 9))
    as (job & r' & H & Hs & _ & Ha & _).
  - split; reflexivity.
  - split; reflexivity.
  - vm_compute. reflexivity.
  - reflexivity.
  - reflexivity.
  - reflexivity.
  - exact E.
  - vm_compute in E. injection E as <-. reflexivity.
  - vm_compute in E. injection E as <-. reflexivity.
  - exists job, r'. split; [exact H|]. split; [exact Ha|exact Hs].
Defined.
