(* ===== verification/Execution.v ===== *)
(** * From the claim to the row: the worker with its handlers

    The handler table of cmd/server/main.go behind jobWorker.execute: what a
    Run of Worker.v leaves in the jobs table, in terms of what the target of a
    webhook answered (Webhook.v) or what the database said to the statement of
    a pipeline (Etl.v). *)

From S2P Require Import Prelude Models GoStrings GoText JobStore JobFacts JobSystem JobProps Retry Service Worker.
From S2P Require Webhook Etl Breaker.

Section Execution.
Context {U : Unicode} {N : Webhook.Net} {P : Etl.Pgx}.

(** The two executors: the webhook's settings and the error of making a request;
    whether the pipeline has a pool, and what its statement is answered. *)
Record Executors := mkExecutors {
  x_webhook : Webhook.Executor;
  x_build : option error;
  x_pool : bool;
  x_exec : option error
}.

(** The handler a task name is looked up to in [defaultHandlers]. *)
Definition TaskHandlers (x : Executors) (job : Job) : option (option error) :=
  let name := Task_Name (Job_Task job) in
  if bool_decide (name = "webhook") then Some (Webhook.Handler (x_webhook x) (x_build x) job).1
  else if bool_decide (name = "sql.etl") then Some (Etl.Handler (x_pool x) (x_exec x) job).1
  else None.

(** The worker's handlers are that table, and the one it called answered. *)
Definition runs_table (jw : jobWorker) (we : WorkEnv) (x : Executors) (job : Job) : Prop :=
  (Task_Name (Job_Task job) ∈ jw_handlers jw <-> TaskHandlers x job <> None) /\
  forall r, TaskHandlers x job = Some r -> we_result we = r.

(** Where a failed attempt leaves the job. *)
Definition settled (permanent : bool) (r : JobRow) : JobState :=
  if permanent || negb (attempt r <? task_max_retries r) then JobStateDead else JobStatePending.

(** What the outside's answer makes of the job. *)
Definition verdict (x : Executors) (job : Job) (r : JobRow) : JobState :=
  let name := Task_Name (Job_Task job) in
  if bool_decide (name = "webhook") then
    match (Webhook.Handler (x_webhook x) (x_build x) job).2 with
    | [] => settled true r                                   (* no URL, an unsafe one, a method: nothing was sent *)
    | req :: _ =>
        match (Webhook.client_Do (Z.to_nat (Webhook.maxRedirects (x_webhook x))) (x_webhook x) 0 req).1 with
        | Error e => settled (errors_Is e ErrNoRetry) r
        | Ok (status, _) =>
            if (200 <=? status) && (status <? 300) then JobStateCompleted else settled (negb (Webhook.retryable status)) r
        end
    end
  else if bool_decide (name = "sql.etl") then
    match (Etl.Handler (x_pool x) (x_exec x) job).2 with
    | None => settled true r                                 (* a bad spec *)
    | Some _ => match x_exec x with None => JobStateCompleted | Some e => settled (errors_Is e ErrNoRetry) r end
    end
  else settled true r.                                       (* no handler *)

Lemma after_failure_settled jw we err r : (after_failure jw we err r).1 = settled (errors_Is err ErrNoRetry) r.
Proof. unfold after_failure, settled. by destruct (_ || _). Qed.

(** The state a Run records is the verdict. *)
Lemma verdict_execute jw we x job r : x_build x = None -> x_pool x = true -> runs_table jw we x job ->
  match execute jw we job with None => JobStateCompleted | Some err => settled (errors_Is err ErrNoRetry) r end = verdict x job r.
Proof.
  intros Hb Hp [Hin Hres]. unfold execute, verdict. unfold TaskHandlers in Hin, Hres.
  destruct (bool_decide (Task_Name (Job_Task job) = "webhook")).
  { rewrite bool_decide_eq_true_2 by (by apply Hin). rewrite (Hres _ eq_refl).
    pose proof (Webhook.webhook_classifies (x_webhook x) (x_build x) job) as H.
    destruct (Webhook.Handler _ _ job) as [[err|] [|req sent]]; cbn [fst snd] in *.
    - destruct H as [->|H]; [done|by rewrite Hb in H].
    - destruct (Webhook.client_Do _ _ _ req) as [[[st reply]|e] l]; cbn [fst] in *.
      + destruct (_ && _); [done|]. by destruct H as (err' & [= <-] & ->).
      + by destruct H as (err' & [= <-] & ->).
    - done.
    - destruct (Webhook.client_Do _ _ _ req) as [[[st reply]|e] l]; cbn [fst] in *.
      + destruct (_ && _); [done|]. by destruct H as (err' & ? & _).
      + by destruct H as (err' & ? & _). }
  destruct (bool_decide (Task_Name (Job_Task job) = "sql.etl")).
  { rewrite bool_decide_eq_true_2 by (by apply Hin). rewrite (Hres _ eq_refl).
    pose proof (Etl.etl_handler (x_pool x) (x_exec x) job) as H.
    destruct (Etl.Handler _ _ job) as [[err|] [stmt|]]; cbn [fst snd] in *.
    - destruct H as [_ H]. destruct (x_exec x); [|done]. by destruct H as (err' & [= <-] & ->).
    - destruct H as [->|H]; [done|by rewrite Hp in H].
    - destruct H as [_ H]. destruct (x_exec x); [|done]. by destruct H as (err' & ? & _).
    - done. }
  rewrite bool_decide_eq_false_2; [done|]. intros Hn. by apply Hin.
Qed.

(** C8. What the outside answers is what the table says: a Run of a claimed job
    with the server's handlers, let through by the breaker and the lock and with
    nothing interfering, leaves the row without a lease and
    - COMPLETED if the webhook's last reply was 2xx, or the pipeline's statement
      succeeded;
    - DEAD if the job itself is at fault (no handler, no usable URL or method, a
      bad spec), if the reply was not worth a retry, or if the budget is spent;
    - PENDING, due after the backoff, otherwise. *)
Theorem job_settles (jw : jobWorker) (we : WorkEnv) (x : Executors) (job : Job) (bs : taskBreakers) (t : Jobs) (r : JobRow) :
  x_build x = None -> x_pool x = true -> runs_table jw we x job ->
  Forall quiet (work_envs we) -> wait_scheduled we job = None ->
  (Breaker.Allow (we_allow we) (get bs (Task_Name (Job_Task job)))).1 = true -> we_lock we = None ->
  Job_State job = JobStateRunning -> Job_LeaseToken job <> "" ->
  t !! Job_ID job = Some r -> holds_lease (Job_LeaseToken job) r = true -> 0 < task_max_retries r ->
  exists r', (Run jw we job bs t).2 !! Job_ID job = Some r' /\ lease_token r' = None /\ state r' = verdict x job r /\
    (state r' = JobStatePending ->
       scheduled_at r' = Some (pg_ts (we_fail_now we + Delay (svc_retry (jw_outcome jw)) (we_rnd we) (attempt r)))).
Proof.
  intros Hb Hp Ht Hq Hw Ha Hl Hs Htok Hr Hh Hm.
  destruct (run_outcome jw we job bs t r Hq Hw Ha Hl Hs Htok Hr Hh Hm) as (e & bs' & t' & r' & -> & Hr' & _ & Hlt & H).
  rewrite <- (verdict_execute jw we x job r Hb Hp Ht). exists r'. split; [done|]. split; [done|].
  destruct (execute jw we job) as [err|].
  - destruct H as (_ & Hst & Hpend & _). rewrite after_failure_settled in Hst. split; [done|]. intros Hpe. rewrite (Hpend Hpe).
    rewrite Hst in Hpe. unfold settled in Hpe. unfold after_failure. by destruct (_ || _).
  - destruct H as [_ ->]. done.
Qed.

End Execution.

(** ** A webhook whose target is overloaded *)

Definition busy_host : Webhook.Net := Webhook.mkNet
  (fun _ => Ok (Webhook.mkURL "https" false "example.com"))
  (fun _ => Error (ErrText "unable to parse IP"))
  (fun _ _ => Ok [Webhook.IP4 0x5db8d822])
  (fun _ _ => Ok (503, "busy", None))
  (fun _ req => ("GET", Webhook.Request_Header req, "")).

Definition hook_task : Task :=
  mkTask "t1" "webhook" None 0 3 (30 * Second) "" DefaultQueue (Some {["url" := "https://example.com/hook"]}) 5.
Definition hook_row : JobRow :=
  job_row (mkJob "h1" "acme" "" hook_task JobStateRunning 1 (Some demo_now) (Some demo_now) (Some (demo_now + Minute)) "tok" None "" None demo_now demo_now).
Definition hook_table : Jobs := {["h1" := hook_row]}.
Definition hook_executors : Executors := mkExecutors (Webhook.mkExecutor false 0) None true None.
Definition hook_worker : jobWorker := mkJobWorker demo_service {["webhook"; "sql.etl"]} (5 * Minute).
Definition hook_result : option error := (@Webhook.Handler latin1 busy_host (x_webhook hook_executors) None (scanJob hook_row)).1.

Lemma job_settles_witness :
  exists r', (Run hook_worker (demo_work hook_result "webhook: status 503: busy") (scanJob hook_row)
                (newTaskBreakers Breaker.breakerCfg {["webhook"; "sql.etl"]}) hook_table).2 !! "h1" = Some r' /\
    state r' = JobStatePending.
Proof.
  destruct (@job_settles latin1 busy_host Etl.plain_pgx hook_worker (demo_work hook_result "webhook: status 503: busy") hook_executors
    (scanJob hook_row) (newTaskBreakers Breaker.breakerCfg {["webhook"; "sql.etl"]}) hook_table hook_row) as (r' & Hr & _ & Hs & _).
  - reflexivity.
  - reflexivity.
  - split; [split; [intros _; vm_compute; discriminate|intros _; apply (bool_decide_unpack _); vm_compute; exact I]|].
    intros r H. vm_compute in H. injection H as <-. vm_compute. reflexivity.
  - apply demo_work_quiet.
  - vm_compute. reflexivity.
  - vm_compute. reflexivity.
  - reflexivity.
  - reflexivity.
  - vm_compute. discriminate.
  - reflexivity.
  - vm_compute. reflexivity.
  - vm_compute. reflexivity.
  - exists r'. split; [exact Hr|]. rewrite Hs. vm_compute. reflexivity.
Defined.
