(* ===== verification/Metrics.v ===== *)
(** * internal/metrics and the request middleware

    The registry of internal/metrics/metrics.go with the label every task name
    is folded into, and the chain RequestID, RequestLogger, Recovery,
    metricsMiddleware of internal/api around a handler that answers or panics.
    The vectors themselves are the Prometheus client's and are the interface
    [Prometheus]. *)

From Stdlib Require Import Floats.SpecFloat.
From S2P Require Import Prelude Models JobStore JobFacts Service GoStrings ScheduleStore Pages Keys Auth Retry.

(** ** The client library

    A vector has one child per tuple of label values, made the first time the
    tuple is asked for. *)

Class Prometheus := mkPrometheus {
  CounterVec : Type;
  HistogramVec : Type;
  GaugeVec : Type;
  new_counter : CounterVec;
  new_histogram : HistogramVec;
  new_gauge : GaugeVec;
  Inc : list string -> CounterVec -> CounterVec;
  Observe : list string -> float64 -> HistogramVec -> HistogramVec;
  SetGauge : list string -> Z -> GaugeVec -> GaugeVec;
  counter_value : CounterVec -> list string -> option Z;
  histogram_count : HistogramVec -> list string -> option Z;
  gauge_value : GaugeVec -> list string -> option Z
}.

(** One more on the child [l], which exists from then on. *)
Definition bump (v : option Z) : option Z := Some (default 0 v + 1).

Class PrometheusLaws `{Prometheus} := {
  counter_new l : counter_value new_counter l = None;
  counter_inc l v l' : counter_value (Inc l v) l' = if bool_decide (l = l') then bump (counter_value v l') else counter_value v l';
  histogram_new l : histogram_count new_histogram l = None;
  histogram_observe l x v l' :
    histogram_count (Observe l x v) l' = if bool_decide (l = l') then bump (histogram_count v l') else histogram_count v l';
  gauge_new l : gauge_value new_gauge l = None;
  gauge_set l x v l' : gauge_value (SetGauge l x v) l' = if bool_decide (l = l') then Some x else gauge_value v l'
}.

(** ** The registry *)

Definition TaskOther : string := "other".

Inductive counter := CEnqueued | CStarted | CCompleted | CFailed | CCancelled.

#[global] Instance counter_eq_dec : EqDecision counter.
Proof. solve_decision. Defined.

Record Registry `{Prometheus} := mkRegistry {
  JobEnqueued : CounterVec;
  JobStarted : CounterVec;
  JobCompleted : CounterVec;
  JobFailed : CounterVec;
  JobCancelled : CounterVec;
  JobDuration : HistogramVec;
  JobBacklog : GaugeVec;
  HTTPRequests : CounterVec;
  knownTasks : option (gset string)    (* a nil map until it is set *)
}.

Definition NewRegistry `{Prometheus} : Registry :=
  mkRegistry _ new_counter new_counter new_counter new_counter new_counter new_histogram new_gauge new_counter None.

Definition SetKnownTasks `{Prometheus} (names : list string) (r : Registry) : Registry :=
  mkRegistry _ (JobEnqueued r) (JobStarted r) (JobCompleted r) (JobFailed r) (JobCancelled r) (JobDuration r)
    (JobBacklog r) (HTTPRequests r) (Some (list_to_set (filter (fun n => n <> "") names))).

Definition TaskLabel `{Prometheus} (r : Registry) (task : string) : string :=
  match knownTasks r with
  | Some known => if bool_decide (task ∈ known) then task else TaskOther
  | None => TaskOther
  end.

Definition counter_of `{Prometheus} (k : counter) (r : Registry) : CounterVec :=
  match k with
  | CEnqueued => JobEnqueued r | CStarted => JobStarted r | CCompleted => JobCompleted r
  | CFailed => JobFailed r | CCancelled => JobCancelled r
  end.

Definition IncJobEnqueued `{Prometheus} (task : string) (r : Registry) : Registry :=
  mkRegistry _ (Inc [TaskLabel r task] (JobEnqueued r)) (JobStarted r) (JobCompleted r) (JobFailed r) (JobCancelled r)
    (JobDuration r) (JobBacklog r) (HTTPRequests r) (knownTasks r).
Definition IncJobStarted `{Prometheus} (task : string) (r : Registry) : Registry :=
  mkRegistry _ (JobEnqueued r) (Inc [TaskLabel r task] (JobStarted r)) (JobCompleted r) (JobFailed r) (JobCancelled r)
    (JobDuration r) (JobBacklog r) (HTTPRequests r) (knownTasks r).
Definition IncJobCompleted `{Prometheus} (task : string) (r : Registry) : Registry :=
  mkRegistry _ (JobEnqueued r) (JobStarted r) (Inc [TaskLabel r task] (JobCompleted r)) (JobFailed r) (JobCancelled r)
    (JobDuration r) (JobBacklog r) (HTTPRequests r) (knownTasks r).
Definition IncJobFailed `{Prometheus} (task : string) (r : Registry) : Registry :=
  mkRegistry _ (JobEnqueued r) (JobStarted r) (JobCompleted r) (Inc [TaskLabel r task] (JobFailed r)) (JobCancelled r)
    (JobDuration r) (JobBacklog r) (HTTPRequests r) (knownTasks r).
Definition IncJobCancelled `{Prometheus} (task : string) (r : Registry) : Registry :=
  mkRegistry _ (JobEnqueued r) (JobStarted r) (JobCompleted r) (JobFailed r) (Inc [TaskLabel r task] (JobCancelled r))
    (JobDuration r) (JobBacklog r) (HTTPRequests r) (knownTasks r).
Definition ObserveJobDuration `{Prometheus} (task : string) (seconds : float64) (r : Registry) : Registry :=
  mkRegistry _ (JobEnqueued r) (JobStarted r) (JobCompleted r) (JobFailed r) (JobCancelled r)
    (Observe [TaskLabel r task] seconds (JobDuration r)) (JobBacklog r) (HTTPRequests r) (knownTasks r).
Definition SetBacklog `{Prometheus} (st : string) (count : Z) (r : Registry) : Registry :=
  mkRegistry _ (JobEnqueued r) (JobStarted r) (JobCompleted r) (JobFailed r) (JobCancelled r) (JobDuration r)
    (SetGauge [st] count (JobBacklog r)) (HTTPRequests r) (knownTasks r).
Definition count_request `{Prometheus} (labels : list string) (r : Registry) : Registry :=
  mkRegistry _ (JobEnqueued r) (JobStarted r) (JobCompleted r) (JobFailed r) (JobCancelled r) (JobDuration r)
    (JobBacklog r) (Inc labels (HTTPRequests r)) (knownTasks r).

(** A call of the registry after boot. *)
Inductive call :=
  | Count (k : counter) (task : string)
  | Duration (task : string) (seconds : float64)
  | SetState (st : string) (n : Z)
  | Request (labels : list string).

Definition exec_call `{Prometheus} (c : call) (r : Registry) : Registry :=
  match c with
  | Count CEnqueued task => IncJobEnqueued task r
  | Count CStarted task => IncJobStarted task r
  | Count CCompleted task => IncJobCompleted task r
  | Count CFailed task => IncJobFailed task r
  | Count CCancelled task => IncJobCancelled task r
  | Duration task s => ObserveJobDuration task s r
  | SetState st n => SetBacklog st n r
  | Request labels => count_request labels r
  end.

Definition exec_calls `{Prometheus} (cs : list call) (r : Registry) : Registry := foldl (fun r c => exec_call c r) r cs.

(** ** The middleware chain *)

(** What the innermost handler does: it answers, or panics, possibly after the
    response was written. *)
Inductive handled :=
  | Answers (r : Response)
  | Panics (value : string) (written : option Response).

Inductive level := LInfo | LWarn | LError.

Inductive log_line :=
  | HttpRequest (lvl : level) (method path : string) (st : Z)
  | PanicRecovered (value method : string).

Record HttpReq := mkHttpReq {
  rq_method : string;
  rq_full_path : string;     (* the route's pattern, empty when none matched *)
  rq_ctx : Ctx
}.

(** The response so far and whether the stack is unwinding. *)
Definition metricsMiddleware `{Prometheus} (rq : HttpReq) (h : handled) (r : Registry) : Registry :=
  match h with
  | Answers resp => count_request [rq_method rq; rq_full_path rq; Itoa (status resp)] r
  | Panics _ _ => r
  end.

Definition Recovery (rq : HttpReq) (h : handled) : Response * list log_line :=
  match h with
  | Answers resp => (resp, [])
  | Panics v written =>
      (match written with
       | Some resp => resp
       | None => RespondError (rq_ctx rq) StatusInternalServerError "internal_error" ("panic: " +:+ v)
       end, [PanicRecovered v (rq_method rq)])
  end.

Definition RequestLogger (rq : HttpReq) (resp : Response) : log_line :=
  HttpRequest (if 500 <=? status resp then LError else if 400 <=? status resp then LWarn else LInfo)
    (rq_method rq) (rq_full_path rq) (status resp).

Definition middleware `{Prometheus} (rnd : option (list Z)) (now : Time) (handler : HttpReq -> handled)
    (rq : HttpReq) (r : Registry) : Response * list log_line * Registry :=
  let rq := mkHttpReq (rq_method rq) (rq_full_path rq) (RequestID rnd now (rq_ctx rq)) in
  let h := handler rq in
  let r' := metricsMiddleware rq h r in
  let '(resp, lines) := Recovery rq h in
  (resp, lines ++ [RequestLogger rq resp], r').

(** ** What the series are *)

Section Bounded.
Context `{PrometheusLaws}.

(** How often the calls count [l] on counter [k]. *)
Definition is_hit (label : string -> string) (k : counter) (l : string) (c : call) : bool :=
  match c with Count k' t => bool_decide (k' = k /\ label t = l) | _ => false end.

Definition hits (label : string -> string) (k : counter) (l : string) (cs : list call) : nat :=
  length (filter (fun c => is_hit label k l c = true) cs).

Definition plus_calls (v : option Z) (n : nat) : option Z :=
  match n with O => v | _ => Some (default 0 v + Z.of_nat n) end.

Lemma plus_calls_bump v n : plus_calls (bump v) n = plus_calls v (S n).
Proof. unfold bump. destruct n; cbn; [done|]. f_equal. lia. Qed.

Lemma exec_call_known c r : knownTasks (exec_call c r) = knownTasks r.
Proof. destruct c as [[]| | |]; done. Qed.

Lemma TaskLabel_known r r' t : knownTasks r = knownTasks r' -> TaskLabel r t = TaskLabel r' t.
Proof. unfold TaskLabel. by intros ->. Qed.

Lemma hits_ext f g k l cs : (forall t, f t = g t) -> hits f k l cs = hits g k l cs.
Proof.
  intros E. unfold hits. f_equal. apply list_filter_iff. intros [k' t| | |]; try done. cbn. by rewrite E.
Qed.

Lemma counters_exact cs r k l :
  counter_value (counter_of k (exec_calls cs r)) [l] = plus_calls (counter_value (counter_of k r) [l]) (hits (TaskLabel r) k l cs).
Proof.
  revert r. induction cs as [|c cs IH]; intros r; [done|]. cbn [exec_calls foldl].
  change (foldl _ ?x cs) with (exec_calls cs x). rewrite IH.
  rewrite (hits_ext _ (TaskLabel r)) by (intros; apply TaskLabel_known, exec_call_known).
  unfold hits at 2. rewrite filter_cons. case_decide as Hc.
  - destruct c as [k' t| | |]; try done. apply bool_decide_eq_true in Hc as [-> Hl]. cbn [length]. rewrite <- plus_calls_bump. f_equal.
    destruct k; cbn; rewrite counter_inc, bool_decide_true; by rewrite ?Hl.
  - f_equal. destruct c as [k' t| | |]; try (by destruct k).
    destruct (decide (k' = k)) as [->|Hk]; [|by destruct k', k].
    destruct k; cbn; rewrite counter_inc, bool_decide_false; try done; intros [= E]; apply Hc; by apply bool_decide_eq_true.
Qed.

Lemma label_bounded names r t : TaskLabel (SetKnownTasks names r) t ∈ TaskOther :: names.
Proof.
  unfold TaskLabel. cbn. case_bool_decide as Hin; [|left].
  apply elem_of_list_to_set, list_elem_of_filter in Hin as [_ ?]. by right.
Qed.

Lemma hits_bounded names r k l cs : hits (TaskLabel (SetKnownTasks names r)) k l cs <> 0%nat -> l ∈ TaskOther :: names.
Proof.
  unfold hits. destruct (filter _ _) as [|c cs'] eqn:E; [done|]. intros _.
  assert (Hc : c ∈ c :: cs') by left. rewrite <- E in Hc. apply list_elem_of_filter in Hc as [Hc _].
  destruct c as [k' t| | |]; try done. apply bool_decide_eq_true in Hc as [_ <-]. apply label_bounded.
Qed.

End Bounded.

(** Whatever task names callers send, a job counter has series only for
    the registered tasks and for other, at most one more than there are
    registered tasks; every increment lands in the series of its own task or,
    when that is not registered, in other, and the value of a series is the
    number of increments it received. *)
Theorem task_labels_bounded `{PrometheusLaws} (names : list string) (cs : list call) (k : counter) :
  let r := exec_calls cs (SetKnownTasks names NewRegistry) in
  let label := TaskLabel (SetKnownTasks names NewRegistry) in
  (forall t, label t = if bool_decide (t ∈ names /\ t <> "") then t else TaskOther) /\
  (forall l, counter_value (counter_of k r) [l]
     = if bool_decide (hits label k l cs = 0%nat) then None else Some (Z.of_nat (hits label k l cs))) /\
  (forall ls, NoDup ls -> Forall (fun l => is_Some (counter_value (counter_of k r) [l])) ls ->
     (length ls <= length names + 1)%nat).
Proof.
  intros r label.
  assert (Hval : forall l, counter_value (counter_of k r) [l]
     = if bool_decide (hits label k l cs = 0%nat) then None else Some (Z.of_nat (hits label k l cs))).
  { intros l. subst r. rewrite counters_exact. fold label.
    assert (counter_value (counter_of k (SetKnownTasks names NewRegistry)) [l] = None) as -> by (destruct k; apply counter_new).
    by destruct (hits label k l cs). }
  split_and!; [|exact Hval|].
  - intros t. unfold label, TaskLabel. cbn.
    erewrite bool_decide_ext; [done|]. rewrite elem_of_list_to_set, list_elem_of_filter. tauto.
  - intros ls Hdup Hls. assert (Hsub : ls ⊆ TaskOther :: names).
    { intros l Hl. rewrite Forall_forall in Hls. specialize (Hls l Hl) as Hs. rewrite Hval in Hs.
      case_bool_decide as Hh; [by destruct Hs|]. by apply (hits_bounded names NewRegistry k l cs). }
    pose proof (submseteq_length _ _ (NoDup_submseteq _ _ Hdup Hsub)) as Hlen. cbn in Hlen. lia.
Qed.

(** A client that keeps its children in a finite map. *)
Definition map_client : Prometheus :=
  mkPrometheus (gmap (list string) Z) (gmap (list string) Z) (gmap (list string) Z) ∅ ∅ ∅
    (fun l => partial_alter bump l) (fun l _ => partial_alter bump l) (fun l x v => <[l := x]> v)
    (fun v l => v !! l) (fun v l => v !! l) (fun v l => v !! l).

Lemma map_client_laws : @PrometheusLaws map_client.
Proof.
  split; cbn; intros; try apply lookup_empty; case_bool_decide as E; subst;
    rewrite ?lookup_partial_alter_eq, ?lookup_insert_eq, ?lookup_partial_alter_ne, ?lookup_insert_ne by done; done.
Qed.

Lemma task_labels_bounded_witness :
  let r := @exec_calls map_client [Count CFailed "typo"; Count CFailed "sql.etl"; Count CFailed "tpyo"]
    (SetKnownTasks ["webhook"; "sql.etl"] (@NewRegistry map_client)) in
  @counter_value map_client (counter_of CFailed r) ["other"] = Some 2 /\
  @counter_value map_client (counter_of CFailed r) ["typo"] = None.
Proof.
  pose proof (@task_labels_bounded map_client map_client_laws ["webhook"; "sql.etl"]
    [Count CFailed "typo"; Count CFailed "sql.etl"; Count CFailed "tpyo"] CFailed) as (_ & H & _).
  split; rewrite H; by vm_compute.
Defined.

(** ** Requests *)

(** A request counts on http_requests_total exactly when its handler answered;
    one that panicked is answered 500 unless something was written already,
    logged, and not counted. *)
Lemma middleware_cases `{Prometheus} rnd now handler rq (r : Registry) :
  let rq' := mkHttpReq (rq_method rq) (rq_full_path rq) (RequestID rnd now (rq_ctx rq)) in
  let '(resp, lines, r') := middleware rnd now handler rq r in
  match handler rq' with
  | Answers resp' => resp = resp' /\ r' = count_request [rq_method rq; rq_full_path rq; Itoa (status resp')] r
  | Panics v written =>
      r' = r /\ PanicRecovered v (rq_method rq) ∈ lines /\
      (written = None -> status resp = 500) /\ (forall w, written = Some w -> resp = w)
  end.
Proof.
  unfold middleware. cbn. destruct (handler _) as [resp|v [w|]]; cbn; [done|..].
  - split_and!; [done|left|done|by intros ? [= <-]].
  - split_and!; [done|left|done|done].
Qed.

(** gin's answer to a request no route matches. *)
Definition no_route (rq : HttpReq) : handled := Answers (mkResponse StatusNotFound BodyNone).

Definition serve_all `{Prometheus} (rqs : list HttpReq) (r : Registry) : Registry :=
  foldl (fun r rq => (middleware None 0 no_route rq r).2) r rqs.

Definition bogus (n : nat) : HttpReq := mkHttpReq (String.concat "" (replicate (S n) "X")) "" (mkCtx "" "" None None).

Lemma counted_requests `{PrometheusLaws} rqs (r : Registry) l :
  counter_value (HTTPRequests (serve_all rqs r)) l
    = plus_calls (counter_value (HTTPRequests r) l)
        (length (filter (fun rq => [rq_method rq; rq_full_path rq; "404"] = l) rqs)).
Proof.
  revert r. induction rqs as [|rq rqs IH]; intros r; [done|]. cbn [serve_all foldl].
  change (foldl _ ?x rqs) with (serve_all rqs x). rewrite IH. cbn [middleware].
  change (HTTPRequests (middleware None 0 no_route rq r).2) with (Inc [rq_method rq; rq_full_path rq; "404"] (HTTPRequests r)).
  rewrite counter_inc, filter_cons. case_bool_decide as E; [rewrite decide_True by done|by rewrite decide_False].
  cbn [length]. by rewrite plus_calls_bump.
Qed.

Lemma bogus_method n m : rq_method (bogus n) = rq_method (bogus m) -> n = m.
Proof.
  intros E%(f_equal String.length). unfold bogus in E. cbn [rq_method] in E.
  assert (Hl : forall n, String.length (String.concat "" (replicate n "X")) = n); [|rewrite !Hl in E; lia].
  intros k. induction k as [|[|k] IH]; [done|done|].
  change (String.concat "" (replicate (S (S k)) "X")) with ("X" +:+ "" +:+ String.concat "" (replicate (S k) "X")).
  rewrite !append_length, IH. done.
Qed.

(** The method label of http_requests_total is the caller's: for any n, n
    requests that match no route and differ in their method leave n series,
    each counting one. *)
Theorem request_series_unbounded `{PrometheusLaws} (n : nat) :
  let r := serve_all (map bogus (seq 0 n)) NewRegistry in
  forall i, (i < n)%nat -> counter_value (HTTPRequests r) [rq_method (bogus i); ""; "404"] = Some 1.
Proof.
  intros r i Hi. subst r. rewrite counted_requests. cbn [HTTPRequests NewRegistry]. rewrite counter_new.
  assert (Hf : filter (fun rq => [rq_method rq; rq_full_path rq; "404"] = [rq_method (bogus i); ""; "404"]) (map bogus (seq 0 n))
    = [bogus i]); [|by rewrite Hf].
  assert (Hs : seq 0 n = seq 0 i ++ i :: seq (S i) (n - S i)).
  { replace n with (i + S (n - S i))%nat at 1 by lia. by rewrite seq_app. }
  assert (Hnone : forall l, i ∉ l ->
    filter (fun rq => [rq_method rq; rq_full_path rq; "404"] = [rq_method (bogus i); ""; "404"]) (map bogus l) = []).
  { induction l as [|j l IH]; intros Hin; [done|]. cbn [map]. rewrite filter_cons_False; [apply IH; set_solver|].
    intros [= E%bogus_method]. set_solver. }
  rewrite Hs, map_app. cbn [map]. rewrite filter_app, filter_cons_True by done.
  rewrite !Hnone by (rewrite elem_of_seq; lia). done.
Qed.

Lemma request_series_unbounded_witness :
  @counter_value map_client (HTTPRequests (@serve_all map_client (map bogus (seq 0 50)) (@NewRegistry map_client)))
    [rq_method (bogus 7); ""; "404"] = Some 1.
Proof. apply (@request_series_unbounded map_client map_client_laws 50 7). lia. Defined.
