(* ===== verification/Server.v ===== *)
(** * cmd/server/main.go: the commands, the keys command and the readiness probe

    [main] chooses a command and an exit code; [runKeys] drives the key store
    of Keys.v from the command line; [readinessHandler] answers from a probe or
    from the snapshot of a recent one.  The end-to-end life of a key, from the
    command line to a request, is proved against Auth.v. *)

From S2P Require Import Prelude Models JobStore JobFacts Service Calendar GoStrings GoText ScheduleStore Pages Keys Auth.

(** ** RFC 3339 in UTC *)

Fixpoint pad_zero (width : nat) (s : string) : string :=
  match width with
  | O => s
  | S w => if (String.length s <=? w)%nat then "0" +:+ pad_zero w s else s
  end.

Definition two (n : Z) : string := pad_zero 2 (Itoa n).

(** [t.UTC().Format(time.RFC3339)] for the years 0 to 9999. *)
Definition Format_RFC3339 (t : Time) : string :=
  pad_zero 4 (Itoa (Year t)) +:+ "-" +:+ two (Month t) +:+ "-" +:+ two (Day t) +:+ "T"
  +:+ two (Hour_of t) +:+ ":" +:+ two (Minute_of t) +:+ ":" +:+ two (secs t mod 60) +:+ "Z".

Example format_of_a_time : Format_RFC3339 (ofUnix 1700000000) = "2023-11-14T22:13:20Z".
Proof. reflexivity. Qed.

(** ** The keys command *)

Definition nl : string := String (ascii_of_N 10) "".

Definition keysUsage : string := "usage: conduit keys create <tenant> [name] | list | revoke <id>".

(** What a command prints, by the arguments of its Printf; the rows are those
    given to the tabwriter. *)
Inductive output :=
  | CreatedKey (id tenant key : string)
  | Rows (rows : list (list string))
  | RevokedKey (id : string).

(** The round trips of the command and the randomness it draws. *)
Record CliEnv := mkCliEnv {
  ce_boot : option error;             (* bootstrap's error *)
  ce_env : Env KeyTable;
  ce_rnd : option (list Z);
  ce_raw : option (list Z);
  ce_flush : option error             (* of the tabwriter *)
}.

Definition render (o : output) : string :=
  match o with
  | CreatedKey id tenant key =>
      "id:     " +:+ id +:+ nl +:+ "tenant: " +:+ tenant +:+ nl +:+ "key:    " +:+ key +:+ nl +:+ nl
      +:+ "the key is not stored, so copy it now" +:+ nl
  | Rows rows => String.concat "" (map (fun cells => Join cells (String (ascii_of_N 9) "") +:+ nl) rows)
  | RevokedKey id => "revoked " +:+ id +:+ nl
  end.

Definition list_row (k : APIKey) : list string :=
  [APIKey_ID k; APIKey_TenantID k; APIKey_Name k; Format_RFC3339 (APIKey_CreatedAt k);
   match APIKey_RevokedAt k with Some t => Format_RFC3339 t | None => "-" end].

Definition runKeys (ce : CliEnv) (args : list string) (t : KeyTable) : option error * list output * KeyTable :=
  match args with
  | [] => (Some (ErrText keysUsage), [], t)
  | cmd :: rest =>
      match ce_boot ce with
      | Some e => (Some e, [], t)
      | None =>
          let usage := (Some (ErrText keysUsage), [], t) in
          if bool_decide (cmd = "create") then
            match rest with
            | [tenant] | [tenant; _] =>
                let name := match rest with [_; n] => n | _ => "" end in
                match CreateKey (ce_env ce) (ce_rnd ce) (ce_raw ce) tenant name t with
                | (Error e, t1) => (Some e, [], t1)
                | (Ok (id, key), t1) => (None, [CreatedKey id tenant key], t1)
                end
            | _ => usage
            end
          else if bool_decide (cmd = "list") then
            match rest with
            | [] =>
                match ListKeys (ce_env ce) t with
                | (Error e, t1) => (Some e, [], t1)
                | (Ok l, t1) => (ce_flush ce, [Rows (["ID"; "TENANT"; "NAME"; "CREATED"; "REVOKED"] :: map list_row l)], t1)
                end
            | _ => usage
            end
          else if bool_decide (cmd = "revoke") then
            match rest with
            | [id] =>
                match RevokeKey (ce_env ce) id t with
                | (Error e, t1) => (Some e, [], t1)
                | (Ok _, t1) => (None, [RevokedKey id], t1)
                end
            | _ => usage
            end
          else usage
      end
  end.

(** ** The commands *)

Inductive Command := CServe | CMigrate | CKeys (args : list string) | CUnknown (name : string).

(** [argv] without the program's name. *)
Definition parse_command (argv : list string) : Command :=
  match argv with
  | [] => CServe
  | cmd :: rest =>
      if bool_decide (cmd = "serve") then CServe
      else if bool_decide (cmd = "migrate") then CMigrate
      else if bool_decide (cmd = "keys") then CKeys rest
      else CUnknown cmd
  end.

Definition exit_code (err : option error) : Z :=
  match err with
  | Some e => if negb (errors_Is e ErrCanceled) then 1 else 0
  | None => 0
  end.

(** [run] and [runMigrations] by what they return. *)
Definition main (run_err migrate_err : option error) (ce : CliEnv) (argv : list string) (t : KeyTable)
    : Z * list output * KeyTable :=
  match parse_command argv with
  | CServe => (exit_code run_err, [], t)
  | CMigrate => (exit_code migrate_err, [], t)
  | CKeys args => let '(err, out, t1) := runKeys ce args t in (exit_code err, out, t1)
  | CUnknown _ => (2, [], t)
  end.

(** ** Readiness *)

Definition readinessCacheTTL : Dur := 2 * Second.

Definition StatusServiceUnavailable : Z := 503.

(** The pings of one probe: an error's text, or nothing. *)
Record Probe := mkProbe { pg_ping : option string; redis_pings : list (option string) }.

Record Ready := mkReady { rd_status : Z; rd_verdict : string; rd_checks : gmap string string }.

Definition redis_key (i : nat) : string := "redis[" +:+ Itoa (Z.of_nat i) +:+ "]".

Definition alive (pings : list (option string)) : nat := length (filter (fun p => p = None) pings).

Definition quorum (n : nat) : nat := (n / 2 + 1)%nat.

Fixpoint redis_checks (i : nat) (pings : list (option string)) (checks : gmap string string) : gmap string string :=
  match pings with
  | [] => checks
  | p :: rest => redis_checks (i + 1) rest (<[redis_key i := default "ok" p]> checks)
  end.

Definition evaluate (p : Probe) : Ready :=
  let n := length (redis_pings p) in
  let a := alive (redis_pings p) in
  let pg_ok := bool_decide (pg_ping p = None) in
  let checks := redis_checks 0 (redis_pings p) {["postgres" := default "ok" (pg_ping p)]} in
  let lost := (1 <=? n)%nat && (a <? quorum n)%nat in
  let checks := if lost then
      <["redis_quorum" := Itoa (Z.of_nat a) +:+ "/" +:+ Itoa (Z.of_nat n) +:+ " (need " +:+ Itoa (Z.of_nat (quorum n)) +:+ ")"]> checks
    else checks in
  if pg_ok && negb lost then mkReady StatusOK "ready" checks
  else mkReady StatusServiceUnavailable "not_ready" checks.

(** The snapshot, with the zero time for none. *)
Record Snapshot := mkSnapshot { sn_answer : Ready; sn_expires : Time }.

(** Up to the first Unlock: a fresh snapshot answers. *)
Definition cached (now : Time) (s : Snapshot) : option Ready :=
  if negb (IsZero (sn_expires s)) && Before now (sn_expires s) then Some (sn_answer s) else None.

(** From the end of the probe on. *)
Definition store_probe (now : Time) (p : Probe) : Snapshot := mkSnapshot (evaluate p) (Add now readinessCacheTTL).

(** Requests interleave: one begins, and is answered or starts a probe; a probe
    comes back, in any order. *)
Inductive ready_event :=
  | Arrive (i : nat) (now : Time)
  | Probed (i : nat) (p : Probe).

Record ReadySys := mkReadySys {
  snapshot : Snapshot;
  probing : gmap nat Time;
  answers : list (Time * Ready)
}.

Definition ready_step (s : ReadySys) (e : ready_event) : ReadySys :=
  match e with
  | Arrive i now =>
      match cached now (snapshot s) with
      | Some r => mkReadySys (snapshot s) (probing s) ((now, r) :: answers s)
      | None => mkReadySys (snapshot s) (<[i := now]> (probing s)) (answers s)
      end
  | Probed i p =>
      match probing s !! i with
      | None => s
      | Some now =>
          mkReadySys (store_probe now p) (delete i (probing s)) ((now, evaluate p) :: answers s)
      end
  end.

Definition ready_run (es : list ready_event) (s : ReadySys) : ReadySys := foldl ready_step s es.

Definition ready_start : ReadySys := mkReadySys (mkSnapshot (mkReady 0 "" ∅) 0) ∅ [].

(** ** Readiness is fresh *)

(** An answer that a probe of the trace, begun at [t0], gave. *)
Definition probed_at (es : list ready_event) (t0 : Time) (r : Ready) : Prop :=
  exists i p, Arrive i t0 ∈ es /\ Probed i p ∈ es /\ r = evaluate p.

Record ready_ok (es : list ready_event) (s : ReadySys) : Prop := {
  snapshot_probed : sn_expires (snapshot s) <> 0 ->
    exists t0, probed_at es t0 (sn_answer (snapshot s)) /\ sn_expires (snapshot s) = t0 + readinessCacheTTL;
  probing_arrived : forall i t0, probing s !! i = Some t0 -> Arrive i t0 ∈ es;
  answers_fresh : Forall (fun a => exists t0, probed_at es t0 a.2 /\ a.1 < t0 + readinessCacheTTL) (answers s)
}.

Lemma probed_at_more es e t0 r : probed_at es t0 r -> probed_at (es ++ [e]) t0 r.
Proof. intros (i & p & ? & ? & ->). exists i, p. rewrite !elem_of_app. eauto. Qed.

Lemma ready_ok_more es e s : ready_ok es s -> ready_ok (es ++ [e]) s.
Proof.
  intros [H1 H2 H3]. split.
  - intros Hz. destruct (H1 Hz) as (t0 & ? & ?). eauto using probed_at_more.
  - intros i t0 Hi. apply elem_of_app. eauto.
  - eapply Forall_impl; [exact H3|]. intros a (t0 & ? & ?). eauto using probed_at_more.
Qed.

Lemma ready_step_ok es e s : ready_ok es s -> ready_ok (es ++ [e]) (ready_step s e).
Proof.
  intros Hok%(ready_ok_more _ e). destruct Hok as [H1 H2 H3]. destruct e as [i now|i p]; cbn.
  - unfold cached, IsZero, Before. destruct (Z.eqb_spec (sn_expires (snapshot s)) 0) as [Hz|Hz]; cbn.
    + split; cbn; [done| |done]. intros j t0. rewrite lookup_insert_Some.
      intros [[<- <-]|[_ ?]]; [|by apply H2]. apply elem_of_app. right. left.
    + destruct (Z.ltb_spec now (sn_expires (snapshot s))) as [Hlt|Hge].
      * split; cbn; [done|done|]. constructor; [|done]. destruct (H1 Hz) as (t0 & ? & E). exists t0. cbn.
        split; [done|lia].
      * split; cbn; [done| |done]. intros j t0. rewrite lookup_insert_Some.
        intros [[<- <-]|[_ ?]]; [|by apply H2]. apply elem_of_app. right. left.
  - destruct (probing s !! i) as [now|] eqn:Hi; [|by split].
    assert (Hp : probed_at (es ++ [Probed i p]) now (evaluate p)).
    { exists i, p. split; [by apply H2|]. split; [apply elem_of_app; right; left|done]. }
    split; cbn.
    + intros _. by exists now.
    + intros j t0. rewrite lookup_delete_Some. intros [_ ?]. by apply H2.
    + constructor; [|done]. exists now. cbn. split; [done|]. unfold readinessCacheTTL, Second. lia.
Qed.

Lemma ready_run_ok es1 es2 s : ready_ok es1 s -> ready_ok (es1 ++ es2) (ready_run es2 s).
Proof.
  revert es1 s. induction es2 as [|e es2 IH]; intros es1 s Hok; [by rewrite app_nil_r|].
  change (es1 ++ e :: es2) with (es1 ++ [e] ++ es2). rewrite app_assoc. apply IH. by apply ready_step_ok.
Qed.

Lemma quorum_majority n a : (quorum n <= a)%nat <-> (n < 2 * a)%nat.
Proof. unfold quorum. pose proof (Nat.div_mod_eq n 2). pose proof (Nat.mod_upper_bound n 2). lia. Qed.

(** Ready means Postgres answers, and a majority of the Redis nodes does when
    there are any. *)
Lemma evaluate_status p : (rd_status (evaluate p) = StatusOK <->
    pg_ping p = None /\ (redis_pings p = [] \/ (length (redis_pings p) < 2 * alive (redis_pings p))%nat)) /\
  (rd_status (evaluate p) = StatusOK \/ rd_status (evaluate p) = StatusServiceUnavailable).
Proof.
  unfold evaluate. rewrite <- quorum_majority. set (n := length _). set (a := alive _).
  assert (Hn : redis_pings p = [] <-> n = 0%nat) by (unfold n; destruct (redis_pings p); done).
  assert (Hlost : (1 <=? n)%nat && (a <? quorum n)%nat = false <-> redis_pings p = [] \/ (quorum n <= a)%nat).
  { rewrite Hn, andb_false_iff, Nat.leb_gt, Nat.ltb_ge. lia. }
  destruct (_ && _); case_bool_decide as Hpg; cbn; (split; [|by auto]); rewrite <- Hlost;
    (split; [intros E|intros [E1 E2]]); done.
Qed.

(** Whatever the interleaving of readiness requests and returning probes,
    every answer is the verdict of some probe that began less than two seconds
    before the request it answers; it is 200 exactly when in that probe
    Postgres answered and, if there are Redis nodes, a majority of them did,
    and 503 otherwise. *)
Theorem readiness_fresh (es : list ready_event) :
  Forall (fun a => exists i t0 p, Arrive i t0 ∈ es /\ Probed i p ∈ es /\ a.1 < t0 + 2 * Second /\
      a.2 = evaluate p /\
      rd_status a.2 = (if bool_decide (pg_ping p = None /\
        (redis_pings p = [] \/ (length (redis_pings p) < 2 * alive (redis_pings p))%nat)) then 200 else 503))
    (answers (ready_run es ready_start)).
Proof.
  assert (Hok : ready_ok ([] ++ es) (ready_run es ready_start)).
  { apply ready_run_ok. split; cbn; [done|intros; set_solver|constructor]. }
  eapply Forall_impl; [exact (answers_fresh _ _ Hok)|]. intros [t r] (t0 & (i & p & Ha & Hp & ->) & Ht).
  exists i, t0, p. split_and!; [done..|]. destruct (evaluate_status p) as [Hiff Hor]. cbn in *.
  case_bool_decide as Hc; [by apply Hiff|]. destruct Hor as [Hs|Hs]; [by apply Hiff in Hs|done].
Qed.

(** ** The life of a key *)

Lemma CreateKey_nonempty env rnd raw tenant name t id key t' :
  CreateKey env rnd raw tenant name t = (Ok (id, key), t') -> key <> "".
Proof.
  unfold CreateKey. repeat case_match; try done. intros [= <- <- <-]. done.
Qed.

(** Admission by an issued key, and what its revocation leaves. *)
Lemma live_key_admits (ae : AuthEnv KeyTable) keys c t id row :
  keys_ok t -> quiet (ae_tenant ae) -> t !! id = Some row -> live row = true ->
  k_key_hash row = hashKey (bearerToken (ctx_Authorization c)) ->
  bearerToken (ctx_Authorization c) <> "" -> bearerToken (ctx_Authorization c) ∉ keys ->
  (APIKeyAuth keys true ae c t).1 = Proceed (set_ctx_tenant (k_tenant_id row) c).
Proof.
  intros Hok [Hq Hf] Hrow Hlive Hhash Hne Hnin. unfold APIKeyAuth, str_nonempty. set (p := bearerToken _) in *.
  rewrite bool_decide_false by done. cbn [negb].
  destruct (matches_any p keys) eqn:Em; [by apply matches_any_iff in Em|].
  rewrite (tenant_hit (ae_tenant ae) p (k_tenant_id row) t); rewrite ?Hq; [done|done|done|].
  exists id, row. split_and!; [done| |done]. unfold live_with. by rewrite bool_decide_true, Hlive.
Qed.

Lemma dead_key_falls_through (ae : AuthEnv KeyTable) keys c t id row :
  keys_ok t -> quiet (ae_tenant ae) -> quiet (ae_active ae) -> t !! id = Some row -> live row = false ->
  k_key_hash row = hashKey (bearerToken (ctx_Authorization c)) ->
  bearerToken (ctx_Authorization c) ∉ keys ->
  (keys <> [] \/ kl_live t -> exists r, (APIKeyAuth keys true ae c t).1 = Abort r /\ status r = StatusUnauthorized) /\
  (keys = [] -> ~ kl_live t -> (APIKeyAuth keys true ae c t).1 = Proceed (set_ctx_tenant DefaultTenant c)).
Proof.
  intros Hok [Hq Hf] [Hq2 Hf2] Hrow Hdead Hhash Hnin.
  rewrite auth_unrecognised; [|done|done|done|].
  2: { right. split; [done|]. intros _ tn (k & r & Hr & Hl & _). unfold live_with in Hl. zbool.
       assert (k = id) by (eapply (keys_hash t); eauto; congruence). simplify_eq. congruence. }
  unfold auth_open. destruct (active_total (ae_active ae) t Hf2) as [b Hb]. rewrite Hb.
  apply active_found in Hb as [_ Hb]. rewrite Hq2 in Hb. case_bool_decide as Hk; cbn [andb].
  - split.
    + intros [?|Hlv]; [done|]. apply Hb in Hlv as ->. by eexists.
    + intros _ Hl. destruct b; [|done]. by destruct Hl; apply Hb.
  - split; [|done]. intros _. by eexists.
Qed.

(** C40. A key from the command line to a request.  The key that keys create
    prints is not stored and lets its bearer in for the tenant it was issued
    to, on any instance where it is not itself a configured key.  After keys
    revoke its bearer is refused with 401 if the instance has a configured key
    or some live one is left; if the instance has no configured key and that
    was the last live one, every request, the bearer's included, acts for the
    default tenant. *)
Theorem key_from_command_line (ce ce' : CliEnv) (ae : AuthEnv KeyTable) (keys : list string)
    (c : Ctx) (tenant id key : string) (t t1 : KeyTable) :
  keys_ok t -> honest (ce_env ce) -> honest (ce_env ce') -> quiet (ae_tenant ae) -> quiet (ae_active ae) ->
  runKeys ce ["create"; tenant] t = (None, [CreatedKey id tenant key], t1) ->
  bearerToken (ctx_Authorization c) = key -> key ∉ keys ->
  (APIKeyAuth keys true ae c t1).1 = Proceed (set_ctx_tenant tenant c) /\
  (forall out t2, runKeys ce' ["revoke"; id] t1 = (None, out, t2) ->
     (keys <> [] \/ kl_live t2 ->
        exists r, (APIKeyAuth keys true ae c t2).1 = Abort r /\ status r = StatusUnauthorized) /\
     (keys = [] -> ~ kl_live t2 -> (APIKeyAuth keys true ae c t2).1 = Proceed (set_ctx_tenant DefaultTenant c))).
Proof.
  intros Hok Hh Hh' Hq1 Hq2 Hrun Hb Hnin. unfold runKeys in Hrun. cbn in Hrun.
  destruct (ce_boot ce); [done|].
  destruct (CreateKey _ _ _ _ _ _) as [[[id' key']|e] t1'] eqn:Hc; [|done]. injection Hrun as -> -> ->.
  assert (Hok1 : keys_ok t1).
  { eapply kreach_ok; [exact Hok|].
    replace t1 with (kexec (KCreate (ce_env ce) (ce_rnd ce) (ce_raw ce) tenant "") t) by (cbn; by rewrite Hc).
    by apply kexec_reach. }
  pose proof (CreateKey_nonempty _ _ _ _ _ _ _ _ _ Hc) as Hne.
  apply CreateKey_Ok in Hc as (_ & _ & Ht1).
  set (row := mkKeyRow id tenant "" (hashKey key) (NOW (ce_env ce)) None) in *.
  assert (Hrow : t1 !! id = Some row) by (subst t1; apply lookup_insert_eq).
  split; [apply (live_key_admits ae keys c t1 id row); by rewrite ?Hb|].
  intros out t2 Hrev. unfold runKeys in Hrev. cbn in Hrev. destruct (ce_boot ce'); [done|].
  destruct (RevokeKey _ _ _) as [[[]|e] t2'] eqn:Hr; [|done]. injection Hrev as <- <-.
  assert (Hok2 : keys_ok t2').
  { eapply kreach_ok; [exact Hok1|].
    replace t2' with (kexec (KRevoke (ce_env ce') id) t1) by (cbn; by rewrite Hr). by apply kexec_reach. }
  apply RevokeKey_Ok in Hr as (row' & Hrow' & _ & Ht2).
  destruct (kreach_row t1 _ id row (Hh' t1) Hrow) as (row'' & Hrow'' & _ & Hhash & _).
  assert (row'' = row') as -> by congruence. rewrite Ht2 in Hok2 |- *.
  apply (dead_key_falls_through ae keys c _ id (revoke_row (NOW (ce_env ce')) row'));
    [done|done|done|apply lookup_insert_eq|done| |by rewrite Hb]. cbn. by rewrite Hhash, Hb.
Qed.

Definition demo_cli (now : Z) : CliEnv := mkCliEnv None (calm_k (ofUnix now)) (Some [1]) (Some [2]) None.

(** The only key of an instance without configured ones, issued and revoked:
    its bearer now acts for the default tenant. *)
Definition demo_issued : KeyTable := (runKeys (demo_cli 1700000000) ["create"; "acme"] ∅).2.
Definition demo_withdrawn : KeyTable := (runKeys (demo_cli 1700000009) ["revoke"; demo_key.1] demo_issued).2.

Lemma key_from_command_line_witness :
  (APIKeyAuth [] true demo_auth_env (demo_ctx ("Bearer " +:+ demo_key.2)) demo_issued).1
    = Proceed (set_ctx_tenant "acme" (demo_ctx ("Bearer " +:+ demo_key.2))) /\
  (APIKeyAuth [] true demo_auth_env (demo_ctx ("Bearer " +:+ demo_key.2)) demo_withdrawn).1
    = Proceed (set_ctx_tenant DefaultTenant (demo_ctx ("Bearer " +:+ demo_key.2))).
Proof.
  destruct (key_from_command_line (demo_cli 1700000000) (demo_cli 1700000009) demo_auth_env []
    (demo_ctx ("Bearer " +:+ demo_key.2)) "acme" demo_key.1 demo_key.2 ∅ demo_issued) as [Hin Hrev].
  - apply keys_ok_empty.
  - apply calm_honest.
  - apply calm_honest.
  - apply calm_quiet.
  - apply calm_quiet.
  - vm_compute. reflexivity.
  - vm_compute. reflexivity.
  - set_solver.
  - split; [exact Hin|].
    apply (Hrev [RevokedKey demo_key.1] demo_withdrawn); [vm_compute; reflexivity|reflexivity|].
    assert (Hd : map_Forall (fun _ r => live r = false) demo_withdrawn)
      by (apply (bool_decide_unpack _); vm_compute; exact I).
    intros (k & r & Hr & Hl). rewrite (Hd k r Hr) in Hl. discriminate.
Defined.

(** ** Exit codes *)

Definition keys_args_ok (args : list string) : bool :=
  match args with
  | cmd :: rest =>
      (bool_decide (cmd = "create") && ((length rest =? 1)%nat || (length rest =? 2)%nat))
      || (bool_decide (cmd = "list") && (length rest =? 0)%nat)
      || (bool_decide (cmd = "revoke") && (length rest =? 1)%nat)
  | [] => false
  end.

(** Arguments that are none of the documented forms touch nothing. *)
Lemma malformed_keys_command ce args t : keys_args_ok args = false ->
  exists e, runKeys ce args t = (Some e, [], t) /\ (ce_boot ce = None -> e = ErrText keysUsage).
Proof.
  destruct args as [|cmd rest]; [by eexists|]. unfold keys_args_ok, runKeys. intros Hargs.
  destruct (ce_boot ce); [by eexists|].
  case_bool_decide as H1; [destruct rest as [|? [|? [|? ?]]]; first [by subst|by eexists]|].
  case_bool_decide as H2; [destruct rest; first [by subst|by eexists]|].
  case_bool_decide as H3; [|by eexists].
  destruct rest as [|? [|? ?]]; first [by subst|by eexists].
Qed.

(** The process exits 2 exactly on a command it does not know and 0 or 1
    otherwise: 0 when the command returned no error or was cancelled, 1 on any
    other error; a keys command that prints a key or a revocation exits 0, and
    one that exits otherwise, list apart, prints nothing. *)
Theorem exit_codes (run_err migrate_err : option error) (ce : CliEnv) (argv : list string) (t : KeyTable) :
  let '(code, out, t1) := main run_err migrate_err ce argv t in
  (code = 0 \/ code = 1 \/ code = 2) /\
  (code = 2 <-> exists cmd, parse_command argv = CUnknown cmd) /\
  (parse_command argv = CServe -> (code = 0 <-> forall e, run_err = Some e -> errors_Is e ErrCanceled = true)) /\
  (forall args, parse_command argv = CKeys args ->
     (keys_args_ok args = false -> out = [] /\ t1 = t) /\
     (forall id tn key, CreatedKey id tn key ∈ out -> code = 0) /\ (forall id, RevokedKey id ∈ out -> code = 0)).
Proof.
  unfold main. assert (Hx : forall e, exit_code e = 0 \/ exit_code e = 1).
  { intros [e|]; cbn; [destruct (errors_Is e _); cbn; auto|auto]. }
  assert (Hn2 : forall e, exit_code e <> 2) by (intros e; destruct (Hx e) as [-> | ->]; done).
  destruct (parse_command argv) as [| |args|cmd].
  - split_and!; [destruct (Hx run_err); auto| | |done].
    + split; [intros E; by apply Hn2 in E|by intros [? ?]].
    + intros _. destruct run_err as [e|]; cbn; [|by split; [intros _ ? ?|]].
      destruct (errors_Is e ErrCanceled) eqn:E; cbn; split; intros H; try done.
      * by intros ? [= <-].
      * specialize (H e eq_refl). congruence.
  - split_and!; [destruct (Hx migrate_err); auto| |done|done].
    split; [intros E; by apply Hn2 in E|by intros [? ?]].
  - destruct (runKeys ce args t) as [[err out] t1] eqn:Hrun. split_and!; [destruct (Hx err); auto| |done|].
    { split; [intros E; by apply Hn2 in E|by intros [? ?]]. }
    intros args' [= <-]. split.
    { intros Ha. destruct (malformed_keys_command ce args t Ha) as (e & He & _). rewrite He in Hrun. by simplify_eq. }
    revert Hrun. unfold runKeys. repeat case_match; intros [= <- <- <-]; split; intros *;
      rewrite ?list_elem_of_singleton; try done; intros ?%not_elem_of_nil; done.
  - split_and!; [auto|split; [by eexists|done]|done|done].
Qed.

(** A probe whose own request was cancelled is an answer like any other: for two
    seconds it is what the others get. *)
Lemma cancelled_probe_is_served (t t' : Time) pings r :
  t + readinessCacheTTL <> 0 -> t' < t + readinessCacheTTL ->
  r = evaluate (mkProbe (Some "context canceled") pings) ->
  answers (ready_run [Arrive 1 t; Probed 1 (mkProbe (Some "context canceled") pings); Arrive 2 t'] ready_start)
    = [(t', r); (t, r)] /\ rd_status r = StatusServiceUnavailable.
Proof.
  intros Hz Ht ->. split; [|done]. cbn [ready_run foldl]. unfold ready_step at 3. cbn.
  rewrite lookup_insert_eq. cbn [ready_step]. unfold cached, store_probe, IsZero, Before, Add. cbn.
  destruct (Z.eqb_spec (t + readinessCacheTTL) 0); [done|]. destruct (Z.ltb_spec t' (t + readinessCacheTTL)); [done|lia].
Qed.
