(* ===== verification/Boot.v ===== *)
(** * cmd/server/main.go: bootstrap, the wiring of run, and internal/logger

    [bootstrap] and [run] as programs over a trace: what they open, start, stop
    and close, with Go's [defer] as a stack that runs when the function
    returns, whichever way it does.  What the outside answers (the driver, the
    broker, the listening socket) is an argument; what run hands to each
    component is its own configuration record, so the parts of the
    development are wired here the way the server wires them. *)

From stdpp Require Import gmultiset.
From S2P Require Breaker Scheduler Reconciler Pool Worker Webhook Http.
From S2P Require Import Prelude GoStrings Models Retry Service Transport Redlock Config.

(** ** internal/logger *)

(** zerolog: the levels and the writers it has. *)
Class Zerolog := mkZerolog { ParseLevel : string -> result Z }.

Inductive Writer := Console | Stdout.

(** A logger: its writer, level and the fields of its context. *)
Record ZeroLogger := mkZeroLogger {
  zl_writer : Writer;
  zl_level : Z;
  zl_fields : list (string * string);
  zl_caller : bool
}.

Section Logger.
Context {ZL : Zerolog}.

(** The format is not looked at. *)
Definition logger_New (cfg : LoggerConfig) : result ZeroLogger :=
  match ParseLevel (Logger_Level cfg) with
  | Error e => Error (Wrapf ("logger: invalid level " +:+ Logger_Level cfg +:+ ": ") e)
  | Ok level =>
      Ok (mkZeroLogger (if Logger_Pretty cfg then Console else Stdout) level
            [("service", Logger_ServiceName cfg); ("env", Logger_Environment cfg)] (Logger_AddCaller cfg))
  end.

(** [zerolog.DefaultContextLogger], which zerolog.Ctx falls back to. *)
Definition ConfigureGlobal (log : ZeroLogger) (_ : option ZeroLogger) : option ZeroLogger := Some log.

Definition WithComponent (log : ZeroLogger) (component : string) : ZeroLogger :=
  mkZeroLogger (zl_writer log) (zl_level log) (zl_fields log ++ [("component", component)]) (zl_caller log).

End Logger.

(** ** The trace *)

Inductive resource := RPostgres | RRedis (addr : string) | RAdvisory | RKafka | RSocket.
Inductive component := CPool | CReconciler | CConsumer | CConsumerErrors | CListener | CScheduler | CServer.

#[global] Instance resource_eq_dec : EqDecision resource.
Proof. solve_decision. Defined.
#[global] Instance component_eq_dec : EqDecision component.
Proof. solve_decision. Defined.

Inductive act :=
  | Opened (r : resource)
  | Closed (r : resource)
  | Started (c : component)
  | Stopped (c : component)
  | Warned (msg : string).

#[global] Instance act_eq_dec : EqDecision act.
Proof. solve_decision. Defined.

(** The body of a function with defers: what happened so far, the deferred
    calls (latest first), and either a value, a return or a panic. *)
Record frame := mkFrame { trace : list act; defers : list (list act) }.

Inductive exit := Return (e : option error) | Panic.

Definition body (A : Type) : Type := frame -> (A + exit) * frame.

Definition ret {A} (a : A) : body A := fun f => (inl a, f).
Definition bind {A B} (m : body A) (k : A -> body B) : body B :=
  fun f => match m f with (inl a, f1) => k a f1 | (inr e, f1) => (inr e, f1) end.
Definition return_ {A} (e : option error) : body A := fun f => (inr (Return e), f).
Definition panic {A} : body A := fun f => (inr Panic, f).
Definition do (a : act) : body unit := fun f => (inl tt, mkFrame (trace f ++ [a]) (defers f)).
Definition defer (l : list act) : body unit := fun f => (inl tt, mkFrame (trace f) (l :: defers f)).
Definition when (b : bool) (m : body unit) : body unit := if b then m else ret tt.
Definition check {A} (r : result A) (wrap : error -> error) : body A :=
  match r with Ok a => ret a | Error e => return_ (Some (wrap e)) end.
Fixpoint each {A} (l : list A) (m : A -> body unit) : body unit :=
  match l with [] => ret tt | a :: l' => bind (m a) (fun _ => each l' m) end.

(** The call: the body, then the deferred calls. *)
Definition call {A} (m : body A) : exit * list act :=
  match m (mkFrame [] []) with
  | (inl _, f) => (Return None, trace f ++ concat (defers f))
  | (inr x, f) => (x, trace f ++ concat (defers f))
  end.

Declare Scope boot_scope.
Delimit Scope boot_scope with boot.
Notation "x <- m ;; k" := (bind m (fun x => k)) (at level 100, m at level 99, k at level 200) : boot_scope.
Notation "m ;;; k" := (bind m (fun _ => k)) (at level 100, k at level 200) : boot_scope.
Open Scope boot_scope.

(** ** bootstrap *)

(** How the server's goroutine was when run left its select. *)
Inductive serve_end :=
  | SignalServing              (* ctx.Done; Serve has the listener *)
  | SignalEarly                (* ctx.Done; the goroutine has not called Serve yet *)
  | ServeFailed (e : error)    (* Serve returned *)
  | CertFailed (e : error).    (* ServeTLS returned: it could not load the certificate *)

(** What the outside answers. *)
Record World := mkWorld {
  w_env : Environment;
  w_dsn : option error;                (* pgxpool.ParseConfig *)
  w_connect : option error;            (* pgxpool.NewWithConfig *)
  w_register : option error;           (* the metrics registry *)
  w_producer : option error;           (* sarama's producer and consumer group *)
  w_group : option error;
  w_proxies : option error;            (* gin's parse of the CIDR list *)
  w_issued : result bool;              (* HasActiveKeys *)
  w_listen : option error;
  w_serve : serve_end
}.

(** The pool's settings taken from the configuration. *)
Record PgxConfig := mkPgxConfig {
  pgx_DSN : string; pgx_MaxConns : Z; pgx_MinConns : Z;
  pgx_MaxConnLifetime : Dur; pgx_MaxConnIdleTime : Dur; pgx_HealthCheckPeriod : Dur
}.

Definition pg_config (p : PostgresConfig) : PgxConfig :=
  mkPgxConfig (Postgres_DSN p) (Postgres_MaxConns p) (Postgres_MinConns p)
    (Postgres_MaxConnLifetime p) (Postgres_MaxConnIdleTime p) (Postgres_HealthCheckPeriod p).

Definition asked (e : option error) : result unit := match e with Some e => Error e | None => Ok tt end.

Section Boot.
Context {ZL : Zerolog}.

Definition bootstrap (w : World) : body (Config.Config * ZeroLogger * PgxConfig) :=
  let '(cfg, err) := LoadFromEnvironment (w_env w) in
  _ <- check (asked err) (fun e => e) ;;
  log <- check (logger_New (Logger cfg)) (Wrapf "logger: ") ;;
  _ <- check (asked (w_dsn w)) (Wrapf "postgres config: ") ;;
  _ <- check (asked (w_connect w)) (Wrapf "postgres: ") ;;
  do (Opened RPostgres) ;;;
  ret (cfg, log, pg_config (Postgres cfg)).

(** runMigrations around the Migrate of Migrate.v, by its error. *)
Definition runMigrations (w : World) (migrate : string -> option error) : exit * list act :=
  call (b <- bootstrap w ;;
        let '(cfg, _, _) := b in
        defer [Closed RPostgres] ;;;
        return_ (migrate (Postgres_MigrationsPath (Postgres cfg))) : body unit).

(** ** run *)

Inductive LockChoice := UseRedlock (cfg : RedlockConfig) | UseAdvisory | UseNoOp.

(** What run hands to the components. *)
Record Wiring := mkWiring {
  wi_lock : LockChoice;
  wi_target : string;                      (* what the publisher publishes to *)
  wi_service : JobService;
  wi_worker : Worker.jobWorker;
  wi_breakers : Worker.taskBreakers;
  wi_pool : Pool.Pool;
  wi_reconciler : Reconciler.Reconciler;
  wi_queues : list string;                 (* the Kafka handler's filter *)
  wi_scheduler : Scheduler.Scheduler;
  wi_webhook : Webhook.Executor;
  wi_tls : bool;                           (* ServeTLS rather than Serve *)
  wi_router : string -> Z * string -> (string -> Z) -> Http.Router
}.

Definition NotifyChannel : string := "conduit_jobs".

(** The handler table, by its task names. *)
Definition defaultHandlers : gset string := {["webhook"; "sql.etl"]}.

Definition choose_lock (cfg : Config.Config) : body LockChoice :=
  if bool_decide (Lock cfg = LockRedlock) then
    each (Redis_Addresses (Redis cfg)) (fun addr => do (Opened (RRedis addr))) ;;;
    defer (map (fun addr => Closed (RRedis addr)) (Redis_Addresses (Redis cfg))) ;;;
    ret (UseRedlock (NewManager (length (Redis_Addresses (Redis cfg))) server_redlock))
  else if bool_decide (Lock cfg = LockAdvisory) then
    do (Opened RAdvisory) ;;;
    defer [Closed RAdvisory] ;;;
    ret UseAdvisory
  else
    when (bool_decide (Transport cfg = TransportKafka))
      (do (Warned "CONDUIT_LOCK=none with CONDUIT_TRANSPORT=kafka: two instances consuming one topic can execute the same job twice")) ;;;
    ret UseNoOp.

(** The publisher's target; the Kafka client is built here or not at all. *)
Definition choose_transport (w : World) (cfg : Config.Config) : body string :=
  if bool_decide (Transport cfg = TransportKafka) then
    _ <- check (NewKafkaClient (Kafka cfg) (w_producer w) (w_group w)).1 (Wrapf "kafka: ") ;;
    do (Opened RKafka) ;;;
    defer [Closed RKafka] ;;;
    ret (Kafka_Topic (Kafka cfg))
  else ret NotifyChannel.

Definition reconciler_config (cfg : Config.Config) : Reconciler.Config :=
  Reconciler.mkConfig (Reconciler_Interval (Reconciler cfg)) (Reconciler_IdleInterval (Reconciler cfg))
    (Reconciler_BatchSize (Reconciler cfg)) (Reconciler_RunningLease (Reconciler cfg)) (Worker_Queues (Worker cfg))
    (Reconciler.mkRetention (Retention_Completed (Retention cfg)) (Retention_Dead (Retention cfg))
       (Retention_Interval (Retention cfg)) (Retention_BatchSize (Retention cfg)))
    (Reconciler_BacklogInterval (Reconciler cfg)) true.

Definition scheduler_config (cfg : Config.Config) : Scheduler.Config :=
  Scheduler.mkConfig (Scheduler_TickInterval (Scheduler cfg)) (Scheduler_MaxConcurrentRuns (Scheduler cfg)).

(** The goroutines on the transport's consume side. *)
Definition start_consumers (cfg : Config.Config) : body unit :=
  if bool_decide (Transport cfg = TransportKafka) then
    do (Started CConsumer) ;;; do (Started CConsumerErrors)
  else
    do (Started CListener) ;;;
    when (negb (Reconciler_Enabled (Reconciler cfg)))
      (do (Warned "CONDUIT_RECONCILER_ENABLED=false with the postgres transport: this instance dispatches nothing to its own worker pool")).

Definition warn_keys (cfg : Config.Config) (issued : bool) : body unit :=
  if bool_decide (HTTP_APIKeys (HTTP cfg) = []) && negb issued then
    do (Warned "no API keys: /api is unauthenticated until CONDUIT_API_KEYS is set or a key is issued with conduit keys create")
  else when (bool_decide (HTTP_TLSCertFile (HTTP cfg) = ""))
    (do (Warned "API keys are bearer tokens and this server speaks plain HTTP: set CONDUIT_TLS_CERT_FILE or terminate TLS in front of it (see docs/DEPLOYMENT.md)")).

(** Under the write timeout. *)
Definition max_claim_wait (cfg : Config.Config) : Dur := Z.min (25 * Second) (wrap64 (HTTP_WriteTimeout (HTTP cfg) - 2 * Second)).

(** The handlers and routes; what Prometheus and the readiness handler answer and
    where times are printed are the router's own arguments. *)
Definition new_router (cfg : Config.Config) (svc : JobService) (scrape : string) (ready : Z * string) (loc : string -> Z) : Http.Router :=
  Http.mkRouter svc (max_claim_wait cfg) (HTTP_APIKeys (HTTP cfg)) (Metrics_Token (Metrics cfg)) scrape ready loc.

(** run up to the server's goroutine. *)
Definition wire (w : World) : body Wiring :=
  b <- bootstrap w ;;
  let '(cfg, log, _) := b in
  defer [Closed RPostgres] ;;;
  when (match w_register w with Some _ => true | None => false end) (do (Warned "metrics already registered")) ;;;
  lock <- choose_lock cfg ;;
  target <- choose_transport w cfg ;;
  let svc := NewJobService (NewEngine retryConfig) target (Reconciler_RunningLease (Reconciler cfg)) in
  let runner := Worker.mkJobWorker svc defaultHandlers (Reconciler_RunningLease (Reconciler cfg)) in
  match Pool.NewPool (Pool.pool_config (Worker cfg)) with
  | None => panic
  | Some pool =>
      do (Started CPool) ;;;
      when (Reconciler_Enabled (Reconciler cfg)) (do (Started CReconciler)) ;;;
      defer [Stopped CReconciler] ;;;
      start_consumers cfg ;;;
      (if Scheduler_Enabled (Scheduler cfg) then do (Started CScheduler)
       else do (Warned "CONDUIT_SCHEDULER_ENABLED=false: this instance fires no schedules")) ;;;
      defer [Stopped CScheduler] ;;;
      check (asked (w_proxies w)) (Wrapf "trusted proxies: ") ;;;
      issued <- check (w_issued w) (Wrapf "check api keys: ") ;;
      warn_keys cfg issued ;;;
      check (asked (w_listen w)) (Wrapf "listen: ") ;;;
      do (Opened RSocket) ;;;
      do (Started CServer) ;;;
      ret (mkWiring lock target svc runner (Worker.newTaskBreakers Breaker.breakerCfg defaultHandlers) (Pool.Start pool)
             (Reconciler.New (reconciler_config cfg)) (Worker_Queues (Worker cfg))
             (Scheduler.New (scheduler_config cfg) true)
             (Webhook.NewExecutorWithConfig (Webhook_MaxRedirects (Config.Webhook cfg)) (Webhook_AllowPrivateNetworks (Config.Webhook cfg)))
             (bool_decide (HTTP_TLSCertFile (HTTP cfg) <> "")) (new_router cfg svc))
  end.

(** Whether the listener is closed when run returns.  Serve closes it when it
    returns, and Shutdown closes the one Serve has; ServeTLS loads the
    certificate before it hands the listener to Serve, and returns without
    closing it when that fails; run itself does not close it. *)
Definition socket_closed (w : World) (tls : bool) : bool :=
  match w_serve w with
  | SignalServing | ServeFailed _ => true
  | SignalEarly => false
  | CertFailed _ => negb tls                (* Serve loads no certificate *)
  end.

Definition serve_error (w : World) : option error :=
  match w_serve w with
  | SignalServing | SignalEarly => None
  | ServeFailed e | CertFailed e => Some (Wrapf "serve: " e)
  end.

(** The end: Shutdown, the reconciler's Stop, which waits for its pass, the
    pool's, which drains it. *)
Definition shut_down (w : World) (wi : Wiring) : body unit :=
  do (Stopped CServer) ;;;
  when (socket_closed w (wi_tls wi)) (do (Closed RSocket)) ;;;
  do (Stopped CReconciler) ;;;
  do (Stopped CPool) ;;;
  return_ (serve_error w).

Definition run (w : World) : exit * list act := call (wi <- wire w ;; shut_down w wi).

End Boot.

(** ** Nothing is left open *)

#[global] Instance resource_countable : Countable resource.
Proof.
  refine (inj_countable' (fun r => match r with RRedis a => inl a | RPostgres => inr 0%nat | RAdvisory => inr 1%nat | RKafka => inr 2%nat | RSocket => inr 3%nat end)
            (fun x => match x with inl a => RRedis a | inr 0%nat => RPostgres | inr 1%nat => RAdvisory | inr 2%nat => RKafka | inr _ => RSocket end) _).
  by intros [].
Defined.

(** The resources a trace leaves held; none is closed that is not held. *)
Fixpoint holds (l : list act) (h : gmultiset resource) : option (gmultiset resource) :=
  match l with
  | [] => Some h
  | Opened r :: l' => holds l' (h ⊎ {[+ r +]})
  | Closed r :: l' => if bool_decide (r ∈ h) then holds l' (h ∖ {[+ r +]}) else None
  | _ :: l' => holds l' h
  end.

(** The components it leaves running; stopping what does not run does nothing. *)
Fixpoint running (l : list act) (us : list component) : list component :=
  match l with
  | [] => us
  | Started c :: l' => running l' (c :: us)
  | Stopped c :: l' => running l' (filter (fun x => x <> c) us)
  | _ :: l' => running l' us
  end.

Lemma holds_app l1 l2 h : holds (l1 ++ l2) h = match holds l1 h with Some h1 => holds l2 h1 | None => None end.
Proof. revert h. induction l1 as [|[r|r|c|c|m] l1 IH]; intros h; cbn; auto. by case_bool_decide. Qed.

Lemma running_split l us c : c ∈ running l us <-> (c ∈ us /\ Stopped c ∉ l) \/ c ∈ running l [].
Proof.
  revert us. induction l as [|a l IH]; intros us; cbn [running].
  { set_solver. }
  destruct a as [r|r|d|d|m]; try (rewrite IH; set_solver).
  - rewrite IH, (IH [d]). set_solver.
  - rewrite IH, (IH (filter _ [])). rewrite !list_elem_of_filter. set_solver.
Qed.

Lemma running_app l1 l2 c : c ∈ running (l1 ++ l2) [] <-> (c ∈ running l1 [] /\ Stopped c ∉ l2) \/ c ∈ running l2 [].
Proof.
  rewrite <- running_split. assert (H : forall us, running (l1 ++ l2) us = running l2 (running l1 us)); [|by rewrite H].
  induction l1 as [|[r|r|d|d|m] l1 IH]; intros us; cbn; auto.
Qed.

(** ** Frames that settle *)

Definition must_stop : list component := [CReconciler; CScheduler; CServer].

Definition release (a : act) : bool := match a with Closed _ | Stopped _ => true | _ => false end.

(** When the frame does [todo] and returns, everything is closed and the loops
    and the server are stopped. *)
Record settles (todo : list act) (f : frame) : Prop := {
  st_holds : holds (trace f ++ todo ++ concat (defers f)) ∅ = Some ∅;
  st_stops : forall c, c ∈ must_stop -> c ∉ running (trace f ++ todo ++ concat (defers f)) [];
  st_release : Forall (fun a => release a = true) (concat (defers f))
}.

(** The server has not been started. *)
Definition early (f : frame) : Prop := settles [] f /\ Started CServer ∉ trace f.

(** [{P} m {Q}]: from a frame of [P], [m] ends in one of [Q] or returns early. *)
Definition triple {A} (P : frame -> Prop) (m : body A) (Q : A -> frame -> Prop) : Prop :=
  forall f, P f -> match m f with (inl a, f') => Q a f' | (inr _, f') => early f' end.

Lemma triple_ret {A} (P : frame -> Prop) (a : A) : triple P (ret a) (fun _ => P).
Proof. by intros f Hf. Qed.

Lemma triple_bind {A B} P (m : body A) Q (k : A -> body B) R :
  triple P m Q -> (forall a, triple (Q a) (k a) R) -> triple P (bind m k) R.
Proof. intros Hm Hk f Hf. specialize (Hm f Hf). unfold bind. destruct (m f) as [[a|x] f1]; [by apply Hk|done]. Qed.

Lemma triple_check {A} (r : result A) wrap : triple early (check r wrap) (fun _ => early).
Proof. intros f Hf. by destruct r. Qed.

Lemma triple_when b (m : body unit) P : triple P m (fun _ => P) -> triple P (when b m) (fun _ => P).
Proof. intros Hm. by destruct b; [|apply triple_ret]. Qed.

(** An act that neither opens nor closes, and starts none of the components
    that have to be stopped. *)
Definition neutral (a : act) : bool :=
  match a with Warned _ | Started (CPool | CConsumer | CConsumerErrors | CListener) => true | _ => false end.

Lemma triple_neutral a : neutral a = true -> triple early (do a) (fun _ => early).
Proof.
  intros Ha f [[Hh Hs Hr] Hn]. assert (Hhold : forall h, holds [a] h = Some h) by (by destruct a).
  assert (Hrun : forall c, c ∈ must_stop -> c ∉ running [a] []).
  { intros c Hc. destruct a as [r|r|[]|c'|m]; try done; unfold must_stop in Hc; set_solver. }
  split; [split; cbn [trace defers] in *|].
  - rewrite holds_app, holds_app. rewrite holds_app in Hh. destruct (holds (trace f) ∅) as [h|]; [|done]. by rewrite Hhold.
  - intros c Hc. specialize (Hs c Hc). specialize (Hrun c Hc). rewrite running_app, running_app in *. set_solver.
  - done.
  - cbn. destruct a as [r|r|[]|c'|m]; set_solver.
Qed.

(** Acts together with the deferred ones that undo them. *)
Lemma early_bracket f l1 l2 : early f -> (forall h, holds (l1 ++ l2) h = Some h) ->
  (forall c, c ∈ must_stop -> c ∉ running (l1 ++ l2) []) -> Forall (fun a => release a = true) l2 -> Started CServer ∉ l1 ->
  early (mkFrame (trace f ++ l1) (l2 :: defers f)).
Proof.
  intros [[Hh Hs Hr] Hn] Hhold Hrun Hrel Hl1. assert (E : (trace f ++ l1) ++ [] ++ concat (l2 :: defers f) = trace f ++ (l1 ++ l2) ++ concat (defers f)).
  { cbn. by rewrite <- !(assoc_L (++)). }
  split; [split; cbn [trace defers] in *; rewrite ?E|].
  - rewrite holds_app in Hh |- *. destruct (holds (trace f) ∅) as [h|]; [|done]. by rewrite holds_app, Hhold.
  - intros c Hc Hin. apply (Hs c Hc), running_app. apply running_app in Hin as [[HT Hns]|Hin].
    + left. split; [done|]. intros Hin. apply Hns, elem_of_app. by right.
    + apply running_app in Hin as [[Hin _]|Hin]; [by destruct (Hrun c Hc)|by right].
  - cbn. by apply Forall_app.
  - cbn. set_solver.
Qed.

Lemma each_do {A} (g : A -> act) l f : each l (fun a => do (g a)) f = (inl tt, mkFrame (trace f ++ map g l) (defers f)).
Proof.
  revert f. induction l as [|a l IH]; intros f; cbn; [by destruct f; rewrite app_nil_r|].
  rewrite IH. cbn. by rewrite <- (assoc_L (++)).
Qed.

Lemma open_close rs h : holds (map Opened rs ++ map Closed rs) h = Some h.
Proof.
  assert (Ho : forall rs h, holds (map Opened rs) h = Some (h ⊎ list_to_set_disj rs)).
  { clear. induction rs as [|r rs IH]; intros h; cbn [map holds]; [by rewrite list_to_set_disj_nil, (right_id_L ∅ (⊎))|].
    by rewrite IH, list_to_set_disj_cons, (assoc_L (⊎)). }
  assert (Hc : forall rs h, holds (map Closed rs) (h ⊎ list_to_set_disj rs) = Some h).
  { clear. induction rs as [|r rs IH]; intros h; cbn [map holds]; [by rewrite list_to_set_disj_nil, (right_id_L ∅ (⊎))|].
    rewrite list_to_set_disj_cons, bool_decide_eq_true_2 by multiset_solver.
    replace ((h ⊎ ({[+ r +]} ⊎ list_to_set_disj rs)) ∖ {[+ r +]}) with (h ⊎ list_to_set_disj rs) by multiset_solver. apply IH. }
  by rewrite holds_app, Ho, Hc.
Qed.

Lemma open_close_running rs c : c ∉ running (map Opened rs ++ map Closed rs) [].
Proof.
  assert (H : running (map Opened rs ++ map Closed rs) [] = []); [|rewrite H; apply not_elem_of_nil].
  induction rs as [|r rs _] using rev_ind; [done|]. clear.
  assert (Ho : forall rs l us, running (map Opened rs ++ l) us = running l us) by (clear; induction rs; intros; cbn; auto).
  assert (Hc : forall rs us, running (map Closed rs) us = us) by (clear; induction rs; intros; cbn; auto).
  by rewrite Ho, Hc.
Qed.

Lemma early_acquire f rs : early f -> early (mkFrame (trace f ++ map Opened rs) (map Closed rs :: defers f)).
Proof.
  intros Hf. apply early_bracket; [done|apply open_close|intros; apply open_close_running| |].
  - apply Forall_forall. intros a (r & -> & _)%list_elem_of_fmap. done.
  - intros (r & ? & _)%list_elem_of_fmap. done.
Qed.

Lemma triple_acquire r : triple early (do (Opened r) ;;; defer [Closed r]) (fun _ => early).
Proof. intros f Hf. exact (early_acquire f [r] Hf). Qed.

(** A loop that is started or not, and stopped in any case. *)
Lemma early_loop f (b : bool) c a : early f -> neutral a = true -> c <> CServer ->
  early (mkFrame (trace f ++ [if b then Started c else a]) ([Stopped c] :: defers f)).
Proof.
  intros Hf Ha Hc. apply early_bracket; [done| | |by constructor|].
  - intros h. destruct b; [done|]. by destruct a as [| |[]| |].
  - intros c' Hc'. destruct b.
    + cbn [app running]. rewrite filter_cons_False, filter_nil by auto. apply not_elem_of_nil.
    + unfold must_stop in Hc'. destruct a as [| |[]| |]; cbn [app running] in *; try done; rewrite ?list_elem_of_filter; set_solver.
  - destruct b; [set_solver|]. destruct a as [| |[]| |]; set_solver.
Qed.

Section Run.
Context {ZL : Zerolog}.

Lemma bootstrap_triple w : triple early (bootstrap w)
  (fun _ f => exists f0, early f0 /\ f = mkFrame (trace f0 ++ [Opened RPostgres]) (defers f0)).
Proof.
  unfold bootstrap. destruct (LoadFromEnvironment (w_env w)) as [cfg err].
  do 4 (eapply triple_bind; [apply triple_check|intros ?]). intros f Hf. by exists f.
Qed.

Lemma choose_lock_triple cfg : triple early (choose_lock cfg) (fun _ => early).
Proof.
  unfold choose_lock. case_bool_decide; [|case_bool_decide].
  - intros f Hf. unfold bind. rewrite each_do. cbn. rewrite <- !(map_map RRedis). by apply early_acquire.
  - intros f Hf. exact (early_acquire f [RAdvisory] Hf).
  - eapply triple_bind; [by apply triple_when, triple_neutral|intros ?]. apply triple_ret.
Qed.

Lemma choose_transport_triple w cfg : triple early (choose_transport w cfg) (fun _ => early).
Proof.
  unfold choose_transport. case_bool_decide; [|apply triple_ret].
  eapply triple_bind; [apply triple_check|intros ?]. intros f Hf. exact (early_acquire f [RKafka] Hf).
Qed.

Lemma start_consumers_triple cfg : triple early (start_consumers cfg) (fun _ => early).
Proof.
  unfold start_consumers. case_bool_decide.
  - eapply triple_bind; [by apply triple_neutral|intros ?]. by apply triple_neutral.
  - eapply triple_bind; [by apply triple_neutral|intros ?]. by apply triple_when, triple_neutral.
Qed.

Lemma warn_keys_triple cfg issued : triple early (warn_keys cfg issued) (fun _ => early).
Proof. unfold warn_keys. case_match; [by apply triple_neutral|by apply triple_when, triple_neutral]. Qed.

Lemma reconciler_triple (b : bool) : triple early (when b (do (Started CReconciler)) ;;; defer [Stopped CReconciler]) (fun _ => early).
Proof.
  intros f Hf. destruct b; [exact (early_loop f true CReconciler (Warned "") Hf eq_refl ltac:(done))|].
  cbn. pose proof (early_bracket f [] [Stopped CReconciler] Hf) as H. rewrite app_nil_r in H. apply H; [done| |by constructor|set_solver].
  intros c _. cbn. set_solver.
Qed.

Lemma scheduler_triple (b : bool) msg : triple early
  ((if b then do (Started CScheduler) else do (Warned msg)) ;;; defer [Stopped CScheduler]) (fun _ => early).
Proof.
  intros f Hf. pose proof (early_loop f b CScheduler (Warned msg) Hf eq_refl ltac:(done)) as H. by destruct b.
Qed.

Lemma bind_assoc {A B C} (m : body A) (k : A -> body B) (l : B -> body C) f :
  bind (bind m k) l f = bind m (fun a => bind (k a) l) f.
Proof. unfold bind. by destruct (m f) as [[a|x] f1]. Qed.

(** Two statements that belong together. *)
Lemma triple_pair {B} P (m : body unit) (n : body unit) Q (k : body B) R :
  triple P (m ;;; n) (fun _ => Q) -> triple Q k R -> triple P (m ;;; n ;;; k) R.
Proof.
  intros Hm Hk f Hf. specialize (Hm f Hf). unfold bind in *. destruct (m f) as [[[]|x] f1]; [|done].
  destruct (n f1) as [[[]|x] f2]; [by apply Hk|done].
Qed.

(** Up to the server's goroutine. *)
Lemma wire_triple w : triple early (wire w)
  (fun _ f => exists f0, early f0 /\ f = mkFrame (trace f0 ++ [Opened RSocket; Started CServer]) (defers f0)).
Proof.
  unfold wire. eapply triple_bind; [apply bootstrap_triple|intros [[cfg log] pg]].
  eapply triple_bind with (Q := fun _ => early); [intros f (f0 & Hf & ->); exact (early_acquire f0 [RPostgres] Hf)|intros ?].
  eapply triple_bind; [by apply triple_when, triple_neutral|intros ?]. eapply triple_bind; [apply choose_lock_triple|intros lock].
  eapply triple_bind; [apply choose_transport_triple|intros target]. cbv zeta. destruct (Pool.NewPool _) as [pool|]; [|by intros f Hf].
  eapply triple_bind; [by apply triple_neutral|intros ?]. apply triple_pair with (Q := early); [apply reconciler_triple|].
  eapply triple_bind; [apply start_consumers_triple|intros ?]. apply triple_pair with (Q := early); [apply scheduler_triple|].
  eapply triple_bind; [apply triple_check|intros ?]. eapply triple_bind; [apply triple_check|intros issued].
  eapply triple_bind; [apply warn_keys_triple|intros ?]. eapply triple_bind; [apply triple_check|intros ?].
  intros f Hf. cbn. exists f. split; [done|]. by rewrite <- (assoc_L (++)).
Qed.

Lemma early_start : early (mkFrame [] []).
Proof. split; [split; cbn|]; [done|set_solver|constructor|set_solver]. Qed.

(** Once the server ran, the pool is stopped as well: no deferred call starts
    it again. *)
Lemma release_running l c : Forall (fun a => release a = true) l -> c ∉ running l [].
Proof.
  intros Hl. assert (H : running l [] = []); [|rewrite H; apply not_elem_of_nil].
  induction Hl as [|a l Ha _ IH]; [done|]. by destruct a.
Qed.

(** Holding more does not disturb a trace. *)
Lemma holds_frame l h h' x : holds l h = Some h' -> holds l (h ⊎ x) = Some (h' ⊎ x).
Proof.
  revert h. induction l as [|[r|r|c|c|m] l IH]; intros h; cbn [holds]; auto.
  - by intros [= ->].
  - intros H. replace (h ⊎ x ⊎ {[+ r +]}) with (h ⊎ {[+ r +]} ⊎ x) by multiset_solver. by apply IH.
  - case_bool_decide as Hr; [|done]. intros H. rewrite bool_decide_eq_true_2 by multiset_solver.
    replace ((h ⊎ x) ∖ {[+ r +]}) with (h ∖ {[+ r +]} ⊎ x) by multiset_solver. by apply IH.
Qed.

(** What shut_down does. *)
Definition end_acts (closed : bool) : list act :=
  [Opened RSocket; Started CServer; Stopped CServer] ++ (if closed then [Closed RSocket] else []) ++ [Stopped CReconciler; Stopped CPool].

Lemma shut_down_acts w wi f0 :
  shut_down w wi (mkFrame (trace f0 ++ [Opened RSocket; Started CServer]) (defers f0)) =
    (inr (Return (serve_error w)), mkFrame (trace f0 ++ end_acts (socket_closed w (wi_tls wi))) (defers f0)).
Proof.
  unfold shut_down, end_acts. destruct (socket_closed w (wi_tls wi)); cbn; by rewrite <- !(assoc_L (++)).
Qed.

Lemma end_acts_settle f0 closed : early f0 ->
  let tr := (trace f0 ++ end_acts closed) ++ concat (defers f0) in
  holds tr ∅ = Some (if closed then ∅ else {[+ RSocket +]}) /\ (forall c, c ∈ must_stop -> c ∉ running tr []) /\ CPool ∉ running tr [].
Proof.
  intros [[Hh Hs Hr] _]. cbn [app] in *. cbv zeta. rewrite <- (assoc_L (++)). split; [|split].
  - rewrite holds_app in Hh |- *. destruct (holds (trace f0) ∅) as [h|]; [|done]. rewrite holds_app. destruct closed; cbn [end_acts app holds].
    + rewrite bool_decide_eq_true_2 by multiset_solver. by replace ((h ⊎ {[+ RSocket +]}) ∖ {[+ RSocket +]}) with h by multiset_solver.
    + rewrite (holds_frame _ _ _ {[+ RSocket +]} Hh). by rewrite (left_id_L ∅ (⊎)).
  - intros c Hc Hin. apply running_app in Hin as [[HT Hns]|Hin].
    + apply (Hs c Hc), running_app. left. split; [done|]. intros Hin. apply Hns, elem_of_app. by right.
    + apply running_app in Hin as [[Hin _]|Hin]; [|by destruct (release_running _ c Hr)].
      destruct closed; cbn in Hin; rewrite !list_elem_of_filter in Hin; set_solver.
  - intros Hin. apply running_app in Hin as [[_ Hns]|Hin].
    + apply Hns, elem_of_app. left. unfold end_acts. destruct closed; set_solver.
    + apply running_app in Hin as [[Hin _]|Hin]; [|by destruct (release_running _ CPool Hr)].
      destruct closed; cbn in Hin; rewrite !list_elem_of_filter in Hin; set_solver.
Qed.

(** What a body returns when it goes through. *)
Definition yields {A} (Q : A -> Prop) (m : body A) : Prop := forall f, match (m f).1 with inl a => Q a | inr _ => True end.

Lemma yields_bind {A B} Q (m : body A) (k : A -> body B) : (forall a, yields Q (k a)) -> yields Q (bind m k).
Proof. intros Hk f. unfold bind. destruct (m f) as [[a|x] f1]; [apply Hk|done]. Qed.

Lemma bootstrap_value w f :
  match bootstrap w f with
  | (inl (cfg, log, _), f') => LoadFromEnvironment (w_env w) = (cfg, None) /\ logger_New (Logger cfg) = Ok log /\
      f' = mkFrame (trace f ++ [Opened RPostgres]) (defers f)
  | (inr _, f') => f' = f
  end.
Proof.
  unfold bootstrap. destruct (LoadFromEnvironment (w_env w)) as [cfg [e|]]; [done|]. unfold bind at 1. cbn [asked check ret].
  unfold bind. cbn. destruct (logger_New (Logger cfg)) as [log|e] eqn:El; [|done]. cbn.
  destruct (w_dsn w); [done|]. cbn. destruct (w_connect w); [done|]. cbn. done.
Qed.

(** Whether the configuration asks for TLS. *)
Definition tls_configured (w : World) : bool := bool_decide (HTTP_TLSCertFile (HTTP (LoadFromEnvironment (w_env w)).1) <> "").

Lemma wire_tls w : yields (fun wi => wi_tls wi = tls_configured w) (wire w).
Proof.
  intros f. unfold wire. unfold bind at 1. pose proof (bootstrap_value w f) as Hb.
  destruct (bootstrap w f) as [[[[cfg log] pg]|x] f1]; [|done]. destruct Hb as (Hl & _ & _).
  match goal with |- match (?m _).1 with _ => _ end => assert (Hm : yields (fun wi => wi_tls wi = tls_configured w) m) end; [|apply Hm].
  do 4 (apply yields_bind; intros ?). cbv zeta. destruct (Pool.NewPool _) as [pool|]; [|done].
  do 11 (apply yields_bind; intros ?). intros f2. unfold tls_configured. rewrite Hl. reflexivity.
Qed.

(** What stays open: the socket of a server that was started, unless somebody
    closed it. *)
Definition left_open (w : World) (tr : list act) : gmultiset resource :=
  if bool_decide (Started CServer ∈ tr) && negb (socket_closed w (tls_configured w)) then {[+ RSocket +]} else ∅.

(** C22. However run ends, by a signal, by an error on the way up or by a
    panic: everything it opened is closed, nothing is closed twice, and the
    reconciler, the scheduler and the server are stopped.  The worker pool is
    stopped if the server had been started; an error before that leaves it
    running.  The one thing that may stay open is the listening socket, of a
    server that was started: when ServeTLS could not load its certificate, or
    the signal came before the server's goroutine called Serve. *)
Theorem run_releases w :
  let tr := (run w).2 in
  holds tr ∅ = Some (left_open w tr) /\
  (forall c, c ∈ must_stop -> c ∉ running tr []) /\ (Started CServer ∈ tr -> CPool ∉ running tr []).
Proof.
  unfold run, call. pose proof (wire_triple w _ early_start) as Hw. pose proof (wire_tls w (mkFrame [] [])) as Ht. unfold bind.
  destruct (wire w _) as [[wi|x] f].
  - destruct Hw as (f0 & Hf0 & ->). cbn [fst] in Ht. rewrite shut_down_acts, Ht. cbn [snd trace defers].
    destruct (end_acts_settle f0 (socket_closed w (tls_configured w)) Hf0) as (Hh & Hs & Hp). split; [|done].
    unfold left_open. rewrite Hh, bool_decide_eq_true_2 by (unfold end_acts; set_solver). by destruct (socket_closed w _).
  - destruct Hw as [[Hh Hs Hr] Hn]. cbn [snd] in *. assert (Hns : Started CServer ∉ trace f ++ concat (defers f)).
    { intros [Hin|Hin]%elem_of_app; [done|]. rewrite Forall_forall in Hr. by specialize (Hr _ Hin). }
    unfold left_open. rewrite bool_decide_eq_false_2 by done. done.
Qed.

(** ** Only what was asked for *)

(** What a configuration lets run open and start. *)
Definition allowed (cfg : Config.Config) (a : act) : Prop :=
  match a with
  | Opened RKafka | Started CConsumer | Started CConsumerErrors => Transport cfg = TransportKafka
  | Opened (RRedis addr) => Lock cfg = LockRedlock /\ addr ∈ Redis_Addresses (Redis cfg)
  | Opened RAdvisory => Lock cfg = LockAdvisory
  | Started CListener => Transport cfg <> TransportKafka
  | Started CReconciler => Reconciler_Enabled (Reconciler cfg) = true
  | Started CScheduler => Scheduler_Enabled (Scheduler cfg) = true
  | _ => True
  end.

Definition only (P : act -> Prop) (f : frame) : Prop := Forall P (trace f) /\ Forall P (concat (defers f)).
Definition within {A} (P : act -> Prop) (m : body A) : Prop := forall f, only P f -> only P (m f).2.

Lemma within_bind {A B} P (m : body A) (k : A -> body B) : within P m -> (forall a, within P (k a)) -> within P (bind m k).
Proof. intros Hm Hk f Hf. specialize (Hm f Hf). unfold bind. destruct (m f) as [[a|x] f1]; [by apply Hk|done]. Qed.
Lemma within_ret {A} P (a : A) : within P (ret a).
Proof. by intros f Hf. Qed.
Lemma within_return {A} P e : within P (return_ e : body A).
Proof. by intros f Hf. Qed.
Lemma within_panic {A} P : within P (panic : body A).
Proof. by intros f Hf. Qed.
Lemma within_check {A} P (r : result A) wrap : within P (check r wrap).
Proof. intros f Hf. by destruct r. Qed.
Lemma within_do P a : P a -> within P (do a).
Proof. intros Ha f [Ht Hd]. split; [|done]. cbn. apply Forall_app. by split; [|constructor]. Qed.
Lemma within_defer P l : Forall P l -> within P (defer l).
Proof. intros Hl f [Ht Hd]. split; [done|]. cbn. by apply Forall_app. Qed.
Lemma within_when P b m : (b = true -> within P m) -> within P (when b m).
Proof. intros Hm. destruct b; [by apply Hm|apply within_ret]. Qed.
Lemma within_each {A} P (l : list A) g : (forall a, a ∈ l -> P (g a)) -> within P (each l (fun a => do (g a))).
Proof.
  intros Hl f [Ht Hd]. rewrite each_do. split; [|done]. cbn. apply Forall_app. split; [done|].
  apply Forall_forall. intros x (a & -> & Ha)%list_elem_of_fmap. by apply Hl.
Qed.
Create HintDb boot.
#[local] Hint Resolve within_ret within_return within_panic within_check : boot.

(** A statement after the other. *)
Ltac boot_step :=
  first [ apply within_bind; [|intros ?] | apply within_when; intros ? | apply within_do; cbn; try done
        | apply within_defer; repeat constructor | solve [auto with boot] ].

Lemma choose_lock_within cfg : within (allowed cfg) (choose_lock cfg).
Proof.
  unfold choose_lock. case_bool_decide; [|case_bool_decide]; repeat boot_step.
  - apply within_each. done.
  - apply Forall_forall. by intros x (addr & -> & _)%list_elem_of_fmap.
Qed.

Lemma choose_transport_within w cfg : within (allowed cfg) (choose_transport w cfg).
Proof. unfold choose_transport. case_bool_decide; repeat boot_step. Qed.

Lemma start_consumers_within cfg : within (allowed cfg) (start_consumers cfg).
Proof. unfold start_consumers. case_bool_decide; repeat boot_step. Qed.

Lemma warn_keys_within cfg issued : within (allowed cfg) (warn_keys cfg issued).
Proof. unfold warn_keys. case_match; repeat boot_step. Qed.

Lemma only_start P : only P (mkFrame [] []).
Proof. by split; constructor. Qed.

(** The rest of run, once bootstrap answered. *)
Lemma wire_within w cfg : (LoadFromEnvironment (w_env w)).1 = cfg -> within (allowed cfg) (wire w).
Proof.
  intros Hcfg f Hf. unfold wire. unfold bind at 1. pose proof (bootstrap_value w f) as Hb.
  destruct (bootstrap w f) as [[[[cfg' log] pg]|x] f1]; [|by subst]. destruct Hb as (Hl & _ & ->).
  assert (cfg' = cfg) as -> by (by rewrite Hl in Hcfg).
  match goal with |- only _ (?m _).2 => assert (Hm : within (allowed cfg) m) end.
  { apply within_bind; [by apply within_defer; constructor|intros ?]. apply within_bind; [by apply within_when; intros; apply within_do|intros ?].
    apply within_bind; [apply choose_lock_within|intros lock]. apply within_bind; [apply choose_transport_within|intros target]. cbv zeta.
    destruct (Pool.NewPool _) as [pool|]; [|apply within_panic]. 
    repeat first [apply start_consumers_within|apply warn_keys_within|boot_step|destruct (Scheduler_Enabled _) eqn:?]. }
  apply Hm. destruct Hf as [Ht Hd]. split; [|done]. cbn. apply Forall_app. by split; [|repeat constructor].
Qed.

(** run dials and starts what the configuration asks for and
    nothing else: Kafka only for the Kafka transport, Redis only for Redlock,
    the advisory lock's connection only for that lock, the reconciler and the
    scheduler only where they are enabled; a configuration that is not accepted
    opens nothing at all and is the error run returns. *)
Theorem run_opens_only w cfg err : LoadFromEnvironment (w_env w) = (cfg, err) ->
  Forall (allowed cfg) (run w).2 /\ (forall e, err = Some e -> run w = (Return (Some e), [])).
Proof.
  intros Hl. split.
  - assert (Hw : within (allowed cfg) (wi <- wire w ;; shut_down w wi)).
    { apply within_bind; [apply wire_within; by rewrite Hl|intros ?]. unfold shut_down. repeat boot_step. }
    specialize (Hw (mkFrame [] []) (only_start _)). unfold run, call.
    destruct (bind _ _ _) as [[?|x] f]; destruct Hw as [Ht Hd]; cbn [snd]; by apply Forall_app.
  - intros e ->. unfold run, call, wire, bootstrap, bind. rewrite Hl. done.
Qed.

End Run.

(** ** A default boot *)

(** Every level parses. *)
Definition all_levels : Zerolog := mkZerolog (fun _ => Ok 1).

(** An empty environment and an outside that answers well, until a signal. *)
Definition calm_world (env : Environment) : World :=
  mkWorld env None None None None None None (Ok false) None SignalServing.

Example default_boot : @run all_levels (calm_world (fun _ => None)) =
  (Return None,
   [Opened RPostgres; Opened RAdvisory; Started CPool; Started CReconciler; Started CListener; Started CScheduler;
    Warned "no API keys: /api is unauthenticated until CONDUIT_API_KEYS is set or a key is issued with conduit keys create";
    Opened RSocket; Started CServer;
    Stopped CServer; Closed RSocket; Stopped CReconciler; Stopped CPool;
    Stopped CScheduler; Stopped CReconciler; Closed RAdvisory; Closed RPostgres]).
Proof. vm_compute. reflexivity. Qed.

(** A port that is taken: everything is released but the pool, which has been
    started and may have been given jobs by the reconciler. *)
Definition taken_port (env : Environment) : World :=
  mkWorld env None None None None None None (Ok false) (Some (ErrText "address already in use")) SignalServing.

Example taken_port_leaves_pool :
  CPool ∈ running (@run all_levels (taken_port (fun _ => None))).2 [] /\
  (@run all_levels (taken_port (fun _ => None))).1 = Return (Some (Wrapf "listen: " (ErrText "address already in use"))).
Proof. split; [apply (bool_decide_unpack _); vm_compute; exact I|vm_compute; reflexivity]. Qed.

(** A certificate that cannot be loaded: run returns its error with the socket
    open. *)
Definition bad_certificate : World :=
  mkWorld (fun name => if bool_decide (name = "CONDUIT_TLS_CERT_FILE" \/ name = "CONDUIT_TLS_KEY_FILE") then Some "server.pem" else None)
    None None None None None None (Ok false) None (CertFailed (ErrText "no such file or directory")).

Example certificate_leaves_socket :
  holds (@run all_levels bad_certificate).2 ∅ = Some {[+ RSocket +]} /\
  (@run all_levels bad_certificate).1 = Return (Some (Wrapf "serve: " (ErrText "no such file or directory"))).
Proof. split; vm_compute; reflexivity. Qed.

Lemma run_opens_only_witness :
  Forall (allowed Default) (@run all_levels (calm_world (fun _ => None))).2.
Proof.
  apply (@run_opens_only all_levels (calm_world (fun _ => None)) Default None). vm_compute. reflexivity.
Defined.

(** The wait of a long poll ends two seconds before the server would cut the
    response off; a write timeout of at most two seconds, zero included, which
    net/http takes as none at all, allows no wait. *)
Theorem claim_wait_under_timeout cfg : 0 <= HTTP_WriteTimeout (HTTP cfg) <= int64_max ->
  max_claim_wait cfg + 2 * Second <= HTTP_WriteTimeout (HTTP cfg) /\
  max_claim_wait cfg <= 25 * Second /\
  (0 < max_claim_wait cfg <-> 2 * Second < HTTP_WriteTimeout (HTTP cfg)).
Proof.
  intros H. unfold max_claim_wait. rewrite wrap64_id; [unfold Second; lia|]. unfold int64_ok, int64_min, int64_max, Second in *.
  lia.
Qed.
