(* ===== verification/Shutdown.v ===== *)
(** * cmd/server/main.go: the end of run

    The select of run, the reconciler's Stop and the pool's Stop as steps of one
    process, interleaved with the reconciler's goroutine (Loops.v), the pool
    (Pool.v) and the Kafka handlers, which nobody waits for.  The queue of the
    pool is closed by Stop, and a send on a closed channel panics: whether the
    process can crash on its way out is whether a submitter can outlive the
    closing. *)

From S2P Require Loops Pool.
From S2P Require Import Prelude Models.

(** ** The process *)

Inductive stage :=
  | Serving                (* in the select *)
  | StoppingReconciler     (* in jobReconciler.Stop *)
  | Draining               (* in workerPool.Stop, the queue closed *)
  | Exited.

#[global] Instance stage_eq_dec : EqDecision stage.
Proof. solve_decision. Defined.

Record Process := mkProcess {
  p_stage : stage;
  p_signal : bool;               (* the signal context is done *)
  p_kafka : bool;                (* the transport *)
  p_rec : Loops.Loop;
  p_tested : list Job;           (* Kafka handlers between the test and the select of Submit *)
  p_pool : Pool.Pool
}.

Definition process_start (kafka enabled : bool) (pool : Pool.Pool) : Process :=
  mkProcess Serving false kafka (if enabled then Loops.start_alone (Loops.New Loops.KReconciler) else Loops.New Loops.KReconciler)
    [] (Pool.Start pool).

Inductive step :=
  | Signal                                             (* SIGTERM: ctx is cancelled *)
  | Leave (serve_error : bool)                         (* run's select, then jobReconciler.Stop up to its Wait *)
  | ReconcilerGone                                     (* the Wait returns; workerPool.Stop closes the queue *)
  | PoolGone (timeout : bool)                          (* workerPool.Stop returns *)
  | LoopMove (e : Loops.loop_event)                    (* the reconciler's goroutine, or a wake *)
  | RecSubmit (i : nat) (before now pick : bool) (job : Job)   (* SubmitBlocking in a pass of goroutine i *)
  | KafkaTest (job : Job)                              (* Handle calls Submit: ctx.Err() is nil *)
  | KafkaSelect (k : nat) (now pick : bool)            (* its select *)
  | PoolMove (e : Pool.event).                         (* the dispatcher and the jobs *)

Definition set_pool (pool : Pool.Pool) (p : Process) : Process :=
  mkProcess (p_stage p) (p_signal p) (p_kafka p) (p_rec p) (p_tested p) pool.
Definition set_rec (l : Loops.Loop) (p : Process) : Process :=
  mkProcess (p_stage p) (p_signal p) (p_kafka p) l (p_tested p) (p_pool p).

(** [None] is a crash.  A step that is not possible now changes nothing. *)
Definition after (o : Pool.outcome) (k : Pool.Pool -> Process) (p : Process) : option Process :=
  match o with Pool.Next _ pool => Some (k pool) | Pool.Blocked => Some p | Pool.Crash => None end.

Definition passing (i : nat) (l : Loops.Loop) : bool :=
  match Loops.gos l !! i with Some g => bool_decide (Loops.go_phase g = Loops.Passing) | None => false end.

Definition process_step (e : step) (p : Process) : option Process :=
  match e with
  | Signal =>
      Some (mkProcess (p_stage p) true (p_kafka p) (Loops.cancel_parent (p_rec p)) (p_tested p) (Pool.cancel (p_pool p)))
  | Leave serve_error =>
      if bool_decide (p_stage p = Serving) && (p_signal p || serve_error)
      then Some (mkProcess StoppingReconciler (p_signal p) (p_kafka p) (Loops.Stop (p_rec p)) (p_tested p) (p_pool p))
      else Some p
  | ReconcilerGone =>
      if bool_decide (p_stage p = StoppingReconciler) && Loops.wait_returns (p_rec p)
      then after (Pool.close_jobs (p_pool p))
             (fun pool => mkProcess Draining (p_signal p) (p_kafka p) (p_rec p) (p_tested p) pool) p
      else Some p
  | PoolGone timeout =>
      if bool_decide (p_stage p = Draining) && (timeout || Pool.wait_over (p_pool p))
      then Some (mkProcess Exited (p_signal p) (p_kafka p) (p_rec p) (p_tested p) (p_pool p))
      else Some p
  | LoopMove e =>
      match e with
      | Loops.EvStart | Loops.EvStop | Loops.EvParent => Some p    (* run's own steps *)
      | _ => Some (set_rec (Loops.loop_step (p_rec p) e) p)
      end
  | RecSubmit i before now pick job =>
      if passing i (p_rec p) then after (Pool.SubmitBlocking before now pick job (p_pool p)) (fun pool => set_pool pool p) p
      else Some p
  | KafkaTest job =>
      if p_kafka p && negb (p_signal p)
      then Some (mkProcess (p_stage p) (p_signal p) (p_kafka p) (p_rec p) (p_tested p ++ [job]) (p_pool p)) else Some p
  | KafkaSelect k now pick =>
      match p_tested p !! k with
      | Some job =>
          after (Pool.Submit false (now && p_signal p) pick job (p_pool p))
            (fun pool => mkProcess (p_stage p) (p_signal p) (p_kafka p) (p_rec p) (delete k (p_tested p)) pool) p
      | None => Some p
      end
  | PoolMove e =>
      if Pool.internal e then after (Pool.exec_event e (p_pool p)) (fun pool => set_pool pool p) p else Some p
  end.

Fixpoint process_run (es : list step) (p : Process) : option Process :=
  match es with [] => Some p | e :: es' => match process_step e p with Some p1 => process_run es' p1 | None => None end end.

(** ** The invariant *)

(** Until the pool's Stop the queue is open; from then on the reconciler has no
    goroutine.  Without Kafka there is no other submitter. *)
Record process_ok (p : Process) : Prop := {
  po_loop : Loops.loop_ok (p_rec p);
  po_started : Loops.starting (p_rec p) = false;    (* run's Start is over *)
  po_open : p_stage p = Serving \/ p_stage p = StoppingReconciler -> Pool.closed (p_pool p) = false;
  po_stopped : p_stage p <> Serving -> Loops.cancel_fn (p_rec p) = None;
  po_gone : p_stage p = Draining \/ p_stage p = Exited -> Loops.gos (p_rec p) = ∅;
  po_kafka : p_kafka p = false -> p_tested p = []
}.

Lemma process_start_ok kafka enabled cfg pool : Pool.NewPool cfg = Some pool -> process_ok (process_start kafka enabled pool).
Proof.
  intros Hn. split; cbn [process_start p_rec p_stage p_pool p_kafka p_tested]; try done.
  - destruct enabled; [apply (Loops.loop_run_ok [Loops.EvStart; Loops.EvAdd 0; Loops.EvGo 0])|]; apply Loops.New_loop_ok.
  - by destruct enabled.
  - intros _. unfold Pool.NewPool in Hn. case_match; [done|]. by simplify_eq.
  - intros [H|H]; done.
Qed.

(** Only Stop closes the queue. *)
Lemma send_closed job p p' : Pool.send job p = Pool.Sent p' -> Pool.closed p' = Pool.closed p /\ Pool.closed p = false.
Proof. unfold Pool.send. destruct (Pool.closed p) eqn:Hc; [done|]. repeat case_match; intros [= <-]; cbn; by rewrite ?Hc. Qed.

Lemma internal_closed e b p p' : Pool.internal e = true -> Pool.exec_event e p = Pool.Next b p' -> Pool.closed p' = Pool.closed p.
Proof.
  destruct e; try done; intros _; cbn; unfold Pool.receive, Pool.see_done, Pool.spawn, Pool.finish;
    repeat case_match; intros [= _ <-]; done.
Qed.

Lemma internal_no_crash e p : Pool.internal e = true -> Pool.exec_event e p <> Pool.Crash.
Proof.
  destruct e; try done; intros _; cbn; unfold Pool.receive, Pool.see_done, Pool.spawn, Pool.finish; repeat case_match; done.
Qed.

Lemma submit_closed before now pick job p :
  match Pool.Submit before now pick job p with
  | Pool.Next _ p' => Pool.closed p' = Pool.closed p
  | Pool.Blocked => True
  | Pool.Crash => Pool.closed p = true
  end.
Proof.
  unfold Pool.Submit. repeat case_match; simplify_eq; try done.
  - by eapply send_closed.
  - unfold Pool.send in *. repeat case_match; done.
Qed.

Lemma submit_blocking_closed before now pick job p :
  match Pool.SubmitBlocking before now pick job p with
  | Pool.Next _ p' => Pool.closed p' = Pool.closed p
  | Pool.Blocked => True
  | Pool.Crash => Pool.closed p = true
  end.
Proof.
  unfold Pool.SubmitBlocking. repeat case_match; simplify_eq; try done.
  - by eapply send_closed.
  - unfold Pool.send in *. repeat case_match; done.
Qed.

Lemma set_pool_ok pool p : process_ok p -> Pool.closed pool = Pool.closed (p_pool p) -> process_ok (set_pool pool p).
Proof. intros [H1 H1' H2 H3 H4 H5] Hc. split; cbn; try done. by rewrite Hc. Qed.

(** A step that does not crash keeps the invariant, and without Kafka none
    does. *)
Lemma process_step_ok e p p' : process_ok p -> process_step e p = Some p' -> process_ok p'.
Proof.
  intros Hok. pose proof Hok as [Hl Hin Ho Hs Hg Hk]. destruct e as [|serve| |timeout|ev|i b n k job|job|k n pk|ev]; cbn [process_step].
  - intros [= <-]. split; cbn; try done; [apply (Loops.loop_step_ok _ Loops.EvParent Hl)|by apply (Loops.starting_step _ Loops.EvParent)|]. intros Hst. by rewrite (Hg Hst), fmap_empty.
  - destruct (bool_decide_reflect (p_stage p = Serving)) as [Est|]; cbn; [|by intros [= <-]]. case_match; intros [= <-]; [|done].
    destruct (Loops.Stop_ok _ Hl) as [Hc Hl']. split; cbn; auto; [by apply (Loops.starting_step _ Loops.EvStop)|]. intros [?|?]; done.
  - destruct (bool_decide_reflect (p_stage p = StoppingReconciler)) as [Est|]; cbn; [|by intros [= <-]].
    destruct (Loops.wait_returns (p_rec p)) eqn:Hw; [|by intros [= <-]]. unfold after, Pool.close_jobs.
    destruct (Pool.closed (p_pool p)) eqn:Hc; [done|]. intros [= <-]. split; cbn; auto; [intros [?|?]; done| |].
    + intros _. apply Hs. by rewrite Est.
    + intros _. by apply Loops.counted_none.
  - destruct (bool_decide_reflect (p_stage p = Draining)) as [Est|]; cbn; [|by intros [= <-]].
    case_match; intros [= <-]; [|done]. split; cbn; auto; [intros [?|?]; done|]. intros _. apply Hs. by rewrite Est.
  - assert (Hm : ev <> Loops.EvStart -> process_ok (set_rec (Loops.loop_step (p_rec p) ev) p)).
    { intros Hne. split; cbn; try done; [by apply Loops.loop_step_ok|by apply Loops.starting_step| |].
      - intros Hst. by apply (Loops.stopped_step _ _ Hne (Hs Hst)).
      - intros Hst. assert (Hc : Loops.cancel_fn (p_rec p) = None) by (apply Hs; destruct Hst as [-> | ->]; done).
        destruct (Loops.stopped_step _ _ Hne Hc) as [_ Hd]. rewrite (Hg Hst), dom_empty_L in Hd.
        apply dom_empty_inv_L. set_solver. }
    destruct ev; intros [= <-]; try done; by apply Hm.
  - case_match; [|by intros [= <-]]. pose proof (submit_blocking_closed b n k job (p_pool p)) as Hc. unfold after.
    destruct (Pool.SubmitBlocking _ _ _ _ _); intros [= <-]; [by apply set_pool_ok|done].
  - destruct (p_kafka p && negb (p_signal p)) eqn:E; intros [= <-]; [|done]. split; cbn; try done.
    intros Hf. by rewrite Hf in E.
  - destruct (p_tested p !! k) as [job|] eqn:E; [|by intros [= <-]]. pose proof (submit_closed false (n && p_signal p) pk job (p_pool p)) as Hc.
    unfold after. destruct (Pool.Submit _ _ _ _ _); intros [= <-]; [|done]. split; cbn; try done.
    + by rewrite Hc.
    + intros Hf. by rewrite (Hk Hf) in E.
  - case_match; [|by intros [= <-]]. unfold after. destruct (Pool.exec_event ev (p_pool p)) eqn:E; intros [= <-]; [|done].
    apply set_pool_ok; [done|]. by eapply internal_closed.
Qed.

Lemma process_step_safe e p : process_ok p -> p_kafka p = false -> exists p', process_step e p = Some p' /\ p_kafka p' = false.
Proof.
  intros [Hl Hin Ho Hs Hg Hk] Hf. destruct e as [|serve| |timeout|ev|i b n k job|job|k n pk|ev]; cbn [process_step]; unfold after.
  - by eexists.
  - case_match; by eexists.
  - destruct (bool_decide_reflect (p_stage p = StoppingReconciler)) as [Est|]; cbn; [|by eexists]. case_match; [|by eexists].
    unfold Pool.close_jobs. rewrite Ho by auto. by eexists.
  - case_match; by eexists.
  - destruct ev; by eexists.
  - destruct (passing i (p_rec p)) eqn:Hp; [|by eexists].
    assert (Hopen : Pool.closed (p_pool p) = false).
    { apply Ho. unfold passing in Hp. destruct (p_stage p) eqn:Est; auto; rewrite Hg in Hp by auto; by rewrite lookup_empty in Hp. }
    pose proof (submit_blocking_closed b n k job (p_pool p)) as Hc. destruct (Pool.SubmitBlocking _ _ _ _ _); [by eexists|by eexists|congruence].
  - rewrite Hf. by eexists.
  - rewrite (Hk Hf). by eexists.
  - case_match eqn:Hi; [|by eexists]. pose proof (internal_no_crash ev (p_pool p) Hi). destruct (Pool.exec_event ev (p_pool p)); [by eexists|by eexists|done].
Qed.

Lemma process_run_ok es p p' : process_ok p -> process_run es p = Some p' -> process_ok p'.
Proof.
  revert p. induction es as [|e es IH]; intros p Hok; cbn; [by intros [= <-]|].
  destruct (process_step e p) as [p1|] eqn:E; [|done]. apply IH. by eapply process_step_ok.
Qed.

Lemma process_run_safe es p : process_ok p -> p_kafka p = false -> exists p', process_run es p = Some p'.
Proof.
  revert p. induction es as [|e es IH]; intros p Hok Hf; cbn; [by eexists|].
  destruct (process_step_safe e p Hok Hf) as (p1 & Hp1 & Hf1). rewrite Hp1. apply IH; [by eapply process_step_ok|done].
Qed.

(** The goroutines a Stop left, one after the other, see their contexts done. *)
Lemma reconciler_leaves p : process_ok p -> p_stage p = StoppingReconciler ->
  exists es p', process_run es p = Some p' /\ p_stage p' = StoppingReconciler /\ Loops.gos (p_rec p') = ∅ /\ process_ok p'.
Proof.
  intros Hok Hst. remember (size (Loops.gos (p_rec p))) as n eqn:En. revert p Hok Hst En.
  induction n as [n IH] using lt_wf_ind. intros p Hok Hst ->. destruct (decide (Loops.gos (p_rec p) = ∅)) as [E|E].
  { exists [], p. done. }
  apply map_choose in E as (i & g & Hi). pose proof Hok as [Hl Hin Ho Hs Hg Hk].
  assert (Hd : Loops.ctx_done g = true).
  { destruct (Loops.ctx_done g) eqn:Ed; [done|]. assert (Hlive : Loops.live_go (p_rec p) i) by (by exists g).
    apply (Loops.go_live _ Hl) in Hlive. rewrite Hs in Hlive by (by rewrite Hst). done. }
  set (p1 := set_rec (Loops.loop_run [Loops.EvAdd i; Loops.EvGo i; Loops.EvPassEnd i; Loops.EvDone i] (p_rec p)) p).
  assert (Hrun : process_run (LoopMove <$> [Loops.EvAdd i; Loops.EvGo i; Loops.EvPassEnd i; Loops.EvDone i]) p = Some p1) by done.
  pose proof (process_run_ok _ _ _ Hok Hrun) as Hok1.
  assert (Hgos : Loops.gos (p_rec p1) = delete i (Loops.gos (p_rec p))) by (by apply (Loops.done_goroutine_leaves _ _ g)).
  destruct (IH (size (Loops.gos (p_rec p1)))) with (p := p1) as (es & p' & Hes & ? & ? & ?); [|done|done|done|].
  - rewrite Hgos, map_size_delete_Some by eauto. assert (size (Loops.gos (p_rec p)) <> 0%nat) by (apply map_size_ne_0_lookup; eauto). lia.
  - exists ((LoopMove <$> [Loops.EvAdd i; Loops.EvGo i; Loops.EvPassEnd i; Loops.EvDone i]) ++ es), p'. done.
Qed.

(** C21. With the Postgres transport the process cannot crash on its way
    out: whatever the signal, the server, the reconciler's goroutine and the
    pool do and in whichever order, no step panics; and once run has left its
    select it can always go on to its end. *)
Theorem shutdown_safe enabled cfg pool es : Pool.NewPool cfg = Some pool ->
  exists p, process_run es (process_start false enabled pool) = Some p /\
    (p_stage p <> Serving -> exists es' p', process_run es' p = Some p' /\ p_stage p' = Exited).
Proof.
  intros Hn. pose proof (process_start_ok false enabled cfg pool Hn) as Hok.
  destruct (process_run_safe es _ Hok eq_refl) as [p Hp]. exists p. split; [done|].
  pose proof (process_run_ok _ _ _ Hok Hp) as Hok'. intros Hst.
  assert (Hend : forall q, p_stage q = Draining -> exists q', process_run [PoolGone true] q = Some q' /\ p_stage q' = Exited).
  { intros q Hq. cbn. rewrite bool_decide_eq_true_2 by done. by eexists. }
  destruct (p_stage p) eqn:Est; [done| | |by exists [], p].
  - destruct (reconciler_leaves p Hok' Est) as (es1 & p1 & H1 & Hst1 & Hg1 & Hok1).
    assert (H2 : exists p2, process_run [ReconcilerGone] p1 = Some p2 /\ p_stage p2 = Draining).
    { cbn. rewrite bool_decide_eq_true_2 by done. unfold Loops.wait_returns. rewrite Hg1, bool_decide_eq_true_2 by apply map_Forall_empty. cbn.
      unfold Pool.close_jobs. rewrite (po_open _ Hok1) by auto. cbn. by eexists. }
    destruct H2 as (p2 & H2 & Hst2). destruct (Hend p2 Hst2) as (p3 & H3 & Hst3).
    exists (es1 ++ [ReconcilerGone] ++ [PoolGone true]), p3. split; [|done].
    assert (Happ : forall l1 l2 q, process_run (l1 ++ l2) q = match process_run l1 q with Some q1 => process_run l2 q1 | None => None end).
    { clear. induction l1 as [|e l1 IH]; intros l2 q; [done|]. cbn. by destruct (process_step e q). }
    by rewrite Happ, H1, Happ, H2.
  - destruct (Hend p Est) as (p' & Hp' & Hst'). by exists [PoolGone true], p'.
Qed.

Lemma shutdown_safe_witness :
  exists p, process_run [RecSubmit 0 false false false (Pool.a_job "a"); Signal; Leave false; LoopMove (Loops.EvPassEnd 0);
                         LoopMove (Loops.EvDone 0); ReconcilerGone; RecSubmit 0 false false false (Pool.a_job "b")]
              (process_start false true Pool.small_pool) = Some p /\
    (p_stage p <> Serving -> exists es' p', process_run es' p = Some p' /\ p_stage p' = Exited).
Proof. apply (shutdown_safe true (Pool.mkPoolConfig 1 2 0)). reflexivity. Defined.

(** With the Kafka transport it can: run does not wait for the consumer, and
    when Serve fails the context its handlers submit with is not even
    cancelled.  After a signal a handler that passed the test before it can
    still meet the closed queue in its select. *)
Theorem shutdown_kafka_panics :
  process_run [Leave true; LoopMove (Loops.EvPassEnd 0); LoopMove (Loops.EvDone 0); ReconcilerGone;
               KafkaTest (Pool.a_job "a"); KafkaSelect 0 false false] (process_start true true Pool.small_pool) = None /\
  process_run [KafkaTest (Pool.a_job "a"); Signal; Leave false; LoopMove (Loops.EvPassEnd 0); LoopMove (Loops.EvDone 0); ReconcilerGone;
               KafkaSelect 0 true false] (process_start true true Pool.small_pool) = None.
Proof. split; reflexivity. Qed.
